(** * The SCI segment manager (engines/sci/engine/seg_manager.cpp)

    A shallow embedding of [SegManager]: the segment directory ([_heap]),
    the tagged-pointer dereference protocol, the copy primitives that work
    across byte storage and cell storage, and the script life cycle with its
    locker counts.

    Host memory is a store of blocks; a host pointer is a block and an index
    into it.  A block holds bytes or [reg_t] cells.  An access outside the
    block a pointer addresses is undefined behaviour in the source and is the
    outcome [MemoryFault] here.  [error(...)] and failed assertions are the
    outcome [Fatal]; [warning(...)] appends to the manager's diagnostics. *)

From stdpp Require Import base numbers list gmap strings.

Local Open Scope Z_scope.

(** ** Values of the virtual machine *)

(** [typedef uint16 SegmentId]. *)
Abbreviation SegmentId := Z (only parsing).

(** Modelled from the spec: the tagged pointer [reg_t] (vm_types.h is not
    among the files verified here): "a pair (segmentId: u16, offset: u16);
    segmentId == 0 denotes the null pointer".  [getSegment] and [getOffset]
    are the two values as the accessors of the pointer hand them to the
    segment manager. *)
Record reg_t := make_reg { getSegment : SegmentId; getOffset : Z }.

Definition NULL_REG : reg_t := make_reg 0 0.

Definition isNull (r : reg_t) : bool := getSegment r =? 0.

Definition uint16 (z : Z) : Z := z mod 65536.
Definition uint32 (z : Z) : Z := z mod 4294967296.

(** Conversion of a 32-bit [size_t] or [uint] to [int]. *)
Definition to_int (z : Z) : Z :=
  let u := uint32 z in if u <? 2147483648 then u else u - 4294967296.

(** Conversion of a [uint16] to [int16]. *)
Definition to_int16 (z : Z) : Z :=
  let u := uint16 z in if u <? 32768 then u else u - 65536.

(** Conversion to [byte] and to the bit pattern of a [char]. *)
Definition to_byte (z : Z) : Z := Z.land z 255.

Definition setSegment (r : reg_t) (s : SegmentId) : reg_t := make_reg s (getOffset r).
Definition setOffset (r : reg_t) (o : Z) : reg_t := make_reg (getSegment r) o.
Definition incOffset (r : reg_t) (d : Z) : reg_t := make_reg (getSegment r) (uint16 (getOffset r + d)).

(** ** Host memory *)

Inductive Block :=
| Bytes (bs : list Z)
| Cells (rs : list reg_t).

(** A host pointer: block and index. *)
Definition addr := (nat * Z)%type.

Definition addr_add (p : addr) (d : Z) : addr := (p.1, p.2 + d).

(** A [const char *] or [const byte *] argument: a pointer into host memory,
    or a constant array of the program text such as the literal [""]. *)
Inductive BytePtr :=
| InMem (p : addr)
| InConst (s : list Z) (i : Z).

Definition byteptr_add (p : BytePtr) (d : Z) : BytePtr :=
  match p with
  | InMem a => InMem (addr_add a d)
  | InConst s i => InConst s (i + d)
  end.

(** The bytes of a C string literal, terminator included. *)
Definition literal (s : list Z) : BytePtr := InConst (s ++ [0]) 0.

Definition lookupZ {A} (l : list A) (i : Z) : option A :=
  if i <? 0 then None else l !! Z.to_nat i.

Definition insertZ {A} (l : list A) (i : Z) (x : A) : option (list A) :=
  if (0 <=? i) && (i <? Z.of_nat (length l)) then Some (<[Z.to_nat i := x]> l) else None.

Definition load_byte (m : list Block) (p : addr) : option Z :=
  match m !! p.1 with
  | Some (Bytes bs) => lookupZ bs p.2
  | _ => None
  end.

Definition store_byte (m : list Block) (p : addr) (b : Z) : option (list Block) :=
  match m !! p.1 with
  | Some (Bytes bs) => bs' ← insertZ bs p.2 b; Some (<[p.1 := Bytes bs']> m)
  | _ => None
  end.

Definition load_cell (m : list Block) (p : addr) : option reg_t :=
  match m !! p.1 with
  | Some (Cells rs) => lookupZ rs p.2
  | _ => None
  end.

Definition store_cell (m : list Block) (p : addr) (r : reg_t) : option (list Block) :=
  match m !! p.1 with
  | Some (Cells rs) => rs' ← insertZ rs p.2 r; Some (<[p.1 := Cells rs']> m)
  | _ => None
  end.

(** ** Segments *)

(** Modelled from the spec: [SegmentRef] (segment.h is not among
    the files verified here): "a discriminator isRaw, a pointer/slice to the
    underlying storage, a maxSize bound, and a skipByte flag; a view is
    invalid (and carries no pointer) when the offset is out of range".
    [raw] and [reg] are the two members of one union. *)
Record SegmentRef := mkSegmentRef {
  isRaw : bool;
  raw : option addr;
  maxSize : Z;
  skipByte : bool
}.

Definition reg (r : SegmentRef) : option addr := raw r.

(** The default-constructed view. *)
Definition SegmentRef_default : SegmentRef :=
  {| isRaw := true; raw := None; maxSize := 0; skipByte := false |}.

Definition isValid (r : SegmentRef) : bool :=
  match raw r with Some _ => true | None => false end.

Inductive SegmentType :=
| SEG_TYPE_INVALID | SEG_TYPE_SCRIPT | SEG_TYPE_CLONES | SEG_TYPE_LOCALS
| SEG_TYPE_STACK | SEG_TYPE_LISTS | SEG_TYPE_NODES | SEG_TYPE_HUNK
| SEG_TYPE_DYNMEM | SEG_TYPE_ARRAY | SEG_TYPE_BITMAP.

Global Instance SegmentType_eq_dec : EqDecision SegmentType.
Proof. solve_decision. Defined.

(** Modelled from the spec: the script segment (script.h is not among
    the files verified here): "raw bytecode buffer, ..., a locker count (non-negative
    integer reference count), a marked-deleted flag, and the owning locals
    segment identifier". *)
Record Script := mkScript {
  _nr : Z;
  _buf : option nat;
  _lockers : Z;
  _markedAsDeleted : bool;
  _localsSegment : SegmentId
}.

(** A segment object: a [Script], or one of the other subclasses of
    [SegmentObj] seen through its type tag.  [dereference] is the virtual
    method of the class; every subclass resolves an offset its own way. *)
Inductive SegmentObj :=
| ScriptObj (deref : reg_t → SegmentRef) (scr : Script)
| DataObj (ty : SegmentType) (deref : reg_t → SegmentRef).

Definition getType (o : SegmentObj) : SegmentType :=
  match o with
  | ScriptObj _ _ => SEG_TYPE_SCRIPT
  | DataObj ty _ => ty
  end.

Definition SegmentObj_dereference (o : SegmentObj) : reg_t → SegmentRef :=
  match o with
  | ScriptObj d _ => d
  | DataObj _ d => d
  end.

(** Modelled from the spec: an entry of the class table, "classNumber ->
    (ownerScriptNumber, resolvedAddress)"; [struct Class { int script;
    reg_t reg; }]. *)
Record Class := mkClass { script : Z; class_reg : reg_t }.

(** ** The segment manager and its effects *)

Record SegManager := mkSegManager {
  _heap : list (option SegmentObj);
  _scriptSegMap : gmap Z SegmentId;
  _classTable : list Class;
  memory : list Block;
  warnings : list string
}.

Inductive Error :=
| Fatal (msg : string)
| MemoryFault
| OutOfFuel.

Inductive Res (A : Type) :=
| Ok (a : A) (sm : SegManager)
| Err (e : Error).
Arguments Ok {A} a sm.
Arguments Err {A} e.

Definition M (A : Type) := SegManager → Res A.

Definition ret {A} (a : A) : M A := fun sm => Ok a sm.

Definition bind {A B} (m : M A) (f : A → M B) : M B :=
  fun sm => match m sm with
            | Ok a sm' => f a sm'
            | Err e => Err e
            end.

Declare Scope sm_scope.
Delimit Scope sm_scope with sm.
Notation "x <- c1 ;; c2" := (bind c1 (fun x => c2))
  (at level 100, c1 at next level, right associativity) : sm_scope.
Notation "c1 ;; c2" := (bind c1 (fun _ => c2))
  (at level 100, right associativity) : sm_scope.
Local Open Scope sm_scope.

Definition error {A} (msg : string) : M A := fun _ => Err (Fatal msg).
Definition fault {A} : M A := fun _ => Err MemoryFault.
Definition out_of_fuel {A} : M A := fun _ => Err OutOfFuel.

Definition warning (msg : string) : M unit :=
  fun sm => Ok tt (mkSegManager (_heap sm) (_scriptSegMap sm) (_classTable sm)
                                (memory sm) (warnings sm ++ [msg])).

Definition get : M SegManager := fun sm => Ok sm sm.

Definition set_heap (h : list (option SegmentObj)) : M unit :=
  fun sm => Ok tt (mkSegManager h (_scriptSegMap sm) (_classTable sm) (memory sm) (warnings sm)).

Definition set_scriptSegMap (m : gmap Z SegmentId) : M unit :=
  fun sm => Ok tt (mkSegManager (_heap sm) m (_classTable sm) (memory sm) (warnings sm)).

Definition set_classTable (c : list Class) : M unit :=
  fun sm => Ok tt (mkSegManager (_heap sm) (_scriptSegMap sm) c (memory sm) (warnings sm)).

Definition set_memory (m : list Block) : M unit :=
  fun sm => Ok tt (mkSegManager (_heap sm) (_scriptSegMap sm) (_classTable sm) m (warnings sm)).

Definition when (b : bool) (m : M unit) : M unit := if b then m else ret tt.

(** Reads and writes through host pointers. *)
Definition read_byte (p : BytePtr) : M Z :=
  match p with
  | InMem a => fun sm => match load_byte (memory sm) a with
                         | Some b => Ok b sm
                         | None => Err MemoryFault
                         end
  | InConst s i => match lookupZ s i with
                   | Some b => ret b
                   | None => fault
                   end
  end.

Definition write_byte (p : option addr) (i : Z) (b : Z) : M unit :=
  match p with
  | Some a => fun sm => match store_byte (memory sm) (addr_add a i) b with
                        | Some m' => set_memory m' sm
                        | None => Err MemoryFault
                        end
  | None => fault
  end.

Definition read_cell (p : option addr) (i : Z) : M reg_t :=
  match p with
  | Some a => fun sm => match load_cell (memory sm) (addr_add a i) with
                        | Some r => Ok r sm
                        | None => Err MemoryFault
                        end
  | None => fault
  end.

Definition write_cell (p : option addr) (i : Z) (r : reg_t) : M unit :=
  match p with
  | Some a => fun sm => match store_cell (memory sm) (addr_add a i) r with
                        | Some m' => set_memory m' sm
                        | None => Err MemoryFault
                        end
  | None => fault
  end.

(** The raw pointer of a view as a [const byte *]. *)
Definition raw_ptr (p : option addr) : M BytePtr :=
  match p with
  | Some a => ret (InMem a)
  | None => fault
  end.

(** ** Counted loops

    [for (uint i = 0; i < n; i++) { body; if (...) break; }] and
    [while (n) { --n; body; if (...) break; }]: the body is run at the
    indices [i], [i + 1], ... on the value the loop builds up, and answers
    whether the loop is left.  The result tells whether the loop was left
    early, how many times the body ran, and the value built.  [for_nat] is
    the loop read off the source; [for_pos] runs the same loop by halving the
    count, so that a count such as [0xFFFFFFFF] can be evaluated;
    [for_pos_unary] relates the two. *)

Fixpoint for_nat {A} (k : nat) (body : Z → A → M (bool * A)) (i : Z) (a : A)
  : M (bool * Z * A) :=
  match k with
  | O => ret (false, i, a)
  | S k' => r <- body i a;;
            if r.1 then ret (true, i + 1, r.2) else for_nat k' body (i + 1) r.2
  end.

Fixpoint for_pos {A} (p : positive) (body : Z → A → M (bool * A)) (i : Z) (a : A)
  : M (bool * Z * A) :=
  match p with
  | xH => r <- body i a;; ret (r.1, i + 1, r.2)
  | xO q => r <- for_pos q body i a;;
            if r.1.1 then ret r else for_pos q body r.1.2 r.2
  | xI q => r0 <- body i a;;
            if r0.1 then ret (true, i + 1, r0.2) else
            r <- for_pos q body (i + 1) r0.2;;
            if r.1.1 then ret r else for_pos q body r.1.2 r.2
  end.

Definition for_upto {A} (n : Z) (body : Z → A → M (bool * A)) (a : A)
  : M (bool * Z * A) :=
  match n with
  | Zpos p => for_pos p body 0 a
  | _ => ret (false, 0, a)
  end.

(** A loop body that builds no value. *)
Definition step (m : M bool) : M (bool * unit) := b <- m;; ret (b, tt).

(** ** Configuration

    What seg_manager.cpp uses and other files define: the interpreter version
    and the version constants it is compared with (sci.h), the byte order of
    the host ([g_sci->isBE()]), the script block types and the magic offset
    of an object record (script.h), the 16-bit read of script data (util.h),
    and the script loader with the initialisation passes of a loaded script
    (script.cpp).  They are parameters of the embedding. *)

Record Env := mkEnv {
  getSciVersion : Z;
  SCI_VERSION_0_EARLY : Z;
  SCI_VERSION_1_1 : Z;
  SCI_VERSION_2_1_LATE : Z;
  isBE : bool;
  SCI_OBJ_OBJECT : Z;
  SCI_OBJ_CLASS : Z;
  SCRIPT_OBJECT_MAGIC_OFFSET : Z;
  READ_SCI11ENDIAN_UINT16 : Z → Z → Z;
  scriptResource : Z → option (list Z);
  scriptDereference : nat → list Z → reg_t → SegmentRef;
  initializeLocals : Z → SegmentId → M unit;
  initializeClasses : Z → SegmentId → M unit;
  initializeObjects : Z → SegmentId → M unit;
  instantiateScriptHook : Z → SegmentId → M unit
}.

(** ** The segment directory *)

Definition heap_size (sm : SegManager) : Z := Z.of_nat (length (_heap sm)).

(** [_heap[i]]: [Common::Array::operator[]] asserts that the index is in
    range. *)
Definition heap_at (i : Z) : M (option SegmentObj) :=
  fun sm => match lookupZ (_heap sm) i with
            | Some o => Ok o sm
            | None => Err (Fatal "assert(idx < _size)")
            end.

Definition heap_put (i : Z) (o : option SegmentObj) : M unit :=
  fun sm => match insertZ (_heap sm) i o with
            | Some h => set_heap h sm
            | None => Err (Fatal "assert(idx < _size)")
            end.

Fixpoint scan_free (slots : list (option SegmentObj)) (seg : Z) : Z :=
  match slots with
  | Some _ :: rest => scan_free rest (seg + 1)
  | _ => seg
  end.

Definition findFreeSegment : M SegmentId :=
  sm <- get;;
  let seg := scan_free (drop 1 (_heap sm)) 1 in
  if seg <? 65536 then ret seg else error "assert(seg < 65536)".

(** [allocSegment(mem, &segid)]: the identifier written through [segid] is
    the result. *)
Definition allocSegment (mem : option SegmentObj) : M SegmentId :=
  id <- findFreeSegment;;
  match mem with
  | None => error "SegManager: invalid mobj"
  | Some o =>
      sm <- get;;
      (if heap_size sm <=? id then
         if id =? heap_size sm then set_heap (_heap sm ++ [None])
         else error "assert(id == (int)_heap.size())"
       else ret tt);;
      heap_put id (Some o);;
      ret id
  end.

Section WithEnv.
Context (env : Env).

Definition getActualSegment (seg : SegmentId) : SegmentId :=
  if getSciVersion env <=? SCI_VERSION_2_1_LATE env then seg
  else Z.land seg 16383.

Definition scriptSegMap_erase (nr : Z) : M unit :=
  sm <- get;; set_scriptSegMap (delete nr (_scriptSegMap sm)).

(** [deallocate] calls itself on the locals segment of a script; [fuel]
    bounds the depth of that recursion. *)
Fixpoint deallocate (fuel : nat) (seg : SegmentId) : M unit :=
  match fuel with
  | O => out_of_fuel
  | S fuel' =>
      let actualSegment := getActualSegment seg in
      sm <- get;;
      if (actualSegment <? 1) || (heap_size sm <=? actualSegment)
      then error "Attempt to deallocate an invalid segment ID" else
      mobj <- heap_at actualSegment;;
      match mobj with
      | None => error "Attempt to deallocate an already freed segment"
      | Some o =>
          match o with
          | ScriptObj _ scr =>
              scriptSegMap_erase (_nr scr);;
              if negb (_localsSegment scr =? 0) then
                l <- heap_at (_localsSegment scr);;
                match l with
                | Some _ => deallocate fuel' (_localsSegment scr)
                | None => ret tt
                end
              else ret tt
          | DataObj _ _ => ret tt
          end;;
          heap_put actualSegment None
      end
  end.

(** A [Script *] or [SegmentObj *] into the directory is the slot it points
    to. *)
Definition getScript (seg : SegmentId) : M Z :=
  let actualSegment := getActualSegment seg in
  sm <- get;;
  if (actualSegment <? 1) || (heap_size sm <=? actualSegment)
  then error "SegManager::getScript(): seg id out of bounds" else
  o <- heap_at actualSegment;;
  match o with
  | None => error "SegManager::getScript(): seg id is not in memory"
  | Some o =>
      if decide (getType o = SEG_TYPE_SCRIPT) then ret actualSegment
      else error "SegManager::getScript(): seg id refers to type != SEG_TYPE_SCRIPT"
  end.

Definition slot_of (sm : SegManager) (i : Z) : option SegmentObj :=
  match lookupZ (_heap sm) i with
  | Some o => o
  | None => None
  end.

Definition getScriptIfLoaded (sm : SegManager) (seg : SegmentId) : option Z :=
  let actualSegment := getActualSegment seg in
  if (actualSegment <? 1) || (heap_size sm <=? actualSegment) then None else
  match slot_of sm actualSegment with
  | Some o => if decide (getType o = SEG_TYPE_SCRIPT) then Some actualSegment else None
  | None => None
  end.

Definition getSegmentObj (sm : SegManager) (seg : SegmentId) : option SegmentObj :=
  let actualSegment := getActualSegment seg in
  if (actualSegment <? 1) || (heap_size sm <=? actualSegment) then None
  else slot_of sm actualSegment.

Definition getSegmentType (sm : SegManager) (seg : SegmentId) : SegmentType :=
  let actualSegment := getActualSegment seg in
  if (actualSegment <? 1) || (heap_size sm <=? actualSegment) then SEG_TYPE_INVALID else
  match slot_of sm actualSegment with
  | Some o => getType o
  | None => SEG_TYPE_INVALID
  end.

(** [getSegment] indexes [_heap] whenever the type matched.  For every type
    but [SEG_TYPE_INVALID] a match means that the slot is in range and holds
    a segment.  Asked for [SEG_TYPE_INVALID], an identifier whose slot is
    empty (slot 0 included) is answered with the null pointer of that slot,
    and an identifier at or past the end of the directory stops at the
    assertion of the array's subscript. *)
Definition SegManager_getSegment (seg : SegmentId) (type : SegmentType)
  : M (option SegmentObj) :=
  let actualSegment := getActualSegment seg in
  sm <- get;;
  if decide (getSegmentType sm actualSegment = type) then heap_at actualSegment
  else ret None.

Definition getScriptSegment (sm : SegManager) (script_id : Z) : SegmentId :=
  default 0 (_scriptSegMap sm !! script_id).

(** ** Dereference *)

(** Modelled from the spec: the pointer whose segment word is [word], as
    the functions that take a pointer see it ([reg_t::getSegment];
    vm_types.cpp is not among the files verified here).  "Identifiers may
    encode extra high bits alongside the true slot index ...; the Directory
    must mask to the low 14 bits when operating in that generation,
    otherwise use the identifier unmodified.  This masking must be applied
    consistently at every lookup, deallocate, and dereference entry point."
    [dereference], [freeDynmem], [lookupList] and [lookupNode] call no
    [getActualSegment] on the segment of their pointer: they index [_heap]
    with [pointer.getSegment()] as it comes. *)
Definition pointer_at (word : SegmentId) (offset : Z) : reg_t :=
  make_reg (getActualSegment word) offset.

Definition dereference (pointer : reg_t) : M SegmentRef :=
  sm <- get;;
  if (getSegment pointer =? 0) || (heap_size sm <=? getSegment pointer)
  then
    warning "SegManager::dereference(): Attempt to dereference invalid pointer";;
    ret SegmentRef_default
  else
    o <- heap_at (getSegment pointer);;
    match o with
    | None =>
        warning "SegManager::dereference(): Attempt to dereference invalid pointer";;
        ret SegmentRef_default
    | Some mobj => ret (SegmentObj_dereference mobj pointer)
    end.

(** [derefPtr]: [None] is the null pointer. *)
Definition derefPtr (pointer : reg_t) (entries : Z) (wantRaw : bool) : M (option addr) :=
  r <- dereference pointer;;
  if negb (isValid r) then ret None else
  when (negb (eqb (isRaw r) wantRaw))
       (warning "Dereferencing pointer which is raw/not raw, but expected otherwise");;
  if negb wantRaw && skipByte r then
    warning "Unaligned pointer read: expected with word alignment";;
    ret None
  else if maxSize r <? entries then
    warning "Trying to dereference pointer beyond end of segment";;
    ret None
  else if isRaw r then ret (raw r) else ret (reg r).

Definition derefBulkPtr (pointer : reg_t) (entries : Z) : M (option addr) :=
  derefPtr pointer entries true.

(** [2*entries] is computed in [int]. *)
Definition derefRegPtr (pointer : reg_t) (entries : Z) : M (option addr) :=
  derefPtr pointer (to_int (2 * entries)) false.

Definition derefString (pointer : reg_t) (entries : Z) : M (option addr) :=
  derefPtr pointer entries true.

End WithEnv.

Section WithEnv.
Context (env : Env).

(** ** Characters in cell storage *)

Definition getChar (ref : SegmentRef) (offset : Z) : M Z :=
  let offset := if skipByte ref then uint32 (offset + 1) else offset in
  val <- read_cell (reg ref) (offset / 2);;
  when (negb (getSegment val =? 0))
       (when (negb ((getSegment val =? 65535) && (1 <? offset)))
             (warning "Attempt to read character from non-raw data"));;
  let oddOffset := Z.odd offset in
  let oddOffset := if isBE env then negb oddOffset else oddOffset in
  ret (to_byte (if oddOffset then Z.shiftr (getOffset val) 8
                else Z.land (getOffset val) 255)).

Definition setChar (ref : SegmentRef) (offset : Z) (value : Z) : M unit :=
  let value := to_byte value in
  let offset := if skipByte ref then uint32 (offset + 1) else offset in
  val <- read_cell (reg ref) (offset / 2);;
  let val := setSegment val 0 in
  let oddOffset := Z.odd offset in
  let oddOffset := if isBE env then negb oddOffset else oddOffset in
  write_cell (reg ref) (offset / 2)
    (if oddOffset
     then setOffset val (Z.lor (Z.land (getOffset val) 255) (Z.shiftl value 8))
     else setOffset val (Z.lor (Z.land (getOffset val) 65280) value)).

(** ** Copy primitives *)

(** [size_t] is taken 32 bits wide, the width the sentinel [0xFFFFFFFFU]
    is written for. *)
Definition forwardCopy (STRING : bool) (dest : option addr) (src : BytePtr) (n : Z)
  : M unit :=
  let zeroPad := STRING && negb (n =? 4294967295) in
  r <- for_upto n (fun i _ => step (
         b <- read_byte (byteptr_add src i);;
         write_byte dest i b;;
         ret (STRING && (b =? 0)))) tt;;
  if zeroPad then
    for_upto (n - r.1.2) (fun j _ => step (write_byte dest (r.1.2 + j) 0;; ret false)) tt;;
    ret tt
  else ret tt.

(** [strncpy(reg_t dest, const char *src, size_t n)]. *)
Definition strncpy_cstr (dest : reg_t) (src : BytePtr) (n : Z) : M unit :=
  dest_r <- dereference dest;;
  if negb (isValid dest_r) then warning "Attempt to strncpy to invalid pointer" else
  if isRaw dest_r then forwardCopy true (raw dest_r) src n
  else
    for_upto n (fun i _ => step (
      c <- read_byte (byteptr_add src i);;
      setChar dest_r i c;;
      c' <- read_byte (byteptr_add src i);;
      ret (c' =? 0))) tt;;
    if n <? uint32 (maxSize dest_r) then setChar dest_r n 0 else ret tt.

(** [strcpy_(reg_t dest, const char *src)]. *)
Definition strcpy_cstr (dest : reg_t) (src : BytePtr) : M unit :=
  strncpy_cstr dest src 4294967295.

(** [strncpy(reg_t dest, reg_t src, size_t n)]. *)
Definition strncpy (dest src : reg_t) (n : Z) : M unit :=
  if isNull src then
    if 0 <? n then strcpy_cstr dest (literal []) else ret tt
  else
  dest_r <- dereference dest;;
  src_r <- dereference src;;
  if negb (isValid src_r) then
    warning "Attempt to strncpy from invalid pointer";;
    if 0 <? n then strcpy_cstr dest (literal []) else ret tt
  else
  if negb (isValid dest_r) then warning "Attempt to strncpy to invalid pointer" else
  if isRaw src_r then
    p <- raw_ptr (raw src_r);;
    strncpy_cstr dest p n
  else if isRaw dest_r && negb (isRaw src_r) then
    for_upto n (fun i _ => step (
      c <- getChar src_r i;;
      write_byte (raw dest_r) i c;;
      ret (c =? 0))) tt;;
    ret tt
  else
    for_upto n (fun i _ => step (
      c <- getChar src_r i;;
      setChar dest_r i c;;
      ret (c =? 0))) tt;;
    ret tt.

(** [strcpy_(reg_t dest, reg_t src)]. *)
Definition strcpy_ (dest src : reg_t) : M unit :=
  strncpy dest src 4294967295.

(** [memcpy(reg_t dest, const byte *src, size_t n)]. *)
Definition memcpy_from_ptr (dest : reg_t) (src : BytePtr) (n : Z) : M unit :=
  dest_r <- dereference dest;;
  if negb (isValid dest_r) then warning "Attempt to memcpy to invalid pointer" else
  if maxSize dest_r <? to_int n
  then warning "Trying to dereference pointer beyond end of segment" else
  if isRaw dest_r then forwardCopy false (raw dest_r) src n
  else
    for_upto n (fun i _ => step (
      c <- read_byte (byteptr_add src i);;
      setChar dest_r i c;;
      ret false)) tt;;
    ret tt.

(** [memcpy(byte *dest, reg_t src, size_t n)]. *)
Definition memcpy_to_ptr (dest : option addr) (src : reg_t) (n : Z) : M unit :=
  src_r <- dereference src;;
  if negb (isValid src_r) then warning "Attempt to memcpy from invalid pointer" else
  if maxSize src_r <? to_int n
  then warning "Trying to dereference pointer beyond end of segment" else
  if isRaw src_r then
    p <- raw_ptr (raw src_r);;
    forwardCopy false dest p n
  else
    for_upto n (fun i _ => step (
      c <- getChar src_r i;;
      write_byte dest i c;;
      ret false)) tt;;
    ret tt.

(** [memcpy(reg_t dest, reg_t src, size_t n)]. *)
Definition memcpy (dest src : reg_t) (n : Z) : M unit :=
  dest_r <- dereference dest;;
  src_r <- dereference src;;
  if negb (isValid dest_r) then warning "Attempt to memcpy to invalid pointer" else
  if maxSize dest_r <? to_int n
  then warning "Trying to dereference pointer beyond end of segment" else
  if negb (isValid src_r) then warning "Attempt to memcpy from invalid pointer" else
  if maxSize src_r <? to_int n
  then warning "Trying to dereference pointer beyond end of segment" else
  if isRaw src_r then
    p <- raw_ptr (raw src_r);;
    memcpy_from_ptr dest p n
  else if isRaw dest_r then memcpy_to_ptr (raw dest_r) src n
  else
    for_upto n (fun i _ => step (
      c <- getChar src_r i;;
      setChar dest_r i c;;
      ret false)) tt;;
    ret tt.

(** Modelled from the spec: [Common::strnlen] (common/str.cpp is not
    among the files verified here): "on a raw buffer scans up to maxSize (no assumption
    of termination within bounds)".  The count of bytes before the first zero
    byte among the first [maxSize]. *)
Definition strnlen (src : option addr) (maxSize : Z) : M Z :=
  r <- for_upto (uint32 maxSize) (fun i _ => step (
         p <- raw_ptr src;;
         b <- read_byte (byteptr_add p i);;
         ret (b =? 0))) tt;;
  ret (if r.1.1 then r.1.2 - 1 else r.1.2).

(** [Common::String(const char *str, uint32 len)]: the [len] bytes at
    [str]. *)
Definition String_of (src : option addr) (len : Z) : M (list Z) :=
  r <- for_upto len (fun i acc =>
         p <- raw_ptr src;;
         b <- read_byte (byteptr_add p i);;
         ret (false, acc ++ [b])) [];;
  ret r.2.

Definition getString (pointer : reg_t) : M (list Z) :=
  if isNull pointer then ret [] else
  src_r <- dereference pointer;;
  if negb (isValid src_r) then
    warning "SegManager::getString(): Attempt to dereference invalid pointer";;
    ret []
  else
  if isRaw src_r then
    size <- strnlen (raw src_r) (maxSize src_r);;
    String_of (raw src_r) size
  else
    r <- for_upto (uint32 (maxSize src_r)) (fun i acc =>
           c <- getChar src_r i;;
           if c =? 0 then ret (true, acc) else ret (false, acc ++ [c])) [];;
    ret r.2.

End WithEnv.

Section WithEnv.
Context (env : Env).

(** ** Scripts

    Modelled from the spec: the methods of [Script] (script.cpp is not among
    the files verified here).  "Locker: reference count on a script segment",
    non-negative, so that [decrementLockers] stops at zero; "Unloaded ->
    Loaded(lockers>0) -> MarkedDeleted(lockers==0)", where loading leaves the
    one locker of the instantiation that loads; "loading populates bytecode
    ... from the external resource/loader collaborator". *)

Definition script_at (scr : Z) : M Script :=
  o <- heap_at scr;;
  match o with
  | Some (ScriptObj _ s) => ret s
  | _ => fault
  end.

Definition script_update (scr : Z) (f : Script → Script) : M unit :=
  o <- heap_at scr;;
  match o with
  | Some (ScriptObj d s) => heap_put scr (Some (ScriptObj d (f s)))
  | _ => fault
  end.

(** Modelled from the spec: [Script::getLockers], the "locker count" of the
    script segment. *)
Definition getLockers (scr : Z) : M Z := s <- script_at scr;; ret (_lockers s).

(** Modelled from the spec: [Script::isMarkedAsDeleted], the "marked
    deleted" flag of the script segment. *)
Definition isMarkedAsDeleted (scr : Z) : M bool :=
  s <- script_at scr;; ret (_markedAsDeleted s).

(** Modelled from the spec: [Script::incrementLockers], "increment its
    locker count". *)
Definition incrementLockers (scr : Z) : M unit :=
  script_update scr (fun s =>
    mkScript (_nr s) (_buf s) (_lockers s + 1) (_markedAsDeleted s) (_localsSegment s)).

(** Modelled from the spec: [Script::decrementLockers]; the count is a
    "non-negative integer reference count", so nothing is taken from zero. *)
Definition decrementLockers (scr : Z) : M unit :=
  script_update scr (fun s =>
    mkScript (_nr s) (_buf s) (if 0 <? _lockers s then _lockers s - 1 else _lockers s)
             (_markedAsDeleted s) (_localsSegment s)).

(** Modelled from the spec: [Script::markDeleted], "mark the script
    deleted (its segment remains resolvable ...)". *)
Definition markDeleted (scr : Z) : M unit :=
  script_update scr (fun s =>
    mkScript (_nr s) (_buf s) (_lockers s) true (_localsSegment s)).

(** Modelled from the spec: [new Script()], a script segment with no image
    yet and the one locker of the instantiation that creates it. *)
Definition Script_new : SegmentObj :=
  ScriptObj (fun _ => SegmentRef_default) (mkScript 0 None 1 false 0).

(** Modelled from the spec: [Script::freeScript], "reset it in place"; the
    locals segment is kept on request. *)
Definition freeScript (scr : Z) (keepLocalsSegment : bool) : M unit :=
  s <- script_at scr;;
  heap_put scr (Some (ScriptObj (fun _ => SegmentRef_default)
    (mkScript 0 None 1 false (if keepLocalsSegment then _localsSegment s else 0)))).

(** Modelled from the spec: [Script::load], "loading populates bytecode
    ... from the external resource/loader collaborator"; a script number
    without a resource is a fatal error. *)
Definition Script_load (scr : Z) (scriptNum : Z) : M unit :=
  match scriptResource env scriptNum with
  | None => error "Script not found"
  | Some image =>
      s <- script_at scr;;
      sm <- get;;
      let blk := length (memory sm) in
      set_memory (memory sm ++ [Bytes image]);;
      heap_put scr (Some (ScriptObj (scriptDereference env blk image)
        (mkScript scriptNum (Some blk) 1 false (_localsSegment s))))
  end.

(** [scr->getBuf(offset)] and the 16-bit read at it. *)
Definition read16 (scr : Z) (offset : Z) : M Z :=
  s <- script_at scr;;
  match _buf s with
  | None => fault
  | Some blk =>
      b0 <- read_byte (InMem (blk, offset));;
      b1 <- read_byte (InMem (blk, offset + 1));;
      ret (READ_SCI11ENDIAN_UINT16 env b0 b1)
  end.

(** ** The class table

    Modelled from the spec: the accessors of the class table (seg_manager.h
    is not among the files verified here).  "A fixed-size array ... mapping
    classNumber -> (ownerScriptNumber, resolvedAddress)"; an index outside
    the array stops at the assertion of the array's subscript. *)

Definition classTableSize (sm : SegManager) : Z := Z.of_nat (length (_classTable sm)).

Definition getClass (index : Z) : M Class :=
  fun sm => match lookupZ (_classTable sm) index with
            | Some c => Ok c sm
            | None => Err (Fatal "assert(idx < _size)")
            end.

Definition setClassOffset (index : Z) (offset : reg_t) : M unit :=
  fun sm => match lookupZ (_classTable sm) index with
            | Some c => set_classTable
                          (<[Z.to_nat index := mkClass (script c) offset]> (_classTable sm)) sm
            | None => Err (Fatal "assert(idx < _size)")
            end.

(** [for (i < classTableSize()) if (getClass(i).reg.getSegment() == segmentId)
    setClassOffset(i, NULL_REG)]. *)
Definition freeClassReferences (segmentId : SegmentId) : M unit :=
  sm <- get;;
  set_classTable
    (map (fun c => if getSegment (class_reg c) =? segmentId
                   then mkClass (script c) NULL_REG else c)
         (_classTable sm)).

(** ** Script life cycle *)

Definition allocateScript (script_nr : Z) : M (Z * SegmentId) :=
  sm <- get;;
  let segid := default 0 (_scriptSegMap sm !! script_nr) in
  if 0 <? segid then
    heap_at segid;;
    ret (segid, segid)
  else
    segid <- allocSegment (Some Script_new);;
    sm <- get;;
    set_scriptSegMap (<[script_nr := segid]> (_scriptSegMap sm));;
    ret (segid, segid).

(** [applyScriptPatches] is only handed on to the loader and is left out. *)
Definition instantiateScript (scriptNum : Z) : M SegmentId :=
  sm <- get;;
  let segmentId := getScriptSegment sm scriptNum in
  let finish (scr : Z) (segmentId : SegmentId) : M SegmentId :=
    Script_load scr scriptNum;;
    initializeLocals env scr segmentId;;
    initializeClasses env scr segmentId;;
    initializeObjects env scr segmentId;;
    instantiateScriptHook env scr segmentId;;
    ret segmentId in
  match getScriptIfLoaded env sm segmentId with
  | Some scr =>
      d <- isMarkedAsDeleted scr;;
      if negb d then
        incrementLockers scr;;
        ret segmentId
      else
        freeScript scr true;;
        finish scr segmentId
  | None =>
      r <- allocateScript scriptNum;;
      finish r.1 r.2
  end.

(** The pass of [uninstantiateScriptSci0] over the object records.  [rec]
    is [uninstantiateScript], called for a superclass another script owns;
    [fuel] bounds the number of records visited. *)
Fixpoint sci0_walk (rec : Z → M unit) (fuel : nat) (script_nr : Z) (scr : Z)
    (reg : reg_t) (objLength : Z) : M unit :=
  match fuel with
  | O => out_of_fuel
  | S fuel' =>
      let reg := incOffset reg objLength in
      objType <- read16 scr (getOffset reg);;
      if objType =? 0 then ret tt else
      objLength <- read16 scr (getOffset reg + 2);;
      let reg := incOffset reg 4 in
      reg <- (if (objType =? SCI_OBJ_OBJECT env) || (objType =? SCI_OBJ_CLASS env) then
                let reg := incOffset reg 8 in
                sc <- read16 scr (getOffset reg + 2);;
                let superclass := to_int16 sc in
                (if 0 <=? superclass then
                   c <- getClass superclass;;
                   let superclass_script := script c in
                   if superclass_script =? script_nr then
                     l <- getLockers scr;;
                     if negb (l =? 0) then decrementLockers scr else ret tt
                   else rec superclass_script
                 else ret tt);;
                ret (incOffset reg (SCRIPT_OBJECT_MAGIC_OFFSET env))
              else ret reg);;
      let reg := incOffset reg (-4) in
      sci0_walk rec fuel' script_nr scr reg objLength
  end.

Definition uninstantiateScriptSci0 (rec : Z → M unit) (fuel : nat) (script_nr : Z) : M unit :=
  let oldScriptHeader := getSciVersion env =? SCI_VERSION_0_EARLY env in
  sm <- get;;
  let segmentId := getScriptSegment sm script_nr in
  scr <- getScript env segmentId;;
  let reg := make_reg segmentId (if oldScriptHeader then 2 else 0) in
  sci0_walk rec fuel script_nr scr reg 0.

(** [fuel] bounds the depth of the recursion through superclass scripts and,
    at each depth, the number of records visited. *)
Fixpoint uninstantiateScript (fuel : nat) (script_nr : Z) : M unit :=
  match fuel with
  | O => out_of_fuel
  | S fuel' =>
      sm <- get;;
      let segmentId := getScriptSegment sm script_nr in
      match getScriptIfLoaded env sm segmentId with
      | None => ret tt
      | Some scr =>
          d <- isMarkedAsDeleted scr;;
          if d then ret tt else
          decrementLockers scr;;
          l <- getLockers scr;;
          if 0 <? l then ret tt else
          freeClassReferences segmentId;;
          (if getSciVersion env <? SCI_VERSION_1_1 env
           then uninstantiateScriptSci0 (uninstantiateScript fuel') fuel' script_nr
           else ret tt);;
          l <- getLockers scr;;
          if l =? 0 then markDeleted scr else ret tt
      end
  end.

End WithEnv.

(** ** Sample configurations and segments *)

Definition read_le16 (b0 b1 : Z) : Z := Z.lor b0 (Z.shiftl b1 8).

Definition no_pass (scr : Z) (segmentId : SegmentId) : M unit := ret tt.

(** Byte storage resolved to the bytes that remain from the offset on. *)
Definition byte_view (blk : nat) (size : Z) (p : reg_t) : SegmentRef :=
  if getOffset p <=? size
  then mkSegmentRef true (Some (blk, getOffset p)) (size - getOffset p) false
  else SegmentRef_default.

(** Cell storage resolved at byte granularity: two bytes a cell, an odd
    offset starts in the middle of a cell. *)
Definition cell_view (blk : nat) (cells : Z) (p : reg_t) : SegmentRef :=
  if getOffset p <? 2 * cells
  then mkSegmentRef false (Some (blk, getOffset p / 2))
         (2 * cells - getOffset p) (Z.odd (getOffset p))
  else mkSegmentRef false None 0 false.

Definition sample_env (version : Z) (images : Z → option (list Z)) : Env :=
  {| getSciVersion := version;
     SCI_VERSION_0_EARLY := 1;
     SCI_VERSION_1_1 := 8;
     SCI_VERSION_2_1_LATE := 12;
     isBE := false;
     SCI_OBJ_OBJECT := 1;
     SCI_OBJ_CLASS := 6;
     SCRIPT_OBJECT_MAGIC_OFFSET := -8;
     READ_SCI11ENDIAN_UINT16 := read_le16;
     scriptResource := images;
     scriptDereference := fun blk image => byte_view blk (Z.of_nat (length image));
     initializeLocals := no_pass;
     initializeClasses := no_pass;
     initializeObjects := no_pass;
     instantiateScriptHook := no_pass |}.

(** The directory as the constructor leaves it. *)
Definition fresh_manager : SegManager :=
  mkSegManager [None] ∅ [] [] [].

(** A directory with a four-byte buffer in slot 1 and two cells in slot 2. *)
Definition sample_manager : SegManager :=
  mkSegManager
    [None; Some (DataObj SEG_TYPE_DYNMEM (byte_view 0 4));
           Some (DataObj SEG_TYPE_LOCALS (cell_view 1 2))]
    ∅ []
    [Bytes [97; 98; 99; 100]; Cells [make_reg 0 0; make_reg 0 0]]
    [].

(** The manager after one more diagnostic. *)
Definition warned (sm : SegManager) (msg : string) : SegManager :=
  mkSegManager (_heap sm) (_scriptSegMap sm) (_classTable sm) (memory sm)
               (warnings sm ++ [msg]).

Definition diagnosed (sm sm' : SegManager) : Prop :=
  (length (warnings sm) < length (warnings sm'))%nat.


(** Two byte buffers of four bytes each, in slots 1 and 2. *)
Definition two_buffers : SegManager :=
  mkSegManager
    [None; Some (DataObj SEG_TYPE_DYNMEM (byte_view 0 4));
           Some (DataObj SEG_TYPE_DYNMEM (byte_view 1 4))]
    ∅ []
    [Bytes [97; 98; 99; 100]; Bytes [1; 2; 3; 4]]
    [].

(** ** What a view shows

    The bytes a view addresses, read without effects: the byte at index [i]
    of a byte view, and the half of the cell the parity of [i + skipByte]
    selects in a cell view. *)

Definition odd_half (env : Env) (offset : Z) : bool :=
  if isBE env then negb (Z.odd offset) else Z.odd offset.

Definition cell_get (val : reg_t) (oddOffset : bool) : Z :=
  to_byte (if oddOffset then Z.shiftr (getOffset val) 8 else Z.land (getOffset val) 255).

Definition cell_set (val : reg_t) (oddOffset : bool) (value : Z) : reg_t :=
  if oddOffset
  then make_reg 0 (Z.lor (Z.land (getOffset val) 255) (Z.shiftl value 8))
  else make_reg 0 (Z.lor (Z.land (getOffset val) 65280) value).

Definition view_byte (env : Env) (m : list Block) (r : SegmentRef) (i : Z) : option Z :=
  p ← raw r;
  if isRaw r then load_byte m (addr_add p i)
  else
    let offset := if skipByte r then i + 1 else i in
    c ← load_cell m (addr_add p (offset / 2));
    Some (cell_get c (odd_half env offset)).

(** The bound of a view lies within the storage its pointer addresses, and
    the storage is of the kind the view announces. *)
Definition view_ok (m : list Block) (r : SegmentRef) : bool :=
  match raw r with
  | None => false
  | Some p =>
      (0 <=? maxSize r) && (maxSize r <? 2147483648) && (0 <=? p.2) &&
      match m !! p.1 with
      | Some (Bytes bs) =>
          isRaw r && (p.2 + maxSize r <=? Z.of_nat (length bs))
      | Some (Cells rs) =>
          negb (isRaw r)
          && (2 * p.2 + (if skipByte r then 1 else 0) + maxSize r <=? 2 * Z.of_nat (length rs))
      | None => false
      end
  end.

(** The bytes of a C string: none is zero. *)
Definition cstring (s : list Z) : Prop := Forall (fun b => 0 < b < 256) s.

(** Two managers that differ in host memory and diagnostics only. *)
Definition same_directory (sm sm' : SegManager) : Prop :=
  _heap sm' = _heap sm ∧ _scriptSegMap sm' = _scriptSegMap sm
  ∧ _classTable sm' = _classTable sm.

(** Memories with the same blocks, byte for byte in number and kind. *)
Definition same_shape (m m' : list Block) : Prop :=
  ∀ b, match m !! b, m' !! b with
       | Some (Bytes x), Some (Bytes y) => length x = length y
       | Some (Cells x), Some (Cells y) => length x = length y
       | None, None => True
       | _, _ => False
       end.

Definition frame (sm sm' : SegManager) : Prop :=
  same_directory sm sm' ∧ warnings sm' = warnings sm.

(** What a store at index [i] of the view [r] leaves behind. *)
Definition stored (env : Env) (m m' : list Block) (r : SegmentRef) (i v : Z) : Prop :=
  same_shape m m'
  ∧ view_byte env m' r i = Some v
  ∧ ∀ j, j ≠ i → view_byte env m' r j = view_byte env m r j.

(** ** What the superclass pass meets

    The records of a script image as [uninstantiateScriptSci0] walks them,
    read without effects: the owners, in file order, of the superclasses
    that belong to a script other than [script_nr].  [None] when the walk
    leaves the image, meets a class number the class table does not have, or
    does not reach the terminator within [fuel] records. *)

Definition image16 (env : Env) (image : list Z) (offset : Z) : option Z :=
  b0 ← lookupZ image offset;
  b1 ← lookupZ image (offset + 1);
  Some (READ_SCI11ENDIAN_UINT16 env b0 b1).

Fixpoint superclass_owners (env : Env) (scripts : list Z) (script_nr : Z) (image : list Z)
    (fuel : nat) (offset objLength : Z) : option (list Z) :=
  match fuel with
  | O => None
  | S fuel' =>
      let offset := uint16 (offset + objLength) in
      objType ← image16 env image offset;
      if objType =? 0 then Some [] else
      objLength ← image16 env image (offset + 2);
      let offset := uint16 (offset + 4) in
      if (objType =? SCI_OBJ_OBJECT env) || (objType =? SCI_OBJ_CLASS env) then
        let offset := uint16 (offset + 8) in
        sc ← image16 env image (offset + 2);
        let superclass := to_int16 sc in
        let next := uint16 (uint16 (offset + SCRIPT_OBJECT_MAGIC_OFFSET env) + -4) in
        if 0 <=? superclass then
          owner ← lookupZ scripts superclass;
          rest ← superclass_owners env scripts script_nr image fuel' next objLength;
          Some (if owner =? script_nr then rest else owner :: rest)
        else superclass_owners env scripts script_nr image fuel' next objLength
      else superclass_owners env scripts script_nr image fuel' (uint16 (offset + -4)) objLength
  end.

(** Where the walk starts: past the two bytes of the old script header. *)
Definition sci0_start (env : Env) : Z :=
  if getSciVersion env =? SCI_VERSION_0_EARLY env then 2 else 0.

(** ** Resident scripts *)

(** Script [nr] is registered at slot [seg], holds [image], and has [l]
    lockers and the deletion mark [d]. *)
Definition resident (env : Env) (sm : SegManager) (nr seg : Z) (image : list Z)
    (l : Z) (d : bool) : Prop :=
  _scriptSegMap sm !! nr = Some seg
  ∧ 1 <= seg
  ∧ getActualSegment env seg = seg
  ∧ ∃ f scr blk, lookupZ (_heap sm) seg = Some (Some (ScriptObj f scr))
                 ∧ _lockers scr = l ∧ _markedAsDeleted scr = d
                 ∧ _buf scr = Some blk ∧ memory sm !! blk = Some (Bytes image).

(** Script [nr] is not loaded, or is marked deleted: what
    [uninstantiateScript] asks first. *)
Definition unloaded_or_deleted (env : Env) (sm : SegManager) (nr : Z) : Prop :=
  match getScriptIfLoaded env sm (getScriptSegment sm nr) with
  | None => True
  | Some scr => ∃ f s, lookupZ (_heap sm) scr = Some (Some (ScriptObj f s))
                       ∧ _markedAsDeleted s = true
  end.

(** An initialisation pass that returns and leaves the script it is run for
    resident as it was, and every class with its owner. *)
Definition pass_keeps (env : Env) (nr : Z) (pass : Z → SegmentId → M unit) : Prop :=
  ∀ sm seg image l d,
    resident env sm nr seg image l d →
    ∃ sm', pass seg seg sm = Ok tt sm'
           ∧ resident env sm' nr seg image l d
           ∧ map script (_classTable sm') = map script (_classTable sm).

(** [k] calls in a row. *)
Fixpoint times {A} (k : nat) (m : M A) : M unit :=
  match k with
  | O => ret tt
  | S k' => m;; times k' m
  end.

(** The manager with the script at slot [seg] changed by [g]. *)
Definition with_script (sm : SegManager) (seg : Z) (g : Script → Script) : SegManager :=
  match lookupZ (_heap sm) seg with
  | Some (Some (ScriptObj f s)) =>
      mkSegManager (<[Z.to_nat seg := Some (ScriptObj f (g s))]> (_heap sm))
                   (_scriptSegMap sm) (_classTable sm) (memory sm) (warnings sm)
  | _ => sm
  end.

Definition unlock (s : Script) : Script :=
  mkScript (_nr s) (_buf s) (if 0 <? _lockers s then _lockers s - 1 else _lockers s)
           (_markedAsDeleted s) (_localsSegment s).

Definition lock (s : Script) : Script :=
  mkScript (_nr s) (_buf s) (_lockers s + 1) (_markedAsDeleted s) (_localsSegment s).

Definition mark (s : Script) : Script :=
  mkScript (_nr s) (_buf s) (_lockers s) true (_localsSegment s).

(** The manager with the class-table references into [seg] cleared. *)
Definition without_class_refs (sm : SegManager) (seg : SegmentId) : SegManager :=
  mkSegManager (_heap sm) (_scriptSegMap sm)
    (map (fun c => if getSegment (class_reg c) =? seg
                   then mkClass (script c) NULL_REG else c) (_classTable sm))
    (memory sm) (warnings sm).

(** What the superclass pass reads of the script at slot [seg]: its [l]
    lockers, the image in block [blk], and the owners of the classes. *)
Definition walkable (sm : SegManager) (seg : Z) (blk : nat) (image : list Z)
    (scripts : list Z) (l : Z) : Prop :=
  (∃ f scr, lookupZ (_heap sm) seg = Some (Some (ScriptObj f scr))
            ∧ _lockers scr = l ∧ _buf scr = Some blk)
  ∧ memory sm !! blk = Some (Bytes image)
  ∧ map script (_classTable sm) = scripts.

(** Script images for the examples: one class record of sixteen bytes, with
    the class number at byte 12 and the superclass at byte 14, and the
    terminator. *)
Definition class_image (species superLo superHi : Z) : list Z :=
  [6; 0; 16; 0; 0; 0; 0; 0; 0; 0; 0; 0; species; 0; superLo; superHi; 0; 0].

(** Script 10 defines class 0, script 20 defines class 1 with superclass 0. *)
Definition chain_images (nr : Z) : option (list Z) :=
  if nr =? 10 then Some (class_image 0 255 255)
  else if nr =? 20 then Some (class_image 1 0 0)
  else None.

(** Script 10 defines class 0 with superclass 1, script 20 defines class 1
    with superclass 0. *)
Definition cycle_images (nr : Z) : option (list Z) :=
  if nr =? 10 then Some (class_image 0 1 0)
  else if nr =? 20 then Some (class_image 1 0 0)
  else None.

(** Script 10 defines class 0 with itself as superclass. *)
Definition self_images (nr : Z) : option (list Z) :=
  if nr =? 10 then Some (class_image 0 0 0) else None.

(** The fresh directory with the class table of the examples. *)
Definition start_manager : SegManager :=
  mkSegManager [None] ∅ [mkClass 10 NULL_REG; mkClass 20 NULL_REG] [] [].

(** The manager an action leaves, or the given one when it does not
    return. *)
Definition after {A} (m : M A) (sm : SegManager) : SegManager :=
  match m sm with
  | Ok _ sm' => sm'
  | Err _ => sm
  end.

(** Scripts 10 and 20 of [chain_images], instantiated once each in the older
    generation. *)
Definition chain_manager : SegManager :=
  after (instantiateScript (sample_env 2 chain_images) 10;;
         instantiateScript (sample_env 2 chain_images) 20) start_manager.

(** Scripts 10 and 20 of [cycle_images], instantiated once each in the older
    generation. *)
Definition cycle_manager : SegManager :=
  after (instantiateScript (sample_env 2 cycle_images) 10;;
         instantiateScript (sample_env 2 cycle_images) 20) start_manager.

(** Two resident scripts, not marked, with at most one locker each, where
    the pass over either meets a superclass of the other first. *)
Definition entangled (env : Env) (sm : SegManager) (A B segA segB : Z)
    (imageA imageB : list Z) : Prop :=
  segA ≠ segB
  ∧ (∃ a, 0 <= a <= 1 ∧ resident env sm A segA imageA a false)
  ∧ (∃ b, 0 <= b <= 1 ∧ resident env sm B segB imageB b false)
  ∧ (∃ fuel os, superclass_owners env (map script (_classTable sm)) A imageA fuel
                  (sci0_start env) 0 = Some (B :: os))
  ∧ (∃ fuel os, superclass_owners env (map script (_classTable sm)) B imageB fuel
                  (sci0_start env) 0 = Some (A :: os)).

(** Every byte of byte storage is a byte. *)
Definition memory_ok (m : list Block) : bool :=
  forallb (fun blk => match blk with
                      | Bytes bs => forallb (fun b => (0 <=? b) && (b <? 256)) bs
                      | Cells _ => true
                      end) m.

(** Two views into different blocks of host memory. *)
Definition apart (r r' : SegmentRef) : Prop :=
  ∀ p p', raw r = Some p → raw r' = Some p' → p.1 ≠ p'.1.

(** * Further entry points of the segment manager *)

Section WithEnv.
Context (env : Env).

(** ** More of the directory *)

(** [deallocateScript(script_nr)]. *)
Definition deallocateScript (fuel : nat) (script_nr : Z) : M unit :=
  sm <- get;;
  deallocate env fuel (getScriptSegment sm script_nr).

(** The scan of [findSegmentByType] from slot [i] on; the index found is
    returned as a [SegmentId]. *)
Fixpoint scan_type (slots : list (option SegmentObj)) (type : SegmentType) (i : Z)
  : SegmentId :=
  match slots with
  | [] => 0
  | Some mobj :: rest =>
      if decide (getType mobj = type) then uint16 i else scan_type rest type (i + 1)
  | None :: rest => scan_type rest type (i + 1)
  end.

Definition findSegmentByType (sm : SegManager) (type : SegmentType) : SegmentId :=
  scan_type (_heap sm) type 0.

(** ** Dynamic buffers *)

(** Modelled from the spec: [DynMem::dereference] (segment.h is not among
    the files verified here): "byte-addressable segments (raw buffers, ...)
    return isRaw = true with a contiguous byte slice and maxSize = bytes
    remaining", and "a view is invalid (and carries no pointer) when the
    offset is out of range".  A [DynMem] whose [_buf] is null has no storage
    to point into. *)
Definition DynMem_dereference (buf : option nat) (size : Z) (pointer : reg_t) : SegmentRef :=
  match buf with
  | Some blk => byte_view blk size pointer
  | None => SegmentRef_default
  end.

(** [allocDynmem(size, descr, &addr)]: the result is the buffer and the
    pointer written through [addr].  The [DynMem] is entered in the
    directory as constructed and its members are set afterwards, through the
    pointer [allocSegment] returned.  [descr] is a label kept for debugging
    and is left out. *)
Definition allocDynmem (size : Z) : M (option addr * reg_t) :=
  seg <- allocSegment (Some (DataObj SEG_TYPE_DYNMEM (DynMem_dereference None 0)));;
  let addr := make_reg seg 0 in
  buf <- (if negb (size =? 0) then
             sm <- get;;
             set_memory (memory sm ++ [Bytes (replicate (Z.to_nat size) 0)]);;
             ret (Some (length (memory sm)))
           else ret None);;
  heap_put seg (Some (DataObj SEG_TYPE_DYNMEM (DynMem_dereference buf size)));;
  ret (match buf with Some blk => Some (blk, 0) | None => None end, addr).

(** [freeDynmem(addr)]; [fuel] is the fuel of [deallocate]. *)
Definition freeDynmem (fuel : nat) (addr : reg_t) : M bool :=
  sm <- get;;
  if (getSegment addr <? 1) || (heap_size sm <=? getSegment addr) then ret false else
  o <- heap_at (getSegment addr);;
  match o with
  | None => ret false
  | Some mobj =>
      if decide (getType mobj = SEG_TYPE_DYNMEM) then
        deallocate env fuel (getSegment addr);;
        ret true
      else ret false
  end.

(** ** Length of a string *)

(** [strlen(reg_t str)].  On cell storage the index is an [int] that counts
    up until [getChar] answers zero; past [INT_MAX] the increment is
    undefined. *)
Definition strlen (str : reg_t) : M Z :=
  if isNull str then ret 0 else
  str_r <- dereference str;;
  if negb (isValid str_r) then
    warning "Attempt to call strlen on invalid pointer";;
    ret 0
  else
  if isRaw str_r then strnlen (raw str_r) (maxSize str_r)
  else
    r <- for_upto 2147483648 (fun i _ => step (
           c <- getChar env str_r i;;
           ret (c =? 0))) tt;;
    if r.1.1 then ret (r.1.2 - 1) else fault.

End WithEnv.

(** ** Class resolution *)

(** The values of [enum ScriptLoadType] (seg_manager.h), parameters of the
    embedding. *)
Record ScriptLoadType := mkScriptLoadType {
  SCRIPT_GET_DONT_LOAD : Z;
  SCRIPT_GET_LOAD : Z;
  SCRIPT_GET_LOCK : Z
}.

Section WithLoadType.
Context (env : Env) (lt : ScriptLoadType).

(** [getScriptSegment(script_nr, load, applyScriptPatches)];
    [applyScriptPatches] is only handed on to the loader. *)
Definition getScriptSegment_load (script_nr : Z) (load : Z) : M SegmentId :=
  (if Z.land load (SCRIPT_GET_LOAD lt) =? SCRIPT_GET_LOAD lt
   then instantiateScript env script_nr;; ret tt
   else ret tt);;
  sm <- get;;
  let segment := getScriptSegment sm script_nr in
  (if 0 <? segment then
     if Z.land load (SCRIPT_GET_LOCK lt) =? SCRIPT_GET_LOCK lt
     then scr <- getScript env segment;; incrementLockers scr
     else ret tt
   else ret tt);;
  ret segment.

(** [getClassAddress(classnr, lock, callerSegment, applyScriptPatches)].
    [the_class] points into the class table: [the_class->reg] is read again
    after the owner has been loaded or locked. *)
Definition getClassAddress (classnr : Z) (lock : Z) (callerSegment : Z) : M reg_t :=
  if classnr =? 65535 then ret NULL_REG else
  sm <- get;;
  if (classnr <? 0) || (to_int (classTableSize sm) <=? classnr)
  then error "[VM] Attempt to dereference class, which doesn't exist" else
  the_class <- getClass classnr;;
  if script the_class <? 0
  then error "[VM] Attempt to dereference class, which doesn't exist" else
  if getSegment (class_reg the_class) =? 0 then
    getScriptSegment_load (script the_class) lock;;
    the_class <- getClass classnr;;
    if getSegment (class_reg the_class) =? 0 then
      if lock =? SCRIPT_GET_DONT_LOAD lt then ret NULL_REG
      else error "[VM] Trying to instantiate class by instantiating script failed"
    else ret (class_reg the_class)
  else
    (if negb (callerSegment =? getSegment (class_reg the_class)) then
       scr <- getScript env (getSegment (class_reg the_class));;
       incrementLockers scr
     else ret tt);;
    the_class <- getClass classnr;;
    ret (class_reg the_class).

End WithLoadType.

(** ** Construction and reset *)

(** The members [_clonesSegId], [_listsSegId], [_nodesSegId], [_hunksSegId],
    [_arraysSegId] and [_bitmapSegId] of the manager: the segments of the
    tables, 0 while a table has not been allocated. *)
Record TableSegments := mkTableSegments {
  _clonesSegId : SegmentId;
  _listsSegId : SegmentId;
  _nodesSegId : SegmentId;
  _hunksSegId : SegmentId;
  _arraysSegId : SegmentId;
  _bitmapSegId : SegmentId
}.

Section WithResources.
Context (env : Env).

(** What [createClassTable] takes from other files: the resource vocab 996
    as the resource manager finds it (its bytes, or nothing), the 16-bit
    read [getUint16SEAt] of a resource (util.h), which refuses an index
    outside the data, and the default-constructed [Class] (seg_manager.h)
    that [resize] fills new entries with. *)
Context (vocab996 : option (list Z)) (getUint16SEAt : list Z → Z → option Z)
        (Class_new : Class).

(** [_classTable[index].script = scriptNr]. *)
Definition setClassScript (index : Z) (scriptNr : Z) : M unit :=
  fun sm => match lookupZ (_classTable sm) index with
            | Some c => set_classTable
                          (<[Z.to_nat index := mkClass scriptNr (class_reg c)]> (_classTable sm)) sm
            | None => Err (Fatal "assert(idx < _size)")
            end.

(** [Common::Array::resize]: the entries kept, and new ones as constructed. *)
Definition Array_resize {A} (l : list A) (newSize : Z) (x : A) : list A :=
  take (Z.to_nat newSize) l ++ replicate (Z.to_nat newSize - length l) x.

(** The loop of [createClassTable]; [classNr] is a [uint16] compared with
    the [int] [totalClasses]. *)
Fixpoint createClassTable_loop (fuel : nat) (data : list Z) (totalClasses : Z) (classNr : Z)
  : M unit :=
  match fuel with
  | O => out_of_fuel
  | S fuel' =>
      if classNr <? totalClasses then
        match getUint16SEAt data (classNr * 4 + 2) with
        | None => error "getUint16SEAt: access out of bounds"
        | Some scriptNr =>
            setClassOffset classNr NULL_REG;;
            setClassScript classNr scriptNr;;
            createClassTable_loop fuel' data totalClasses (uint16 (classNr + 1))
        end
      else ret tt
  end.

Definition createClassTable (fuel : nat) : M unit :=
  match vocab996 with
  | None => error "SegManager: failed to open vocab 996"
  | Some data =>
      let totalClasses := to_int (Z.shiftr (Z.of_nat (length data)) 2) in
      sm <- get;;
      set_classTable (Array_resize (_classTable sm) totalClasses Class_new);;
      createClassTable_loop fuel data totalClasses 0
  end.

(** The loop of [resetSegMan] over the directory. *)
Fixpoint free_segments (fuel : nat) (i : Z) : M unit :=
  match fuel with
  | O => out_of_fuel
  | S fuel' =>
      sm <- get;;
      if i <? heap_size sm then
        o <- heap_at i;;
        match o with
        | Some _ => deallocate env fuel' (uint16 i)
        | None => ret tt
        end;;
        free_segments fuel' (uint32 (i + 1))
      else ret tt
  end.

(** [resetSegMan()]: the result is the new value of the table segments. *)
Definition resetSegMan (fuel : nat) : M TableSegments :=
  free_segments fuel 0;;
  set_heap [];;
  sm <- get;;
  set_heap (_heap sm ++ [None]);;
  set_classTable [];;
  createClassTable fuel;;
  ret (mkTableSegments 0 0 0 0 0 0).

End WithResources.

(** ** Directories after a deallocation *)

(** The manager with slot [seg] emptied. *)
Definition without_segment (sm : SegManager) (seg : Z) : SegManager :=
  mkSegManager (<[Z.to_nat seg := None]> (_heap sm)) (_scriptSegMap sm) (_classTable sm)
               (memory sm) (warnings sm).

(** The manager with script [nr] taken out of the script map. *)
Definition without_script (sm : SegManager) (nr : Z) : SegManager :=
  mkSegManager (_heap sm) (delete nr (_scriptSegMap sm)) (_classTable sm)
               (memory sm) (warnings sm).

(** Script 7 in slot 1, marked deleted, with its locals in slot 2. *)
Definition script_with_locals : SegManager :=
  mkSegManager
    [None; Some (ScriptObj (byte_view 0 2) (mkScript 7 (Some 0%nat) 0 true 2));
           Some (DataObj SEG_TYPE_LOCALS (cell_view 1 2))]
    {[ 7 := 1 ]} []
    [Bytes [0; 0]; Cells [make_reg 0 0; make_reg 0 0]]
    [].

(** ** The string in a view *)

(** The view [r] holds the string [s]: the bytes of [s], none of them zero,
    from the start of the view, and then a zero byte or the bound of the
    view. *)
Definition holds (env : Env) (m : list Block) (r : SegmentRef) (s : list Z) : Prop :=
  cstring s
  ∧ Z.of_nat (length s) <= maxSize r
  ∧ (∀ j, 0 <= j < Z.of_nat (length s) → view_byte env m r j = lookupZ s j)
  ∧ (Z.of_nat (length s) < maxSize r → view_byte env m r (Z.of_nat (length s)) = Some 0).

(** A byte buffer that holds the string "hi" in slot 1, and two cells in
    slot 2. *)
Definition string_manager : SegManager :=
  mkSegManager
    [None; Some (DataObj SEG_TYPE_DYNMEM (byte_view 0 4));
           Some (DataObj SEG_TYPE_LOCALS (cell_view 1 2))]
    ∅ []
    [Bytes [104; 105; 0; 7]; Cells [make_reg 0 0; make_reg 0 0]]
    [].

(** The directory and host memory of [sm'] are those of [sm]; diagnostics
    may have been added. *)
Definition untouched (sm sm' : SegManager) : Prop :=
  same_directory sm sm' ∧ memory sm' = memory sm
  ∧ (length (warnings sm) <= length (warnings sm'))%nat.

(** Script 10 of [chain_images], instantiated and uninstantiated once in a
    generation that does not walk the records: loaded, and marked deleted. *)
Definition deleted_manager : SegManager :=
  after (instantiateScript (sample_env 8 chain_images) 10;;
         uninstantiateScript (sample_env 8 chain_images) 2 10) start_manager.

(** Script 10 of [chain_images] instantiated once, in segment 1, with the
    address of class 0 resolved into it. *)
Definition resolved_manager : SegManager :=
  let sm := after (instantiateScript (sample_env 8 chain_images) 10) start_manager in
  mkSegManager (_heap sm) (_scriptSegMap sm)
               [mkClass 10 (make_reg 1 12); mkClass 20 NULL_REG]
               (memory sm) (warnings sm).

(** The load types as seg_manager.h numbers them. *)
Definition sample_load_types : ScriptLoadType :=
  {| SCRIPT_GET_DONT_LOAD := 0; SCRIPT_GET_LOAD := 1; SCRIPT_GET_LOCK := 3 |}.

(** Two managers that differ in the class table only. *)
Definition same_but_classes (sm sm' : SegManager) : Prop :=
  _heap sm' = _heap sm ∧ _scriptSegMap sm' = _scriptSegMap sm
  ∧ memory sm' = memory sm ∧ warnings sm' = warnings sm.

(** A directory [resetSegMan] can walk: at most 65536 slots, slot 0 empty,
    identifiers that are their own actual segment, and every script with no
    locals segment or with one in the directory that is empty or holds a
    segment other than a script. *)
Definition tidy (env : Env) (sm : SegManager) : Prop :=
  heap_size sm <= 65536
  ∧ lookupZ (_heap sm) 0 = Some None
  ∧ (∀ i, 0 <= i < heap_size sm → getActualSegment env i = i)
  ∧ ∀ seg f s, lookupZ (_heap sm) seg = Some (Some (ScriptObj f s)) →
      _localsSegment s = 0
      ∨ lookupZ (_heap sm) (_localsSegment s) = Some None
      ∨ ∃ ty d, lookupZ (_heap sm) (_localsSegment s) = Some (Some (DataObj ty d))
                ∧ 1 <= _localsSegment s.

(** A reader of 16-bit values, little-endian, that refuses an index outside
    the data. *)
Definition read_le16_at (data : list Z) (index : Z) : option Z :=
  b0 ← lookupZ data index;
  b1 ← lookupZ data (index + 1);
  Some (read_le16 b0 b1).

(** A class index of two classes, owned by scripts 10 and 20, and one byte
    left over. *)
Definition sample_vocab996 : list Z := [0; 0; 10; 0; 0; 0; 20; 0; 9].

(** [sm'] is [sm] with some segments deallocated: slots emptied, script
    numbers taken out of the script map, and the class table as it was. *)
Definition emptied (sm sm' : SegManager) : Prop :=
  heap_size sm' = heap_size sm
  ∧ (∀ j, lookupZ (_heap sm') j = lookupZ (_heap sm) j ∨ lookupZ (_heap sm') j = Some None)
  ∧ (∀ nr, _scriptSegMap sm !! nr = None → _scriptSegMap sm' !! nr = None)
  ∧ _classTable sm' = _classTable sm.

(** A directory with every identifier from 1 to 65535 taken. *)
Definition full_manager : SegManager :=
  mkSegManager (None :: replicate (Z.to_nat 65535) (Some (DataObj SEG_TYPE_HUNK (byte_view 0 0))))
               ∅ [] [] [].

(** Scripts 10 and 20 define classes 0 and 1, each with the other as
    superclass; script 30 defines class 2 with itself as superclass. *)
Definition knot_images (nr : Z) : option (list Z) :=
  if nr =? 10 then Some (class_image 0 1 0)
  else if nr =? 20 then Some (class_image 1 0 0)
  else if nr =? 30 then Some (class_image 2 2 0)
  else None.

(** The three scripts of [knot_images], instantiated once each in the older
    generation, under the class table that names their owners. *)
Definition knot_manager : SegManager :=
  after (instantiateScript (sample_env 2 knot_images) 10;;
         instantiateScript (sample_env 2 knot_images) 20;;
         instantiateScript (sample_env 2 knot_images) 30)
        (mkSegManager [None] ∅
           [mkClass 10 NULL_REG; mkClass 20 NULL_REG; mkClass 30 NULL_REG] [] []).

(** A directory with a free slot at its end: [two_buffers] with slot 2
    emptied. *)
Definition holed_manager : SegManager := without_segment two_buffers 2.

(** ** Superclass hierarchies without a cycle

    A ranking of the script numbers under which the pass of the older
    generation only ever leads downwards.  Script [o] is settled when it is
    not loaded, or is resident with a locker count that is not negative and,
    unless it is marked deleted, with records that are well formed and
    whose superclasses belong to [o] itself or to scripts of lower rank. *)
Definition settled (env : Env) (rank : Z → nat) (fuel : nat) (sm : SegManager) (o : Z) : Prop :=
  getScriptIfLoaded env sm (getScriptSegment sm o) = None
  ∨ ∃ seg image l d,
      resident env sm o seg image l d ∧ 0 <= l
      ∧ (d = false →
         ∃ owners, superclass_owners env (map script (_classTable sm)) o image fuel
                     (sci0_start env) 0 = Some owners
                   ∧ Forall (fun o' => (rank o' < rank o)%nat) owners).

(** Every script of rank below [top] is settled, and no two of them are
    registered for the same segment. *)
Definition stratified (env : Env) (rank : Z → nat) (fuel : nat) (sm : SegManager)
    (top : nat) : Prop :=
  (∀ o, (rank o < top)%nat → settled env rank fuel sm o)
  ∧ (∀ o1 o2 seg, (rank o1 < top)%nat → (rank o2 < top)%nat →
       _scriptSegMap sm !! o1 = Some seg → _scriptSegMap sm !! o2 = Some seg → o1 = o2).

(** What a call of [uninstantiateScript] for a script of rank [r] leaves
    alone: the script map, host memory, the owners of the classes, the size
    of the directory, which slots hold scripts, and every slot that is not
    registered for a script of rank [r] or below. *)
Definition unwound (env : Env) (rank : Z → nat) (r : nat) (sm sm' : SegManager) : Prop :=
  _scriptSegMap sm' = _scriptSegMap sm
  ∧ memory sm' = memory sm
  ∧ map script (_classTable sm') = map script (_classTable sm)
  ∧ (∀ x, getScriptIfLoaded env sm' x = getScriptIfLoaded env sm x)
  ∧ (∀ j, (∀ o, (rank o <= r)%nat → _scriptSegMap sm !! o ≠ Some j) →
          lookupZ (_heap sm') j = lookupZ (_heap sm) j).

(** Script 20 of [chain_images] ranks above script 10, which owns the
    superclass of its class; no other script is ranked below them. *)
Definition chain_rank (nr : Z) : nat :=
  if nr =? 20 then 1%nat else if nr =? 10 then 0%nat else 2%nat.

(** Script 10 of [chain_images] instantiated once in the older generation. *)
Definition base_manager : SegManager :=
  after (instantiateScript (sample_env 2 chain_images) 10) start_manager.

(** Script 20 instantiated twice on top of it. *)
Definition twice_manager : SegManager :=
  after (times 2 (instantiateScript (sample_env 2 chain_images) 20)) base_manager.
(** * Properties *)

Local Ltac unfold_sm :=
  unfold bind, ret, get, when, warning, error, fault, out_of_fuel, heap_at, heap_put,
    set_heap, set_memory, set_classTable, set_scriptSegMap, step in *.

(** Boolean comparisons of hypotheses as propositions. *)
Local Ltac prop_of_bool :=
  repeat match goal with
  | H : andb _ _ = true |- _ => apply andb_prop in H as [? ?]
  | H : orb _ _ = false |- _ => apply orb_false_elim in H as [? ?]
  | H : negb _ = true |- _ => apply negb_true_iff in H
  | H : negb _ = false |- _ => apply negb_false_iff in H
  | H : (_ <? _) = true |- _ => apply Z.ltb_lt in H
  | H : (_ <? _) = false |- _ => apply Z.ltb_ge in H
  | H : (_ <=? _) = true |- _ => apply Z.leb_le in H
  | H : (_ <=? _) = false |- _ => apply Z.leb_gt in H
  | H : (_ =? _) = true |- _ => apply Z.eqb_eq in H
  | H : (_ =? _) = false |- _ => apply Z.eqb_neq in H
  end.

Local Ltac blia := prop_of_bool; simpl length in *; lia.

(** ** Loops *)

Lemma for_nat_add {A} (body : Z → A → M (bool * A)) (j k : nat) (i : Z) (a : A) sm :
  for_nat (j + k) body i a sm =
  match for_nat j body i a sm with
  | Ok r sm' => if r.1.1 then Ok r sm' else for_nat k body r.1.2 r.2 sm'
  | Err e => Err e
  end.
Proof.
  revert i a sm. induction j as [|j IH]; intros i a sm; simpl.
  - reflexivity.
  - unfold bind. destruct (body i a sm) as [[b a'] sm'|e]; simpl; [|reflexivity].
    destruct b; simpl; [reflexivity|]. apply IH.
Qed.

Lemma for_pos_unary {A} (body : Z → A → M (bool * A)) (p : positive) (i : Z) (a : A) sm :
  for_pos p body i a sm = for_nat (Pos.to_nat p) body i a sm.
Proof.
  revert i a sm. induction p as [q IH|q IH|]; intros i a sm.
  - rewrite Pos2Nat.inj_xI.
    replace (S (2 * Pos.to_nat q)) with (1 + (Pos.to_nat q + Pos.to_nat q))%nat by lia.
    cbn [for_pos]. rewrite for_nat_add. cbn [for_nat]. unfold bind, ret.
    destruct (body i a sm) as [[b a'] sm'|e]; simpl; [|reflexivity].
    destruct b; simpl; [reflexivity|].
    rewrite for_nat_add, <- IH.
    destruct (for_pos q body (i + 1) a' sm') as [[[b j] a''] sm''|e]; simpl; [|reflexivity].
    destruct b; simpl; [reflexivity|]. apply IH.
  - rewrite Pos2Nat.inj_xO.
    replace (2 * Pos.to_nat q)%nat with (Pos.to_nat q + Pos.to_nat q)%nat by lia.
    cbn [for_pos]. rewrite for_nat_add, <- IH. unfold bind, ret.
    destruct (for_pos q body i a sm) as [[[b j] a'] sm'|e]; simpl; [|reflexivity].
    destruct b; simpl; [reflexivity|]. apply IH.
  - simpl. unfold bind, ret.
    destruct (body i a sm) as [[b a'] sm'|e]; simpl; [|reflexivity].
    destruct b; reflexivity.
Qed.

Lemma for_upto_unary {A} (body : Z → A → M (bool * A)) (n : Z) (a : A) sm :
  for_upto n body a sm = for_nat (Z.to_nat n) body 0 a sm.
Proof.
  destruct n as [|p|p]; simpl; try reflexivity. apply for_pos_unary.
Qed.

(** ** Dereference *)

Lemma dereference_cases (sm : SegManager) (pointer : reg_t) :
  0 <= getSegment pointer →
  (∃ mobj, lookupZ (_heap sm) (getSegment pointer) = Some (Some mobj)
           ∧ getSegment pointer ≠ 0
           ∧ dereference pointer sm = Ok (SegmentObj_dereference mobj pointer) sm)
  ∨ ((getSegment pointer = 0 ∨ heap_size sm <= getSegment pointer
      ∨ lookupZ (_heap sm) (getSegment pointer) = Some None)
     ∧ dereference pointer sm = Ok SegmentRef_default
         (warned sm "SegManager::dereference(): Attempt to dereference invalid pointer")).
Proof.
  intros Hseg. unfold dereference. unfold_sm.
  destruct (getSegment pointer =? 0) eqn:E0; simpl.
  { right. split; [left; lia | reflexivity]. }
  destruct (heap_size sm <=? getSegment pointer) eqn:E1; simpl.
  { right. split; [right; left; lia | reflexivity]. }
  unfold lookupZ. destruct (getSegment pointer <? 0) eqn:E2; [lia|].
  destruct (_heap sm !! Z.to_nat (getSegment pointer)) as [[mobj|]|] eqn:E3.
  - left. exists mobj. split; [reflexivity|]. split; [lia|reflexivity].
  - right. split; [right; right; reflexivity | reflexivity].
  - apply lookup_ge_None in E3. unfold heap_size in E1. lia.
Qed.

(** C1. A pointer whose segment id is 0, or is at least the size of the
    directory, or names an empty slot, dereferences to an invalid view that
    carries no pointer; the call returns (with a diagnostic) and does not
    abort. *)
Theorem dereference_invalid_pointer (sm : SegManager) (pointer : reg_t) :
  0 <= getSegment pointer →
  getSegment pointer = 0 ∨ heap_size sm <= getSegment pointer
    ∨ lookupZ (_heap sm) (getSegment pointer) = Some None →
  ∃ r sm', dereference pointer sm = Ok r sm'
           ∧ isValid r = false ∧ raw r = None ∧ reg r = None
           ∧ _heap sm' = _heap sm ∧ memory sm' = memory sm.
Proof.
  intros Hseg Hbad.
  destruct (dereference_cases sm pointer Hseg) as [(mobj & Hl & Hne & _)|[_ ->]].
  - exfalso. destruct Hbad as [H|[H|H]]; [lia| |congruence].
    unfold lookupZ in Hl. destruct (getSegment pointer <? 0); [discriminate|].
    apply lookup_lt_Some in Hl. unfold heap_size in H. lia.
  - eexists _, _. split; [reflexivity|]. repeat split.
Qed.

Lemma dereference_invalid_pointer_witness :
  ∃ r sm', dereference (make_reg 3 0) sample_manager = Ok r sm'
           ∧ isValid r = false ∧ raw r = None ∧ reg r = None
           ∧ _heap sm' = _heap sample_manager ∧ memory sm' = memory sample_manager.
Proof.
  apply (dereference_invalid_pointer sample_manager (make_reg 3 0)).
  - simpl. lia.
  - right. left. vm_compute. discriminate.
Defined.

(** ** Typed accessors *)

Lemma derefPtr_cases (sm : SegManager) (pointer : reg_t) (entries : Z) (wantRaw : bool) :
  0 <= getSegment pointer →
  ∃ r sm0 res sm',
    dereference pointer sm = Ok r sm0
    ∧ derefPtr pointer entries wantRaw sm = Ok res sm'
    ∧ _heap sm' = _heap sm ∧ memory sm' = memory sm
    ∧ (isValid r = false → res = None)
    ∧ (isValid r = true → negb wantRaw && skipByte r = true →
       res = None ∧ diagnosed sm0 sm')
    ∧ (isValid r = true → maxSize r < entries → res = None ∧ diagnosed sm0 sm')
    ∧ (isValid r = true → negb wantRaw && skipByte r = false → entries <= maxSize r →
       res = raw r ∧ (isRaw r ≠ wantRaw → diagnosed sm0 sm')).
Proof.
  intros Hseg. unfold derefPtr. unfold bind at 1.
  assert (Hd : ∃ r sm0, dereference pointer sm = Ok r sm0
                        ∧ _heap sm0 = _heap sm ∧ memory sm0 = memory sm).
  { destruct (dereference_cases sm pointer Hseg) as [(mobj & _ & _ & ->)|[_ ->]];
      eexists _, _; repeat split. }
  destruct Hd as (r & sm0 & -> & Hh & Hm). exists r, sm0.
  destruct (isValid r) eqn:Ev; simpl.
  2:{ eexists _, _. repeat split; try done. }
  unfold_sm. unfold diagnosed.
  destruct (eqb (isRaw r) wantRaw) eqn:Eraw; simpl;
    destruct (negb wantRaw && skipByte r) eqn:Eskip; simpl;
    try (eexists _, _; repeat split; simpl; try done;
         rewrite ?length_app; simpl; lia).
  all: destruct (maxSize r <? entries) eqn:Emax; simpl.
  all: try (eexists _, _; repeat split; simpl; try done; try lia;
            rewrite ?length_app; simpl; lia).
  all: destruct (isRaw r) eqn:Er; simpl.
  all: eexists _, _; repeat split; simpl; try done; try lia;
       try (intros; rewrite ?length_app; simpl; lia);
       try (intros _ _ _ H; exfalso; apply H; apply eqb_prop in Eraw; congruence);
       try (intros Hne; exfalso; apply Hne; apply eqb_prop in Eraw; congruence).
Qed.

Lemma to_int_small (z : Z) : -2147483648 <= z < 2147483648 → to_int z = z.
Proof.
  intros H. unfold to_int, uint32.
  destruct (Z_lt_le_dec z 0) as [Hneg|Hpos].
  - replace (z mod 4294967296) with (z + 4294967296).
    + destruct (z + 4294967296 <? 2147483648) eqn:E; lia.
    + apply Z.mod_unique with (q := -1); lia.
  - rewrite Z.mod_small by lia. destruct (z <? 2147483648) eqn:E; lia.
Qed.

(** C4, as the code has it.  For every pointer and every count, none of
    [derefBulkPtr], [derefString] and [derefRegPtr] raises.  Each returns
    null when the view is invalid, and null with a diagnostic when the count
    exceeds the view's [maxSize]; [derefRegPtr] compares [2*entries] as its
    [int] multiplication gives it, which is twice the count for the counts
    from [-2^30] up to [2^30 - 1], and also refuses a view that starts in
    the middle of a cell.  A view whose [isRaw] flag is not the one the
    accessor expects only adds a diagnostic: with the count in bounds the
    pointer of the view is returned all the same. *)
Theorem typed_accessors_checks (sm : SegManager) (pointer : reg_t) (entries : Z) :
  0 <= getSegment pointer →
  ∃ r sm0,
    dereference pointer sm = Ok r sm0
    ∧ (∀ accessor, accessor = derefBulkPtr ∨ accessor = derefString →
       ∃ res sm', accessor pointer entries sm = Ok res sm'
         ∧ (isValid r = false → res = None)
         ∧ (isValid r = true → maxSize r < entries → res = None ∧ diagnosed sm0 sm')
         ∧ (isValid r = true → entries <= maxSize r →
            res = raw r ∧ (isRaw r = false → diagnosed sm0 sm')))
    ∧ (∃ res sm', derefRegPtr pointer entries sm = Ok res sm'
         ∧ (isValid r = false → res = None)
         ∧ (isValid r = true → skipByte r = true ∨ maxSize r < to_int (2 * entries) →
            res = None ∧ diagnosed sm0 sm')
         ∧ (isValid r = true → skipByte r = false → to_int (2 * entries) <= maxSize r →
            res = reg r ∧ (isRaw r = true → diagnosed sm0 sm')))
    ∧ (-1073741824 <= entries < 1073741824 → to_int (2 * entries) = 2 * entries).
Proof.
  intros Hseg.
  destruct (derefPtr_cases sm pointer entries true Hseg)
    as (r & sm0 & res & sm' & Hd & Hp & _ & _ & Hinv & _ & Hbig & Hok).
  exists r, sm0. split; [exact Hd|]. split; [|split].
  - intros accessor [-> | ->]; exists res, sm'; unfold derefBulkPtr, derefString;
      (split; [exact Hp|]); (split; [exact Hinv|]); (split; [exact Hbig|]);
      intros Hv Hle; destruct (Hok Hv eq_refl Hle) as [-> Hw];
      (split; [reflexivity|]); intros Hr; apply Hw; rewrite Hr; discriminate.
  - destruct (derefPtr_cases sm pointer (to_int (2 * entries)) false Hseg)
      as (r' & sm0' & res' & sm'' & Hd' & Hp' & _ & _ & Hinv' & Hskip' & Hbig' & Hok').
    rewrite Hd in Hd'. injection Hd' as <- <-.
    exists res', sm''. unfold derefRegPtr.
    split; [exact Hp'|]. split; [exact Hinv'|]. split.
    + intros Hv [Hs|Hm]; [apply Hskip'; [exact Hv|rewrite Hs; reflexivity] | apply Hbig'; assumption].
    + intros Hv Hs Hle. destruct (Hok' Hv) as [-> Hw]; [rewrite Hs; reflexivity|exact Hle|].
      split; [reflexivity|]. intros Hr. apply Hw. rewrite Hr. discriminate.
  - intros Hrange. apply to_int_small. lia.
Qed.

Lemma typed_accessors_checks_witness :
  ∃ r sm0,
    dereference (make_reg 1 0) sample_manager = Ok r sm0
    ∧ (∀ accessor, accessor = derefBulkPtr ∨ accessor = derefString →
       ∃ res sm', accessor (make_reg 1 0) 5 sample_manager = Ok res sm'
         ∧ (isValid r = false → res = None)
         ∧ (isValid r = true → maxSize r < 5 → res = None ∧ diagnosed sm0 sm')
         ∧ (isValid r = true → 5 <= maxSize r →
            res = raw r ∧ (isRaw r = false → diagnosed sm0 sm')))
    ∧ (∃ res sm', derefRegPtr (make_reg 1 0) 5 sample_manager = Ok res sm'
         ∧ (isValid r = false → res = None)
         ∧ (isValid r = true → skipByte r = true ∨ maxSize r < to_int (2 * 5) →
            res = None ∧ diagnosed sm0 sm')
         ∧ (isValid r = true → skipByte r = false → to_int (2 * 5) <= maxSize r →
            res = reg r ∧ (isRaw r = true → diagnosed sm0 sm')))
    ∧ (-1073741824 <= 5 < 1073741824 → to_int (2 * 5) = 2 * 5).
Proof.
  apply (typed_accessors_checks sample_manager (make_reg 1 0) 5).
  simpl. lia.
Defined.

(** C4 as stated fails: asked for cells, a byte view (the flag does not
    match) with the count in bounds is answered with the view's pointer, not
    with null; asked for bytes, so is a cell view. *)
Lemma typed_accessor_mismatch_not_null :
  (∃ r sm0 sm', dereference (make_reg 1 0) sample_manager = Ok r sm0
                ∧ isRaw r = true
                ∧ derefRegPtr (make_reg 1 0) 1 sample_manager = Ok (Some (0%nat, 0)) sm')
  ∧ (∃ r sm0 sm', dereference (make_reg 2 0) sample_manager = Ok r sm0
                  ∧ isRaw r = false
                  ∧ derefBulkPtr (make_reg 2 0) 1 sample_manager = Ok (Some (1%nat, 0)) sm').
Proof.
  split; eexists _, _, _; vm_compute; repeat split.
Qed.

(** ** Actual segments *)






(** The entry points on the identifier [0x4001], run: in the generation that
    masks it names slot 1, the four-byte buffer of [sample_manager], for the
    lookups and for [dereference] alike; in the older generation it names no
    slot of this directory. *)
Example masked_identifier_runs :
  getSegmentType (sample_env 13 (fun _ => None)) sample_manager 16385 = SEG_TYPE_DYNMEM
  ∧ dereference (pointer_at (sample_env 13 (fun _ => None)) 16385 0) sample_manager
    = Ok (mkSegmentRef true (Some (0%nat, 0)) 4 false) sample_manager
  ∧ getSegmentType (sample_env 8 (fun _ => None)) sample_manager 16385 = SEG_TYPE_INVALID
  ∧ ∃ sm', dereference (pointer_at (sample_env 8 (fun _ => None)) 16385 0) sample_manager
           = Ok SegmentRef_default sm'.
Proof. repeat split. eexists. vm_compute. reflexivity. Qed.

(** ** Indexing *)

Lemma lookupZ_insert_eq {A} (l : list A) (i : Z) (x : A) :
  0 <= i < Z.of_nat (length l) → lookupZ (<[Z.to_nat i := x]> l) i = Some x.
Proof.
  intros H. unfold lookupZ. destruct (i <? 0) eqn:E; [lia|].
  apply list_lookup_insert_eq. lia.
Qed.

Lemma lookupZ_insert_ne {A} (l : list A) (i j : Z) (x : A) :
  0 <= i → i ≠ j → lookupZ (<[Z.to_nat i := x]> l) j = lookupZ l j.
Proof.
  intros Hi Hne. unfold lookupZ. destruct (j <? 0) eqn:E; [reflexivity|].
  apply list_lookup_insert_ne. lia.
Qed.

Lemma lookupZ_Some {A} (l : list A) (i : Z) :
  0 <= i < Z.of_nat (length l) → ∃ x, lookupZ l i = Some x.
Proof.
  intros H. unfold lookupZ. destruct (i <? 0) eqn:E; [lia|].
  apply lookup_lt_is_Some. lia.
Qed.

Lemma lookupZ_range {A} (l : list A) (i : Z) (x : A) :
  lookupZ l i = Some x → 0 <= i < Z.of_nat (length l).
Proof.
  unfold lookupZ. destruct (i <? 0) eqn:E; [discriminate|]. intros H.
  apply lookup_lt_Some in H. blia.
Qed.

Lemma insertZ_Some {A} (l : list A) (i : Z) (x : A) :
  0 <= i < Z.of_nat (length l) → insertZ l i x = Some (<[Z.to_nat i := x]> l).
Proof.
  intros H. unfold insertZ.
  replace ((0 <=? i) && (i <? Z.of_nat (length l))) with true; [reflexivity|].
  symmetry. apply andb_true_intro. split; [apply Z.leb_le|apply Z.ltb_lt]; lia.
Qed.

(** ** Allocation of segment identifiers *)

Lemma scan_free_spec (slots : list (option SegmentObj)) (seg : Z) :
  seg <= scan_free slots seg <= seg + Z.of_nat (length slots)
  ∧ (∀ k : nat, seg + Z.of_nat k < scan_free slots seg → ∃ o, slots !! k = Some (Some o))
  ∧ (scan_free slots seg < seg + Z.of_nat (length slots) →
     slots !! Z.to_nat (scan_free slots seg - seg) = Some None).
Proof.
  revert seg. induction slots as [|[o|] rest IH]; intros seg; simpl.
  - split; [lia|]. split; [intros k Hk; lia | intros Hlt; lia].
  - destruct (IH (seg + 1)) as (Hrange & Hocc & Hfree).
    split; [lia|]. split.
    + intros [|k] Hk; simpl; [eauto|]. apply Hocc. lia.
    + intros Hlt.
      replace (Z.to_nat (scan_free rest (seg + 1) - seg))
        with (S (Z.to_nat (scan_free rest (seg + 1) - (seg + 1)))) by lia.
      simpl. apply Hfree. lia.
  - split; [lia|]. split.
    + intros k Hk. lia.
    + intros _. replace (seg - seg) with 0 by lia. reflexivity.
Qed.

Lemma lookupZ_drop1 {A} (l : list A) (j : Z) :
  1 <= j → lookupZ l j = drop 1 l !! Z.to_nat (j - 1).
Proof.
  intros Hj. unfold lookupZ. destruct (j <? 0) eqn:E; [lia|].
  rewrite lookup_drop. f_equal. lia.
Qed.

(** The scan of [findFreeSegment]: the least identifier from 1 on whose slot
    is empty or lies past the end of the directory. *)
Lemma findFreeSegment_spec (sm : SegManager) :
  heap_size sm <= 65535 →
  ∃ id, findFreeSegment sm = Ok id sm
        ∧ 1 <= id
        ∧ id <= Z.max 1 (heap_size sm)
        ∧ (∀ j, 1 <= j < id → ∃ o, lookupZ (_heap sm) j = Some (Some o))
        ∧ (id < heap_size sm → lookupZ (_heap sm) id = Some None).
Proof.
  intros Hsize. unfold findFreeSegment. unfold_sm.
  destruct (scan_free_spec (drop 1 (_heap sm)) 1) as (Hrange & Hocc & Hfree).
  rewrite length_drop in Hrange, Hfree. unfold heap_size in *.
  set (id := scan_free (drop 1 (_heap sm)) 1) in *.
  destruct (id <? 65536) eqn:E; [|lia].
  exists id. split; [reflexivity|]. split; [lia|]. split; [lia|]. split.
  - intros j Hj. rewrite lookupZ_drop1 by lia.
    destruct (Hocc (Z.to_nat (j - 1))) as [o Ho]; [lia|]. eauto.
  - intros Hlt. rewrite lookupZ_drop1 by lia. apply Hfree. lia.
Qed.

Lemma insertZ_lookup {A} (l l' : list A) (i : Z) (x : A) :
  insertZ l i x = Some l' →
  lookupZ l' i = Some x ∧ length l' = length l
  ∧ ∀ j, j ≠ i → lookupZ l' j = lookupZ l j.
Proof.
  unfold insertZ, lookupZ. intros H.
  destruct ((0 <=? i) && (i <? Z.of_nat (length l))) eqn:E; [|discriminate].
  injection H as <-. apply andb_prop in E as [E1 E2].
  destruct (i <? 0) eqn:E3; [lia|]. repeat split.
  - apply list_lookup_insert_eq. lia.
  - apply length_insert.
  - intros j Hj. destruct (j <? 0) eqn:Ej; [reflexivity|].
    apply list_lookup_insert_ne. lia.
Qed.

Lemma deallocate_frees (env : Env) (fuel : nat) (seg : SegmentId) (sm sm' : SegManager) :
  deallocate env fuel seg sm = Ok tt sm' →
  lookupZ (_heap sm') (getActualSegment env seg) = Some None
  ∧ 1 <= getActualSegment env seg < heap_size sm'.
Proof.
  destruct fuel as [|fuel]; simpl; [discriminate|].
  set (a := getActualSegment env seg). unfold_sm.
  destruct ((a <? 1) || (heap_size sm <=? a)) eqn:Erange; [discriminate|].
  destruct (lookupZ (_heap sm) a) as [[o|]|]; try discriminate.
  match goal with
  | |- match ?m with _ => _ end = _ → _ => destruct m as [[] sm1|e]; [|discriminate]
  end.
  destruct (insertZ (_heap sm1) a None) as [h|] eqn:Eput; [|discriminate].
  intros H. injection H as <-. simpl.
  destruct (insertZ_lookup _ _ _ _ Eput) as (Hl & Hlen & _).
  split; [exact Hl|].
  unfold insertZ in Eput.
  destruct ((0 <=? a) && (a <? Z.of_nat (length (_heap sm1)))) eqn:E; [|discriminate].
  apply andb_prop in E as [E1 E2]. apply orb_false_elim in Erange as [E3 E4].
  unfold heap_size. simpl. lia.
Qed.

Lemma allocSegment_spec (sm : SegManager) (mobj : SegmentObj) :
  1 <= heap_size sm <= 65535 →
  ∃ id sm', allocSegment (Some mobj) sm = Ok id sm'
     ∧ 1 <= id <= heap_size sm
     ∧ (∀ j, 1 <= j < id → ∃ o, lookupZ (_heap sm) j = Some (Some o))
     ∧ (id < heap_size sm → lookupZ (_heap sm) id = Some None
                            ∧ heap_size sm' = heap_size sm)
     ∧ (heap_size sm <= id → heap_size sm' = heap_size sm + 1)
     ∧ lookupZ (_heap sm') id = Some (Some mobj)
     ∧ (∀ j, j ≠ id → j < heap_size sm → lookupZ (_heap sm') j = lookupZ (_heap sm) j)
     ∧ _scriptSegMap sm' = _scriptSegMap sm ∧ _classTable sm' = _classTable sm
     ∧ memory sm' = memory sm ∧ warnings sm' = warnings sm.
Proof.
  intros Hsize.
  destruct (findFreeSegment_spec sm (proj2 Hsize)) as (id & Hfind & H1 & Hmax & Hocc & Hfree).
  exists id. unfold allocSegment. unfold bind at 1. rewrite Hfind. unfold_sm.
  destruct (heap_size sm <=? id) eqn:Egrow.
  - assert (Hid : id = heap_size sm) by blia.
    rewrite <- Hid, Z.eqb_refl. simpl.
    rewrite insertZ_Some by (rewrite length_app; unfold heap_size in *; simpl; lia).
    eexists. split; [reflexivity|]. simpl. unfold heap_size in *. simpl.
    rewrite length_insert, length_app. simpl.
    split; [lia|]. split; [exact Hocc|]. split; [lia|]. split; [lia|].
    split; [apply lookupZ_insert_eq; rewrite length_app; simpl; lia|].
    split; [|repeat split].
    intros j Hj Hlt. rewrite lookupZ_insert_ne by lia.
    unfold lookupZ. destruct (j <? 0) eqn:Ej; [reflexivity|].
    apply lookup_app_l. lia.
  - simpl. prop_of_bool. rewrite insertZ_Some by (unfold heap_size in *; lia).
    eexists. split; [reflexivity|]. simpl. unfold heap_size in *. simpl.
    rewrite length_insert.
    split; [lia|]. split; [exact Hocc|]. split; [intros _; split; [apply Hfree; lia|reflexivity]|].
    split; [lia|].
    split; [apply lookupZ_insert_eq; lia|].
    split; [|repeat split].
    intros j Hj _. apply lookupZ_insert_ne; lia.
Qed.

(** C9. [allocSegment] takes the least identifier from 1 on whose slot is
    empty; the directory grows, by one slot, only when there is none.  So in
    the fresh directory the first identifier is 1, and once identifier 1 has
    been deallocated the next [allocSegment] returns 1 again, whatever has
    been allocated since, and leaves the size of the directory as it is.
    (Slot 0, the sentinel, is always there.) *)
Theorem allocSegment_reuses_first_free (env : Env) (sm : SegManager) (mobj : SegmentObj) :
  1 <= heap_size sm <= 65535 →
  (∃ id sm', allocSegment (Some mobj) sm = Ok id sm'
     ∧ 1 <= id
     ∧ (∀ j, 1 <= j < id → ∃ o, lookupZ (_heap sm) j = Some (Some o))
     ∧ (id < heap_size sm → lookupZ (_heap sm) id = Some None
                            ∧ heap_size sm' = heap_size sm)
     ∧ (heap_size sm <= id → heap_size sm' = heap_size sm + 1)
     ∧ lookupZ (_heap sm') id = Some (Some mobj)
     ∧ (∀ j, j ≠ id → j < heap_size sm → lookupZ (_heap sm') j = lookupZ (_heap sm) j))
  ∧ (∃ sm', allocSegment (Some mobj) fresh_manager = Ok 1 sm')
  ∧ (∀ fuel sm0, deallocate env fuel 1 sm0 = Ok tt sm →
       ∃ sm', allocSegment (Some mobj) sm = Ok 1 sm' ∧ heap_size sm' = heap_size sm).
Proof.
  intros Hsize.
  destruct (allocSegment_spec sm mobj Hsize)
    as (id & sm' & Hal & H1 & Hocc & Hfree & Hgrow & Hnew & Hother & _).
  split; [|split].
  - exists id, sm'. repeat split; try assumption; try lia; apply Hfree; assumption.
  - eexists. vm_compute. reflexivity.
  - intros fuel sm0 Hdealloc.
    destruct (deallocate_frees env fuel 1 sm0 sm Hdealloc) as [Hnone Hrange].
    assert (Ha : getActualSegment env 1 = 1).
    { unfold getActualSegment. destruct (_ <=? _); reflexivity. }
    rewrite Ha in *.
    assert (id = 1).
    { destruct (decide (id = 1)) as [|Hne]; [assumption|].
      destruct (Hocc 1) as [o Ho]; [lia|]. congruence. }
    subst id. exists sm'. split; [exact Hal|]. apply Hfree. lia.
Qed.

Lemma allocSegment_reuses_first_free_witness :
  (∃ id sm', allocSegment (Some (DataObj SEG_TYPE_HUNK (byte_view 2 0))) sample_manager = Ok id sm'
     ∧ 1 <= id
     ∧ (∀ j, 1 <= j < id → ∃ o, lookupZ (_heap sample_manager) j = Some (Some o))
     ∧ (id < heap_size sample_manager → lookupZ (_heap sample_manager) id = Some None
                            ∧ heap_size sm' = heap_size sample_manager)
     ∧ (heap_size sample_manager <= id → heap_size sm' = heap_size sample_manager + 1)
     ∧ lookupZ (_heap sm') id = Some (Some (DataObj SEG_TYPE_HUNK (byte_view 2 0)))
     ∧ (∀ j, j ≠ id → j < heap_size sample_manager →
          lookupZ (_heap sm') j = lookupZ (_heap sample_manager) j))
  ∧ (∃ sm', allocSegment (Some (DataObj SEG_TYPE_HUNK (byte_view 2 0))) fresh_manager = Ok 1 sm')
  ∧ (∀ fuel sm0, deallocate (sample_env 8 (fun _ => None)) fuel 1 sm0 = Ok tt sample_manager →
       ∃ sm', allocSegment (Some (DataObj SEG_TYPE_HUNK (byte_view 2 0))) sample_manager = Ok 1 sm'
              ∧ heap_size sm' = heap_size sample_manager).
Proof.
  apply (allocSegment_reuses_first_free (sample_env 8 (fun _ => None)) sample_manager
           (DataObj SEG_TYPE_HUNK (byte_view 2 0))).
  vm_compute. split; discriminate.
Defined.

(** The scenario of slot reuse, run: two allocations in the fresh directory
    get 1 and 2; after [deallocate(1)] the next two get 1 and then 3. *)
Example allocSegment_scenario :
  ∃ sm',
    (id1 <- allocSegment (Some (DataObj SEG_TYPE_DYNMEM (byte_view 0 4)));;
     id2 <- allocSegment (Some (DataObj SEG_TYPE_LOCALS (cell_view 1 2)));;
     deallocate (sample_env 8 (fun _ => None)) 1 id1;;
     id3 <- allocSegment (Some (DataObj SEG_TYPE_HUNK (byte_view 2 0)));;
     id4 <- allocSegment (Some (DataObj SEG_TYPE_HUNK (byte_view 3 0)));;
     ret [id1; id2; id3; id4]) fresh_manager
    = Ok [1; 2; 1; 3] sm'.
Proof. eexists. vm_compute. reflexivity. Qed.

(** ** Bytes in cells *)

Lemma to_byte_mod (z : Z) : to_byte z = z mod 256.
Proof. unfold to_byte. change 255 with (Z.ones 8). rewrite Z.land_ones by lia. reflexivity. Qed.

Lemma to_byte_small (z : Z) : 0 <= z < 256 → to_byte z = z.
Proof. intros H. rewrite to_byte_mod. apply Z.mod_small. exact H. Qed.

Lemma to_byte_range (z : Z) : 0 <= to_byte z < 256.
Proof. rewrite to_byte_mod. apply Z.mod_pos_bound. lia. Qed.

Lemma to_byte_idem (z : Z) : to_byte (to_byte z) = to_byte z.
Proof. apply to_byte_small, to_byte_range. Qed.

Lemma shiftr8_small (z : Z) : 0 <= z < 256 → Z.shiftr z 8 = 0.
Proof. intros H. rewrite Z.shiftr_div_pow2 by lia. apply Z.div_small. exact H. Qed.

Lemma cell_get_set_same (val : reg_t) (o : bool) (v : Z) :
  0 <= v < 256 → cell_get (cell_set val o v) o = v.
Proof.
  intros Hv. unfold cell_get, cell_set. destruct o; simpl.
  - rewrite Z.shiftr_lor, Z.shiftr_shiftl_l by lia. simpl.
    rewrite shiftr8_small by (fold (to_byte (getOffset val)); apply to_byte_range).
    rewrite Z.shiftl_0_r. simpl. apply to_byte_small. exact Hv.
  - unfold to_byte. rewrite <- Z.land_assoc. change (Z.land 255 255) with 255.
    rewrite Z.land_lor_distr_l.
    rewrite <- Z.land_assoc. change (Z.land 65280 255) with 0. rewrite Z.land_0_r. simpl.
    apply to_byte_small. exact Hv.
Qed.

Lemma cell_get_set_other (val : reg_t) (o : bool) (v : Z) :
  0 <= v < 256 → cell_get (cell_set val o v) (negb o) = cell_get val (negb o).
Proof.
  intros Hv. unfold cell_get, cell_set. destruct o; simpl.
  - unfold to_byte. rewrite <- !Z.land_assoc. change (Z.land 255 255) with 255.
    rewrite Z.land_lor_distr_l.
    rewrite <- Z.land_assoc. change (Z.land 255 255) with 255.
    replace (Z.land (Z.shiftl v 8) 255) with 0; [apply Z.lor_0_r|].
    change 255 with (Z.ones 8). rewrite Z.land_ones, Z.shiftl_mul_pow2 by lia.
    symmetry. apply Z.mod_mul. lia.
  - rewrite Z.shiftr_lor, Z.shiftr_land, (shiftr8_small v) by exact Hv.
    rewrite Z.lor_0_r. change (Z.shiftr 65280 8) with 255.
    fold (to_byte (Z.shiftr (getOffset val) 8)). apply to_byte_idem.
Qed.

Arguments for_pos : simpl never.
Arguments for_upto : simpl never.

(** ** A rule for counted loops *)

Lemma for_nat_rule {A} (I Q : Z → A → SegManager → Prop)
    (body : Z → A → M (bool * A)) (k : nat) (i0 : Z) (a0 : A) (sm0 : SegManager) :
  I i0 a0 sm0 →
  (∀ i a sm, i0 <= i < i0 + Z.of_nat k → I i a sm →
     ∃ b a' sm', body i a sm = Ok (b, a') sm'
                 ∧ if b then Q (i + 1) a' sm' else I (i + 1) a' sm') →
  ∃ b j a sm', for_nat k body i0 a0 sm0 = Ok (b, j, a) sm'
               ∧ if b then Q j a sm' else j = i0 + Z.of_nat k ∧ I j a sm'.
Proof.
  revert i0 a0 sm0. induction k as [|k IH]; intros i0 a0 sm0 Hinit Hstep.
  - exists false, i0, a0, sm0. split; [reflexivity|]. split; [lia|exact Hinit].
  - destruct (Hstep i0 a0 sm0) as (b & a' & sm' & Hbody & Hpost); [lia|exact Hinit|].
    cbn [for_nat]. unfold bind. rewrite Hbody. simpl. destruct b.
    + exists true, (i0 + 1), a', sm'. split; [reflexivity|exact Hpost].
    + destruct (IH (i0 + 1) a' sm' Hpost) as (b & j & a & sm'' & Hrun & Hend).
      { intros i a1 sm1 Hi. apply Hstep. lia. }
      exists b, j, a, sm''. split; [exact Hrun|].
      destruct b; [exact Hend|]. destruct Hend as [-> HI]. split; [lia|exact HI].
Qed.

Lemma for_upto_rule {A} (I Q : Z → A → SegManager → Prop)
    (body : Z → A → M (bool * A)) (n : Z) (a0 : A) (sm0 : SegManager) :
  0 <= n →
  I 0 a0 sm0 →
  (∀ i a sm, 0 <= i < n → I i a sm →
     ∃ b a' sm', body i a sm = Ok (b, a') sm'
                 ∧ if b then Q (i + 1) a' sm' else I (i + 1) a' sm') →
  ∃ b j a sm', for_upto n body a0 sm0 = Ok (b, j, a) sm'
               ∧ if b then Q j a sm' else j = n ∧ I j a sm'.
Proof.
  intros Hn Hinit Hstep. rewrite for_upto_unary.
  destruct (for_nat_rule I Q body (Z.to_nat n) 0 a0 sm0 Hinit) as (b & j & a & sm' & Hrun & Hend).
  { intros i a sm Hi. apply Hstep. lia. }
  exists b, j, a, sm'. split; [exact Hrun|].
  destruct b; [exact Hend|]. destruct Hend as [-> HI]. split; [lia|exact HI].
Qed.

(** ** Reads and writes through a view *)

Lemma same_shape_refl (m : list Block) : same_shape m m.
Proof. intros b. destruct (m !! b) as [[x|x]|]; reflexivity. Qed.

Lemma same_shape_trans (m1 m2 m3 : list Block) :
  same_shape m1 m2 → same_shape m2 m3 → same_shape m1 m3.
Proof.
  intros H12 H23 b. specialize (H12 b). specialize (H23 b).
  destruct (m1 !! b) as [[x|x]|], (m2 !! b) as [[y|y]|], (m3 !! b) as [[z|z]|];
    try contradiction; try congruence; exact I.
Qed.

Lemma view_ok_same_shape (m m' : list Block) (r : SegmentRef) :
  same_shape m m' → view_ok m' r = view_ok m r.
Proof.
  intros Hs. unfold view_ok. destruct (raw r) as [p|]; [|reflexivity].
  specialize (Hs p.1).
  destruct (m !! p.1) as [[x|x]|], (m' !! p.1) as [[y|y]|]; try contradiction;
    try rewrite Hs; reflexivity.
Qed.

Lemma frame_refl (sm : SegManager) : frame sm sm.
Proof. repeat split. Qed.

Lemma frame_trans (sm1 sm2 sm3 : SegManager) : frame sm1 sm2 → frame sm2 sm3 → frame sm1 sm3.
Proof.
  intros [(H1 & H2 & H3) H4] [(H5 & H6 & H7) H8]. repeat split; congruence.
Qed.

Lemma same_directory_refl (sm : SegManager) : same_directory sm sm.
Proof. repeat split. Qed.

Lemma same_directory_trans (sm1 sm2 sm3 : SegManager) :
  same_directory sm1 sm2 → same_directory sm2 sm3 → same_directory sm1 sm3.
Proof. intros (H1 & H2 & H3) (H5 & H6 & H7). repeat split; congruence. Qed.

Lemma frame_same_directory (sm sm' : SegManager) : frame sm sm' → same_directory sm sm'.
Proof. intros [H _]. exact H. Qed.




Lemma same_shape_insert_bytes (m : list Block) (b : nat) (x y : list Z) :
  m !! b = Some (Bytes x) → length y = length x → same_shape m (<[b := Bytes y]> m).
Proof.
  intros Hb Hlen c. destruct (decide (b = c)) as [<-|Hne].
  - rewrite Hb, list_lookup_insert_eq by (eapply lookup_lt_Some; exact Hb). congruence.
  - rewrite list_lookup_insert_ne by exact Hne. destruct (m !! c) as [[z|z]|]; reflexivity.
Qed.

Lemma same_shape_insert_cells (m : list Block) (b : nat) (x y : list reg_t) :
  m !! b = Some (Cells x) → length y = length x → same_shape m (<[b := Cells y]> m).
Proof.
  intros Hb Hlen c. destruct (decide (b = c)) as [<-|Hne].
  - rewrite Hb, list_lookup_insert_eq by (eapply lookup_lt_Some; exact Hb). congruence.
  - rewrite list_lookup_insert_ne by exact Hne. destruct (m !! c) as [[z|z]|]; reflexivity.
Qed.

Lemma view_ok_raw (m : list Block) (r : SegmentRef) :
  view_ok m r = true → isRaw r = true →
  ∃ p bs, raw r = Some p ∧ m !! p.1 = Some (Bytes bs)
          ∧ 0 <= p.2 ∧ 0 <= maxSize r < 2147483648
          ∧ p.2 + maxSize r <= Z.of_nat (length bs).
Proof.
  unfold view_ok. intros H Hraw. destruct (raw r) as [p|]; [|discriminate].
  rewrite Hraw in H.
  destruct (m !! p.1) as [[bs|rs]|] eqn:Hb; simpl in H;
    rewrite ?andb_false_r in H; try discriminate.
  exists p, bs. prop_of_bool. repeat split; try reflexivity; try assumption; lia.
Qed.

Lemma view_ok_cells (m : list Block) (r : SegmentRef) :
  view_ok m r = true → isRaw r = false →
  ∃ p rs, raw r = Some p ∧ m !! p.1 = Some (Cells rs)
          ∧ 0 <= p.2 ∧ 0 <= maxSize r < 2147483648
          ∧ 2 * p.2 + (if skipByte r then 1 else 0) + maxSize r <= 2 * Z.of_nat (length rs).
Proof.
  unfold view_ok. intros H Hraw. destruct (raw r) as [p|]; [|discriminate].
  rewrite Hraw in H.
  destruct (m !! p.1) as [[bs|rs]|] eqn:Hb; simpl in H;
    rewrite ?andb_false_r in H; try discriminate.
  exists p, rs. prop_of_bool. repeat split; try reflexivity; try assumption; lia.
Qed.

Lemma write_byte_stored (env : Env) (sm : SegManager) (r : SegmentRef) (i v : Z) :
  view_ok (memory sm) r = true → isRaw r = true → 0 <= i < maxSize r →
  ∃ sm', write_byte (raw r) i v sm = Ok tt sm' ∧ frame sm sm'
         ∧ stored env (memory sm) (memory sm') r i v.
Proof.
  intros Hok Hraw Hi.
  destruct (view_ok_raw _ _ Hok Hraw) as (p & bs & Hp & Hb & Hp2 & Hmax & Hlen).
  unfold write_byte, store_byte, addr_add. rewrite Hp. simpl. rewrite Hb.
  unfold insertZ. destruct ((0 <=? p.2 + i) && (p.2 + i <? Z.of_nat (length bs))) eqn:E.
  2:{ apply andb_false_iff in E as [E|E]; blia. }
  simpl. unfold set_memory. eexists. split; [reflexivity|]. split; [repeat split|].
  simpl. split; [|split].
  - apply (same_shape_insert_bytes _ _ bs); [exact Hb|]. apply length_insert.
  - unfold view_byte. rewrite Hp, Hraw. simpl. unfold load_byte, addr_add. simpl.
    rewrite list_lookup_insert_eq by (eapply lookup_lt_Some; exact Hb).
    apply lookupZ_insert_eq. blia.
  - intros j Hj. unfold view_byte. rewrite Hp, Hraw. simpl. unfold load_byte, addr_add. simpl.
    rewrite list_lookup_insert_eq by (eapply lookup_lt_Some; exact Hb). rewrite Hb.
    apply lookupZ_insert_ne; lia.
Qed.

Lemma half_parity (a b : Z) : a / 2 = b / 2 → a ≠ b → Z.odd a = negb (Z.odd b).
Proof.
  intros Hq Hne. pose proof (Z.div2_odd a) as Ha. pose proof (Z.div2_odd b) as Hb.
  rewrite Z.div2_div in Ha, Hb. rewrite Hq in Ha.
  destruct (Z.odd a), (Z.odd b); simpl in *; try reflexivity; lia.
Qed.

Lemma uint32_small (z : Z) : 0 <= z < 4294967296 → uint32 z = z.
Proof. intros H. unfold uint32. apply Z.mod_small. exact H. Qed.

Lemma setChar_stored (env : Env) (sm : SegManager) (r : SegmentRef) (i v : Z) :
  view_ok (memory sm) r = true → isRaw r = false → 0 <= i < maxSize r →
  ∃ sm', setChar env r i v sm = Ok tt sm' ∧ frame sm sm'
         ∧ stored env (memory sm) (memory sm') r i (to_byte v).
Proof.
  intros Hok Hraw Hi.
  destruct (view_ok_cells _ _ Hok Hraw) as (p & rs & Hp & Hb & Hp2 & Hmax & Hlen).
  unfold setChar.
  set (offset := if skipByte r then uint32 (i + 1) else i).
  assert (Hoff : offset = if skipByte r then i + 1 else i).
  { unfold offset. destruct (skipByte r); [apply uint32_small; lia|reflexivity]. }
  assert (Hq : 0 <= p.2 + offset / 2 < Z.of_nat (length rs)).
  { rewrite Hoff. destruct (skipByte r); Z.div_mod_to_equations; lia. }
  clearbody offset.
  destruct (lookupZ_Some rs (p.2 + offset / 2) Hq) as [c Hc].
  unfold bind, read_cell, write_cell, reg, load_cell, store_cell, addr_add.
  assert (E : (0 <=? p.2 + offset / 2) && (p.2 + offset / 2 <? Z.of_nat (length rs)) = true).
  { apply andb_true_intro. split; [apply Z.leb_le|apply Z.ltb_lt]; lia. }
  rewrite Hp. simpl. rewrite Hb, Hc. simpl. rewrite Hb.
  unfold insertZ. rewrite E.
  simpl. unfold set_memory. eexists. split; [reflexivity|]. split; [repeat split|].
  simpl.
  match goal with
  | |- stored _ _ (<[_ := Cells (<[_ := ?c']> _)]> _) _ _ _ =>
      assert (Hc' : c' = cell_set c (odd_half env offset) (to_byte v))
  end.
  { unfold cell_set, odd_half, setOffset, setSegment. simpl.
    destruct (isBE env), (Z.odd offset); reflexivity. }
  rewrite Hc'. clear Hc'.
  split; [|split].
  - apply (same_shape_insert_cells _ _ rs); [exact Hb|]. apply length_insert.
  - unfold view_byte. rewrite Hp, Hraw. simpl. rewrite <- Hoff.
    unfold load_cell, addr_add. simpl.
    rewrite list_lookup_insert_eq by (eapply lookup_lt_Some; exact Hb).
    rewrite lookupZ_insert_eq by lia. simpl. f_equal.
    apply cell_get_set_same, to_byte_range.
  - intros j Hj. unfold view_byte. rewrite Hp, Hraw. simpl.
    set (offj := if skipByte r then j + 1 else j).
    assert (Hne : offj ≠ offset). { unfold offj. rewrite Hoff. destruct (skipByte r); lia. }
    clearbody offj.
    unfold load_cell, addr_add. simpl.
    rewrite list_lookup_insert_eq by (eapply lookup_lt_Some; exact Hb). rewrite Hb.
    destruct (decide (offj / 2 = offset / 2)) as [Hsame|Hdiff].
    + rewrite Hsame, lookupZ_insert_eq by lia. rewrite Hc. simpl. f_equal.
      assert (Hpar : odd_half env offj = negb (odd_half env offset)).
      { unfold odd_half. rewrite (half_parity offj offset Hsame Hne).
        destruct (isBE env); [rewrite negb_involutive|]; reflexivity. }
      rewrite Hpar. apply cell_get_set_other, to_byte_range.
    + rewrite lookupZ_insert_ne by lia. reflexivity.
Qed.

Lemma getChar_view (env : Env) (sm : SegManager) (r : SegmentRef) (i b : Z) :
  isRaw r = false → 0 <= i < 2147483648 →
  view_byte env (memory sm) r i = Some b →
  ∃ sm', getChar env r i sm = Ok b sm' ∧ same_directory sm sm' ∧ memory sm' = memory sm.
Proof.
  intros Hraw Hi Hview. unfold view_byte in Hview.
  destruct (raw r) as [p|] eqn:Hp; [|discriminate]. simpl in Hview. rewrite Hraw in Hview.
  unfold getChar.
  replace (if skipByte r then uint32 (i + 1) else i) with (if skipByte r then i + 1 else i)
    by (destruct (skipByte r); [rewrite uint32_small by lia|]; reflexivity).
  set (offset := if skipByte r then i + 1 else i) in *. clearbody offset.
  destruct (load_cell (memory sm) (addr_add p (offset / 2))) as [c|] eqn:Hc; [|discriminate].
  simpl in Hview. injection Hview as <-.
  unfold bind, read_cell, reg. rewrite Hp, Hc. unfold cell_get, odd_half.
  unfold_sm.
  destruct (negb (getSegment c =? 0)); simpl;
    [destruct (negb ((getSegment c =? 65535) && (1 <? offset))); simpl|];
    eexists; (split; [reflexivity|]); split; try reflexivity; repeat split.
Qed.

Lemma read_byte_view (env : Env) (sm : SegManager) (r : SegmentRef) (p : addr) (i b : Z) :
  isRaw r = true → raw r = Some p →
  view_byte env (memory sm) r i = Some b →
  read_byte (byteptr_add (InMem p) i) sm = Ok b sm.
Proof.
  intros Hraw Hp Hview. unfold view_byte in Hview. rewrite Hp, Hraw in Hview. simpl in Hview.
  simpl. rewrite Hview. reflexivity.
Qed.

(** ** Pointers that resolve *)

Lemma warned_neq (sm : SegManager) (msg : string) : warned sm msg ≠ sm.
Proof.
  intros H. apply (f_equal (fun s => length (warnings s))) in H. simpl in H.
  rewrite length_app in H. simpl in H. lia.
Qed.

Lemma dereference_resolved (sm : SegManager) (p : reg_t) (r : SegmentRef) :
  dereference p sm = Ok r sm →
  getSegment p ≠ 0
  ∧ ∃ mobj, lookupZ (_heap sm) (getSegment p) = Some (Some mobj)
            ∧ r = SegmentObj_dereference mobj p.
Proof.
  unfold dereference. unfold_sm. fold (warned sm "SegManager::dereference(): Attempt to dereference invalid pointer").
  destruct ((getSegment p =? 0) || (heap_size sm <=? getSegment p)) eqn:E.
  { intros H. injection H as _ H. apply warned_neq in H. contradiction. }
  destruct (lookupZ (_heap sm) (getSegment p)) as [[mobj|]|]; try discriminate.
  - intros H. injection H as <-. split; [blia|]. eauto.
  - intros H. injection H as _ H. apply warned_neq in H. contradiction.
Qed.

Lemma dereference_same_heap (sm sm' : SegManager) (p : reg_t) (r : SegmentRef) :
  dereference p sm = Ok r sm → _heap sm' = _heap sm → dereference p sm' = Ok r sm'.
Proof.
  intros Hd Hh. pose proof Hd as Hd0. apply dereference_resolved in Hd as (Hne & mobj & Hl & ->).
  clear Hd0. unfold dereference. unfold_sm. unfold heap_size. rewrite Hh.
  destruct ((getSegment p =? 0) || (Z.of_nat (length (_heap sm)) <=? getSegment p)) eqn:E.
  { exfalso. apply orb_true_iff in E as [E|E]; prop_of_bool; [lia|].
    unfold lookupZ in Hl. destruct (getSegment p <? 0); [discriminate|].
    apply lookup_lt_Some in Hl. lia. }
  rewrite Hh, Hl. reflexivity.
Qed.

Lemma resolved_not_null (sm : SegManager) (p : reg_t) (r : SegmentRef) :
  dereference p sm = Ok r sm → isNull p = false.
Proof.
  intros H. apply dereference_resolved in H as [Hne _]. unfold isNull. apply Z.eqb_neq. exact Hne.
Qed.

Lemma view_ok_valid (m : list Block) (r : SegmentRef) : view_ok m r = true → isValid r = true.
Proof. unfold view_ok, isValid. destruct (raw r); [reflexivity|discriminate]. Qed.

(** ** Stores leave the other blocks alone *)

Lemma view_byte_elsewhere (env : Env) (m m' : list Block) (b : nat) (r : SegmentRef)
    (p : addr) (j : Z) :
  (∀ c, c ≠ b → m' !! c = m !! c) → raw r = Some p → p.1 ≠ b →
  view_byte env m' r j = view_byte env m r j.
Proof.
  intros Hoff Hp Hne. unfold view_byte. rewrite Hp. simpl.
  unfold load_byte, load_cell, addr_add. simpl. rewrite (Hoff p.1 Hne). reflexivity.
Qed.

Lemma write_byte_elsewhere (sm sm' : SegManager) (q : addr) (i v : Z) :
  write_byte (Some q) i v sm = Ok tt sm' →
  ∀ c, c ≠ q.1 → memory sm' !! c = memory sm !! c.
Proof.
  unfold write_byte, store_byte, addr_add. simpl.
  destruct (memory sm !! q.1) as [[bs|rs]|]; try discriminate.
  destruct (insertZ bs (q.2 + i) v) as [bs'|]; simpl; [|discriminate].
  unfold set_memory. intros H c Hc. injection H as <-. simpl.
  apply list_lookup_insert_ne. congruence.
Qed.

Lemma setChar_elsewhere (env : Env) (sm sm' : SegManager) (r : SegmentRef) (q : addr) (i v : Z) :
  raw r = Some q →
  setChar env r i v sm = Ok tt sm' →
  ∀ c, c ≠ q.1 → memory sm' !! c = memory sm !! c.
Proof.
  intros Hq. unfold setChar, bind, read_cell, write_cell, reg. rewrite Hq.
  destruct (load_cell (memory sm) _) as [c0|]; [|discriminate].
  unfold store_cell, addr_add. simpl.
  destruct (memory sm !! q.1) as [[bs|rs]|]; try discriminate.
  destruct (insertZ rs _ _) as [rs'|]; simpl; [|discriminate].
  unfold set_memory. intros H c Hc. injection H as <-. simpl.
  apply list_lookup_insert_ne. congruence.
Qed.

(** ** Writing a C string *)

Lemma literal_lookup (s : list Z) (i : Z) :
  cstring s → 0 <= i <= Z.of_nat (length s) →
  ∃ b, lookupZ (s ++ [0]) i = Some b ∧ 0 <= b < 256
       ∧ (b =? 0) = (i =? Z.of_nat (length s)).
Proof.
  intros Hs Hi. unfold lookupZ. destruct (i <? 0) eqn:E; [lia|].
  destruct (decide (i = Z.of_nat (length s))) as [->|Hne].
  - exists 0. rewrite Nat2Z.id, !Z.eqb_refl. split; [|split; [lia|reflexivity]].
    rewrite lookup_app_r by lia. rewrite Nat.sub_diag. reflexivity.
  - destruct (lookup_lt_is_Some_2 s (Z.to_nat i)) as [b Hb]; [lia|].
    exists b. rewrite lookup_app_l by lia. split; [exact Hb|].
    unfold cstring in Hs. rewrite Forall_lookup in Hs. specialize (Hs _ _ Hb).
    split; [lia|]. transitivity false; [apply Z.eqb_neq; lia|symmetry; apply Z.eqb_neq; exact Hne].
Qed.

Lemma strcpy_cstr_writes (env : Env) (sm : SegManager) (dest : reg_t) (dest_r : SegmentRef)
    (s : list Z) :
  dereference dest sm = Ok dest_r sm →
  view_ok (memory sm) dest_r = true →
  cstring s →
  Z.of_nat (length s) < maxSize dest_r →
  ∃ sm', strcpy_cstr env dest (literal s) sm = Ok tt sm'
         ∧ frame sm sm' ∧ same_shape (memory sm) (memory sm')
         ∧ (∀ j, 0 <= j <= Z.of_nat (length s) →
                 view_byte env (memory sm') dest_r j = lookupZ (s ++ [0]) j)
         ∧ (∀ j, j < 0 ∨ Z.of_nat (length s) < j →
                 view_byte env (memory sm') dest_r j = view_byte env (memory sm) dest_r j)
         ∧ (∀ c p, raw dest_r = Some p → c ≠ p.1 → memory sm' !! c = memory sm !! c).
Proof.
  intros Hd Hok Hs Hlen. unfold strcpy_cstr, strncpy_cstr. unfold bind at 1. rewrite Hd.
  rewrite (view_ok_valid _ _ Hok). change (negb true) with false. cbv beta iota.
  set (L := Z.of_nat (length s)) in *.
  assert (Hmax : 0 <= maxSize dest_r < 2147483648).
  { destruct (isRaw dest_r) eqn:Hraw.
    - destruct (view_ok_raw _ _ Hok Hraw) as (? & ? & ? & ? & ? & ? & ?). assumption.
    - destruct (view_ok_cells _ _ Hok Hraw) as (? & ? & ? & ? & ? & ? & ?). assumption. }
  pose (I := fun (i : Z) (_ : unit) (sm' : SegManager) =>
               0 <= i <= L ∧ frame sm sm' ∧ same_shape (memory sm) (memory sm')
               ∧ (∀ j, 0 <= j < i → view_byte env (memory sm') dest_r j = lookupZ (s ++ [0]) j)
               ∧ (∀ j, j < 0 ∨ i <= j →
                       view_byte env (memory sm') dest_r j = view_byte env (memory sm) dest_r j)
               ∧ (∀ c p, raw dest_r = Some p → c ≠ p.1 → memory sm' !! c = memory sm !! c)).
  pose (Q := fun (i : Z) (_ : unit) (sm' : SegManager) =>
               frame sm sm' ∧ same_shape (memory sm) (memory sm')
               ∧ (∀ j, 0 <= j <= L → view_byte env (memory sm') dest_r j = lookupZ (s ++ [0]) j)
               ∧ (∀ j, j < 0 ∨ L < j →
                       view_byte env (memory sm') dest_r j = view_byte env (memory sm) dest_r j)
               ∧ (∀ c p, raw dest_r = Some p → c ≠ p.1 → memory sm' !! c = memory sm !! c)).
  assert (Hinit : I 0 tt sm).
  { split; [lia|]. split; [apply frame_refl|]. split; [apply same_shape_refl|].
    split; [intros j Hj; lia|]. split; reflexivity. }
  assert (Hstep : ∀ i sm1 sm2 c,
            0 <= i < 4294967295 → I i tt sm1 →
            lookupZ (s ++ [0]) i = Some c → (c =? 0) = (i =? L) →
            frame sm1 sm2 → stored env (memory sm1) (memory sm2) dest_r i c →
            (∀ b p, raw dest_r = Some p → b ≠ p.1 → memory sm2 !! b = memory sm1 !! b) →
            if c =? 0 then Q (i + 1) tt sm2 else I (i + 1) tt sm2).
  { intros i sm1 sm2 c Hi (Hi1 & Hf & Hsh & Hbytes & Hrest & Hout) Hc Hc0 Hf2 (Hst & Hnew & Hold)
           Hout2.
    assert (Hall : ∀ j, 0 <= j < i + 1 →
              view_byte env (memory sm2) dest_r j = lookupZ (s ++ [0]) j).
    { intros j Hj. destruct (decide (j = i)) as [->|Hne]; [congruence|].
      rewrite Hold by exact Hne. apply Hbytes. lia. }
    assert (Hrest2 : ∀ j, j < 0 ∨ i + 1 <= j →
              view_byte env (memory sm2) dest_r j = view_byte env (memory sm) dest_r j).
    { intros j Hj. rewrite Hold by lia. apply Hrest. lia. }
    assert (Hout3 : ∀ b p, raw dest_r = Some p → b ≠ p.1 → memory sm2 !! b = memory sm !! b).
    { intros b p Hp Hb. rewrite (Hout2 b p Hp Hb). apply (Hout b p Hp Hb). }
    rewrite Hc0. destruct (i =? L) eqn:E; [unfold Q|unfold I].
    - apply Z.eqb_eq in E. split; [eapply frame_trans; eassumption|].
      split; [eapply same_shape_trans; eassumption|].
      split; [intros j Hj; apply Hall; lia|]. split; [intros j Hj; apply Hrest2; lia|exact Hout3].
    - apply Z.eqb_neq in E. split; [lia|]. split; [eapply frame_trans; eassumption|].
      split; [eapply same_shape_trans; eassumption|].
      split; [exact Hall|]. split; [exact Hrest2|exact Hout3]. }
  destruct (isRaw dest_r) eqn:Hraw.
  - (* byte storage: forwardCopy<true> *)
    unfold forwardCopy. change (true && negb (4294967295 =? 4294967295)) with false. cbv iota.
    unfold bind at 1.
    match goal with
    | |- ∃ _, match for_upto ?n ?body ?a ?st with _ => _ end = _ ∧ _ =>
        destruct (for_upto_rule I Q body n a st) as (b & j & a' & sm' & Hrun & Hend)
    end; [lia|exact Hinit| |].
    + intros i [] sm1 Hi HI. pose proof HI as (Hi1 & Hf & Hsh & _).
      destruct (literal_lookup s i Hs Hi1) as (c & Hc & Hcr & Hc0).
      unfold step, bind. simpl byteptr_add. unfold read_byte. rewrite Z.add_0_l, Hc. unfold ret at 1.
      destruct (write_byte_stored env sm1 dest_r i c) as (sm2 & Hw & Hf2 & Hst);
        [rewrite (view_ok_same_shape _ _ _ Hsh); exact Hok | exact Hraw | lia |].
      rewrite Hw. unfold ret. simpl andb.
      eexists _, tt, sm2. split; [reflexivity|].
      apply (Hstep i sm1 sm2 c Hi HI Hc Hc0 Hf2 Hst).
      intros b p Hp Hb. rewrite Hp in Hw. apply (write_byte_elsewhere sm1 sm2 p i c Hw b Hb).
    + rewrite Hrun. destruct b.
      * destruct Hend as (Hf & Hsh & Hbytes & Hrest & Hout). exists sm'.
        split; [reflexivity|]. split; [exact Hf|]. split; [exact Hsh|].
        split; [exact Hbytes|]. split; [exact Hrest|exact Hout].
      * destruct Hend as (-> & Hbad & _). lia.
  - (* cell storage: setChar *)
    unfold bind at 1.
    match goal with
    | |- ∃ _, match for_upto ?n ?body ?a ?st with _ => _ end = _ ∧ _ =>
        destruct (for_upto_rule I Q body n a st) as (b & j & a' & sm' & Hrun & Hend)
    end; [lia|exact Hinit| |].
    + intros i [] sm1 Hi HI. pose proof HI as (Hi1 & Hf & Hsh & _).
      destruct (literal_lookup s i Hs Hi1) as (c & Hc & Hcr & Hc0).
      unfold step, bind. simpl byteptr_add. unfold read_byte. rewrite Z.add_0_l, Hc. unfold ret at 1.
      destruct (setChar_stored env sm1 dest_r i c) as (sm2 & Hw & Hf2 & Hst);
        [rewrite (view_ok_same_shape _ _ _ Hsh); exact Hok | exact Hraw | lia |].
      rewrite Hw. unfold ret. rewrite (to_byte_small c Hcr) in Hst.
      eexists _, tt, sm2. split; [reflexivity|].
      apply (Hstep i sm1 sm2 c Hi HI Hc Hc0 Hf2 Hst).
      intros b p Hp Hb. apply (setChar_elsewhere env sm1 sm2 dest_r p i c Hp Hw b Hb).
    + rewrite Hrun. destruct b.
      * destruct Hend as (Hf & Hsh & Hbytes & Hrest & Hout).
        replace (4294967295 <? uint32 (maxSize dest_r)) with false
          by (symmetry; apply Z.ltb_ge; rewrite uint32_small; lia).
        exists sm'.
        split; [reflexivity|]. split; [exact Hf|]. split; [exact Hsh|].
        split; [exact Hbytes|]. split; [exact Hrest|exact Hout].
      * destruct Hend as (-> & Hbad & _). lia.
Qed.

(** ** Reading a C string *)

Lemma take_snoc_lookupZ (s : list Z) (i b : Z) :
  0 <= i < Z.of_nat (length s) → lookupZ (s ++ [0]) i = Some b →
  take (Z.to_nat i) s ++ [b] = take (Z.to_nat (i + 1)) s.
Proof.
  intros Hi Hb. unfold lookupZ in Hb. destruct (i <? 0) eqn:E; [lia|].
  rewrite lookup_app_l in Hb by lia.
  replace (Z.to_nat (i + 1)) with (S (Z.to_nat i)) by lia.
  symmetry. apply take_S_r. exact Hb.
Qed.

Lemma getString_reads (env : Env) (sm : SegManager) (p : reg_t) (r : SegmentRef) (s : list Z) :
  dereference p sm = Ok r sm →
  view_ok (memory sm) r = true →
  cstring s →
  Z.of_nat (length s) < maxSize r →
  (∀ j, 0 <= j <= Z.of_nat (length s) →
        view_byte env (memory sm) r j = lookupZ (s ++ [0]) j) →
  ∃ sm', getString env p sm = Ok s sm' ∧ same_directory sm sm' ∧ memory sm' = memory sm.
Proof.
  intros Hd Hok Hs Hlen Hbytes. unfold getString.
  rewrite (resolved_not_null _ _ _ Hd). unfold bind at 1. rewrite Hd.
  rewrite (view_ok_valid _ _ Hok). change (negb true) with false. cbv beta iota.
  assert (Hmax : 0 <= maxSize r < 2147483648).
  { destruct (isRaw r) eqn:Hraw.
    - destruct (view_ok_raw _ _ Hok Hraw) as (? & ? & ? & ? & ? & ? & ?). assumption.
    - destruct (view_ok_cells _ _ Hok Hraw) as (? & ? & ? & ? & ? & ? & ?). assumption. }
  destruct (isRaw r) eqn:Hraw.
  - (* byte storage: strnlen, then the bytes *)
    destruct (view_ok_raw _ _ Hok Hraw) as (a & bs & Ha & _).
    unfold bind at 1. unfold strnlen. unfold bind at 1.
    rewrite (uint32_small (maxSize r)) by lia.
    match goal with
    | |- ∃ _, match match for_upto ?n ?body ?a0 ?st with _ => _ end with _ => _ end = _ ∧ _ =>
        destruct (for_upto_rule
                    (fun i (_ : unit) sm' => 0 <= i <= Z.of_nat (length s) ∧ sm' = sm)
                    (fun i (_ : unit) sm' => i = Z.of_nat (length s) + 1 ∧ sm' = sm)
                    body n a0 st) as (b & j & a' & sm' & Hrun & Hend)
    end; [lia|split; [lia|reflexivity]| |].
    + intros i [] sm1 Hi (Hi1 & ->).
      destruct (literal_lookup s i Hs Hi1) as (c & Hc & Hcr & Hc0).
      unfold step, bind. rewrite Ha. unfold raw_ptr, ret at 1.
      rewrite (read_byte_view env sm r a i c Hraw Ha) by (rewrite Hbytes by lia; exact Hc).
      unfold ret. rewrite Hc0. eexists _, tt, sm. split; [reflexivity|].
      destruct (i =? Z.of_nat (length s)) eqn:E; prop_of_bool; split; try reflexivity; lia.
    + rewrite Hrun. destruct b; [|destruct Hend as (-> & Hbad & _); lia].
      destruct Hend as (-> & ->). unfold ret. simpl fst. simpl snd. cbv iota.
      replace (Z.of_nat (length s) + 1 - 1) with (Z.of_nat (length s)) by lia.
      unfold String_of. unfold bind.
      match goal with
      | |- ∃ _, match for_upto ?n ?body ?a0 ?st with _ => _ end = _ ∧ _ =>
          destruct (for_upto_rule
                      (fun i acc sm' => 0 <= i <= Z.of_nat (length s)
                                        ∧ acc = take (Z.to_nat i) s ∧ sm' = sm)
                      (fun _ _ _ => False)
                      body n a0 st) as (b & j & acc & sm' & Hrun2 & Hend)
      end; [lia|split; [lia|split; reflexivity]| |].
      * intros i acc sm1 Hi (Hi1 & -> & ->).
        destruct (literal_lookup s i Hs) as (c & Hc & Hcr & Hc0); [lia|].
        unfold bind. rewrite Ha. unfold raw_ptr, ret at 1.
        rewrite (read_byte_view env sm r a i c Hraw Ha) by (rewrite Hbytes by lia; exact Hc).
        unfold ret. eexists false, _, sm. split; [reflexivity|].
        split; [lia|]. split; [|reflexivity]. apply take_snoc_lookupZ; [lia|exact Hc].
      * rewrite Hrun2. destruct b; [contradiction|]. destruct Hend as (-> & _ & -> & ->).
        exists sm. split; [|split; [apply same_directory_refl|reflexivity]].
        simpl. rewrite Nat2Z.id, firstn_all. reflexivity.
  - (* cell storage: getChar until the zero byte *)
    unfold bind at 1. rewrite (uint32_small (maxSize r)) by lia.
    match goal with
    | |- ∃ _, match for_upto ?n ?body ?a0 ?st with _ => _ end = _ ∧ _ =>
        destruct (for_upto_rule
                    (fun i acc sm' => 0 <= i <= Z.of_nat (length s)
                                      ∧ acc = take (Z.to_nat i) s
                                      ∧ same_directory sm sm' ∧ memory sm' = memory sm)
                    (fun _ acc sm' => acc = s ∧ same_directory sm sm' ∧ memory sm' = memory sm)
                    body n a0 st) as (b & j & acc & sm' & Hrun & Hend)
    end; [lia|split; [lia|split; [reflexivity|split; [apply same_directory_refl|reflexivity]]]| |].
    + intros i acc sm1 Hi (Hi1 & -> & Hdir & Hmem).
      destruct (literal_lookup s i Hs Hi1) as (c & Hc & Hcr & Hc0).
      destruct (getChar_view env sm1 r i c Hraw) as (sm2 & Hg & Hdir2 & Hmem2);
        [lia|rewrite Hmem, Hbytes by lia; exact Hc|].
      unfold bind. rewrite Hg, Hc0.
      destruct (i =? Z.of_nat (length s)) eqn:E; prop_of_bool; unfold ret.
      * eexists true, _, sm2. split; [reflexivity|]. subst i.
        rewrite Nat2Z.id, firstn_all.
        split; [reflexivity|]. split; [eapply same_directory_trans; eassumption|congruence].
      * eexists false, _, sm2. split; [reflexivity|]. split; [lia|].
        split; [apply take_snoc_lookupZ; [lia|exact Hc]|].
        split; [eapply same_directory_trans; eassumption|congruence].
    + rewrite Hrun. destruct b; [|destruct Hend as (-> & Hbad & _); lia].
      destruct Hend as (-> & Hdir & Hmem). exists sm'. repeat split; try apply Hdir; assumption.
Qed.

Lemma dereference_frame (sm sm0 : SegManager) (p : reg_t) (r : SegmentRef) :
  dereference p sm = Ok r sm0 → same_directory sm sm0 ∧ memory sm0 = memory sm.
Proof.
  unfold dereference. unfold_sm.
  destruct ((getSegment p =? 0) || (heap_size sm <=? getSegment p)).
  { intros H. injection H as _ <-. repeat split. }
  destruct (lookupZ (_heap sm) (getSegment p)) as [[mobj|]|]; try discriminate;
    intros H; injection H as _ <-; repeat split.
Qed.

(** ** Round trip of a string *)

(** C3, as the code has it.  For a destination that resolves to a view
    within its storage, of bytes or of cells, and a source string shorter
    than the bound of the view (so the lengths 0 and 1 under a bound of at
    least 2), [strcpy_] followed by [getString] returns the bytes of the
    source up to its terminator.  The copy writes the string and its
    terminator at the start of the view and nothing else: the bytes the view
    shows before and behind them read as before, every other block of host
    memory is as it was, no block changes size and the directory is
    untouched.  [strcpy_] copies with the count [0xFFFFFFFF] and compares
    nothing with the bound of the destination. *)
Theorem strcpy_getString_roundtrip (env : Env) (sm : SegManager) (dest : reg_t)
    (dest_r : SegmentRef) (s : list Z) :
  dereference dest sm = Ok dest_r sm →
  view_ok (memory sm) dest_r = true →
  cstring s →
  Z.of_nat (length s) < maxSize dest_r →
  ∃ sm1 sm2, strcpy_cstr env dest (literal s) sm = Ok tt sm1
             ∧ getString env dest sm1 = Ok s sm2
             ∧ same_directory sm sm1
             ∧ same_shape (memory sm) (memory sm1)
             ∧ (∀ j, 0 <= j <= Z.of_nat (length s) →
                  view_byte env (memory sm1) dest_r j = lookupZ (s ++ [0]) j)
             ∧ (∀ j, j < 0 ∨ Z.of_nat (length s) < j →
                  view_byte env (memory sm1) dest_r j = view_byte env (memory sm) dest_r j)
             ∧ (∀ c p, raw dest_r = Some p → c ≠ p.1 → memory sm1 !! c = memory sm !! c).
Proof.
  intros Hd Hok Hs Hlen.
  destruct (strcpy_cstr_writes env sm dest dest_r s Hd Hok Hs Hlen)
    as (sm1 & Hcopy & Hf & Hsh & Hbytes & Hrest & Hout).
  destruct (getString_reads env sm1 dest dest_r s) as (sm2 & Hget & _ & _).
  - apply (dereference_same_heap sm); [exact Hd|apply Hf].
  - rewrite (view_ok_same_shape _ _ _ Hsh). exact Hok.
  - exact Hs.
  - exact Hlen.
  - exact Hbytes.
  - exists sm1, sm2. split; [exact Hcopy|]. split; [exact Hget|]. split; [apply Hf|].
    split; [exact Hsh|]. split; [exact Hbytes|]. split; [exact Hrest|exact Hout].
Qed.

Lemma strcpy_getString_roundtrip_witness :
  ∃ sm1 sm2, strcpy_cstr (sample_env 8 (fun _ => None)) (make_reg 2 1) (literal [104; 105])
               sample_manager = Ok tt sm1
             ∧ getString (sample_env 8 (fun _ => None)) (make_reg 2 1) sm1 = Ok [104; 105] sm2
             ∧ same_directory sample_manager sm1
             ∧ same_shape (memory sample_manager) (memory sm1)
             ∧ (∀ j, 0 <= j <= Z.of_nat (length [104; 105]) →
                  view_byte (sample_env 8 (fun _ => None)) (memory sm1)
                    (cell_view 1 2 (make_reg 2 1)) j = lookupZ ([104; 105] ++ [0]) j)
             ∧ (∀ j, j < 0 ∨ Z.of_nat (length [104; 105]) < j →
                  view_byte (sample_env 8 (fun _ => None)) (memory sm1)
                    (cell_view 1 2 (make_reg 2 1)) j
                  = view_byte (sample_env 8 (fun _ => None)) (memory sample_manager)
                      (cell_view 1 2 (make_reg 2 1)) j)
             ∧ (∀ c p, raw (cell_view 1 2 (make_reg 2 1)) = Some p → c ≠ p.1 →
                  memory sm1 !! c = memory sample_manager !! c).
Proof.
  apply (strcpy_getString_roundtrip (sample_env 8 (fun _ => None)) sample_manager
           (make_reg 2 1) (cell_view 1 2 (make_reg 2 1)) [104; 105]).
  - reflexivity.
  - reflexivity.
  - repeat constructor.
  - simpl. lia.
Defined.

(** The round trip, run: the lengths 0 and 1 into a byte buffer and into
    cells (here from an odd offset). *)
Example strcpy_getString_runs :
  (∃ sm', (strcpy_cstr (sample_env 8 (fun _ => None)) (make_reg 1 0) (literal []);;
           getString (sample_env 8 (fun _ => None)) (make_reg 1 0)) sample_manager = Ok [] sm')
  ∧ (∃ sm', (strcpy_cstr (sample_env 8 (fun _ => None)) (make_reg 1 0) (literal [104]);;
             getString (sample_env 8 (fun _ => None)) (make_reg 1 0)) sample_manager = Ok [104] sm')
  ∧ (∃ sm', (strcpy_cstr (sample_env 8 (fun _ => None)) (make_reg 2 1) (literal []);;
             getString (sample_env 8 (fun _ => None)) (make_reg 2 1)) sample_manager = Ok [] sm')
  ∧ (∃ sm', (strcpy_cstr (sample_env 8 (fun _ => None)) (make_reg 2 1) (literal [104]);;
             getString (sample_env 8 (fun _ => None)) (make_reg 2 1)) sample_manager = Ok [104] sm').
Proof. repeat split; eexists; vm_compute; reflexivity. Qed.

(** C3 as stated fails for a source one byte longer than the bound: the
    copy is not truncated.  Into the four bytes of slot 1, and into the four
    bytes the two cells of slot 2 hold, a string of five bytes is written
    until the store leaves the storage of the segment. *)
Lemma strcpy_does_not_truncate :
  maxSize (byte_view 0 4 (make_reg 1 0)) = 4
  ∧ strcpy_cstr (sample_env 8 (fun _ => None)) (make_reg 1 0) (literal [97; 98; 99; 100; 101])
      sample_manager = Err MemoryFault
  ∧ maxSize (cell_view 1 2 (make_reg 2 0)) = 4
  ∧ strcpy_cstr (sample_env 8 (fun _ => None)) (make_reg 2 0) (literal [97; 98; 99; 100; 101])
      sample_manager = Err MemoryFault.
Proof. repeat split; vm_compute; reflexivity. Qed.

(** ** Copy from a null or invalid source *)

(** C10, as the code has it.  With [n > 0] and a source that is null, or
    that does not resolve, the pointer-to-pointer [strncpy] writes the empty
    string into a destination that resolves to a view of at least one byte
    within its storage: the call returns, the first byte of the destination
    is zero and [getString] reads the empty string there. *)
Theorem strncpy_unresolved_source_clears (env : Env) (sm : SegManager) (dest src : reg_t)
    (dest_r : SegmentRef) (n : Z) :
  0 < n →
  dereference dest sm = Ok dest_r sm →
  view_ok (memory sm) dest_r = true →
  0 < maxSize dest_r →
  (isNull src = true
   ∨ ∃ src_r sm0, dereference src sm = Ok src_r sm0 ∧ isValid src_r = false) →
  ∃ sm', strncpy env dest src n sm = Ok tt sm'
         ∧ same_directory sm sm'
         ∧ same_shape (memory sm) (memory sm')
         ∧ view_byte env (memory sm') dest_r 0 = Some 0
         ∧ ∃ sm'', getString env dest sm' = Ok [] sm''.
Proof.
  intros Hn Hd Hok Hroom Hsrc.
  assert (Hclear : ∀ sm0, same_directory sm sm0 → memory sm0 = memory sm →
    ∃ sm', strcpy_cstr env dest (literal []) sm0 = Ok tt sm'
           ∧ same_directory sm sm'
           ∧ same_shape (memory sm) (memory sm')
           ∧ view_byte env (memory sm') dest_r 0 = Some 0
           ∧ ∃ sm'', getString env dest sm' = Ok [] sm'').
  { intros sm0 Hdir Hmem.
    assert (Hd0 : dereference dest sm0 = Ok dest_r sm0).
    { apply (dereference_same_heap sm); [exact Hd|apply Hdir]. }
    destruct (strcpy_cstr_writes env sm0 dest dest_r [] Hd0)
      as (sm1 & Hcopy & Hf & Hsh & Hbytes & _);
      [rewrite Hmem; exact Hok|constructor|simpl; lia|].
    destruct (getString_reads env sm1 dest dest_r []) as (sm2 & Hget & _ & _).
    - apply (dereference_same_heap sm); [exact Hd|].
      destruct Hf as [(Hh & _) _]. destruct Hdir as (Hh0 & _). congruence.
    - rewrite (view_ok_same_shape _ _ _ Hsh), Hmem. exact Hok.
    - constructor.
    - simpl. lia.
    - exact Hbytes.
    - exists sm1. split; [exact Hcopy|].
      split; [eapply same_directory_trans; [exact Hdir|apply Hf]|].
      split; [rewrite <- Hmem; exact Hsh|].
      split; [apply (Hbytes 0); simpl; lia|]. eauto. }
  assert (Hpos : (0 <? n) = true) by (apply Z.ltb_lt; exact Hn).
  unfold strncpy. rewrite Hpos.
  destruct (isNull src) eqn:Hnull.
  - apply Hclear; [apply same_directory_refl|reflexivity].
  - destruct Hsrc as [Hsrc|(src_r & sm0 & Hds & Hinv)]; [discriminate|].
    unfold bind at 1. rewrite Hd. unfold bind at 1. rewrite Hds, Hinv.
    change (negb false) with true. cbv beta iota.
    destruct (dereference_frame _ _ _ _ Hds) as [Hdir Hmem].
    unfold bind, warning.
    match goal with
    | |- ∃ _, strcpy_cstr _ _ _ ?st = _ ∧ _ => apply (Hclear st)
    end; [destruct Hdir as (H1 & H2 & H3); repeat split; assumption|exact Hmem].
Qed.

Lemma strncpy_unresolved_source_clears_witness :
  ∃ sm', strncpy (sample_env 8 (fun _ => None)) (make_reg 1 1) (make_reg 7 0) 3
           sample_manager = Ok tt sm'
         ∧ same_directory sample_manager sm'
         ∧ same_shape (memory sample_manager) (memory sm')
         ∧ view_byte (sample_env 8 (fun _ => None)) (memory sm')
             (byte_view 0 4 (make_reg 1 1)) 0 = Some 0
         ∧ ∃ sm'', getString (sample_env 8 (fun _ => None)) (make_reg 1 1) sm' = Ok [] sm''.
Proof.
  apply (strncpy_unresolved_source_clears (sample_env 8 (fun _ => None)) sample_manager
           (make_reg 1 1) (make_reg 7 0) (byte_view 0 4 (make_reg 1 1)) 3).
  - lia.
  - reflexivity.
  - reflexivity.
  - simpl. lia.
  - right. eexists _, _. split; reflexivity.
Defined.

(** C10 as stated fails for a valid destination that has no byte left:
    the pointer [0001:0004] resolves to the view at the very end of the four
    bytes of slot 1, which is valid and has the bound 0.  [strcpy_] asks for
    no bound, and the terminator is stored behind the buffer, for a null
    source and for one that does not resolve. *)
Lemma strncpy_clears_behind_empty_view :
  dereference (make_reg 1 4) sample_manager
  = Ok (byte_view 0 4 (make_reg 1 4)) sample_manager
  ∧ isValid (byte_view 0 4 (make_reg 1 4)) = true
  ∧ view_ok (memory sample_manager) (byte_view 0 4 (make_reg 1 4)) = true
  ∧ maxSize (byte_view 0 4 (make_reg 1 4)) = 0
  ∧ strncpy (sample_env 8 (fun _ => None)) (make_reg 1 4) NULL_REG 1 sample_manager
    = Err MemoryFault
  ∧ strncpy (sample_env 8 (fun _ => None)) (make_reg 1 4) (make_reg 7 0) 1 sample_manager
    = Err MemoryFault.
Proof. repeat split; vm_compute; reflexivity. Qed.

(** ** Copying between two views *)

Lemma view_byte_range (env : Env) (m : list Block) (r : SegmentRef) (i b : Z) :
  memory_ok m = true → view_byte env m r i = Some b → 0 <= b < 256.
Proof.
  intros Hok Hv. unfold view_byte in Hv. destruct (raw r) as [p|]; [|discriminate].
  simpl in Hv. destruct (isRaw r).
  - unfold load_byte in Hv. destruct (m !! (addr_add p i).1) as [[bs|rs]|] eqn:Hb; try discriminate.
    unfold memory_ok in Hok. rewrite forallb_forall in Hok.
    specialize (Hok (Bytes bs)). simpl in Hok. rewrite forallb_forall in Hok.
    unfold lookupZ in Hv. destruct (_ <? 0); [discriminate|].
    assert (Hin : In b bs). { apply list_elem_of_In. eapply list_elem_of_lookup_2. exact Hv. }
    assert (Hbl : In (Bytes bs) m). { apply list_elem_of_In. eapply list_elem_of_lookup_2. exact Hb. }
    specialize (Hok Hbl b Hin). blia.
  - destruct (load_cell m _) as [c|]; [|discriminate]. simpl in Hv. injection Hv as <-.
    unfold cell_get. apply to_byte_range.
Qed.

(** The copy loop of [memcpy], whatever the two kinds of storage: [fetch]
    reads the source at an index, [put] stores into the destination. *)
Lemma copy_loop (env : Env) (sm : SegManager) (dest_r src_r : SegmentRef) (n : Z)
    (fetch : Z → M Z) (put : Z → Z → M unit) :
  0 <= n → n <= maxSize dest_r → n <= maxSize src_r →
  view_ok (memory sm) dest_r = true →
  memory_ok (memory sm) = true →
  apart dest_r src_r →
  (∀ j, 0 <= j < n → ∃ b, view_byte env (memory sm) src_r j = Some b) →
  (∀ sm1 i b, 0 <= i < n → view_byte env (memory sm1) src_r i = Some b →
     ∃ sm2, fetch i sm1 = Ok b sm2 ∧ same_directory sm1 sm2 ∧ memory sm2 = memory sm1) →
  (∀ sm1 i v, view_ok (memory sm1) dest_r = true → 0 <= i < n → 0 <= v < 256 →
     ∃ sm2, put i v sm1 = Ok tt sm2 ∧ same_directory sm1 sm2
            ∧ stored env (memory sm1) (memory sm2) dest_r i v
            ∧ ∀ j, view_byte env (memory sm2) src_r j = view_byte env (memory sm1) src_r j) →
  ∃ r sm', for_upto n (fun i _ => step (c <- fetch i;; put i c;; ret false)) tt sm = Ok r sm'
           ∧ same_directory sm sm' ∧ same_shape (memory sm) (memory sm')
           ∧ (∀ j, 0 <= j < n →
                view_byte env (memory sm') dest_r j = view_byte env (memory sm) src_r j)
           ∧ (∀ j, n <= j →
                view_byte env (memory sm') dest_r j = view_byte env (memory sm) dest_r j)
           ∧ (∀ j, view_byte env (memory sm') src_r j = view_byte env (memory sm) src_r j).
Proof.
  intros Hn Hnd Hns Hok Hmem Hapart Hsrc Hfetch Hput.
  pose (I := fun (i : Z) (_ : unit) (sm' : SegManager) =>
     same_directory sm sm' ∧ same_shape (memory sm) (memory sm')
     ∧ (∀ j, 0 <= j < i →
          view_byte env (memory sm') dest_r j = view_byte env (memory sm) src_r j)
     ∧ (∀ j, i <= j →
          view_byte env (memory sm') dest_r j = view_byte env (memory sm) dest_r j)
     ∧ (∀ j, view_byte env (memory sm') src_r j = view_byte env (memory sm) src_r j)).
  match goal with
  | |- ∃ _ _, for_upto ?k ?body ?a ?st = _ ∧ _ =>
      destruct (for_upto_rule I (fun _ _ _ => False) body k a st)
        as (b & j & a' & sm' & Hrun & Hend)
  end; [exact Hn| | |].
  - split; [apply same_directory_refl|]. split; [apply same_shape_refl|].
    split; [intros j Hj; lia|]. split; intros; reflexivity.
  - intros i [] sm1 Hi (Hdir & Hsh & Hdone & Hrest & Hsame).
    destruct (Hsrc i Hi) as [c Hc].
    destruct (Hfetch sm1 i c Hi) as (sm2 & Hf & Hdir2 & Hmem2); [rewrite Hsame; exact Hc|].
    destruct (Hput sm2 i c) as (sm3 & Hp & Hdir3 & (Hsh3 & Hnew & Hold) & Hsrc3).
    { rewrite Hmem2, (view_ok_same_shape _ _ _ Hsh). exact Hok. }
    { exact Hi. }
    { eapply view_byte_range; [exact Hmem|exact Hc]. }
    unfold step, bind. rewrite Hf, Hp. unfold ret.
    exists false, tt, sm3. split; [reflexivity|]. unfold I.
    split; [eapply same_directory_trans; [exact Hdir|eapply same_directory_trans; eassumption]|].
    split; [eapply same_shape_trans; [exact Hsh|rewrite <- Hmem2; exact Hsh3]|].
    split; [|split].
    + intros j Hj. destruct (decide (j = i)) as [->|Hne]; [congruence|].
      rewrite Hold, Hmem2 by exact Hne. apply Hdone. lia.
    + intros j Hj. rewrite Hold, Hmem2 by lia. apply Hrest. lia.
    + intros j. rewrite Hsrc3, Hmem2. apply Hsame.
  - destruct b; [contradiction|]. destruct Hend as (-> & Hdir & Hsh & Hdone & Hrest & Hsame).
    exists (false, n, a'), sm'. repeat split; try apply Hdir; assumption.
Qed.

Lemma view_byte_defined (env : Env) (m : list Block) (r : SegmentRef) (j : Z) :
  view_ok m r = true → 0 <= j < maxSize r → ∃ b, view_byte env m r j = Some b.
Proof.
  intros Hok Hj. unfold view_byte. destruct (isRaw r) eqn:Hraw.
  - destruct (view_ok_raw _ _ Hok Hraw) as (p & bs & Hp & Hb & Hp2 & Hmax & Hlen).
    rewrite Hp. simpl. unfold load_byte, addr_add. simpl. rewrite Hb.
    apply lookupZ_Some. lia.
  - destruct (view_ok_cells _ _ Hok Hraw) as (p & rs & Hp & Hb & Hp2 & Hmax & Hlen).
    rewrite Hp. simpl. unfold load_cell, addr_add. simpl. rewrite Hb.
    destruct (lookupZ_Some rs (p.2 + (if skipByte r then j + 1 else j) / 2)) as [c ->];
      [destruct (skipByte r); Z.div_mod_to_equations; lia|].
    simpl. eauto.
Qed.

Lemma view_ok_bound (m : list Block) (r : SegmentRef) :
  view_ok m r = true → 0 <= maxSize r < 2147483648.
Proof.
  intros Hok. destruct (isRaw r) eqn:Hraw.
  - destruct (view_ok_raw _ _ Hok Hraw) as (? & ? & ? & ? & ? & ? & ?). assumption.
  - destruct (view_ok_cells _ _ Hok Hraw) as (? & ? & ? & ? & ? & ? & ?). assumption.
Qed.

(** Within the range of [int] and within both bounds, [memcpy] copies the
    [n] bytes of the source into the destination, whatever the two kinds of
    storage; the bytes of the destination from [n] on stay as they are (no
    terminator is written), and so does the source. *)
Lemma memcpy_copies (env : Env) (sm : SegManager) (dest src : reg_t)
    (dest_r src_r : SegmentRef) (n : Z) :
  0 <= n → n <= maxSize dest_r → n <= maxSize src_r →
  dereference dest sm = Ok dest_r sm →
  dereference src sm = Ok src_r sm →
  view_ok (memory sm) dest_r = true →
  view_ok (memory sm) src_r = true →
  memory_ok (memory sm) = true →
  apart dest_r src_r →
  ∃ sm', memcpy env dest src n sm = Ok tt sm'
         ∧ same_directory sm sm' ∧ same_shape (memory sm) (memory sm')
         ∧ (∀ j, 0 <= j < n →
              view_byte env (memory sm') dest_r j = view_byte env (memory sm) src_r j)
         ∧ (∀ j, n <= j →
              view_byte env (memory sm') dest_r j = view_byte env (memory sm) dest_r j)
         ∧ (∀ j, view_byte env (memory sm') src_r j = view_byte env (memory sm) src_r j).
Proof.
  intros Hn Hnd Hns Hd Hs Hokd Hoks Hmem Hapart.
  pose proof (view_ok_bound _ _ Hokd) as Hbd. pose proof (view_ok_bound _ _ Hoks) as Hbs.
  assert (Hcd : (maxSize dest_r <? to_int n) = false)
    by (rewrite to_int_small by lia; apply Z.ltb_ge; lia).
  assert (Hcs : (maxSize src_r <? to_int n) = false)
    by (rewrite to_int_small by lia; apply Z.ltb_ge; lia).
  assert (Hsrc : ∀ j, 0 <= j < n → ∃ b, view_byte env (memory sm) src_r j = Some b).
  { intros j Hj. apply view_byte_defined; [exact Hoks|lia]. }
  destruct (raw dest_r) as [q|] eqn:Hq; [|unfold view_ok in Hokd; rewrite Hq in Hokd; discriminate].
  destruct (raw src_r) as [p|] eqn:Hp; [|unfold view_ok in Hoks; rewrite Hp in Hoks; discriminate].
  (* the two ways to read the source *)
  assert (Hfetch_raw : isRaw src_r = true → ∀ sm1 i b, 0 <= i < n →
     view_byte env (memory sm1) src_r i = Some b →
     ∃ sm2, read_byte (byteptr_add (InMem p) i) sm1 = Ok b sm2
            ∧ same_directory sm1 sm2 ∧ memory sm2 = memory sm1).
  { intros Hraw sm1 i b Hi Hv. exists sm1.
    split; [apply (read_byte_view env sm1 src_r p i b Hraw Hp Hv)|].
    split; [apply same_directory_refl|reflexivity]. }
  assert (Hfetch_cell : isRaw src_r = false → ∀ sm1 i b, 0 <= i < n →
     view_byte env (memory sm1) src_r i = Some b →
     ∃ sm2, getChar env src_r i sm1 = Ok b sm2
            ∧ same_directory sm1 sm2 ∧ memory sm2 = memory sm1).
  { intros Hraw sm1 i b Hi Hv. apply getChar_view; [exact Hraw|lia|exact Hv]. }
  (* the two ways to store into the destination *)
  assert (Hput_raw : isRaw dest_r = true → ∀ sm1 i v,
     view_ok (memory sm1) dest_r = true → 0 <= i < n → 0 <= v < 256 →
     ∃ sm2, write_byte (Some q) i v sm1 = Ok tt sm2 ∧ same_directory sm1 sm2
            ∧ stored env (memory sm1) (memory sm2) dest_r i v
            ∧ ∀ j, view_byte env (memory sm2) src_r j = view_byte env (memory sm1) src_r j).
  { intros Hraw sm1 i v Hok1 Hi Hv.
    destruct (write_byte_stored env sm1 dest_r i v Hok1 Hraw) as (sm2 & Hw & Hf & Hst); [lia|].
    rewrite Hq in Hw. exists sm2. split; [exact Hw|]. split; [apply Hf|]. split; [exact Hst|].
    intros j. apply (view_byte_elsewhere env _ _ q.1 src_r p j);
      [apply (write_byte_elsewhere _ _ _ _ _ Hw)|exact Hp|].
    intros Heq. apply (Hapart q p); [exact Hq|exact Hp|congruence]. }
  assert (Hput_cell : isRaw dest_r = false → ∀ sm1 i v,
     view_ok (memory sm1) dest_r = true → 0 <= i < n → 0 <= v < 256 →
     ∃ sm2, setChar env dest_r i v sm1 = Ok tt sm2 ∧ same_directory sm1 sm2
            ∧ stored env (memory sm1) (memory sm2) dest_r i v
            ∧ ∀ j, view_byte env (memory sm2) src_r j = view_byte env (memory sm1) src_r j).
  { intros Hraw sm1 i v Hok1 Hi Hv.
    destruct (setChar_stored env sm1 dest_r i v Hok1 Hraw) as (sm2 & Hw & Hf & Hst); [lia|].
    rewrite (to_byte_small v Hv) in Hst.
    exists sm2. split; [exact Hw|]. split; [apply Hf|]. split; [exact Hst|].
    intros j. apply (view_byte_elsewhere env _ _ q.1 src_r p j);
      [apply (setChar_elsewhere env _ _ dest_r q i v Hq Hw)|exact Hp|].
    intros Heq. apply (Hapart q p); [exact Hq|exact Hp|congruence]. }
  unfold memcpy. unfold bind at 1. rewrite Hd. unfold bind at 1. rewrite Hs.
  rewrite (view_ok_valid _ _ Hokd), (view_ok_valid _ _ Hoks), Hcd, Hcs.
  change (negb true) with false. cbv beta iota.
  destruct (isRaw src_r) eqn:Hrs.
  - (* from byte storage: memcpy(reg_t, const byte *, size_t) *)
    rewrite Hp. unfold bind at 1. unfold raw_ptr, ret at 1.
    unfold memcpy_from_ptr. unfold bind at 1. rewrite Hd.
    rewrite (view_ok_valid _ _ Hokd), Hcd. change (negb true) with false. cbv beta iota.
    destruct (isRaw dest_r) eqn:Hrd.
    + unfold forwardCopy. cbn [andb]. rewrite Hq.
      destruct (copy_loop env sm dest_r src_r n
                  (fun i => read_byte (byteptr_add (InMem p) i)) (write_byte (Some q))
                  Hn Hnd Hns Hokd Hmem Hapart Hsrc (Hfetch_raw eq_refl) (Hput_raw eq_refl))
        as (r & sm' & Hrun & Hpost).
      unfold bind at 1. rewrite Hrun. exists sm'. split; [reflexivity|exact Hpost].
    + destruct (copy_loop env sm dest_r src_r n
                  (fun i => read_byte (byteptr_add (InMem p) i)) (setChar env dest_r)
                  Hn Hnd Hns Hokd Hmem Hapart Hsrc (Hfetch_raw eq_refl) (Hput_cell eq_refl))
        as (r & sm' & Hrun & Hpost).
      unfold bind at 1. rewrite Hrun. exists sm'. split; [reflexivity|exact Hpost].
  - destruct (isRaw dest_r) eqn:Hrd.
    + (* into byte storage: memcpy(byte *, reg_t, size_t) *)
      unfold memcpy_to_ptr. unfold bind at 1. rewrite Hs.
      rewrite (view_ok_valid _ _ Hoks), Hcs, Hrs, Hq.
      change (negb true) with false. cbv beta iota.
      destruct (copy_loop env sm dest_r src_r n
                  (getChar env src_r) (write_byte (Some q))
                  Hn Hnd Hns Hokd Hmem Hapart Hsrc (Hfetch_cell eq_refl) (Hput_raw eq_refl))
        as (r & sm' & Hrun & Hpost).
      unfold bind at 1. rewrite Hrun. exists sm'. split; [reflexivity|exact Hpost].
    + destruct (copy_loop env sm dest_r src_r n
                  (getChar env src_r) (setChar env dest_r)
                  Hn Hnd Hns Hokd Hmem Hapart Hsrc (Hfetch_cell eq_refl) (Hput_cell eq_refl))
        as (r & sm' & Hrun & Hpost).
      unfold bind at 1. rewrite Hrun. exists sm'. split; [reflexivity|exact Hpost].
Qed.

(** ** Bulk copy *)

(** Within the range of [int], a length beyond the bound of either endpoint
    is refused: a diagnostic, and host memory as it was. *)
Lemma memcpy_refuses (env : Env) (sm : SegManager) (dest src : reg_t)
    (dest_r src_r : SegmentRef) (n : Z) :
  0 <= n < 2147483648 →
  dereference dest sm = Ok dest_r sm →
  dereference src sm = Ok src_r sm →
  isValid dest_r = true → isValid src_r = true →
  maxSize dest_r < n ∨ maxSize src_r < n →
  ∃ sm', memcpy env dest src n sm = Ok tt sm'
         ∧ memory sm' = memory sm ∧ same_directory sm sm' ∧ diagnosed sm sm'.
Proof.
  intros Hn Hd Hs Hvd Hvs Hbig. unfold memcpy.
  unfold bind at 1. rewrite Hd. unfold bind at 1. rewrite Hs.
  rewrite Hvd, Hvs, to_int_small by lia. change (negb true) with false. cbv beta iota.
  unfold warning, diagnosed.
  destruct (maxSize dest_r <? n) eqn:E1.
  - eexists. split; [reflexivity|]. simpl. rewrite length_app. simpl.
    repeat split. lia.
  - destruct (maxSize src_r <? n) eqn:E2; [|blia].
    eexists. split; [reflexivity|]. simpl. rewrite length_app. simpl.
    repeat split. lia.
Qed.

(** C8 at a length the conversion to [int] turns negative.  Both buffers
    hold four bytes; the length [0x80000000] passes both comparisons with
    [maxSize] and the copy runs on until it leaves the storage of the
    segments, where the claim has a refusal that changes nothing. *)
Theorem memcpy_length_cast_overrun :
  maxSize (byte_view 0 4 (make_reg 1 0)) = 4
  ∧ maxSize (byte_view 1 4 (make_reg 2 0)) = 4
  ∧ to_int 2147483648 = -2147483648
  ∧ memcpy (sample_env 8 (fun _ => None)) (make_reg 1 0) (make_reg 2 0) 2147483648 two_buffers
    = Err MemoryFault
  ∧ ∃ sm', memcpy (sample_env 8 (fun _ => None)) (make_reg 1 0) (make_reg 2 0) 5 two_buffers
           = Ok tt sm'
           ∧ memory sm' = memory two_buffers ∧ diagnosed two_buffers sm'.
Proof.
  repeat split; try (vm_compute; reflexivity).
  eexists. vm_compute. repeat split. lia.
Qed.

(** ** Scripts in the directory *)



Lemma script_update_with (sm : SegManager) (seg : Z) (g : Script → Script)
    (f : reg_t → SegmentRef) (s : Script) :
  lookupZ (_heap sm) seg = Some (Some (ScriptObj f s)) →
  script_update seg g sm = Ok tt (with_script sm seg g).
Proof.
  intros Hslot. unfold script_update, with_script. unfold_sm. rewrite Hslot.
  rewrite (insertZ_Some _ _ _ (lookupZ_range _ _ _ Hslot)). reflexivity.
Qed.

Lemma with_script_slot (sm : SegManager) (seg : Z) (g : Script → Script)
    (f : reg_t → SegmentRef) (s : Script) :
  lookupZ (_heap sm) seg = Some (Some (ScriptObj f s)) →
  lookupZ (_heap (with_script sm seg g)) seg = Some (Some (ScriptObj f (g s))).
Proof.
  intros Hslot. unfold with_script. rewrite Hslot. simpl.
  apply lookupZ_insert_eq. eapply lookupZ_range. exact Hslot.
Qed.

Lemma with_script_other (sm : SegManager) (seg j : Z) (g : Script → Script) :
  0 <= seg → j ≠ seg →
  lookupZ (_heap (with_script sm seg g)) j = lookupZ (_heap sm) j.
Proof.
  intros Hseg Hne. unfold with_script.
  destruct (lookupZ (_heap sm) seg) as [[[f s|ty f]|]|]; try reflexivity.
  simpl. apply lookupZ_insert_ne; [exact Hseg|congruence].
Qed.

Lemma with_script_fields (sm : SegManager) (seg : Z) (g : Script → Script) :
  _scriptSegMap (with_script sm seg g) = _scriptSegMap sm
  ∧ _classTable (with_script sm seg g) = _classTable sm
  ∧ memory (with_script sm seg g) = memory sm
  ∧ warnings (with_script sm seg g) = warnings sm
  ∧ heap_size (with_script sm seg g) = heap_size sm.
Proof.
  unfold with_script, heap_size.
  destruct (lookupZ (_heap sm) seg) as [[[f s|ty f]|]|]; simpl; rewrite ?length_insert;
    repeat split.
Qed.

Lemma resident_with_script (env : Env) (sm : SegManager) (nr seg : Z) (image : list Z)
    (l l' : Z) (d d' : bool) (g : Script → Script) :
  resident env sm nr seg image l d →
  (∀ s, _buf (g s) = _buf s) →
  (∀ s, _lockers s = l → _markedAsDeleted s = d →
        _lockers (g s) = l' ∧ _markedAsDeleted (g s) = d') →
  resident env (with_script sm seg g) nr seg image l' d'.
Proof.
  intros (Hmap & Hseg & Hact & f & s & blk & Hslot & Hl & Hd & Hbuf & Hmem) Hgbuf Hg.
  destruct (with_script_fields sm seg g) as (Hm & _ & Hmm & _).
  destruct (Hg s Hl Hd) as [Hl' Hd'].
  split; [rewrite Hm; exact Hmap|]. split; [exact Hseg|]. split; [exact Hact|].
  exists f, (g s), blk. split; [apply with_script_slot; exact Hslot|].
  rewrite Hgbuf, Hmm. repeat split; assumption.
Qed.

Lemma resident_with_other_script (env : Env) (sm : SegManager) (nr seg seg' : Z)
    (image : list Z) (l : Z) (d : bool) (g : Script → Script) :
  resident env sm nr seg image l d → 0 <= seg' → seg ≠ seg' →
  resident env (with_script sm seg' g) nr seg image l d.
Proof.
  intros (Hmap & Hseg & Hact & f & s & blk & Hslot & Hl & Hd & Hbuf & Hmem) Hseg' Hne.
  destruct (with_script_fields sm seg' g) as (Hm & _ & Hmm & _).
  split; [rewrite Hm; exact Hmap|]. split; [exact Hseg|]. split; [exact Hact|].
  exists f, s, blk. rewrite with_script_other, Hmm by assumption. repeat split; assumption.
Qed.

Lemma resident_without_class_refs (env : Env) (sm : SegManager) (nr seg seg' : Z)
    (image : list Z) (l : Z) (d : bool) :
  resident env sm nr seg image l d →
  resident env (without_class_refs sm seg') nr seg image l d.
Proof. intros H. exact H. Qed.

Lemma without_class_refs_scripts (sm : SegManager) (seg : Z) :
  map script (_classTable (without_class_refs sm seg)) = map script (_classTable sm).
Proof.
  unfold without_class_refs. simpl. rewrite map_map. apply map_ext.
  intros c. destruct (getSegment (class_reg c) =? seg); reflexivity.
Qed.

Lemma resident_walkable (env : Env) (sm : SegManager) (nr seg : Z) (image : list Z) (d : bool) :
  resident env sm nr seg image 0 d →
  ∃ blk, walkable sm seg blk image (map script (_classTable sm)) 0.
Proof.
  intros (_ & _ & _ & f & s & blk & Hslot & Hl & _ & Hbuf & Hmem).
  exists blk. split; [eauto|]. split; [exact Hmem|reflexivity].
Qed.

Lemma resident_loaded (env : Env) (sm : SegManager) (nr seg : Z) (image : list Z)
    (l : Z) (d : bool) :
  resident env sm nr seg image l d →
  getScriptSegment sm nr = seg
  ∧ getScriptIfLoaded env sm seg = Some seg
  ∧ getScript env seg sm = Ok seg sm
  ∧ isMarkedAsDeleted seg sm = Ok d sm
  ∧ getLockers seg sm = Ok l sm.
Proof.
  intros (Hmap & Hseg & Hact & f & s & blk & Hslot & Hl & Hd & Hbuf & Hmem).
  pose proof (lookupZ_range _ _ _ Hslot) as Hr.
  assert (Hb : (seg <? 1) || (heap_size sm <=? seg) = false).
  { apply orb_false_intro; [apply Z.ltb_ge|apply Z.leb_gt]; unfold heap_size; lia. }
  unfold getScriptSegment, getScriptIfLoaded, getScript, isMarkedAsDeleted, getLockers,
    script_at, slot_of. unfold_sm. rewrite Hmap, Hact, Hb, Hslot, Hl, Hd. simpl.
  repeat split.
Qed.

(** ** The superclass pass *)

Lemma read16_walkable (env : Env) (sm : SegManager) (seg : Z) (blk : nat) (image scripts : list Z)
    (l offset : Z) :
  walkable sm seg blk image scripts l →
  read16 env seg offset sm = match image16 env image offset with
                             | Some v => Ok v sm
                             | None => Err MemoryFault
                             end.
Proof.
  intros ((f & scr & Hslot & _ & Hbuf) & Hmem & _).
  unfold read16, script_at, image16. unfold_sm. rewrite Hslot, Hbuf.
  unfold read_byte, load_byte. simpl. rewrite Hmem.
  destruct (lookupZ image offset) as [b0|]; simpl; [|reflexivity].
  rewrite Hmem. destruct (lookupZ image (offset + 1)) as [b1|]; reflexivity.
Qed.

Lemma getClass_walkable (sm : SegManager) (seg : Z) (blk : nat) (image scripts : list Z)
    (l index : Z) :
  walkable sm seg blk image scripts l →
  match lookupZ scripts index with
  | Some owner => ∃ c, getClass index sm = Ok c sm ∧ script c = owner
  | None => getClass index sm = Err (Fatal "assert(idx < _size)")
  end.
Proof.
  intros (_ & _ & <-). unfold getClass, lookupZ.
  destruct (index <? 0); [reflexivity|]. rewrite list_lookup_fmap.
  destruct (_classTable sm !! Z.to_nat index) as [c|]; simpl; eauto.
Qed.

Lemma getLockers_walkable (sm : SegManager) (seg : Z) (blk : nat)
    (image scripts : list Z) (l : Z) :
  walkable sm seg blk image scripts l → getLockers seg sm = Ok l sm.
Proof.
  intros ((f & scr & Hslot & Hl & _) & _). unfold getLockers, script_at. unfold_sm.
  rewrite Hslot, Hl. reflexivity.
Qed.

(** One record of the pass.  A superclass the script owns itself takes one
    of its lockers, if it has any, and [rec] is not called; a superclass
    another script owns goes to [rec]. *)
Lemma sci0_walk_step (env : Env) (rec : Z → M unit) (sm : SegManager) (nr seg : Z) (blk : nat)
    (image scripts : list Z) (l : Z) (fuel : nat) (reg0 : reg_t) (objLength : Z) :
  walkable sm seg blk image scripts l →
  sci0_walk env rec (S fuel) nr seg reg0 objLength sm =
  let r0 := incOffset reg0 objLength in
  match image16 env image (getOffset r0) with
  | None => Err MemoryFault
  | Some objType =>
      if objType =? 0 then Ok tt sm else
      match image16 env image (getOffset r0 + 2) with
      | None => Err MemoryFault
      | Some len =>
          let r1 := incOffset r0 4 in
          if (objType =? SCI_OBJ_OBJECT env) || (objType =? SCI_OBJ_CLASS env) then
            let r2 := incOffset r1 8 in
            match image16 env image (getOffset r2 + 2) with
            | None => Err MemoryFault
            | Some sc =>
                let r3 := incOffset (incOffset r2 (SCRIPT_OBJECT_MAGIC_OFFSET env)) (-4) in
                if 0 <=? to_int16 sc then
                  match lookupZ scripts (to_int16 sc) with
                  | None => Err (Fatal "assert(idx < _size)")
                  | Some owner =>
                      if owner =? nr
                      then sci0_walk env rec fuel nr seg r3 len
                             (if l =? 0 then sm else with_script sm seg unlock)
                      else (rec owner;; sci0_walk env rec fuel nr seg r3 len) sm
                  end
                else sci0_walk env rec fuel nr seg r3 len sm
            end
          else sci0_walk env rec fuel nr seg (incOffset r1 (-4)) len sm
      end
  end.
Proof.
  intros Hw. cbn [sci0_walk]. cbv zeta.
  unfold bind at 1. rewrite (read16_walkable env sm seg blk image scripts l _ Hw).
  destruct (image16 env image (getOffset (incOffset reg0 objLength))) as [objType|]; [|reflexivity].
  destruct (objType =? 0); [reflexivity|].
  unfold bind at 1. rewrite (read16_walkable env sm seg blk image scripts l _ Hw).
  destruct (image16 env image (getOffset (incOffset reg0 objLength) + 2)) as [len|]; [|reflexivity].
  destruct ((objType =? SCI_OBJ_OBJECT env) || (objType =? SCI_OBJ_CLASS env)).
  2:{ unfold bind, ret. reflexivity. }
  unfold bind at 1. unfold bind at 1.
  rewrite (read16_walkable env sm seg blk image scripts l _ Hw).
  destruct (image16 env image (getOffset (incOffset (incOffset (incOffset reg0 objLength) 4) 8) + 2))
    as [sc|]; [|reflexivity].
  destruct (0 <=? to_int16 sc).
  2:{ unfold bind, ret. reflexivity. }
  pose proof (getClass_walkable sm seg blk image scripts l (to_int16 sc) Hw) as Hc.
  destruct (lookupZ scripts (to_int16 sc)) as [owner|].
  2:{ unfold bind at 1. unfold bind at 1. rewrite Hc. reflexivity. }
  destruct Hc as (c & Hc & <-).
  unfold bind at 1. unfold bind at 1. rewrite Hc.
  destruct (script c =? nr).
  - unfold bind at 1. rewrite (getLockers_walkable sm seg blk image scripts l Hw).
    destruct (l =? 0); cbn [negb]; cbv iota.
    + unfold ret. reflexivity.
    + destruct Hw as ((f & scr & Hslot & _) & _). unfold decrementLockers.
      rewrite (script_update_with sm seg _ f scr Hslot). unfold ret. reflexivity.
  - unfold bind. destruct (rec (script c) sm); reflexivity.
Qed.

(** The pass, in terms of what it meets: nothing happens up to the first
    superclass another script owns; there [uninstantiateScript] is called
    and the pass goes on behind the record. *)
Lemma sci0_walk_owners (env : Env) (rec : Z → M unit) (sm : SegManager) (nr seg : Z) (blk : nat)
    (image scripts : list Z) (fuel : nat) :
  walkable sm seg blk image scripts 0 →
  ∀ (reg0 : reg_t) (objLength : Z) (owners : list Z),
    superclass_owners env scripts nr image fuel (getOffset reg0) objLength = Some owners →
    match owners with
    | [] => sci0_walk env rec fuel nr seg reg0 objLength sm = Ok tt sm
    | o :: os =>
        ∃ fuel1 reg1 len1,
          superclass_owners env scripts nr image fuel1 (getOffset reg1) len1 = Some os
          ∧ sci0_walk env rec fuel nr seg reg0 objLength sm
            = (rec o;; sci0_walk env rec fuel1 nr seg reg1 len1) sm
    end.
Proof.
  intros Hw. induction fuel as [|fuel IH]; intros reg0 objLength owners Hown; [discriminate|].
  rewrite (sci0_walk_step env rec sm nr seg blk image scripts 0 fuel reg0 objLength Hw).
  change (0 =? 0) with true. cbv iota.
  cbn [superclass_owners] in Hown. cbv zeta in Hown. cbv zeta.
  change (uint16 (getOffset reg0 + objLength)) with (getOffset (incOffset reg0 objLength)) in Hown.
  set (r0 := incOffset reg0 objLength) in *.
  change (uint16 (getOffset r0 + 4)) with (getOffset (incOffset r0 4)) in Hown.
  set (r1 := incOffset r0 4) in *.
  change (uint16 (getOffset r1 + 8)) with (getOffset (incOffset r1 8)) in Hown.
  set (r2 := incOffset r1 8) in *.
  change (uint16 (uint16 (getOffset r2 + SCRIPT_OBJECT_MAGIC_OFFSET env) + -4))
    with (getOffset (incOffset (incOffset r2 (SCRIPT_OBJECT_MAGIC_OFFSET env)) (-4))) in Hown.
  set (r3 := incOffset (incOffset r2 (SCRIPT_OBJECT_MAGIC_OFFSET env)) (-4)) in *.
  change (uint16 (getOffset r1 + -4)) with (getOffset (incOffset r1 (-4))) in Hown.
  destruct (image16 env image (getOffset r0)) as [objType|]; [|discriminate].
  cbn [mbind option_bind] in Hown. destruct (objType =? 0).
  { injection Hown as <-. reflexivity. }
  destruct (image16 env image (getOffset r0 + 2)) as [len|]; [|discriminate].
  cbn [mbind option_bind] in Hown.
  destruct ((objType =? SCI_OBJ_OBJECT env) || (objType =? SCI_OBJ_CLASS env)).
  2:{ apply (IH (incOffset r1 (-4)) len owners). exact Hown. }
  destruct (image16 env image (getOffset r2 + 2)) as [sc|]; [|discriminate].
  cbn [mbind option_bind] in Hown.
  destruct (0 <=? to_int16 sc).
  2:{ apply (IH r3 len owners). exact Hown. }
  destruct (lookupZ scripts (to_int16 sc)) as [owner|]; [|discriminate].
  cbn [mbind option_bind] in Hown.
  destruct (superclass_owners env scripts nr image fuel (getOffset r3) len) as [rest|] eqn:Hrest;
    [|discriminate].
  cbn [mbind option_bind] in Hown. injection Hown as <-.
  destruct (owner =? nr).
  - apply (IH r3 len rest). exact Hrest.
  - exists fuel, r3, len. split; [exact Hrest|reflexivity].
Qed.

(** ** Unlocking a script *)

Lemma unlock_resident (env : Env) (sm : SegManager) (nr seg : Z) (image : list Z)
    (l : Z) (d : bool) :
  resident env sm nr seg image l d →
  resident env (with_script sm seg unlock) nr seg image (if 0 <? l then l - 1 else l) d.
Proof.
  intros H. apply (resident_with_script env sm nr seg image l _ d d unlock H).
  - reflexivity.
  - intros s <- <-. split; reflexivity.
Qed.

Lemma decrementLockers_resident (env : Env) (sm : SegManager) (nr seg : Z) (image : list Z)
    (l : Z) (d : bool) :
  resident env sm nr seg image l d →
  decrementLockers seg sm = Ok tt (with_script sm seg unlock).
Proof.
  intros (_ & _ & _ & f & s & blk & Hslot & _). unfold decrementLockers.
  apply (script_update_with sm seg unlock f s Hslot).
Qed.

Lemma markDeleted_resident (env : Env) (sm : SegManager) (nr seg : Z) (image : list Z)
    (l : Z) (d : bool) :
  resident env sm nr seg image l d →
  markDeleted seg sm = Ok tt (with_script sm seg mark).
Proof.
  intros (_ & _ & _ & f & s & blk & Hslot & _). unfold markDeleted.
  apply (script_update_with sm seg mark f s Hslot).
Qed.

Lemma mark_resident (env : Env) (sm : SegManager) (nr seg : Z) (image : list Z)
    (l : Z) (d : bool) :
  resident env sm nr seg image l d →
  resident env (with_script sm seg mark) nr seg image l true.
Proof.
  intros H. apply (resident_with_script env sm nr seg image l l d true mark H).
  - reflexivity.
  - intros s <- _. split; reflexivity.
Qed.

(** A script with lockers to spare: one less, and nothing else. *)
Lemma uninstantiate_still_locked (env : Env) (sm : SegManager) (nr seg : Z) (image : list Z)
    (l : Z) (fuel : nat) :
  resident env sm nr seg image l false → 2 <= l →
  uninstantiateScript env (S fuel) nr sm = Ok tt (with_script sm seg unlock).
Proof.
  intros Hres Hl. cbn [uninstantiateScript].
  destruct (resident_loaded _ _ _ _ _ _ _ Hres) as (Hseg & Hload & _ & Hdel & _).
  unfold bind at 1. unfold get. rewrite Hseg, Hload.
  unfold bind at 1. rewrite Hdel. cbv iota.
  unfold bind at 1. rewrite (decrementLockers_resident _ _ _ _ _ _ _ Hres).
  pose proof (unlock_resident _ _ _ _ _ _ _ Hres) as Hres'.
  destruct (resident_loaded _ _ _ _ _ _ _ Hres') as (_ & _ & _ & _ & Hlock).
  unfold bind at 1. rewrite Hlock.
  replace (0 <? l) with true by (symmetry; apply Z.ltb_lt; lia).
  replace (0 <? l - 1) with true by (symmetry; apply Z.ltb_lt; lia).
  reflexivity.
Qed.

(** The last locker: the references of the class table are cleared, the
    older generation walks the records, and the script is marked if it has
    no locker then. *)
Lemma uninstantiate_last (env : Env) (sm : SegManager) (nr seg : Z) (image : list Z)
    (l : Z) (fuel : nat) :
  resident env sm nr seg image l false → 0 <= l <= 1 →
  uninstantiateScript env (S fuel) nr sm =
  ((if getSciVersion env <? SCI_VERSION_1_1 env
    then sci0_walk env (uninstantiateScript env fuel) fuel nr seg
           (make_reg seg (sci0_start env)) 0
    else ret tt);;
   l' <- getLockers seg;;
   if l' =? 0 then markDeleted seg else ret tt)
    (without_class_refs (with_script sm seg unlock) seg)
  ∧ resident env (without_class_refs (with_script sm seg unlock) seg) nr seg image 0 false.
Proof.
  intros Hres Hl.
  destruct (resident_loaded _ _ _ _ _ _ _ Hres) as (Hseg & Hload & _ & Hdel & _).
  pose proof (unlock_resident _ _ _ _ _ _ _ Hres) as Hres'.
  replace (if 0 <? l then l - 1 else l) with 0 in Hres'
    by (destruct (0 <? l) eqn:E; prop_of_bool; lia).
  split; [|apply resident_without_class_refs; exact Hres'].
  cbn [uninstantiateScript].
  unfold bind at 1. unfold get. rewrite Hseg, Hload.
  unfold bind at 1. rewrite Hdel. cbv iota.
  unfold bind at 1. rewrite (decrementLockers_resident _ _ _ _ _ _ _ Hres).
  destruct (resident_loaded _ _ _ _ _ _ _ Hres') as (Hseg' & _ & Hgs & _ & Hlock).
  unfold bind at 1. rewrite Hlock. change (0 <? 0) with false. cbv iota.
  unfold bind at 1. unfold freeClassReferences at 1. unfold bind at 1. unfold get, set_classTable.
  fold (without_class_refs (with_script sm seg unlock) seg).
  destruct (getSciVersion env <? SCI_VERSION_1_1 env); [|reflexivity].
  unfold bind at 1. unfold uninstantiateScriptSci0. unfold bind at 1. unfold get.
  change (getScriptSegment (without_class_refs (with_script sm seg unlock) seg) nr)
    with (getScriptSegment (with_script sm seg unlock) nr).
  rewrite Hseg'.
  unfold bind at 1.
  assert (Hgs' : getScript env seg (without_class_refs (with_script sm seg unlock) seg)
                 = Ok seg (without_class_refs (with_script sm seg unlock) seg)).
  { apply (resident_loaded env _ nr seg image 0 false).
    apply resident_without_class_refs. exact Hres'. }
  rewrite Hgs'. unfold sci0_start. reflexivity.
Qed.

(** The last locker of a script whose records name no superclass of another
    script, or in a generation that does not walk the records. *)
Lemma uninstantiate_local (env : Env) (sm : SegManager) (nr seg : Z) (image : list Z)
    (l : Z) (fuel : nat) :
  resident env sm nr seg image l false → 0 <= l <= 1 →
  ((getSciVersion env <? SCI_VERSION_1_1 env) = true →
   superclass_owners env (map script (_classTable sm)) nr image fuel (sci0_start env) 0
   = Some []) →
  uninstantiateScript env (S fuel) nr sm
  = Ok tt (with_script (without_class_refs (with_script sm seg unlock) seg) seg mark)
  ∧ resident env (with_script (without_class_refs (with_script sm seg unlock) seg) seg mark)
      nr seg image 0 true.
Proof.
  intros Hres Hl Hlocal.
  destruct (uninstantiate_last env sm nr seg image l fuel Hres Hl) as [-> Hres0].
  set (sm0 := without_class_refs (with_script sm seg unlock) seg) in *.
  split; [|apply (mark_resident _ _ _ _ _ _ _ Hres0)].
  destruct (resident_loaded _ _ _ _ _ _ _ Hres0) as (_ & _ & _ & _ & Hlock).
  assert (Hwalk : (if getSciVersion env <? SCI_VERSION_1_1 env
                   then sci0_walk env (uninstantiateScript env fuel) fuel nr seg
                          (make_reg seg (sci0_start env)) 0
                   else ret tt) sm0 = Ok tt sm0).
  { destruct (getSciVersion env <? SCI_VERSION_1_1 env); [|reflexivity].
    destruct (resident_walkable _ _ _ _ _ _ Hres0) as [blk Hw].
    apply (sci0_walk_owners env _ sm0 nr seg blk image _ fuel Hw
             (make_reg seg (sci0_start env)) 0 []).
    unfold sm0. rewrite without_class_refs_scripts.
    destruct (with_script_fields sm seg unlock) as (_ & -> & _). apply Hlocal. reflexivity. }
  unfold bind at 1. rewrite Hwalk. unfold bind at 1. rewrite Hlock.
  change (0 =? 0) with true. cbv iota.
  apply (markDeleted_resident _ _ _ _ _ _ _ Hres0).
Qed.

(** A script that is not loaded, or is marked deleted: nothing happens. *)
Lemma uninstantiate_noop (env : Env) (sm : SegManager) (nr : Z) (fuel : nat) :
  unloaded_or_deleted env sm nr →
  uninstantiateScript env (S fuel) nr sm = Ok tt sm.
Proof.
  unfold unloaded_or_deleted. intros H. cbn [uninstantiateScript]. unfold bind at 1. unfold get.
  destruct (getScriptIfLoaded env sm (getScriptSegment sm nr)) as [scr|]; [|reflexivity].
  destruct H as (f & s & Hslot & Hdel).
  unfold bind at 1. unfold isMarkedAsDeleted, script_at. unfold_sm.
  rewrite Hslot, Hdel. reflexivity.
Qed.

Lemma resident_deleted_noop (env : Env) (sm : SegManager) (nr seg : Z) (image : list Z) (l : Z) :
  resident env sm nr seg image l true → unloaded_or_deleted env sm nr.
Proof.
  intros Hres. unfold unloaded_or_deleted.
  destruct (resident_loaded _ _ _ _ _ _ _ Hres) as (Hseg & Hload & _).
  rewrite Hseg, Hload.
  destruct Hres as (_ & _ & _ & f & s & blk & Hslot & _ & Hd & _). eauto.
Qed.

(** ** Locking a script *)

Lemma lock_resident (env : Env) (sm : SegManager) (nr seg : Z) (image : list Z)
    (l : Z) (d : bool) :
  resident env sm nr seg image l d →
  resident env (with_script sm seg lock) nr seg image (l + 1) d.
Proof.
  intros H. apply (resident_with_script env sm nr seg image l _ d d lock H).
  - reflexivity.
  - intros s <- <-. split; reflexivity.
Qed.

(** A script that is loaded: one more locker, and nothing else. *)
Lemma instantiate_again (env : Env) (sm : SegManager) (nr seg : Z) (image : list Z) (l : Z) :
  resident env sm nr seg image l false →
  instantiateScript env nr sm = Ok seg (with_script sm seg lock).
Proof.
  intros Hres. unfold instantiateScript.
  destruct (resident_loaded _ _ _ _ _ _ _ Hres) as (Hseg & Hload & _ & Hdel & _).
  unfold bind at 1. unfold get. rewrite Hseg, Hload.
  unfold bind at 1. rewrite Hdel. change (negb false) with true. cbv iota.
  unfold bind at 1. unfold incrementLockers.
  destruct Hres as (_ & _ & _ & f & s & blk & Hslot & _).
  rewrite (script_update_with sm seg _ f s Hslot). reflexivity.
Qed.

Lemma getActualSegment_small (env : Env) (seg : Z) :
  0 <= seg <= 16383 → getActualSegment env seg = seg.
Proof.
  intros H. unfold getActualSegment.
  destruct (getSciVersion env <=? SCI_VERSION_2_1_LATE env); [reflexivity|].
  change 16383 with (Z.ones 14). rewrite Z.land_ones by lia. apply Z.mod_small. lia.
Qed.

(** A script that is not registered: a segment is allocated, the image is
    loaded, and the script is resident with the one locker of this call. *)
Lemma instantiate_first (env : Env) (sm : SegManager) (nr : Z) (image : list Z) :
  1 <= heap_size sm <= 16383 →
  _scriptSegMap sm !! nr = None →
  scriptResource env nr = Some image →
  pass_keeps env nr (initializeLocals env) →
  pass_keeps env nr (initializeClasses env) →
  pass_keeps env nr (initializeObjects env) →
  pass_keeps env nr (instantiateScriptHook env) →
  ∃ seg sm', instantiateScript env nr sm = Ok seg sm'
             ∧ resident env sm' nr seg image 1 false
             ∧ map script (_classTable sm') = map script (_classTable sm).
Proof.
  intros Hsize Hnew Himg Hp1 Hp2 Hp3 Hp4. unfold instantiateScript.
  assert (Hseg0 : getScriptSegment sm nr = 0).
  { unfold getScriptSegment. rewrite Hnew. reflexivity. }
  unfold bind at 1. unfold get. rewrite Hseg0.
  assert (Hnot : getScriptIfLoaded env sm 0 = None).
  { unfold getScriptIfLoaded. rewrite getActualSegment_small by lia. reflexivity. }
  rewrite Hnot.
  destruct (allocSegment_spec sm Script_new)
    as (id & sm1 & Hal & Hid & _ & _ & _ & Hslot & _ & Hmap1 & Hct1 & Hmem1 & _); [lia|].
  unfold bind at 1. unfold allocateScript. unfold bind at 1. unfold get.
  change (default 0 (_scriptSegMap sm !! nr)) with (getScriptSegment sm nr). rewrite Hseg0.
  change (0 <? 0) with false. cbv iota.
  unfold bind at 1. rewrite Hal. unfold bind at 1. unfold get.
  unfold bind at 1. unfold set_scriptSegMap, ret. simpl fst. simpl snd.
  set (sm2 := mkSegManager (_heap sm1) (<[nr:=id]> (_scriptSegMap sm1)) (_classTable sm1)
                           (memory sm1) (warnings sm1)).
  pose proof (lookupZ_range _ _ _ Hslot) as Hr.
  (* the load *)
  unfold bind at 1. unfold Script_load. rewrite Himg.
  unfold bind at 1. unfold script_at. unfold bind at 1. unfold heap_at.
  change (_heap sm2) with (_heap sm1). rewrite Hslot. unfold Script_new at 1. unfold ret at 1.
  unfold bind at 1. unfold get. unfold bind at 1. unfold set_memory at 1.
  unfold heap_put. cbn [_heap memory _scriptSegMap _classTable warnings sm2].
  rewrite insertZ_Some by exact Hr. unfold set_heap.
  cbn [_heap memory _scriptSegMap _classTable warnings].
  match goal with
  | |- ∃ _ _, bind _ _ ?st = _ ∧ _ => set (sm3 := st)
  end.
  assert (Hres3 : resident env sm3 nr id image 1 false).
  { split; [apply lookup_insert_eq|]. split; [lia|].
    split; [apply getActualSegment_small; lia|].
    eexists _, _, (length (memory sm1)). split; [apply lookupZ_insert_eq; exact Hr|].
    simpl. repeat split. apply list_lookup_middle. reflexivity. }
  destruct (Hp1 sm3 id image 1 false Hres3) as (sm4 & Hr4 & Hres4 & Hs4).
  unfold bind at 1. rewrite Hr4.
  destruct (Hp2 sm4 id image 1 false Hres4) as (sm5 & Hr5 & Hres5 & Hs5).
  unfold bind at 1. rewrite Hr5.
  destruct (Hp3 sm5 id image 1 false Hres5) as (sm6 & Hr6 & Hres6 & Hs6).
  unfold bind at 1. rewrite Hr6.
  destruct (Hp4 sm6 id image 1 false Hres6) as (sm7 & Hr7 & Hres7 & Hs7).
  unfold bind at 1. rewrite Hr7.
  exists id, sm7. split; [reflexivity|]. split; [exact Hres7|].
  rewrite Hs7, Hs6, Hs5, Hs4. simpl. rewrite Hct1. reflexivity.
Qed.

(** ** Locker discipline *)

Lemma with_script_classTable (sm : SegManager) (seg : Z) (g : Script → Script) :
  _classTable (with_script sm seg g) = _classTable sm.
Proof. apply with_script_fields. Qed.

Lemma times_instantiate (env : Env) (nr seg : Z) (image : list Z) (j : nat) :
  ∀ sm l, resident env sm nr seg image l false →
    ∃ sm', times j (instantiateScript env nr) sm = Ok tt sm'
           ∧ resident env sm' nr seg image (l + Z.of_nat j) false
           ∧ _classTable sm' = _classTable sm.
Proof.
  induction j as [|j IH]; intros sm l Hres.
  - exists sm. split; [reflexivity|]. rewrite Z.add_0_r. split; [exact Hres|reflexivity].
  - cbn [times]. unfold bind. rewrite (instantiate_again env sm nr seg image l Hres).
    destruct (IH _ _ (lock_resident _ _ _ _ _ _ _ Hres)) as (sm' & Hrun & Hres' & Hct).
    exists sm'. split; [exact Hrun|]. split.
    + replace (l + Z.of_nat (S j)) with (l + 1 + Z.of_nat j) by lia. exact Hres'.
    + rewrite Hct. apply with_script_classTable.
Qed.

Lemma times_uninstantiate_locked (env : Env) (nr seg : Z) (image : list Z) (fuel j : nat) :
  ∀ sm l, resident env sm nr seg image l false → Z.of_nat j + 1 <= l →
    ∃ sm', times j (uninstantiateScript env (S fuel) nr) sm = Ok tt sm'
           ∧ resident env sm' nr seg image (l - Z.of_nat j) false
           ∧ _classTable sm' = _classTable sm.
Proof.
  induction j as [|j IH]; intros sm l Hres Hl.
  - exists sm. split; [reflexivity|]. rewrite Z.sub_0_r. split; [exact Hres|reflexivity].
  - cbn [times]. unfold bind.
    rewrite (uninstantiate_still_locked env sm nr seg image l fuel Hres) by lia.
    pose proof (unlock_resident _ _ _ _ _ _ _ Hres) as Hres1.
    replace (if 0 <? l then l - 1 else l) with (l - 1) in Hres1
      by (destruct (0 <? l) eqn:E; prop_of_bool; lia).
    destruct (IH _ _ Hres1) as (sm' & Hrun & Hres' & Hct); [lia|].
    exists sm'. split; [exact Hrun|]. split.
    + replace (l - Z.of_nat (S j)) with (l - 1 - Z.of_nat j) by lia. exact Hres'.
    + rewrite Hct. apply with_script_classTable.
Qed.

Lemma times_snoc {A} (j : nat) (m : M A) (sm : SegManager) :
  times (S j) m sm = match times j m sm with
                     | Ok _ sm' => match m sm' with
                                   | Ok _ sm'' => Ok tt sm''
                                   | Err e => Err e
                                   end
                     | Err e => Err e
                     end.
Proof.
  revert sm. induction j as [|j IH]; intros sm.
  - cbn [times]. unfold bind, ret. destruct (m sm); reflexivity.
  - change (times (S (S j)) m sm) with (bind m (fun _ => times (S j) m) sm).
    change (times (S j) m sm) with (bind m (fun _ => times j m) sm).
    unfold bind. destruct (m sm) as [a sm1|e]; [|reflexivity]. apply IH.
Qed.

(** ** Hierarchies without a cycle *)

Lemma resident_seg_pos (env : Env) (sm : SegManager) (nr seg : Z) (image : list Z)
    (l : Z) (d : bool) :
  resident env sm nr seg image l d → 0 <= seg.
Proof. intros (_ & H & _). lia. Qed.

Lemma resident_agree (env : Env) (sm : SegManager) (nr seg seg' : Z) (image image' : list Z)
    (l l' : Z) (d d' : bool) :
  resident env sm nr seg image l d → resident env sm nr seg' image' l' d' →
  seg' = seg ∧ image' = image ∧ l' = l ∧ d' = d.
Proof.
  intros (Hm & _ & _ & f & s & blk & Hs & Hl & Hd & Hb & Hmem)
         (Hm' & _ & _ & f' & s' & blk' & Hs' & Hl' & Hd' & Hb' & Hmem').
  assert (seg' = seg) by congruence. subst seg'.
  rewrite Hs in Hs'. injection Hs' as <- <-.
  rewrite Hb in Hb'. injection Hb' as <-. rewrite Hmem in Hmem'. injection Hmem' as <-.
  repeat split; congruence.
Qed.

Lemma resident_same_slot (env : Env) (sm sm' : SegManager) (nr seg : Z) (image : list Z)
    (l : Z) (d : bool) :
  resident env sm nr seg image l d →
  _scriptSegMap sm' = _scriptSegMap sm → memory sm' = memory sm →
  lookupZ (_heap sm') seg = lookupZ (_heap sm) seg →
  resident env sm' nr seg image l d.
Proof.
  intros (Hm & H1 & Ha & f & s & blk & Hs & Hl & Hd & Hb & Hmem) Emap Emem Eslot.
  split; [rewrite Emap; exact Hm|]. split; [exact H1|]. split; [exact Ha|].
  exists f, s, blk. rewrite Eslot, Emem. repeat split; assumption.
Qed.

Lemma getScriptIfLoaded_with_script (env : Env) (sm : SegManager) (seg : Z)
    (g : Script → Script) (x : Z) :
  getScriptIfLoaded env (with_script sm seg g) x = getScriptIfLoaded env sm x.
Proof.
  unfold getScriptIfLoaded. destruct (with_script_fields sm seg g) as (_ & _ & _ & _ & ->).
  set (a := getActualSegment env x).
  destruct ((a <? 1) || (heap_size sm <=? a)); [reflexivity|].
  unfold slot_of, with_script.
  destruct (lookupZ (_heap sm) seg) as [[[f s|ty f]|]|] eqn:Hs; try reflexivity.
  cbn [_heap]. pose proof (lookupZ_range _ _ _ Hs) as Hr.
  destruct (decide (seg = a)) as [<-|Hne].
  - rewrite lookupZ_insert_eq by exact Hr. rewrite Hs. reflexivity.
  - rewrite lookupZ_insert_ne by (lia || exact Hne). reflexivity.
Qed.

Lemma superclass_owners_mono (env : Env) (scripts : list Z) (nr : Z) (image : list Z) :
  ∀ (f f' : nat) (offset len : Z) (os : list Z),
    (f <= f')%nat →
    superclass_owners env scripts nr image f offset len = Some os →
    superclass_owners env scripts nr image f' offset len = Some os.
Proof.
  induction f as [|f IH]; intros f' offset len os Hle H; [discriminate|].
  destruct f' as [|f']; [lia|].
  assert (Hle' : (f <= f')%nat) by lia.
  cbn [superclass_owners] in *. cbv zeta in *.
  destruct (image16 env image (uint16 (offset + len))) as [objType|]; [|discriminate].
  cbn [mbind option_bind] in *. destruct (objType =? 0); [exact H|].
  destruct (image16 env image (uint16 (offset + len) + 2)) as [len'|]; [|discriminate].
  cbn [mbind option_bind] in *.
  destruct ((objType =? SCI_OBJ_OBJECT env) || (objType =? SCI_OBJ_CLASS env)).
  2:{ apply (IH f' _ _ _ Hle' H). }
  destruct (image16 env image _) as [sc|]; [|discriminate].
  cbn [mbind option_bind] in *.
  destruct (0 <=? to_int16 sc).
  2:{ apply (IH f' _ _ _ Hle' H). }
  destruct (lookupZ scripts (to_int16 sc)) as [owner|]; [|discriminate].
  cbn [mbind option_bind] in *.
  destruct (superclass_owners env scripts nr image f _ len') as [rest|] eqn:Hrest; [|discriminate].
  rewrite (IH f' _ _ _ Hle' Hrest). exact H.
Qed.

Lemma unwound_refl (env : Env) (rank : Z → nat) (r : nat) (sm : SegManager) :
  unwound env rank r sm sm.
Proof. repeat split. Qed.

Lemma unwound_mono (env : Env) (rank : Z → nat) (r r' : nat) (sm sm' : SegManager) :
  (r <= r')%nat → unwound env rank r sm sm' → unwound env rank r' sm sm'.
Proof.
  intros Hle (Hm & Hmem & Hs & Hl & Hslots). repeat split; try assumption.
  intros j Hj. apply Hslots. intros o Ho. apply Hj. lia.
Qed.

Lemma unwound_trans (env : Env) (rank : Z → nat) (r : nat) (sm1 sm2 sm3 : SegManager) :
  unwound env rank r sm1 sm2 → unwound env rank r sm2 sm3 → unwound env rank r sm1 sm3.
Proof.
  intros (Hm & Hmem & Hs & Hl & Hslots) (Hm' & Hmem' & Hs' & Hl' & Hslots').
  split; [congruence|]. split; [congruence|]. split; [congruence|].
  split; [intros x; rewrite Hl'; apply Hl|].
  intros j Hj. rewrite Hslots'; [apply Hslots; exact Hj|]. rewrite Hm. exact Hj.
Qed.

Lemma unwound_with_script (env : Env) (rank : Z → nat) (r : nat) (sm : SegManager)
    (o seg : Z) (image : list Z) (l : Z) (d : bool) (g : Script → Script) :
  resident env sm o seg image l d → (rank o <= r)%nat →
  unwound env rank r sm (with_script sm seg g).
Proof.
  intros Hres Hr. destruct (with_script_fields sm seg g) as (Hm & Hc & Hmem & _ & _).
  split; [exact Hm|]. split; [exact Hmem|]. split; [rewrite Hc; reflexivity|].
  split; [apply getScriptIfLoaded_with_script|].
  intros j Hj. apply with_script_other.
  - eapply resident_seg_pos. exact Hres.
  - intros ->. apply (Hj o Hr). apply Hres.
Qed.

Lemma unwound_without_class_refs (env : Env) (rank : Z → nat) (r : nat) (sm : SegManager)
    (seg : Z) :
  unwound env rank r sm (without_class_refs sm seg).
Proof.
  split; [reflexivity|]. split; [reflexivity|]. split; [apply without_class_refs_scripts|].
  split; [reflexivity|]. intros j _. reflexivity.
Qed.

(** A script whose slot a call has left alone is settled as before. *)
Lemma settled_same_slot (env : Env) (rank : Z → nat) (F r : nat) (sm sm' : SegManager) (o : Z) :
  settled env rank F sm o → unwound env rank r sm sm' →
  (∀ seg, _scriptSegMap sm !! o = Some seg →
          lookupZ (_heap sm') seg = lookupZ (_heap sm) seg) →
  settled env rank F sm' o.
Proof.
  intros Hset (Hm & Hmem & Hs & Hl & _) Hslot.
  destruct Hset as [Hun|(seg & image & l & d & Hres & Hpos & Hown)].
  - left. unfold getScriptSegment. rewrite Hm, Hl. exact Hun.
  - right. exists seg, image, l, d. split.
    + apply (resident_same_slot env sm); try assumption. apply Hslot. apply Hres.
    + split; [exact Hpos|]. rewrite Hs. exact Hown.
Qed.

(** The lock state of a resident script changes: the hierarchy stays. *)
Lemma stratified_with_script (env : Env) (rank : Z → nat) (F top : nat) (sm : SegManager)
    (o seg : Z) (image : list Z) (l l' : Z) (d d' : bool) (g : Script → Script) :
  stratified env rank F sm top → (rank o < top)%nat →
  resident env sm o seg image l d →
  (∀ s, _buf (g s) = _buf s) →
  (∀ s, _lockers s = l → _markedAsDeleted s = d →
        _lockers (g s) = l' ∧ _markedAsDeleted (g s) = d') →
  0 <= l' → (d' = false → d = false) →
  stratified env rank F (with_script sm seg g) top.
Proof.
  intros [Hnodes Hinj] Ho Hres Hbuf Hg Hl' Hd'.
  destruct (with_script_fields sm seg g) as (Hm & Hc & Hmem & _ & _).
  split.
  - intros o2 Ho2. destruct (decide (o2 = o)) as [->|Hne].
    + right. exists seg, image, l', d'.
      split; [apply (resident_with_script env sm o seg image l l' d d' g Hres Hbuf Hg)|].
      split; [exact Hl'|]. intros Hd. rewrite Hc.
      destruct (Hnodes o Ho) as [Hun|(seg0 & image0 & l0 & d0 & Hres0 & _ & Hown)].
      * destruct (resident_loaded _ _ _ _ _ _ _ Hres) as (Hseg & Hload & _).
        rewrite Hseg, Hload in Hun. discriminate.
      * destruct (resident_agree _ _ _ _ _ _ _ _ _ _ _ Hres Hres0) as (-> & -> & -> & ->).
        apply Hown. apply Hd'. exact Hd.
    + apply (settled_same_slot env rank F (rank o) sm); [apply Hnodes; exact Ho2| |].
      * apply (unwound_with_script env rank (rank o) sm o seg image l d g Hres). lia.
      * intros seg2 Hseg2. apply with_script_other.
        -- eapply resident_seg_pos. exact Hres.
        -- intros ->. apply Hne. apply (Hinj o2 o seg Ho2 Ho Hseg2). apply Hres.
  - intros o1 o2 seg0. rewrite Hm. apply Hinj.
Qed.

Lemma stratified_without_class_refs (env : Env) (rank : Z → nat) (F top : nat)
    (sm : SegManager) (seg : Z) :
  stratified env rank F sm top → stratified env rank F (without_class_refs sm seg) top.
Proof.
  intros [Hnodes Hinj]. split; [|exact Hinj].
  intros o Ho. apply (settled_same_slot env rank F 0 sm); [apply Hnodes; exact Ho| |].
  - apply unwound_without_class_refs.
  - intros seg0 _. reflexivity.
Qed.

(** The pass over a script at its last locker, when [uninstantiateScript]
    returns for every script of lower rank: it returns, and the script is
    as it was. *)
Lemma sci0_walk_stratified (env : Env) (rank : Z → nat) (F top : nat) (o seg : Z)
    (image : list Z) (fuel : nat) :
  (rank o < top)%nat →
  (∀ o1 sm1, (rank o1 < rank o)%nat → stratified env rank F sm1 top →
     ∃ sm2, uninstantiateScript env fuel o1 sm1 = Ok tt sm2
            ∧ stratified env rank F sm2 top ∧ unwound env rank (rank o1) sm1 sm2) →
  ∀ (owners : list Z) (fuelw : nat) (reg0 : reg_t) (objLength : Z) (sm1 : SegManager),
    Forall (fun o' => (rank o' < rank o)%nat) owners →
    superclass_owners env (map script (_classTable sm1)) o image fuelw (getOffset reg0)
      objLength = Some owners →
    stratified env rank F sm1 top →
    resident env sm1 o seg image 0 false →
    ∃ sm2, sci0_walk env (uninstantiateScript env fuel) fuelw o seg reg0 objLength sm1
           = Ok tt sm2
           ∧ stratified env rank F sm2 top
           ∧ unwound env rank (rank o) sm1 sm2
           ∧ resident env sm2 o seg image 0 false.
Proof.
  intros Ho Hrec owners.
  induction owners as [|o1 os IHos]; intros fuelw reg0 objLength sm1 Hranks Hown Hstrat Hres.
  - destruct (resident_walkable _ _ _ _ _ _ Hres) as [blk Hw].
    pose proof (sci0_walk_owners env (uninstantiateScript env fuel) sm1 o seg blk image _ fuelw
                  Hw reg0 objLength [] Hown) as Hwalk.
    cbv iota in Hwalk. exists sm1. split; [exact Hwalk|]. split; [exact Hstrat|].
    split; [apply unwound_refl|exact Hres].
  - apply Forall_cons in Hranks as [Hr1 Hranks].
    destruct (resident_walkable _ _ _ _ _ _ Hres) as [blk Hw].
    destruct (sci0_walk_owners env (uninstantiateScript env fuel) sm1 o seg blk image _ fuelw
                Hw reg0 objLength (o1 :: os) Hown) as (fuel1 & reg1 & len1 & Hrest & Hwalk).
    destruct (Hrec o1 sm1 Hr1 Hstrat) as (sm1' & Hrun & Hstrat' & Hunw').
    pose proof Hunw' as (Hm & Hmem & Hs & _ & Hslots).
    assert (Hres' : resident env sm1' o seg image 0 false).
    { apply (resident_same_slot env sm1); try assumption. apply Hslots.
      intros o' Ho' Hseg'. destruct Hstrat as [_ Hinj].
      assert (o' = o) by (apply (Hinj o' o seg); [lia|exact Ho|exact Hseg'|apply Hres]).
      subst o'. lia. }
    rewrite <- Hs in Hrest.
    destruct (IHos fuel1 reg1 len1 sm1' Hranks Hrest Hstrat' Hres')
      as (sm2 & Hwalk2 & Hstrat2 & Hunw2 & Hres2).
    exists sm2. split.
    { rewrite Hwalk. unfold bind. rewrite Hrun. exact Hwalk2. }
    split; [exact Hstrat2|]. split; [|exact Hres2].
    apply (unwound_trans env rank (rank o) sm1 sm1' sm2); [|exact Hunw2].
    apply (unwound_mono env rank (rank o1)); [lia|exact Hunw'].
Qed.

(** In a hierarchy without a cycle [uninstantiateScript] returns: a script
    with lockers to spare loses one, a script at its last locker is marked
    deleted after the scripts of its superclasses have been unlocked in
    their turn, and no script of higher rank is touched. *)
Lemma uninstantiate_stratified (env : Env) (rank : Z → nat) (F top : nat) :
  (getSciVersion env <? SCI_VERSION_1_1 env) = true →
  ∀ (r : nat) (o : Z) (fuel : nat) (sm : SegManager),
    rank o = r → (r < top)%nat → (F + r < fuel)%nat →
    stratified env rank F sm top →
    ∃ sm', uninstantiateScript env fuel o sm = Ok tt sm'
      ∧ stratified env rank F sm' top
      ∧ unwound env rank r sm sm'
      ∧ (∀ seg image l, resident env sm o seg image l false →
           resident env sm' o seg image (if 2 <=? l then l - 1 else 0) (negb (2 <=? l))).
Proof.
  intros Hold r. induction r as [r IH] using lt_wf_ind.
  intros o fuel sm Hr Htop Hfuel Hstrat.
  destruct fuel as [|fuel]; [lia|].
  pose proof Hstrat as [Hnodes Hinj].
  assert (Ho : (rank o < top)%nat) by lia.
  destruct (Hnodes o Ho) as [Hun|(seg & image & l & d & Hres & Hl & Hown)].
  - (* not loaded *)
    exists sm. split.
    { apply uninstantiate_noop. unfold unloaded_or_deleted. rewrite Hun. exact I. }
    split; [exact Hstrat|]. split; [apply unwound_refl|].
    intros seg image l Hres. destruct (resident_loaded _ _ _ _ _ _ _ Hres) as (Hseg & Hload & _).
    rewrite Hseg, Hload in Hun. discriminate.
  - destruct d.
    + (* marked deleted *)
      exists sm. split.
      { apply uninstantiate_noop. eapply resident_deleted_noop. exact Hres. }
      split; [exact Hstrat|]. split; [apply unwound_refl|].
      intros seg' image' l' Hres'.
      destruct (resident_agree _ _ _ _ _ _ _ _ _ _ _ Hres Hres') as (_ & _ & _ & Hd).
      discriminate.
    + destruct (Z_le_gt_dec 2 l) as [Hmany|Hlast].
      * (* lockers to spare *)
        exists (with_script sm seg unlock). split.
        { apply (uninstantiate_still_locked env sm o seg image l fuel Hres Hmany). }
        pose proof (unlock_resident _ _ _ _ _ _ _ Hres) as Hres1.
        replace (if 0 <? l then l - 1 else l) with (l - 1) in Hres1
          by (destruct (0 <? l) eqn:E; prop_of_bool; lia).
        split.
        { apply (stratified_with_script env rank F top sm o seg image l (l - 1) false false
                   unlock Hstrat Ho Hres).
          - reflexivity.
          - intros s Hls Hds. unfold unlock. simpl. rewrite Hls, Hds.
            replace (0 <? l) with true by (symmetry; apply Z.ltb_lt; lia). split; reflexivity.
          - lia.
          - intros _. reflexivity. }
        split; [apply (unwound_with_script env rank r sm o seg image l false unlock Hres); lia|].
        intros seg' image' l' Hres'.
        destruct (resident_agree _ _ _ _ _ _ _ _ _ _ _ Hres Hres') as (-> & -> & -> & _).
        replace (2 <=? l) with true by (symmetry; apply Z.leb_le; lia). exact Hres1.
      * (* the last locker *)
        destruct (uninstantiate_last env sm o seg image l fuel Hres) as [Hrun Hres0]; [lia|].
        rewrite Hold in Hrun.
        set (sm0 := without_class_refs (with_script sm seg unlock) seg) in *.
        assert (Hstrat0 : stratified env rank F sm0 top).
        { apply stratified_without_class_refs.
          apply (stratified_with_script env rank F top sm o seg image l 0 false false
                   unlock Hstrat Ho Hres).
          - reflexivity.
          - intros s Hls Hds. unfold unlock. simpl. rewrite Hls, Hds.
            split; [|reflexivity]. destruct (0 <? l) eqn:E; prop_of_bool; lia.
          - lia.
          - intros _. reflexivity. }
        assert (Hunw0 : unwound env rank r sm sm0).
        { apply (unwound_trans env rank r sm (with_script sm seg unlock) sm0).
          - apply (unwound_with_script env rank r sm o seg image l false unlock Hres). lia.
          - apply unwound_without_class_refs. }
        destruct (Hown eq_refl) as (owners & Hown1 & Hranks).
        assert (Hown0 : superclass_owners env (map script (_classTable sm0)) o image fuel
                          (getOffset (make_reg seg (sci0_start env))) 0 = Some owners).
        { destruct Hunw0 as (_ & _ & -> & _).
          apply (superclass_owners_mono env _ o image F fuel); [lia|exact Hown1]. }
        destruct (sci0_walk_stratified env rank F top o seg image fuel Ho) with
          (owners := owners) (fuelw := fuel) (reg0 := make_reg seg (sci0_start env))
          (objLength := 0) (sm1 := sm0)
          as (sm2 & Hwalk & Hstrat2 & Hunw2 & Hres2);
          [|exact Hranks|exact Hown0|exact Hstrat0|exact Hres0|].
        { intros o1 sm1 Hr1 Hstrat1.
          assert (Hlt1 : (rank o1 < r)%nat) by lia.
          assert (Ht1 : (rank o1 < top)%nat) by lia.
          assert (Hf1 : (F + rank o1 < fuel)%nat) by lia.
          destruct (IH (rank o1) Hlt1 o1 fuel sm1 eq_refl Ht1 Hf1 Hstrat1)
            as (sm1' & Hrun1 & Hstrat1' & Hunw1 & _).
          exists sm1'. split; [exact Hrun1|]. split; assumption. }
        destruct (resident_loaded _ _ _ _ _ _ _ Hres2) as (_ & _ & _ & _ & Hlock2).
        exists (with_script sm2 seg mark). split.
        { rewrite Hrun. unfold bind at 1. rewrite Hwalk. unfold bind at 1. rewrite Hlock2.
          change (0 =? 0) with true. cbv iota.
          apply (markDeleted_resident _ _ _ _ _ _ _ Hres2). }
        split.
        { apply (stratified_with_script env rank F top sm2 o seg image 0 0 false true
                   mark Hstrat2 Ho Hres2).
          - reflexivity.
          - intros s Hls _. unfold mark. simpl. split; [exact Hls|reflexivity].
          - lia.
          - discriminate. }
        split.
        { apply (unwound_trans env rank r sm sm0); [exact Hunw0|].
          apply (unwound_trans env rank r sm0 sm2); [rewrite <- Hr; exact Hunw2|].
          apply (unwound_with_script env rank r sm2 o seg image 0 false mark Hres2). lia. }
        intros seg' image' l' Hres'.
        destruct (resident_agree _ _ _ _ _ _ _ _ _ _ _ Hres Hres') as (-> & -> & -> & _).
        replace (2 <=? l) with false by (symmetry; apply Z.leb_gt; lia).
        apply (mark_resident _ _ _ _ _ _ _ Hres2).
Qed.

Lemma times_uninstantiate_stratified (env : Env) (rank : Z → nat) (F top : nat)
    (nr seg : Z) (image : list Z) (fuel j : nat) :
  (getSciVersion env <? SCI_VERSION_1_1 env) = true →
  (rank nr < top)%nat → (F + rank nr < fuel)%nat →
  ∀ sm l, resident env sm nr seg image l false → Z.of_nat j + 1 <= l →
    stratified env rank F sm top →
    ∃ sm', times j (uninstantiateScript env fuel nr) sm = Ok tt sm'
           ∧ resident env sm' nr seg image (l - Z.of_nat j) false
           ∧ stratified env rank F sm' top.
Proof.
  intros Hold Htop Hfuel. induction j as [|j IH]; intros sm l Hres Hl Hstrat.
  - exists sm. split; [reflexivity|]. rewrite Z.sub_0_r. split; assumption.
  - cbn [times]. unfold bind.
    destruct (uninstantiate_stratified env rank F top Hold (rank nr) nr fuel sm eq_refl
                Htop Hfuel Hstrat) as (sm1 & Hrun & Hstrat1 & _ & Hstate).
    rewrite Hrun. specialize (Hstate seg image l Hres).
    replace (2 <=? l) with true in Hstate by (symmetry; apply Z.leb_le; lia).
    cbn [negb] in Hstate.
    destruct (IH sm1 (l - 1) Hstate) as (sm' & Hrest & Hres' & Hstrat'); [lia|exact Hstrat1|].
    exists sm'. split; [exact Hrest|]. split; [|exact Hstrat'].
    replace (l - Z.of_nat (S j)) with (l - 1 - Z.of_nat j) by lia. exact Hres'.
Qed.

(** C5, as the code has it.  A script that is not registered, whose image
    the loader has, is instantiated [k >= 1] times: it is resident with [k]
    lockers, and the owners of the classes are as before.  Then [k - 1]
    calls of [uninstantiateScript] leave it loaded, not marked, with one
    locker, and [k] calls leave it marked deleted with no locker: from
    SCI1.1 on for every such script, and in the older generation, where the
    last unlock walks the records and unlocks the scripts of the
    superclasses in their turn, when the superclasses below the script form
    no cycle, that is, when the scripts can be ranked so that every loaded
    script from this one down names superclasses of its own or of scripts
    of lower rank only.  [uninstantiateScript] of a script that is not
    loaded, or that is marked deleted, returns and changes nothing, in every
    generation.  (The passes that follow the load are the loader's: they
    are taken to return and to leave the script resident as it is.) *)
Theorem locker_discipline (env : Env) (sm : SegManager) (nr : Z) (image : list Z)
    (k fuel : nat) (rank : Z → nat) :
  1 <= heap_size sm <= 16383 →
  _scriptSegMap sm !! nr = None →
  scriptResource env nr = Some image →
  pass_keeps env nr (initializeLocals env) →
  pass_keeps env nr (initializeClasses env) →
  pass_keeps env nr (initializeObjects env) →
  pass_keeps env nr (instantiateScriptHook env) →
  (1 <= k)%nat →
  ∃ seg smk,
    times k (instantiateScript env nr) sm = Ok tt smk
    ∧ resident env smk nr seg image (Z.of_nat k) false
    ∧ map script (_classTable smk) = map script (_classTable sm)
    ∧ (((getSciVersion env <? SCI_VERSION_1_1 env) = true →
        stratified env rank fuel smk (S (rank nr))) →
       (∃ sm', times (k - 1) (uninstantiateScript env (S (fuel + rank nr)) nr) smk = Ok tt sm'
               ∧ resident env sm' nr seg image 1 false)
       ∧ (∃ sm', times k (uninstantiateScript env (S (fuel + rank nr)) nr) smk = Ok tt sm'
                 ∧ resident env sm' nr seg image 0 true
                 ∧ unloaded_or_deleted env sm' nr))
    ∧ unloaded_or_deleted env sm nr
    ∧ ∀ sm0 nr0 fuel0, unloaded_or_deleted env sm0 nr0 →
                       uninstantiateScript env (S fuel0) nr0 sm0 = Ok tt sm0.
Proof.
  intros Hsize Hnew Himg Hp1 Hp2 Hp3 Hp4 Hk.
  destruct k as [|j]; [lia|]. clear Hk.
  destruct (instantiate_first env sm nr image Hsize Hnew Himg Hp1 Hp2 Hp3 Hp4)
    as (seg & sm1 & Hfirst & Hres1 & Hscripts1).
  destruct (times_instantiate env nr seg image j sm1 1 Hres1) as (smk & Hrest & Hresk & Hctk).
  replace (1 + Z.of_nat j) with (Z.of_nat (S j)) in Hresk by lia.
  exists seg, smk. split; [|split; [exact Hresk|split; [|split; [|split]]]].
  - cbn [times]. unfold bind. rewrite Hfirst. exact Hrest.
  - rewrite Hctk. exact Hscripts1.
  - intros Hacyclic. replace (S j - 1)%nat with j by lia.
    destruct (getSciVersion env <? SCI_VERSION_1_1 env) eqn:Hgen.
    + (* the older generation: the records are walked *)
      specialize (Hacyclic eq_refl).
      assert (Htop : (rank nr < S (rank nr))%nat) by lia.
      assert (Hfuel : (fuel + rank nr < S (fuel + rank nr))%nat) by lia.
      destruct (times_uninstantiate_stratified env rank fuel (S (rank nr)) nr seg image
                  (S (fuel + rank nr)) j Hgen Htop Hfuel smk _ Hresk)
        as (sm' & Hdown & Hres' & Hstrat'); [lia|exact Hacyclic|].
      replace (Z.of_nat (S j) - Z.of_nat j) with 1 in Hres' by lia.
      destruct (uninstantiate_stratified env rank fuel (S (rank nr)) Hgen (rank nr) nr
                  (S (fuel + rank nr)) sm' eq_refl Htop Hfuel Hstrat')
        as (sm'' & Hlast & _ & _ & Hstate).
      specialize (Hstate seg image 1 Hres'). cbn in Hstate.
      split; [exists sm'; split; assumption|].
      exists sm''. split; [|split; [exact Hstate|]].
      * rewrite times_snoc, Hdown, Hlast. reflexivity.
      * eapply resident_deleted_noop. exact Hstate.
    + (* from SCI1.1 on: no walk *)
      destruct (times_uninstantiate_locked env nr seg image (fuel + rank nr) j smk _ Hresk)
        as (sm' & Hdown & Hres' & Hct'); [lia|].
      replace (Z.of_nat (S j) - Z.of_nat j) with 1 in Hres' by lia.
      destruct (uninstantiate_local env sm' nr seg image 1 (fuel + rank nr) Hres')
        as [Hlast Hres0]; [lia|rewrite Hgen; discriminate|].
      split; [exists sm'; split; assumption|].
      eexists. split; [|split; [exact Hres0|]].
      * rewrite times_snoc, Hdown, Hlast. reflexivity.
      * eapply resident_deleted_noop. exact Hres0.
  - unfold unloaded_or_deleted, getScriptSegment. rewrite Hnew. simpl.
    unfold getScriptIfLoaded. rewrite getActualSegment_small by lia. exact I.
  - intros sm0 nr0 fuel0. apply uninstantiate_noop.
Qed.

Lemma no_pass_keeps (env : Env) (nr : Z) : pass_keeps env nr no_pass.
Proof.
  intros sm seg image l d Hres. exists sm.
  split; [reflexivity|]. split; [exact Hres|reflexivity].
Qed.

Lemma twice_manager_stratified :
  stratified (sample_env 2 chain_images) chain_rank 2 twice_manager 2.
Proof.
  split.
  - intros o Ho. unfold chain_rank in Ho.
    destruct (o =? 20) eqn:E20; [apply Z.eqb_eq in E20 as ->|].
    { right. exists 2, (class_image 1 0 0), 2, false. split; [|split; [lia|]].
      - split; [reflexivity|]. split; [lia|]. split; [reflexivity|].
        eexists _, _, _. vm_compute. repeat split.
      - intros _. exists [10]. split; [reflexivity|].
        repeat constructor. }
    destruct (o =? 10) eqn:E10; [apply Z.eqb_eq in E10 as ->|lia].
    right. exists 1, (class_image 0 255 255), 1, false. split; [|split; [lia|]].
    + split; [reflexivity|]. split; [lia|]. split; [reflexivity|].
      eexists _, _, _. vm_compute. repeat split.
    + intros _. exists []. split; [reflexivity|constructor].
  - intros o1 o2 seg H1 H2 Hm1 Hm2. unfold chain_rank in H1, H2.
    destruct (o1 =? 20) eqn:A20; [apply Z.eqb_eq in A20 as ->|];
      [|destruct (o1 =? 10) eqn:A10; [apply Z.eqb_eq in A10 as ->|lia]];
      (destruct (o2 =? 20) eqn:B20; [apply Z.eqb_eq in B20 as ->|];
       [|destruct (o2 =? 10) eqn:B10; [apply Z.eqb_eq in B10 as ->|lia]]);
      try reflexivity; vm_compute in Hm1, Hm2; congruence.
Qed.

Lemma locker_discipline_witness :
  ∃ seg smk,
    times 2 (instantiateScript (sample_env 2 chain_images) 20) base_manager = Ok tt smk
    ∧ resident (sample_env 2 chain_images) smk 20 seg (class_image 1 0 0) (Z.of_nat 2) false
    ∧ map script (_classTable smk) = map script (_classTable base_manager)
    ∧ (∃ sm', times (2 - 1)
                (uninstantiateScript (sample_env 2 chain_images) (S (2 + chain_rank 20)) 20) smk
              = Ok tt sm'
              ∧ resident (sample_env 2 chain_images) sm' 20 seg (class_image 1 0 0) 1 false)
    ∧ (∃ sm', times 2
                (uninstantiateScript (sample_env 2 chain_images) (S (2 + chain_rank 20)) 20) smk
              = Ok tt sm'
              ∧ resident (sample_env 2 chain_images) sm' 20 seg (class_image 1 0 0) 0 true
              ∧ unloaded_or_deleted (sample_env 2 chain_images) sm' 20)
    ∧ unloaded_or_deleted (sample_env 2 chain_images) base_manager 20
    ∧ ∀ sm0 nr0 fuel0, unloaded_or_deleted (sample_env 2 chain_images) sm0 nr0 →
                       uninstantiateScript (sample_env 2 chain_images) (S fuel0) nr0 sm0
                       = Ok tt sm0.
Proof.
  destruct (locker_discipline (sample_env 2 chain_images) base_manager 20
              (class_image 1 0 0) 2 2 chain_rank)
    as (seg & smk & Hrun & Hres & Hscripts & Hdown & Hun & Hnoop).
  - vm_compute. split; discriminate.
  - reflexivity.
  - reflexivity.
  - apply no_pass_keeps.
  - apply no_pass_keeps.
  - apply no_pass_keeps.
  - apply no_pass_keeps.
  - lia.
  - assert (Hk : smk = twice_manager).
    { unfold twice_manager, after. rewrite Hrun. reflexivity. }
    exists seg, smk. split; [exact Hrun|]. split; [exact Hres|]. split; [exact Hscripts|].
    destruct Hdown as [Hk1 Hk2].
    { intros _. rewrite Hk. exact twice_manager_stratified. }
    split; [exact Hk1|]. split; [exact Hk2|]. split; [exact Hun|exact Hnoop].
Defined.

(** The discipline, run on the chain: script 20, whose class has its
    superclass in script 10, is instantiated twice beside script 10 and
    uninstantiated twice; script 20 ends marked deleted without lockers, and
    so does script 10, whose one locker the last unlock has taken. *)
Example locker_discipline_runs :
  ∃ sm', (times 2 (uninstantiateScript (sample_env 2 chain_images) 4 20);;
          l20 <- getLockers 2;; d20 <- isMarkedAsDeleted 2;;
          l10 <- getLockers 1;; d10 <- isMarkedAsDeleted 1;;
          ret (l20, d20, l10, d10)) twice_manager
         = Ok (0, true, 0, true) sm'.
Proof. eexists. vm_compute. reflexivity. Qed.

(** ** Unlocking the script of a superclass *)

Lemma times_uninstantiate_frame (env : Env) (nr seg : Z) (image : list Z) (fuel j : nat) :
  ∀ sm l, resident env sm nr seg image l false → Z.of_nat j + 1 <= l →
    ∃ sm', times j (uninstantiateScript env (S fuel) nr) sm = Ok tt sm'
           ∧ resident env sm' nr seg image (l - Z.of_nat j) false
           ∧ _classTable sm' = _classTable sm
           ∧ ∀ nr' seg' image' l' d', seg' ≠ seg →
               resident env sm nr' seg' image' l' d' →
               resident env sm' nr' seg' image' l' d'.
Proof.
  induction j as [|j IH]; intros sm l Hres Hl.
  - exists sm. split; [reflexivity|]. rewrite Z.sub_0_r. split; [exact Hres|].
    split; [reflexivity|]. intros; assumption.
  - cbn [times]. unfold bind.
    rewrite (uninstantiate_still_locked env sm nr seg image l fuel Hres) by lia.
    pose proof (unlock_resident _ _ _ _ _ _ _ Hres) as Hres1.
    replace (if 0 <? l then l - 1 else l) with (l - 1) in Hres1
      by (destruct (0 <? l) eqn:E; prop_of_bool; lia).
    destruct (IH _ _ Hres1) as (sm' & Hrun & Hres' & Hct & Hframe); [lia|].
    exists sm'. split; [exact Hrun|]. split; [|split].
    + replace (l - Z.of_nat (S j)) with (l - 1 - Z.of_nat j) by lia. exact Hres'.
    + rewrite Hct. apply with_script_classTable.
    + intros nr' seg' image' l' d' Hne Hother. apply Hframe; [exact Hne|].
      apply resident_with_other_script; [exact Hother| |exact Hne].
      destruct Hres as (_ & Hseg & _). lia.
Qed.

(** C6.  In the older generation, script [B] has one record whose
    superclass another script owns, and the owner is script [A]; both are
    resident, [A] with [a] lockers and [B] with [b].  [b] calls of
    [uninstantiateScript] on [B] return, leave [B] marked deleted without
    lockers, and take exactly one locker from [A], which is marked deleted
    when that was its last ([A]'s own records then name no superclass of
    another script).  And at a record whose superclass the walked script
    owns itself, the pass takes one of the script's own lockers if it has
    any and calls [uninstantiateScript] for nobody. *)
Theorem superclass_unlock_propagates (env : Env) (sm : SegManager) (A B segA segB : Z)
    (imageA imageB : list Z) (a : Z) (b fuel : nat) :
  (getSciVersion env <? SCI_VERSION_1_1 env) = true →
  resident env sm A segA imageA a false → 1 <= a →
  resident env sm B segB imageB (Z.of_nat b) false → (1 <= b)%nat →
  segA ≠ segB →
  superclass_owners env (map script (_classTable sm)) B imageB (S fuel) (sci0_start env) 0
  = Some [A] →
  (a = 1 →
   superclass_owners env (map script (_classTable sm)) A imageA fuel (sci0_start env) 0
   = Some []) →
  (∃ sm', times b (uninstantiateScript env (S (S fuel)) B) sm = Ok tt sm'
          ∧ resident env sm' A segA imageA (a - 1) (a =? 1)
          ∧ resident env sm' B segB imageB 0 true)
  ∧ (∀ (rec : Z → M unit) (sm0 : SegManager) (nr seg : Z) (blk : nat) (image scripts : list Z)
       (l : Z) (n : nat) (reg0 : reg_t) (objLength objType len sc : Z),
       walkable sm0 seg blk image scripts l →
       image16 env image (getOffset (incOffset reg0 objLength)) = Some objType →
       objType ≠ 0 →
       objType = SCI_OBJ_OBJECT env ∨ objType = SCI_OBJ_CLASS env →
       image16 env image (getOffset (incOffset reg0 objLength) + 2) = Some len →
       image16 env image
         (getOffset (incOffset (incOffset (incOffset reg0 objLength) 4) 8) + 2) = Some sc →
       0 <= to_int16 sc →
       lookupZ scripts (to_int16 sc) = Some nr →
       sci0_walk env rec (S n) nr seg reg0 objLength sm0
       = sci0_walk env rec n nr seg
           (incOffset (incOffset (incOffset (incOffset (incOffset reg0 objLength) 4) 8)
                                 (SCRIPT_OBJECT_MAGIC_OFFSET env)) (-4))
           len (if l =? 0 then sm0 else with_script sm0 seg unlock)).
Proof.
  intros Hold HA Ha HB Hb Hne HownB HownA. split.
  - destruct b as [|j]; [lia|]. clear Hb.
    set (scripts := map script (_classTable sm)) in *.
    pose proof (resident_seg_pos _ _ _ _ _ _ _ HA) as HsegA.
    pose proof (resident_seg_pos _ _ _ _ _ _ _ HB) as HsegB.
    (* all but the last locker of B *)
    destruct (times_uninstantiate_frame env B segB imageB (S fuel) j sm _ HB)
      as (sm1 & Hdown & HB1 & Hct1 & Hframe1); [lia|].
    replace (Z.of_nat (S j) - Z.of_nat j) with 1 in HB1 by lia.
    pose proof (Hframe1 A segA imageA a false Hne HA) as HA1.
    (* the last locker of B *)
    destruct (uninstantiate_last env sm1 B segB imageB 1 (S fuel) HB1) as [Hlast HB2]; [lia|].
    set (sm2 := without_class_refs (with_script sm1 segB unlock) segB) in *.
    assert (HA2 : resident env sm2 A segA imageA a false).
    { apply resident_without_class_refs, resident_with_other_script; assumption. }
    assert (Hs2 : map script (_classTable sm2) = scripts).
    { unfold sm2. rewrite without_class_refs_scripts, with_script_classTable, Hct1. reflexivity. }
    rewrite Hold in Hlast.
    (* the pass over B meets A *)
    destruct (resident_walkable _ _ _ _ _ _ HB2) as [blk Hw2]. rewrite Hs2 in Hw2.
    destruct (sci0_walk_owners env (uninstantiateScript env (S fuel)) sm2 B segB blk imageB
                scripts (S fuel) Hw2 (make_reg segB (sci0_start env)) 0 [A] HownB)
      as (fuel1 & reg1 & len1 & Hrest & Hwalk).
    (* one locker less for A *)
    assert (HrecA : ∃ sm3, uninstantiateScript env (S fuel) A sm2 = Ok tt sm3
                           ∧ resident env sm3 A segA imageA (a - 1) (a =? 1)
                           ∧ resident env sm3 B segB imageB 0 false
                           ∧ map script (_classTable sm3) = scripts).
    { destruct (decide (a = 1)) as [->|Hmore].
      - destruct (uninstantiate_local env sm2 A segA imageA 1 fuel HA2) as [Hrun HA3]; [lia| |].
        { intros _. rewrite Hs2. apply HownA. reflexivity. }
        eexists. split; [exact Hrun|]. split; [exact HA3|]. split.
        + apply resident_with_other_script; [|exact HsegA|congruence].
          apply resident_without_class_refs.
          apply resident_with_other_script; [exact HB2|exact HsegA|congruence].
        + rewrite with_script_classTable, without_class_refs_scripts, with_script_classTable.
          exact Hs2.
      - rewrite (uninstantiate_still_locked env sm2 A segA imageA a fuel HA2) by lia.
        eexists. split; [reflexivity|]. split; [|split].
        + pose proof (unlock_resident _ _ _ _ _ _ _ HA2) as H.
          replace (if 0 <? a then a - 1 else a) with (a - 1) in H
            by (destruct (0 <? a) eqn:E; prop_of_bool; lia).
          replace (a =? 1) with false by (symmetry; apply Z.eqb_neq; exact Hmore). exact H.
        + apply resident_with_other_script; [exact HB2|exact HsegA|congruence].
        + rewrite with_script_classTable. exact Hs2. }
    destruct HrecA as (sm3 & HrunA & HA3 & HB3 & Hs3).
    (* the rest of the pass, and the mark *)
    destruct (resident_walkable _ _ _ _ _ _ HB3) as [blk3 Hw3]. rewrite Hs3 in Hw3.
    pose proof (sci0_walk_owners env (uninstantiateScript env (S fuel)) sm3 B segB blk3 imageB
                  scripts fuel1 Hw3 reg1 len1 [] Hrest) as Hrest3.
    cbv iota in Hrest3.
    destruct (resident_loaded _ _ _ _ _ _ _ HB3) as (_ & _ & _ & _ & Hlock3).
    exists (with_script sm3 segB mark). split; [|split].
    + rewrite times_snoc, Hdown, Hlast. unfold bind at 1. rewrite Hwalk.
      unfold bind at 1. rewrite HrunA, Hrest3. unfold bind at 1. rewrite Hlock3.
      change (0 =? 0) with true. cbv iota.
      rewrite (markDeleted_resident _ _ _ _ _ _ _ HB3). reflexivity.
    + apply resident_with_other_script; [exact HA3|exact HsegB|exact Hne].
    + apply (mark_resident _ _ _ _ _ _ _ HB3).
  - intros rec sm0 nr seg blk image scripts l n reg0 objLength objType len sc
           Hw Hty Hnz Hkind Hlen Hsc Hpos Hown.
    rewrite (sci0_walk_step env rec sm0 nr seg blk image scripts l n reg0 objLength Hw).
    cbv zeta. rewrite Hty.
    replace (objType =? 0) with false by (symmetry; apply Z.eqb_neq; exact Hnz).
    rewrite Hlen.
    replace ((objType =? SCI_OBJ_OBJECT env) || (objType =? SCI_OBJ_CLASS env)) with true.
    2:{ symmetry. apply orb_true_iff. destruct Hkind as [->| ->]; [left|right]; apply Z.eqb_refl. }
    rewrite Hsc. replace (0 <=? to_int16 sc) with true by (symmetry; apply Z.leb_le; exact Hpos).
    rewrite Hown, Z.eqb_refl. reflexivity.
Qed.

Lemma chain_manager_resident :
  resident (sample_env 2 chain_images) chain_manager 10 1 (class_image 0 255 255) 1 false
  ∧ resident (sample_env 2 chain_images) chain_manager 20 2 (class_image 1 0 0) 1 false.
Proof.
  split; (split; [reflexivity|]); (split; [lia|]); (split; [reflexivity|]);
    eexists _, _, _; vm_compute; repeat split.
Qed.

Lemma superclass_unlock_propagates_witness :
  (∃ sm', times 1 (uninstantiateScript (sample_env 2 chain_images) 4 20) chain_manager = Ok tt sm'
          ∧ resident (sample_env 2 chain_images) sm' 10 1 (class_image 0 255 255) (1 - 1) (1 =? 1)
          ∧ resident (sample_env 2 chain_images) sm' 20 2 (class_image 1 0 0) 0 true)
  ∧ (∀ (rec : Z → M unit) (sm0 : SegManager) (nr seg : Z) (blk : nat) (image scripts : list Z)
       (l : Z) (n : nat) (reg0 : reg_t) (objLength objType len sc : Z),
       walkable sm0 seg blk image scripts l →
       image16 (sample_env 2 chain_images) image (getOffset (incOffset reg0 objLength))
       = Some objType →
       objType ≠ 0 →
       objType = SCI_OBJ_OBJECT (sample_env 2 chain_images)
       ∨ objType = SCI_OBJ_CLASS (sample_env 2 chain_images) →
       image16 (sample_env 2 chain_images) image (getOffset (incOffset reg0 objLength) + 2)
       = Some len →
       image16 (sample_env 2 chain_images) image
         (getOffset (incOffset (incOffset (incOffset reg0 objLength) 4) 8) + 2) = Some sc →
       0 <= to_int16 sc →
       lookupZ scripts (to_int16 sc) = Some nr →
       sci0_walk (sample_env 2 chain_images) rec (S n) nr seg reg0 objLength sm0
       = sci0_walk (sample_env 2 chain_images) rec n nr seg
           (incOffset (incOffset (incOffset (incOffset (incOffset reg0 objLength) 4) 8)
                                 (SCRIPT_OBJECT_MAGIC_OFFSET (sample_env 2 chain_images))) (-4))
           len (if l =? 0 then sm0 else with_script sm0 seg unlock)).
Proof.
  apply (superclass_unlock_propagates (sample_env 2 chain_images) chain_manager 10 20 1 2
           (class_image 0 255 255) (class_image 1 0 0) 1 1 2).
  - reflexivity.
  - apply chain_manager_resident.
  - lia.
  - apply chain_manager_resident.
  - lia.
  - lia.
  - reflexivity.
  - intros _. reflexivity.
Defined.

(** The own-superclass record, run: the pass over script 10 of
    [self_images], resident with three lockers, takes one and calls nobody
    ([rec] would abort). *)
Example own_superclass_takes_a_locker :
  ∃ sm',
    (instantiateScript (sample_env 2 self_images) 10;;
     instantiateScript (sample_env 2 self_images) 10;;
     instantiateScript (sample_env 2 self_images) 10;;
     l0 <- getLockers 1;;
     uninstantiateScriptSci0 (sample_env 2 self_images) (fun _ => error "called") 3 10;;
     l1 <- getLockers 1;;
     ret (l0, l1)) start_manager = Ok (3, 2) sm'.
Proof. eexists. vm_compute. reflexivity. Qed.

(** ** Superclass cycles *)

(** The pass reaches the first superclass another script owns, if its fuel
    lasts that long. *)
Lemma sci0_walk_reaches (env : Env) (rec : Z → M unit) (sm : SegManager) (nr seg : Z) (blk : nat)
    (image scripts : list Z) (o : Z) :
  walkable sm seg blk image scripts 0 →
  ∀ (n fuel : nat) (reg0 : reg_t) (objLength : Z) (os : list Z),
    superclass_owners env scripts nr image fuel (getOffset reg0) objLength = Some (o :: os) →
    sci0_walk env rec n nr seg reg0 objLength sm = Err OutOfFuel
    ∨ ∃ n1 reg1 len1,
        sci0_walk env rec n nr seg reg0 objLength sm
        = (rec o;; sci0_walk env rec n1 nr seg reg1 len1) sm.
Proof.
  intros Hw. induction n as [|n IH]; intros fuel reg0 objLength os Hown; [left; reflexivity|].
  destruct fuel as [|fuel]; [discriminate|].
  rewrite (sci0_walk_step env rec sm nr seg blk image scripts 0 n reg0 objLength Hw).
  change (0 =? 0) with true. cbv iota.
  cbn [superclass_owners] in Hown. cbv zeta in Hown. cbv zeta.
  change (uint16 (getOffset reg0 + objLength)) with (getOffset (incOffset reg0 objLength)) in Hown.
  set (r0 := incOffset reg0 objLength) in *.
  change (uint16 (getOffset r0 + 4)) with (getOffset (incOffset r0 4)) in Hown.
  set (r1 := incOffset r0 4) in *.
  change (uint16 (getOffset r1 + 8)) with (getOffset (incOffset r1 8)) in Hown.
  set (r2 := incOffset r1 8) in *.
  change (uint16 (uint16 (getOffset r2 + SCRIPT_OBJECT_MAGIC_OFFSET env) + -4))
    with (getOffset (incOffset (incOffset r2 (SCRIPT_OBJECT_MAGIC_OFFSET env)) (-4))) in Hown.
  set (r3 := incOffset (incOffset r2 (SCRIPT_OBJECT_MAGIC_OFFSET env)) (-4)) in *.
  change (uint16 (getOffset r1 + -4)) with (getOffset (incOffset r1 (-4))) in Hown.
  destruct (image16 env image (getOffset r0)) as [objType|]; [|discriminate].
  cbn [mbind option_bind] in Hown. destruct (objType =? 0); [discriminate|].
  destruct (image16 env image (getOffset r0 + 2)) as [len|]; [|discriminate].
  cbn [mbind option_bind] in Hown.
  destruct ((objType =? SCI_OBJ_OBJECT env) || (objType =? SCI_OBJ_CLASS env)).
  2:{ apply (IH fuel (incOffset r1 (-4)) len os). exact Hown. }
  destruct (image16 env image (getOffset r2 + 2)) as [sc|]; [|discriminate].
  cbn [mbind option_bind] in Hown.
  destruct (0 <=? to_int16 sc).
  2:{ apply (IH fuel r3 len os). exact Hown. }
  destruct (lookupZ scripts (to_int16 sc)) as [owner|]; [|discriminate].
  cbn [mbind option_bind] in Hown.
  destruct (superclass_owners env scripts nr image fuel (getOffset r3) len) as [rest|] eqn:Hrest;
    [|discriminate].
  cbn [mbind option_bind] in Hown.
  destruct (owner =? nr).
  - injection Hown as ->. apply (IH fuel r3 len os). exact Hrest.
  - injection Hown as -> _. right. exists n, r3, len. reflexivity.
Qed.

Lemma entangled_sym (env : Env) (sm : SegManager) (A B segA segB : Z) (imageA imageB : list Z) :
  entangled env sm A B segA segB imageA imageB →
  entangled env sm B A segB segA imageB imageA.
Proof. intros (H1 & H2 & H3 & H4 & H5). repeat split; try assumption. congruence. Qed.

Lemma entangled_runs_out (env : Env) (A B segA segB : Z) (imageA imageB : list Z) :
  (getSciVersion env <? SCI_VERSION_1_1 env) = true →
  ∀ (fuel : nat) (sm : SegManager),
    entangled env sm A B segA segB imageA imageB →
    uninstantiateScript env fuel A sm = Err OutOfFuel
    ∧ uninstantiateScript env fuel B sm = Err OutOfFuel.
Proof.
  intros Hold.
  assert (Hone : ∀ fuel,
    (∀ sm X Y segX segY imageX imageY,
       (X = A ∧ Y = B ∧ segX = segA ∧ segY = segB ∧ imageX = imageA ∧ imageY = imageB)
       ∨ (X = B ∧ Y = A ∧ segX = segB ∧ segY = segA ∧ imageX = imageB ∧ imageY = imageA) →
       entangled env sm X Y segX segY imageX imageY →
       uninstantiateScript env fuel X sm = Err OutOfFuel)).
  { induction fuel as [|fuel IH]; intros sm X Y segX segY imageX imageY Hxy Hent;
      [reflexivity|].
    destruct Hent as (Hne & (a & Ha & HX) & (b & Hb & HY) & (fX & osX & HownX) & HownY).
    destruct (uninstantiate_last env sm X segX imageX a fuel HX Ha) as [-> HX0].
    set (sm0 := without_class_refs (with_script sm segX unlock) segX) in *.
    assert (Hs0 : map script (_classTable sm0) = map script (_classTable sm)).
    { unfold sm0. rewrite without_class_refs_scripts, with_script_classTable. reflexivity. }
    assert (Hent0 : entangled env sm0 Y X segY segX imageY imageX).
    { split; [congruence|]. split; [|split; [|split]].
      - exists b. split; [exact Hb|]. apply resident_without_class_refs.
        apply resident_with_other_script; [exact HY| |congruence].
        eapply resident_seg_pos. exact HX.
      - exists 0. split; [lia|exact HX0].
      - rewrite Hs0. exact HownY.
      - rewrite Hs0. eauto. }
    rewrite Hold. unfold bind at 1.
    destruct (resident_walkable _ _ _ _ _ _ HX0) as [blk Hw]. rewrite Hs0 in Hw.
    destruct (sci0_walk_reaches env (uninstantiateScript env fuel) sm0 X segX blk imageX
                (map script (_classTable sm)) Y Hw fuel fX (make_reg segX (sci0_start env)) 0
                osX HownX) as [->|(n1 & reg1 & len1 & ->)]; [reflexivity|].
    unfold bind at 1.
    rewrite (IH sm0 Y X segY segX imageY imageX); [reflexivity| |exact Hent0].
    destruct Hxy as [(-> & -> & -> & -> & -> & ->)|(-> & -> & -> & -> & -> & ->)];
      [right|left]; repeat split. }
  intros fuel sm Hent. split.
  - apply (Hone fuel sm A B segA segB imageA imageB); [left; repeat split|exact Hent].
  - apply (Hone fuel sm B A segB segA imageB imageA); [right; repeat split|].
    apply entangled_sym. exact Hent.
Qed.

(** A script at its last locker whose records name no superclass that
    another script owns: the pass returns without calling
    [uninstantiateScript]. *)
Lemma uninstantiateScriptSci0_local (env : Env) (rec : Z → M unit) (sm : SegManager)
    (nr seg : Z) (image : list Z) (d : bool) (fuel : nat) :
  resident env sm nr seg image 0 d →
  superclass_owners env (map script (_classTable sm)) nr image fuel (sci0_start env) 0
  = Some [] →
  uninstantiateScriptSci0 env rec fuel nr sm = Ok tt sm.
Proof.
  intros Hres Hlocal.
  destruct (resident_loaded _ _ _ _ _ _ _ Hres) as (Hseg & _ & Hgs & _).
  unfold uninstantiateScriptSci0. unfold bind at 1. unfold get. rewrite Hseg.
  unfold bind at 1. rewrite Hgs.
  destruct (resident_walkable _ _ _ _ _ _ Hres) as [blk Hw].
  apply (sci0_walk_owners env rec sm nr seg blk image _ fuel Hw
           (make_reg seg (sci0_start env)) 0 [] Hlocal).
Qed.

(** C7, as the code has it.  [uninstantiateScript] carries no guard on the
    depth of its recursion and keeps no set of visited scripts, and a cycle
    of superclasses is not reported.  Take two scripts of the older
    generation in different segments, both resident and not marked deleted,
    with at most one locker each, where the records of each are well formed
    and the first superclass owned by another script that the pass over
    each meets is owned by the other: the recursion passes every bound on
    its depth, and the call neither returns nor reports an error, for
    either script.  A class whose superclass its own script owns causes no
    recursion: over a script whose records name no superclass of another
    script the pass returns without a call of [uninstantiateScript], and
    the script is unloaded at its last locker. *)
Theorem superclass_cycle_unguarded (env : Env) (sm : SegManager) (A B segA segB : Z)
    (imageA imageB : list Z) :
  (getSciVersion env <? SCI_VERSION_1_1 env) = true →
  (entangled env sm A B segA segB imageA imageB →
   ∀ fuel, uninstantiateScript env fuel A sm = Err OutOfFuel
           ∧ uninstantiateScript env fuel B sm = Err OutOfFuel)
  ∧ (∀ sm0 nr seg image fuel,
       superclass_owners env (map script (_classTable sm0)) nr image fuel (sci0_start env) 0
       = Some [] →
       (∀ rec d, resident env sm0 nr seg image 0 d →
                 uninstantiateScriptSci0 env rec fuel nr sm0 = Ok tt sm0)
       ∧ (resident env sm0 nr seg image 1 false →
          ∃ sm', uninstantiateScript env (S fuel) nr sm0 = Ok tt sm'
                 ∧ resident env sm' nr seg image 0 true)).
Proof.
  intros Hold. split.
  - intros Hent fuel.
    apply (entangled_runs_out env A B segA segB imageA imageB Hold fuel sm Hent).
  - intros sm0 nr seg image fuel Hlocal. split.
    + intros rec d Hres.
      apply (uninstantiateScriptSci0_local env rec sm0 nr seg image d fuel Hres Hlocal).
    + intros Hres.
      destruct (uninstantiate_local env sm0 nr seg image 1 fuel Hres) as [Hrun Hres'];
        [lia|intros _; exact Hlocal|].
      eexists. split; [exact Hrun|exact Hres'].
Qed.

Lemma cycle_manager_entangled :
  entangled (sample_env 2 cycle_images) cycle_manager 10 20 1 2
    (class_image 0 1 0) (class_image 1 0 0).
Proof.
  split; [lia|]. split; [|split; [|split]].
  - exists 1. split; [lia|]. split; [reflexivity|]. split; [lia|]. split; [reflexivity|].
    eexists _, _, _. vm_compute. repeat split.
  - exists 1. split; [lia|]. split; [reflexivity|]. split; [lia|]. split; [reflexivity|].
    eexists _, _, _. vm_compute. repeat split.
  - exists 2%nat, []. reflexivity.
  - exists 2%nat, []. reflexivity.
Qed.

(** C5 as stated fails for a script of the older generation whose class
    has its superclass in a script that names it back.  Script 20 of
    [cycle_images] is not registered while script 10 is loaded; instantiated
    once it is resident with one locker, and its one [uninstantiateScript]
    does not come back to mark it, whatever depth the recursion is
    allowed. *)
Lemma locker_discipline_in_a_cycle :
  _scriptSegMap (after (instantiateScript (sample_env 2 cycle_images) 10) start_manager) !! 20
  = None
  ∧ times 1 (instantiateScript (sample_env 2 cycle_images) 20)
      (after (instantiateScript (sample_env 2 cycle_images) 10) start_manager)
    = Ok tt cycle_manager
  ∧ resident (sample_env 2 cycle_images) cycle_manager 20 2 (class_image 1 0 0) 1 false
  ∧ ∀ fuel, times 1 (uninstantiateScript (sample_env 2 cycle_images) fuel 20) cycle_manager
            = Err OutOfFuel.
Proof.
  split; [reflexivity|]. split; [vm_compute; reflexivity|].
  pose proof cycle_manager_entangled as Hent. split.
  - destruct Hent as (_ & _ & (b & Hb & Hres) & _).
    destruct (resident_loaded _ _ _ _ _ _ _ Hres) as (_ & _ & _ & _ & Hl).
    assert (b = 1) by (vm_compute in Hl; congruence). subst b. exact Hres.
  - intros fuel. cbn [times]. unfold bind.
    destruct (entangled_runs_out (sample_env 2 cycle_images) 10 20 1 2
                (class_image 0 1 0) (class_image 1 0 0) eq_refl fuel cycle_manager Hent)
      as [_ ->].
    reflexivity.
Qed.

Lemma knot_manager_resident :
  resident (sample_env 2 knot_images) knot_manager 10 1 (class_image 0 1 0) 1 false
  ∧ resident (sample_env 2 knot_images) knot_manager 20 2 (class_image 1 0 0) 1 false
  ∧ resident (sample_env 2 knot_images) knot_manager 30 3 (class_image 2 2 0) 1 false.
Proof.
  split; [|split]; (split; [reflexivity|]); (split; [lia|]); (split; [reflexivity|]);
    eexists _, _, _; vm_compute; repeat split.
Qed.

Lemma knot_manager_entangled :
  entangled (sample_env 2 knot_images) knot_manager 10 20 1 2
    (class_image 0 1 0) (class_image 1 0 0).
Proof.
  destruct knot_manager_resident as (H10 & H20 & _).
  split; [lia|]. split; [|split; [|split]].
  - exists 1. split; [lia|exact H10].
  - exists 1. split; [lia|exact H20].
  - exists 2%nat, []. reflexivity.
  - exists 2%nat, []. reflexivity.
Qed.

Lemma superclass_cycle_unguarded_witness :
  (∀ fuel, uninstantiateScript (sample_env 2 knot_images) fuel 10 knot_manager = Err OutOfFuel
           ∧ uninstantiateScript (sample_env 2 knot_images) fuel 20 knot_manager = Err OutOfFuel)
  ∧ (∀ rec, uninstantiateScriptSci0 (sample_env 2 knot_images) rec 2 30
              (with_script knot_manager 3 unlock)
            = Ok tt (with_script knot_manager 3 unlock))
  ∧ ∃ sm', uninstantiateScript (sample_env 2 knot_images) 3 30 knot_manager = Ok tt sm'
           ∧ resident (sample_env 2 knot_images) sm' 30 3 (class_image 2 2 0) 0 true.
Proof.
  destruct knot_manager_resident as (_ & _ & H30).
  destruct (superclass_cycle_unguarded (sample_env 2 knot_images) knot_manager 10 20 1 2
              (class_image 0 1 0) (class_image 1 0 0) eq_refl) as [Hcycle Hown].
  split; [|split].
  - apply Hcycle. apply knot_manager_entangled.
  - intros rec.
    destruct (Hown (with_script knot_manager 3 unlock) 30 3 (class_image 2 2 0) 2%nat eq_refl)
      as [Hpass _].
    apply (Hpass rec false). apply (unlock_resident _ _ _ _ _ _ _ H30).
  - destruct (Hown knot_manager 30 3 (class_image 2 2 0) 2%nat eq_refl) as [_ Hlast].
    apply Hlast. exact H30.
Defined.

(** C7 as stated fails on the two scripts of [cycle_images], whose classes
    are each other's superclass: whatever depth the recursion is allowed,
    [uninstantiateScript] of script 10 neither returns nor reports a fatal
    error. *)
Lemma superclass_cycle_not_reported :
  ¬ ∃ fuel,
      (∃ sm', uninstantiateScript (sample_env 2 cycle_images) fuel 10 cycle_manager = Ok tt sm')
      ∨ (∃ msg, uninstantiateScript (sample_env 2 cycle_images) fuel 10 cycle_manager
                = Err (Fatal msg)).
Proof.
  intros [fuel H].
  destruct (entangled_runs_out (sample_env 2 cycle_images) 10 20 1 2
              (class_image 0 1 0) (class_image 1 0 0) eq_refl fuel cycle_manager
              cycle_manager_entangled) as [Hout _].
  rewrite Hout in H. destruct H as [[sm' H]|[msg H]]; discriminate.
Qed.

(** Where the cycle ends.  With script 20 marked deleted the call for
    script 10 reaches it, finds the mark and returns; with a class table
    that lacks class 1, the superclass script 10 names, the pass stops at
    the assertion of the table's subscript. *)
Example cycle_boundaries :
  (∃ sm', uninstantiateScript (sample_env 2 cycle_images) 3 10
            (with_script cycle_manager 2 mark) = Ok tt sm')
  ∧ uninstantiateScript (sample_env 2 cycle_images) 3 10
      (mkSegManager (_heap cycle_manager) (_scriptSegMap cycle_manager)
         [mkClass 10 NULL_REG] (memory cycle_manager) (warnings cycle_manager))
    = Err (Fatal "assert(idx < _size)").
Proof. split; [eexists|]; vm_compute; reflexivity. Qed.

(** * Properties of the further entry points *)

(** ** Lookup of an allocated segment *)

Lemma in_range_false (sm : SegManager) (a : Z) :
  1 <= a < heap_size sm → (a <? 1) || (heap_size sm <=? a) = false.
Proof. intros H. apply orb_false_intro; [apply Z.ltb_ge|apply Z.leb_gt]; lia. Qed.

Lemma out_of_range_true (sm : SegManager) (a : Z) :
  a < 1 ∨ heap_size sm <= a → (a <? 1) || (heap_size sm <=? a) = true.
Proof.
  intros [H|H]; apply orb_true_iff; [left; apply Z.ltb_lt|right; apply Z.leb_le]; lia.
Qed.

Lemma lookupZ_None {A} (l : list A) (i : Z) :
  i < 0 ∨ Z.of_nat (length l) <= i → lookupZ l i = None.
Proof.
  intros H. unfold lookupZ. destruct (i <? 0) eqn:E; [reflexivity|].
  apply lookup_ge_None. blia.
Qed.

(** Every lookup entry point finds the segment [allocSegment] has just
    installed under the identifier it returned, with its type, and
    [dereference] hands a pointer into it to the segment itself; under every
    other identifier the lookup answers as before. *)
Theorem allocSegment_then_lookup (env : Env) (sm : SegManager) (mobj : SegmentObj) :
  1 <= heap_size sm <= 16383 →
  ∃ id sm', allocSegment (Some mobj) sm = Ok id sm'
    ∧ getSegmentObj env sm' id = Some mobj
    ∧ getSegmentType env sm' id = getType mobj
    ∧ SegManager_getSegment env id (getType mobj) sm' = Ok (Some mobj) sm'
    ∧ (∀ ty, ty ≠ getType mobj → SegManager_getSegment env id ty sm' = Ok None sm')
    ∧ (∀ offset, dereference (make_reg id offset) sm'
                 = Ok (SegmentObj_dereference mobj (make_reg id offset)) sm')
    ∧ (∀ j, getActualSegment env j ≠ id →
            getSegmentObj env sm' j = getSegmentObj env sm j).
Proof.
  intros Hsize.
  destruct (allocSegment_spec sm mobj)
    as (id & sm' & Hal & Hid & _ & Hfree & Hgrow & Hnew & Hother & _); [lia|].
  exists id, sm'. split; [exact Hal|].
  pose proof (lookupZ_range _ _ _ Hnew) as Hr.
  assert (Hact : getActualSegment env id = id) by (apply getActualSegment_small; lia).
  assert (Hin : (id <? 1) || (heap_size sm' <=? id) = false)
    by (apply in_range_false; unfold heap_size; lia).
  assert (Hobj : getSegmentObj env sm' id = Some mobj).
  { unfold getSegmentObj, slot_of. rewrite Hact, Hin, Hnew. reflexivity. }
  assert (Hty : getSegmentType env sm' id = getType mobj).
  { unfold getSegmentType, slot_of. rewrite Hact, Hin, Hnew. reflexivity. }
  split; [exact Hobj|]. split; [exact Hty|]. split; [|split; [|split]].
  - unfold SegManager_getSegment. unfold_sm. rewrite Hact, Hty.
    destruct (decide (getType mobj = getType mobj)); [|contradiction].
    unfold heap_at. rewrite Hnew. reflexivity.
  - intros ty Hne. unfold SegManager_getSegment. unfold_sm. rewrite Hact, Hty.
    destruct (decide (getType mobj = ty)); [congruence|reflexivity].
  - intros offset. unfold dereference. unfold_sm. cbn [getSegment].
    replace ((id =? 0) || (heap_size sm' <=? id)) with false
      by (symmetry; apply orb_false_intro; [apply Z.eqb_neq|apply Z.leb_gt];
          unfold heap_size; lia).
    cbv beta iota. rewrite Hnew. reflexivity.
  - intros j Hj. unfold getSegmentObj, slot_of.
    set (a := getActualSegment env j) in *.
    assert (Hsz : heap_size sm <= heap_size sm').
    { destruct (Z_lt_le_dec id (heap_size sm)) as [Hlt|Hge].
      - destruct (Hfree Hlt) as [_ ->]. lia.
      - rewrite (Hgrow Hge). lia. }
    destruct (Z_lt_le_dec a 1) as [Hlow|Hlow].
    { rewrite !out_of_range_true by (left; exact Hlow). reflexivity. }
    destruct (Z_lt_le_dec a (heap_size sm)) as [Hlt|Hge].
    + rewrite !in_range_false by lia. rewrite Hother by assumption. reflexivity.
    + rewrite (out_of_range_true sm) by (right; exact Hge).
      destruct (Z_lt_le_dec a (heap_size sm')) as [Hlt'|Hge'].
      * exfalso. destruct (Z_lt_le_dec id (heap_size sm)) as [Hlt|Hge2].
        -- destruct (Hfree Hlt) as [_ Heq]. lia.
        -- rewrite (Hgrow Hge2) in Hlt'. lia.
      * rewrite out_of_range_true by (right; exact Hge'). reflexivity.
Qed.

Lemma allocSegment_then_lookup_witness :
  ∃ id sm', allocSegment (Some (DataObj SEG_TYPE_HUNK (byte_view 2 0))) sample_manager = Ok id sm'
    ∧ getSegmentObj (sample_env 8 (fun _ => None)) sm' id
      = Some (DataObj SEG_TYPE_HUNK (byte_view 2 0))
    ∧ getSegmentType (sample_env 8 (fun _ => None)) sm' id = SEG_TYPE_HUNK
    ∧ SegManager_getSegment (sample_env 8 (fun _ => None)) id SEG_TYPE_HUNK sm'
      = Ok (Some (DataObj SEG_TYPE_HUNK (byte_view 2 0))) sm'
    ∧ (∀ ty, ty ≠ SEG_TYPE_HUNK →
         SegManager_getSegment (sample_env 8 (fun _ => None)) id ty sm' = Ok None sm')
    ∧ (∀ offset, dereference (make_reg id offset) sm'
                 = Ok (byte_view 2 0 (make_reg id offset)) sm')
    ∧ (∀ j, getActualSegment (sample_env 8 (fun _ => None)) j ≠ id →
            getSegmentObj (sample_env 8 (fun _ => None)) sm' j
            = getSegmentObj (sample_env 8 (fun _ => None)) sample_manager j).
Proof.
  apply (allocSegment_then_lookup (sample_env 8 (fun _ => None)) sample_manager
           (DataObj SEG_TYPE_HUNK (byte_view 2 0))).
  vm_compute. split; discriminate.
Defined.

(** [getSegment] asked for [SEG_TYPE_INVALID]: the empty slot 0 is answered
    with its null pointer, and an identifier past the end of the directory
    stops at the assertion of the array's subscript; asked for another type
    the same identifier is answered with null. *)
Example getSegment_invalid_type :
  SegManager_getSegment (sample_env 8 (fun _ => None)) 0 SEG_TYPE_INVALID sample_manager
  = Ok None sample_manager
  ∧ SegManager_getSegment (sample_env 8 (fun _ => None)) 7 SEG_TYPE_INVALID sample_manager
    = Err (Fatal "assert(idx < _size)")
  ∧ SegManager_getSegment (sample_env 8 (fun _ => None)) 7 SEG_TYPE_DYNMEM sample_manager
    = Ok None sample_manager.
Proof. repeat split. Qed.

(** ** Deallocation *)

Lemma deallocate_data (env : Env) (sm : SegManager) (seg : SegmentId) (fuel : nat)
    (ty : SegmentType) (d : reg_t → SegmentRef) :
  lookupZ (_heap sm) (getActualSegment env seg) = Some (Some (DataObj ty d)) →
  1 <= getActualSegment env seg →
  deallocate env (S fuel) seg sm = Ok tt (without_segment sm (getActualSegment env seg)).
Proof.
  intros Hslot Hpos. cbn [deallocate]. set (a := getActualSegment env seg) in *.
  pose proof (lookupZ_range _ _ _ Hslot) as Hr.
  unfold_sm. rewrite in_range_false by (unfold heap_size; lia).
  rewrite Hslot. rewrite insertZ_Some by exact Hr. reflexivity.
Qed.

Lemma deallocate_out_of_range (env : Env) (sm : SegManager) (seg : SegmentId) (fuel : nat) :
  getActualSegment env seg < 1 ∨ heap_size sm <= getActualSegment env seg →
  deallocate env (S fuel) seg sm = Err (Fatal "Attempt to deallocate an invalid segment ID").
Proof.
  intros H. cbn [deallocate]. unfold_sm. rewrite out_of_range_true by exact H. reflexivity.
Qed.

Lemma deallocate_empty (env : Env) (sm : SegManager) (seg : SegmentId) (fuel : nat) :
  lookupZ (_heap sm) (getActualSegment env seg) = Some None →
  1 <= getActualSegment env seg →
  deallocate env (S fuel) seg sm
  = Err (Fatal "Attempt to deallocate an already freed segment").
Proof.
  intros Hslot Hpos. cbn [deallocate]. pose proof (lookupZ_range _ _ _ Hslot) as Hr.
  unfold_sm. rewrite in_range_false by (unfold heap_size; lia).
  rewrite Hslot. reflexivity.
Qed.

(** [deallocate] is a fatal error, and nothing else, for an identifier that
    resolves to slot 0 or past the end of the directory, and for one whose
    slot is empty; so it is for an identifier that has just been
    deallocated. *)
Theorem deallocate_refuses (env : Env) (sm : SegManager) (seg : SegmentId) (fuel : nat) :
  (getActualSegment env seg < 1
   ∨ heap_size sm <= getActualSegment env seg
   ∨ lookupZ (_heap sm) (getActualSegment env seg) = Some None
   ∨ ∃ fuel0 sm0, deallocate env fuel0 seg sm0 = Ok tt sm) →
  deallocate env (S fuel) seg sm
  = Err (Fatal (if (getActualSegment env seg <? 1) || (heap_size sm <=? getActualSegment env seg)
                then "Attempt to deallocate an invalid segment ID"
                else "Attempt to deallocate an already freed segment")).
Proof.
  intros H.
  destruct (Z_lt_le_dec (getActualSegment env seg) 1) as [Hlow|Hlow].
  { rewrite out_of_range_true by (left; exact Hlow).
    apply deallocate_out_of_range. left. exact Hlow. }
  destruct (Z_lt_le_dec (getActualSegment env seg) (heap_size sm)) as [Hin|Hout].
  - rewrite in_range_false by lia.
    destruct H as [H|[H|[H|(fuel0 & sm0 & H)]]]; try lia.
    + apply deallocate_empty; assumption.
    + apply deallocate_empty; [|exact Hlow].
      apply (deallocate_frees env fuel0 seg sm0 sm H).
  - rewrite out_of_range_true by (right; exact Hout).
    apply deallocate_out_of_range. right. exact Hout.
Qed.

Lemma deallocate_refuses_witness :
  deallocate (sample_env 8 (fun _ => None)) 1 1
    (without_segment sample_manager 1)
  = Err (Fatal "Attempt to deallocate an already freed segment").
Proof.
  apply (deallocate_refuses (sample_env 8 (fun _ => None)) (without_segment sample_manager 1) 1 0).
  right. right. right. exists 1%nat, sample_manager. reflexivity.
Defined.

Lemma without_fields (sm : SegManager) (seg nr : Z) :
  heap_size (without_segment sm seg) = heap_size sm
  ∧ _scriptSegMap (without_segment sm seg) = _scriptSegMap sm
  ∧ _heap (without_script sm nr) = _heap sm
  ∧ heap_size (without_script sm nr) = heap_size sm.
Proof. unfold without_segment, without_script, heap_size. simpl. rewrite length_insert. repeat split. Qed.

Lemma without_segment_lookup (sm : SegManager) (seg : Z) :
  0 <= seg < heap_size sm →
  lookupZ (_heap (without_segment sm seg)) seg = Some None
  ∧ ∀ j, j ≠ seg → lookupZ (_heap (without_segment sm seg)) j = lookupZ (_heap sm) j.
Proof.
  intros Hr. unfold without_segment. simpl. split.
  - apply lookupZ_insert_eq. exact Hr.
  - intros j Hj. apply lookupZ_insert_ne; lia.
Qed.

Lemma deallocate_script_runs (env : Env) (sm : SegManager) (seg : SegmentId) (fuel : nat)
    (f : reg_t → SegmentRef) (scr : Script) :
  lookupZ (_heap sm) (getActualSegment env seg) = Some (Some (ScriptObj f scr)) →
  1 <= getActualSegment env seg →
  (_localsSegment scr = 0
   ∨ lookupZ (_heap sm) (_localsSegment scr) = Some None
   ∨ ∃ ty d, lookupZ (_heap sm) (_localsSegment scr) = Some (Some (DataObj ty d))
             ∧ 1 <= _localsSegment scr
             ∧ getActualSegment env (_localsSegment scr) = _localsSegment scr) →
  ∃ sm', deallocate env (S (S fuel)) seg sm = Ok tt sm'
         ∧ _scriptSegMap sm' = delete (_nr scr) (_scriptSegMap sm)
         ∧ lookupZ (_heap sm') (getActualSegment env seg) = Some None
         ∧ (_localsSegment scr ≠ 0 → lookupZ (_heap sm') (_localsSegment scr) = Some None)
         ∧ (∀ j, j ≠ getActualSegment env seg →
                 j ≠ _localsSegment scr ∨ _localsSegment scr = 0 →
                 lookupZ (_heap sm') j = lookupZ (_heap sm) j)
         ∧ heap_size sm' = heap_size sm
         ∧ _classTable sm' = _classTable sm.
Proof.
  intros Hslot Hpos Hlocals. set (a := getActualSegment env seg) in *.
  set (L := _localsSegment scr) in *.
  pose proof (lookupZ_range _ _ _ Hslot) as Hr.
  assert (Hstart : deallocate env (S (S fuel)) seg sm
    = ((if negb (L =? 0) then
          l <- heap_at L;;
          match l with
          | Some _ => deallocate env (S fuel) L
          | None => ret tt
          end
        else ret tt);;
       heap_put a None) (without_script sm (_nr scr))).
  { cbn [deallocate]. fold a. unfold bind at 1. unfold get.
    rewrite in_range_false by (unfold heap_size; lia).
    unfold bind at 1. unfold heap_at at 1. rewrite Hslot.
    unfold bind at 1. unfold bind at 1. unfold scriptSegMap_erase at 1.
    unfold bind at 1. unfold get, set_scriptSegMap. fold L.
    fold (without_script sm (_nr scr)). unfold bind. reflexivity. }
  rewrite Hstart. clear Hstart.
  set (sm1 := without_script sm (_nr scr)).
  assert (Hput : ∀ sm2, _heap sm2 = _heap sm1 →
            heap_put a None sm2 = Ok tt (without_segment sm2 a)).
  { intros sm2 Hh. unfold heap_put.
    rewrite insertZ_Some by (rewrite Hh; exact Hr). reflexivity. }
  assert (Hsimple : (L = 0 ∨ lookupZ (_heap sm) L = Some None) →
    ∃ sm', ((if negb (L =? 0) then
               l <- heap_at L;;
               match l with
               | Some _ => deallocate env (S fuel) L
               | None => ret tt
               end
             else ret tt);;
            heap_put a None) sm1 = Ok tt sm'
           ∧ _scriptSegMap sm' = delete (_nr scr) (_scriptSegMap sm)
           ∧ lookupZ (_heap sm') a = Some None
           ∧ (L ≠ 0 → lookupZ (_heap sm') L = Some None)
           ∧ (∀ j, j ≠ a → j ≠ L ∨ L = 0 → lookupZ (_heap sm') j = lookupZ (_heap sm) j)
           ∧ heap_size sm' = heap_size sm
           ∧ _classTable sm' = _classTable sm).
  { intros Hcase. exists (without_segment sm1 a).
    destruct (without_segment_lookup sm1 a) as [Hl Ho]; [unfold heap_size; simpl; lia|].
    split.
    - unfold bind at 1. destruct (L =? 0) eqn:E0; cbn [negb]; cbv beta iota.
      + unfold ret at 1. apply Hput. reflexivity.
      + destruct Hcase as [Hcase|Hcase]; [blia|].
        unfold bind at 1. unfold heap_at. cbv beta. change (_heap sm1) with (_heap sm).
        rewrite Hcase. unfold ret. apply Hput. reflexivity.
    - split; [reflexivity|]. split; [exact Hl|]. split; [|split; [|split]].
      + intros Hne. destruct Hcase as [Hcase|Hcase]; [contradiction|].
        rewrite Ho by congruence. exact Hcase.
      + intros j Hj _. apply Ho. exact Hj.
      + unfold heap_size. simpl. rewrite length_insert. reflexivity.
      + reflexivity. }
  destruct Hlocals as [H0|[Hnone|(ty & d & Hdata & HL & HactL)]];
    [apply Hsimple; left; exact H0|apply Hsimple; right; exact Hnone|].
  clear Hsimple.
  assert (HaL : a ≠ L) by congruence.
  pose proof (lookupZ_range _ _ _ Hdata) as HrL.
  exists (without_segment (without_segment sm1 L) a).
  destruct (without_segment_lookup sm1 L) as [HlL HoL]; [unfold heap_size; simpl; lia|].
  destruct (without_segment_lookup (without_segment sm1 L) a) as [Hl Ho].
  { unfold heap_size. simpl. rewrite length_insert. lia. }
  split.
  - unfold bind at 1. replace (L =? 0) with false by (symmetry; apply Z.eqb_neq; lia).
    cbn [negb]. cbv beta iota.
    unfold bind at 1. unfold heap_at. cbv beta. change (_heap sm1) with (_heap sm). rewrite Hdata.
    pose proof (deallocate_data env sm1 L fuel ty d) as Hd. rewrite HactL in Hd.
    rewrite (Hd Hdata HL). unfold heap_put. simpl _heap.
    rewrite insertZ_Some by (rewrite length_insert; exact Hr). reflexivity.
  - split; [reflexivity|]. split; [exact Hl|]. split; [|split; [|split]].
    + intros _. rewrite Ho by congruence. exact HlL.
    + intros j Hj HjL. rewrite Ho by exact Hj. apply HoL. destruct HjL as [HjL|HjL]; [exact HjL|lia].
    + unfold heap_size. simpl. rewrite !length_insert. reflexivity.
    + reflexivity.
Qed.

(** Deallocating a script segment takes the script out of the script map,
    tears down its locals segment when that is still there (a locals
    segment that has been freed before is passed over), and empties the
    slot of the script; the other slots and the class table stay as they
    are. *)
Theorem deallocate_script (env : Env) (sm : SegManager) (seg : SegmentId) (fuel : nat)
    (f : reg_t → SegmentRef) (scr : Script) :
  lookupZ (_heap sm) (getActualSegment env seg) = Some (Some (ScriptObj f scr)) →
  1 <= getActualSegment env seg →
  (_localsSegment scr = 0
   ∨ lookupZ (_heap sm) (_localsSegment scr) = Some None
   ∨ ∃ ty d, lookupZ (_heap sm) (_localsSegment scr) = Some (Some (DataObj ty d))
             ∧ 1 <= _localsSegment scr
             ∧ getActualSegment env (_localsSegment scr) = _localsSegment scr) →
  ∃ sm', deallocate env (S (S fuel)) seg sm = Ok tt sm'
         ∧ _scriptSegMap sm' = delete (_nr scr) (_scriptSegMap sm)
         ∧ lookupZ (_heap sm') (getActualSegment env seg) = Some None
         ∧ (_localsSegment scr ≠ 0 → lookupZ (_heap sm') (_localsSegment scr) = Some None)
         ∧ (∀ j, j ≠ getActualSegment env seg → j ≠ _localsSegment scr →
                 lookupZ (_heap sm') j = lookupZ (_heap sm) j)
         ∧ heap_size sm' = heap_size sm
         ∧ _classTable sm' = _classTable sm.
Proof.
  intros Hslot Hpos Hlocals.
  destruct (deallocate_script_runs env sm seg fuel f scr Hslot Hpos Hlocals)
    as (sm' & Hrun & Hm & Hl & HL & Ho & Hsz & Hc).
  exists sm'. split; [exact Hrun|]. split; [exact Hm|]. split; [exact Hl|]. split; [exact HL|].
  split; [|split; assumption].
  intros j Hj HjL. apply Ho; [exact Hj|left; exact HjL].
Qed.

Lemma deallocate_script_witness :
  ∃ sm', deallocate (sample_env 8 (fun _ => None)) 2 1 script_with_locals = Ok tt sm'
         ∧ _scriptSegMap sm' = delete 7 (_scriptSegMap script_with_locals)
         ∧ lookupZ (_heap sm') 1 = Some None
         ∧ (2 ≠ 0 → lookupZ (_heap sm') 2 = Some None)
         ∧ (∀ j, j ≠ 1 → j ≠ 2 → lookupZ (_heap sm') j = lookupZ (_heap script_with_locals) j)
         ∧ heap_size sm' = heap_size script_with_locals
         ∧ _classTable sm' = _classTable script_with_locals.
Proof.
  apply (deallocate_script (sample_env 8 (fun _ => None)) script_with_locals 1 0
           (byte_view 0 2) (mkScript 7 (Some 0%nat) 0 true 2)).
  - reflexivity.
  - vm_compute. discriminate.
  - right. right. exists SEG_TYPE_LOCALS, (cell_view 1 2).
    split; [reflexivity|]. split; [simpl; lia|reflexivity].
Defined.

(** [deallocateScript] of a script number that the script map does not
    hold asks [deallocate] for segment 0 and is a fatal error; of a script
    in the map it deallocates the script's segment with its locals, after
    which the number is no longer in the map and its old segment no longer
    holds a script. *)
Theorem deallocateScript_spec (env : Env) (sm : SegManager) (nr : Z) (fuel : nat) :
  (_scriptSegMap sm !! nr = None →
   deallocateScript env (S fuel) nr sm
   = Err (Fatal "Attempt to deallocate an invalid segment ID"))
  ∧ (∀ seg f scr,
       _scriptSegMap sm !! nr = Some seg →
       getActualSegment env seg = seg → 1 <= seg →
       lookupZ (_heap sm) seg = Some (Some (ScriptObj f scr)) →
       _nr scr = nr →
       (_localsSegment scr = 0
        ∨ lookupZ (_heap sm) (_localsSegment scr) = Some None
        ∨ ∃ ty d, lookupZ (_heap sm) (_localsSegment scr) = Some (Some (DataObj ty d))
                  ∧ 1 <= _localsSegment scr
                  ∧ getActualSegment env (_localsSegment scr) = _localsSegment scr) →
       ∃ sm', deallocateScript env (S (S fuel)) nr sm = Ok tt sm'
              ∧ getScriptSegment sm' nr = 0
              ∧ getScriptIfLoaded env sm' seg = None
              ∧ lookupZ (_heap sm') seg = Some None
              ∧ (_localsSegment scr ≠ 0 → lookupZ (_heap sm') (_localsSegment scr) = Some None)).
Proof.
  split.
  - intros Hnone. unfold deallocateScript. unfold bind, get.
    unfold getScriptSegment. rewrite Hnone. simpl default.
    apply deallocate_out_of_range. left.
    rewrite getActualSegment_small by lia. lia.
  - intros seg f scr Hmap Hact Hpos Hslot Hnr Hloc.
    unfold deallocateScript. unfold bind, get. unfold getScriptSegment. rewrite Hmap.
    simpl default.
    destruct (deallocate_script_runs env sm seg fuel f scr)
      as (sm' & Hrun & Hm & Hl & HL & _); [rewrite Hact; exact Hslot|lia|exact Hloc|].
    rewrite Hact in Hl.
    exists sm'. split; [exact Hrun|]. split; [|split; [|split]].
    + rewrite Hm, Hnr, lookup_delete_eq. reflexivity.
    + unfold getScriptIfLoaded, slot_of. rewrite Hact.
      destruct ((seg <? 1) || (heap_size sm' <=? seg)); [reflexivity|].
      rewrite Hl. reflexivity.
    + exact Hl.
    + exact HL.
Qed.

Lemma deallocateScript_spec_witness :
  deallocateScript (sample_env 8 (fun _ => None)) 1 9 script_with_locals
  = Err (Fatal "Attempt to deallocate an invalid segment ID")
  ∧ ∃ sm', deallocateScript (sample_env 8 (fun _ => None)) 2 7 script_with_locals = Ok tt sm'
           ∧ getScriptSegment sm' 7 = 0
           ∧ getScriptIfLoaded (sample_env 8 (fun _ => None)) sm' 1 = None
           ∧ lookupZ (_heap sm') 1 = Some None
           ∧ (2 ≠ 0 → lookupZ (_heap sm') 2 = Some None).
Proof.
  split.
  - apply (deallocateScript_spec (sample_env 8 (fun _ => None)) script_with_locals 9 0).
    reflexivity.
  - apply (proj2 (deallocateScript_spec (sample_env 8 (fun _ => None)) script_with_locals 7 0)
             1 (byte_view 0 2) (mkScript 7 (Some 0%nat) 0 true 2)).
    + reflexivity.
    + reflexivity.
    + lia.
    + reflexivity.
    + reflexivity.
    + right. right. exists SEG_TYPE_LOCALS, (cell_view 1 2).
      split; [reflexivity|]. split; [simpl; lia|reflexivity].
Defined.

(** ** Segments by type *)

Lemma scan_type_spec (slots : list (option SegmentObj)) (type : SegmentType) (i : Z) :
  0 <= i → i + Z.of_nat (length slots) <= 65536 →
  (scan_type slots type i = 0
   ∧ ∀ (k : nat) o, slots !! k = Some (Some o) → getType o = type → i + Z.of_nat k = 0)
  ∨ (∃ (k : nat) o, scan_type slots type i = i + Z.of_nat k
                    ∧ slots !! k = Some (Some o) ∧ getType o = type
                    ∧ ∀ (k' : nat) o', (k' < k)%nat → slots !! k' = Some (Some o') →
                                       getType o' ≠ type).
Proof.
  revert i. induction slots as [|[mobj|] rest IH]; intros i Hi Hlen; simpl in *.
  - left. split; [reflexivity|]. intros k o Hk. rewrite lookup_nil in Hk. discriminate.
  - destruct (decide (getType mobj = type)) as [Hty|Hty].
    + right. exists 0%nat, mobj. rewrite Z.add_0_r.
      split; [unfold uint16; apply Z.mod_small; lia|]. split; [reflexivity|].
      split; [exact Hty|]. intros k' o' Hk'. lia.
    + destruct (IH (i + 1)) as [[H0 Hnone]|(k & o & Hr & Hk & Hto & Hfirst)]; [lia|lia| |].
      * left. split; [exact H0|]. intros [|k] o Hk Hto.
        -- simpl in Hk. congruence.
        -- simpl in Hk. specialize (Hnone k o Hk Hto). lia.
      * right. exists (S k), o. split; [rewrite Hr; lia|]. split; [exact Hk|].
        split; [exact Hto|]. intros [|k'] o' Hlt Hk'.
        -- simpl in Hk'. congruence.
        -- simpl in Hk'. apply (Hfirst k' o'); [lia|exact Hk'].
  - destruct (IH (i + 1)) as [[H0 Hnone]|(k & o & Hr & Hk & Hto & Hfirst)]; [lia|lia| |].
    + left. split; [exact H0|]. intros [|k] o Hk Hto.
      * simpl in Hk. congruence.
      * simpl in Hk. specialize (Hnone k o Hk Hto). lia.
    + right. exists (S k), o. split; [rewrite Hr; lia|]. split; [exact Hk|].
      split; [exact Hto|]. intros [|k'] o' Hlt Hk'.
      * simpl in Hk'. congruence.
      * simpl in Hk'. apply (Hfirst k' o'); [lia|exact Hk'].
Qed.

(** [findSegmentByType] returns the least identifier whose slot holds a
    segment of the type asked for, and 0 when no slot from 1 on holds
    one. *)
Theorem findSegmentByType_first (sm : SegManager) (type : SegmentType) :
  heap_size sm <= 65536 →
  (findSegmentByType sm type = 0
   ∧ ∀ j o, 1 <= j → lookupZ (_heap sm) j = Some (Some o) → getType o ≠ type)
  ∨ (∃ o, lookupZ (_heap sm) (findSegmentByType sm type) = Some (Some o)
          ∧ getType o = type
          ∧ ∀ j o', j < findSegmentByType sm type →
                    lookupZ (_heap sm) j = Some (Some o') → getType o' ≠ type).
Proof.
  intros Hsize. unfold findSegmentByType.
  destruct (scan_type_spec (_heap sm) type 0) as [[H0 Hnone]|(k & o & Hr & Hk & Hto & Hfirst)];
    [lia|unfold heap_size in Hsize; lia| |].
  - left. split; [exact H0|]. intros j o Hj Hl Hto.
    unfold lookupZ in Hl. destruct (j <? 0) eqn:E; [discriminate|].
    specialize (Hnone _ _ Hl Hto). lia.
  - right. exists o. rewrite Hr, Z.add_0_l. split.
    + unfold lookupZ. destruct (Z.of_nat k <? 0) eqn:E; [lia|]. rewrite Nat2Z.id. exact Hk.
    + split; [exact Hto|]. intros j o' Hj Hl.
      unfold lookupZ in Hl. destruct (j <? 0) eqn:E; [discriminate|].
      apply (Hfirst (Z.to_nat j) o'); [blia|exact Hl].
Qed.

Lemma findSegmentByType_first_witness :
  (findSegmentByType sample_manager SEG_TYPE_LOCALS = 0
   ∧ ∀ j o, 1 <= j → lookupZ (_heap sample_manager) j = Some (Some o) →
            getType o ≠ SEG_TYPE_LOCALS)
  ∨ (∃ o, lookupZ (_heap sample_manager) (findSegmentByType sample_manager SEG_TYPE_LOCALS)
          = Some (Some o)
          ∧ getType o = SEG_TYPE_LOCALS
          ∧ ∀ j o', j < findSegmentByType sample_manager SEG_TYPE_LOCALS →
                    lookupZ (_heap sample_manager) j = Some (Some o') →
                    getType o' ≠ SEG_TYPE_LOCALS).
Proof.
  apply (findSegmentByType_first sample_manager SEG_TYPE_LOCALS).
  vm_compute. discriminate.
Defined.

(** ** Scripts by segment *)

(** [getScript] and [getScriptIfLoaded] agree: where the second finds a
    script the first returns the same slot, and where the second answers
    null the first is a fatal error. *)
Theorem getScript_agrees_with_getScriptIfLoaded (env : Env) (sm : SegManager) (seg : SegmentId) :
  match getScriptIfLoaded env sm seg with
  | Some scr => getScript env seg sm = Ok scr sm
                ∧ scr = getActualSegment env seg
                ∧ ∃ o, lookupZ (_heap sm) scr = Some (Some o) ∧ getType o = SEG_TYPE_SCRIPT
  | None => ∃ msg, getScript env seg sm = Err (Fatal msg)
  end.
Proof.
  unfold getScriptIfLoaded, getScript, slot_of. unfold_sm.
  set (a := getActualSegment env seg).
  destruct ((a <? 1) || (heap_size sm <=? a)) eqn:Er; [eauto|].
  destruct (lookupZ (_heap sm) a) as [[o|]|] eqn:Hl.
  - destruct (decide (getType o = SEG_TYPE_SCRIPT)) as [Hty|Hty]; [|eauto].
    split; [reflexivity|]. split; [reflexivity|]. eauto.
  - eauto.
  - exfalso. prop_of_bool. unfold heap_size in *.
    destruct (lookupZ_Some (_heap sm) a) as [x Hx]; [lia|]. congruence.
Qed.

(** ** Dynamic buffers *)

(** [freeDynmem] answers false and changes nothing when the pointer's
    segment is 0, lies past the end of the directory, is empty, or holds a
    segment that is no dynamic buffer. *)
Theorem freeDynmem_refuses (env : Env) (sm : SegManager) (addr : reg_t) (fuel : nat) :
  (getSegment addr < 1
   ∨ ∀ o, lookupZ (_heap sm) (getSegment addr) = Some (Some o) →
          getType o ≠ SEG_TYPE_DYNMEM) →
  freeDynmem env fuel addr sm = Ok false sm.
Proof.
  intros H. unfold freeDynmem. unfold_sm.
  destruct ((getSegment addr <? 1) || (heap_size sm <=? getSegment addr)) eqn:Er;
    [reflexivity|].
  destruct H as [H|H]; [blia|].
  destruct (lookupZ (_heap sm) (getSegment addr)) as [[o|]|] eqn:Hl.
  - destruct (decide (getType o = SEG_TYPE_DYNMEM)) as [Hty|Hty]; [|reflexivity].
    exfalso. apply (H o); [reflexivity|exact Hty].
  - reflexivity.
  - exfalso. prop_of_bool. unfold heap_size in *.
    destruct (lookupZ_Some (_heap sm) (getSegment addr)) as [x Hx]; [lia|]. congruence.
Qed.

Lemma freeDynmem_refuses_witness :
  freeDynmem (sample_env 8 (fun _ => None)) 1 (make_reg 2 0) sample_manager
  = Ok false sample_manager.
Proof.
  apply (freeDynmem_refuses (sample_env 8 (fun _ => None)) sample_manager (make_reg 2 0) 1).
  right. intros o Hl. vm_compute in Hl. injection Hl as <-. discriminate.
Defined.

Lemma dynmem_is_data (o : SegmentObj) :
  getType o = SEG_TYPE_DYNMEM → ∃ d, o = DataObj SEG_TYPE_DYNMEM d.
Proof. destruct o as [f s|ty d]; simpl; [discriminate|]. intros ->. eauto. Qed.

Lemma freeDynmem_runs (env : Env) (sm : SegManager) (addr : reg_t) (fuel : nat)
    (o : SegmentObj) :
  lookupZ (_heap sm) (getSegment addr) = Some (Some o) →
  getType o = SEG_TYPE_DYNMEM →
  1 <= getSegment addr →
  getActualSegment env (getSegment addr) = getSegment addr →
  freeDynmem env (S fuel) addr sm = Ok true (without_segment sm (getSegment addr)).
Proof.
  intros Hl Hty Hpos Hact. pose proof (lookupZ_range _ _ _ Hl) as Hr.
  destruct (dynmem_is_data o Hty) as [d ->].
  unfold freeDynmem. unfold bind at 1. unfold get.
  rewrite in_range_false by (unfold heap_size; lia).
  unfold bind at 1. unfold heap_at. rewrite Hl.
  destruct (decide (getType (DataObj SEG_TYPE_DYNMEM d) = SEG_TYPE_DYNMEM)); [|contradiction].
  unfold bind at 1.
  pose proof (deallocate_data env sm (getSegment addr) fuel SEG_TYPE_DYNMEM d) as Hd.
  rewrite Hact in Hd. rewrite (Hd Hl Hpos). reflexivity.
Qed.

(** [freeDynmem] of a pointer into a dynamic buffer deallocates the
    buffer's segment and answers true; the other slots stay as they are.
    Asked again with the same pointer it answers false and changes nothing:
    a buffer that has been freed is no fatal error. *)
Theorem freeDynmem_frees_once (env : Env) (sm : SegManager) (addr : reg_t) (fuel : nat)
    (o : SegmentObj) :
  lookupZ (_heap sm) (getSegment addr) = Some (Some o) →
  getType o = SEG_TYPE_DYNMEM →
  1 <= getSegment addr →
  getActualSegment env (getSegment addr) = getSegment addr →
  ∃ sm', freeDynmem env (S fuel) addr sm = Ok true sm'
         ∧ lookupZ (_heap sm') (getSegment addr) = Some None
         ∧ (∀ j, j ≠ getSegment addr → lookupZ (_heap sm') j = lookupZ (_heap sm) j)
         ∧ heap_size sm' = heap_size sm
         ∧ ∀ fuel', freeDynmem env fuel' addr sm' = Ok false sm'.
Proof.
  intros Hl Hty Hpos Hact. pose proof (lookupZ_range _ _ _ Hl) as Hr.
  exists (without_segment sm (getSegment addr)).
  destruct (without_segment_lookup sm (getSegment addr)) as [Hnone Hother];
    [unfold heap_size; lia|].
  split; [apply (freeDynmem_runs env sm addr fuel o); assumption|].
  split; [exact Hnone|]. split; [exact Hother|].
  split; [apply without_fields; exact 0|].
  intros fuel'. apply freeDynmem_refuses. right. intros o' Ho'. congruence.
Qed.

Lemma freeDynmem_frees_once_witness :
  ∃ sm', freeDynmem (sample_env 8 (fun _ => None)) 1 (make_reg 1 0) sample_manager = Ok true sm'
         ∧ lookupZ (_heap sm') 1 = Some None
         ∧ (∀ j, j ≠ 1 → lookupZ (_heap sm') j = lookupZ (_heap sample_manager) j)
         ∧ heap_size sm' = heap_size sample_manager
         ∧ ∀ fuel', freeDynmem (sample_env 8 (fun _ => None)) fuel' (make_reg 1 0) sm'
                    = Ok false sm'.
Proof.
  apply (freeDynmem_frees_once (sample_env 8 (fun _ => None)) sample_manager (make_reg 1 0) 0
           (DataObj SEG_TYPE_DYNMEM (byte_view 0 4))).
  - reflexivity.
  - reflexivity.
  - simpl. lia.
  - reflexivity.
Defined.

Lemma allocDynmem_runs (sm : SegManager) (size : Z) :
  1 <= heap_size sm <= 65535 → 0 < size →
  ∃ seg sm', allocDynmem size sm
             = Ok (Some (length (memory sm), 0), make_reg seg 0) sm'
    ∧ 1 <= seg <= heap_size sm
    ∧ (∀ j, 1 <= j < seg → ∃ o, lookupZ (_heap sm) j = Some (Some o))
    ∧ (seg < heap_size sm → lookupZ (_heap sm) seg = Some None
                             ∧ heap_size sm' = heap_size sm)
    ∧ (heap_size sm <= seg → heap_size sm' = heap_size sm + 1)
    ∧ lookupZ (_heap sm') seg
      = Some (Some (DataObj SEG_TYPE_DYNMEM
                      (DynMem_dereference (Some (length (memory sm))) size)))
    ∧ memory sm' = memory sm ++ [Bytes (replicate (Z.to_nat size) 0)]
    ∧ (∀ j, j ≠ seg → j < heap_size sm → lookupZ (_heap sm') j = lookupZ (_heap sm) j)
    ∧ _scriptSegMap sm' = _scriptSegMap sm ∧ _classTable sm' = _classTable sm
    ∧ warnings sm' = warnings sm.
Proof.
  intros Hsize Hpos.
  destruct (allocSegment_spec sm (DataObj SEG_TYPE_DYNMEM (DynMem_dereference None 0)) Hsize)
    as (id & sm1 & Hal & Hid & Hocc & Hfree & Hgrow & Hnew & Hother & Hm & Hc & Hmem & Hw).
  pose proof (lookupZ_range _ _ _ Hnew) as Hr.
  exists id. unfold allocDynmem. unfold bind at 1. rewrite Hal.
  replace (size =? 0) with false by (symmetry; apply Z.eqb_neq; lia).
  cbn [negb]. unfold_sm. rewrite Hmem. cbn [_heap].
  rewrite insertZ_Some by exact Hr.
  eexists. split; [reflexivity|]. cbn [_heap memory _scriptSegMap _classTable warnings].
  split; [exact Hid|]. split; [exact Hocc|].
  assert (Hsame : ∀ h, Z.of_nat (length (<[Z.to_nat id := h]> (_heap sm1))) = heap_size sm1).
  { intros h. rewrite length_insert. reflexivity. }
  split.
  { intros Hlt. destruct (Hfree Hlt) as [Hnone Hsz]. split; [exact Hnone|].
    unfold heap_size at 1. cbn [_heap]. rewrite Hsame. exact Hsz. }
  split.
  { intros Hge. unfold heap_size at 1. cbn [_heap]. rewrite Hsame. apply Hgrow. exact Hge. }
  split; [apply lookupZ_insert_eq; exact Hr|]. split; [reflexivity|].
  split; [|repeat split; assumption].
  intros j Hj Hlt. rewrite lookupZ_insert_ne by lia. apply Hother; assumption.
Qed.

Lemma lookupZ_replicate {A} (n : nat) (x : A) (i : Z) :
  0 <= i < Z.of_nat n → lookupZ (replicate n x) i = Some x.
Proof.
  intros Hi. unfold lookupZ. destruct (i <? 0) eqn:E; [lia|].
  apply lookup_replicate_2. lia.
Qed.

(** [allocDynmem] of a positive size enters a new dynamic buffer under the
    first free identifier and returns the pointer to its start.  The
    identifier is the least one from 1 on whose slot was empty, or the size
    of the directory, which then grows by one slot, when every slot was
    taken; every other slot of the directory, the script map, the class
    table and every block of host memory that existed are as they were.
    The pointer resolves to a byte view of [size] bytes, all zero, in
    storage that did not exist before; [getString] reads the empty string
    there and [freeDynmem] of the pointer frees the segment again. *)
Theorem allocDynmem_gives_zeroed_buffer (env : Env) (sm : SegManager) (size : Z) :
  1 <= heap_size sm <= 16383 → 0 < size < 2147483648 →
  ∃ seg blk sm',
    allocDynmem size sm = Ok (Some (blk, 0), make_reg seg 0) sm'
    ∧ 1 <= seg <= heap_size sm
    ∧ (∀ j, 1 <= j < seg → ∃ o, lookupZ (_heap sm) j = Some (Some o))
    ∧ (seg < heap_size sm → lookupZ (_heap sm) seg = Some None
                             ∧ heap_size sm' = heap_size sm)
    ∧ (seg = heap_size sm → heap_size sm' = heap_size sm + 1)
    ∧ (∀ j, j ≠ seg → j < heap_size sm → lookupZ (_heap sm') j = lookupZ (_heap sm) j)
    ∧ _scriptSegMap sm' = _scriptSegMap sm ∧ _classTable sm' = _classTable sm
    ∧ memory sm !! blk = None
    ∧ (∀ b, b ≠ blk → memory sm' !! b = memory sm !! b)
    ∧ getSegmentType env sm' seg = SEG_TYPE_DYNMEM
    ∧ dereference (make_reg seg 0) sm' = Ok (mkSegmentRef true (Some (blk, 0)) size false) sm'
    ∧ (∀ i, 0 <= i < size →
         view_byte env (memory sm') (mkSegmentRef true (Some (blk, 0)) size false) i = Some 0)
    ∧ (∃ sm'', getString env (make_reg seg 0) sm' = Ok [] sm'')
    ∧ ∃ sm'', freeDynmem env 1 (make_reg seg 0) sm' = Ok true sm''
              ∧ lookupZ (_heap sm'') seg = Some None.
Proof.
  intros Hsize Hpos.
  destruct (allocDynmem_runs sm size)
    as (seg & sm' & Hrun & Hseg & Hocc & Hfree & Hgrow & Hslot & Hmem & Hother & Hmap & Hct & _);
    [lia|lia|].
  set (blk := length (memory sm)) in *.
  set (view := mkSegmentRef true (Some (blk, 0)) size false).
  pose proof (lookupZ_range _ _ _ Hslot) as Hr.
  exists seg, blk, sm'. split; [exact Hrun|]. split; [exact Hseg|].
  split; [exact Hocc|]. split; [exact Hfree|].
  split; [intros Heq; apply Hgrow; lia|]. split; [exact Hother|].
  split; [exact Hmap|]. split; [exact Hct|].
  split; [apply lookup_ge_None; unfold blk; lia|].
  split.
  { intros b Hb. rewrite Hmem. destruct (decide (b < blk)%nat) as [Hlt|Hge].
    - apply lookup_app_l. exact Hlt.
    - rewrite !lookup_ge_None_2; [reflexivity|unfold blk in *; lia|].
      rewrite length_app. simpl. unfold blk in *. lia. }
  assert (Hact : getActualSegment env seg = seg) by (apply getActualSegment_small; lia).
  assert (Hblk : memory sm' !! blk = Some (Bytes (replicate (Z.to_nat size) 0))).
  { rewrite Hmem. apply list_lookup_middle. reflexivity. }
  assert (Hderef : dereference (make_reg seg 0) sm' = Ok view sm').
  { unfold dereference. unfold_sm. cbn [getSegment].
    replace ((seg =? 0) || (heap_size sm' <=? seg)) with false
      by (symmetry; apply orb_false_intro; [apply Z.eqb_neq|apply Z.leb_gt];
          unfold heap_size; lia).
    cbv beta iota. rewrite Hslot. cbn [SegmentObj_dereference DynMem_dereference].
    unfold byte_view. cbn [getOffset].
    replace (0 <=? size) with true by (symmetry; apply Z.leb_le; lia).
    rewrite Z.sub_0_r. reflexivity. }
  assert (Hbytes : ∀ i, 0 <= i < size → view_byte env (memory sm') view i = Some 0).
  { intros i Hi. unfold view_byte, view. cbn [raw isRaw mbind option_bind].
    unfold load_byte, addr_add. cbn [fst snd]. rewrite Hblk.
    rewrite Z.add_0_l. apply lookupZ_replicate. lia. }
  assert (Hok : view_ok (memory sm') view = true).
  { unfold view_ok, view. cbn [raw maxSize isRaw fst snd]. rewrite Hblk.
    rewrite length_replicate.
    repeat (apply andb_true_intro; split); try apply Z.leb_le; try apply Z.ltb_lt; lia. }
  split.
  { unfold getSegmentType, slot_of. rewrite Hact.
    rewrite in_range_false by (unfold heap_size; lia). rewrite Hslot. reflexivity. }
  split; [exact Hderef|]. split; [exact Hbytes|]. split.
  - destruct (getString_reads env sm' (make_reg seg 0) view []) as (sm'' & Hget & _);
      [exact Hderef|exact Hok|constructor|simpl; lia| |eauto].
    intros j Hj. simpl in Hj. replace j with 0 by lia. rewrite Hbytes by lia. reflexivity.
  - exists (without_segment sm' seg). split.
    + apply (freeDynmem_runs env sm' (make_reg seg 0) 0 _ Hslot); [reflexivity|simpl; lia|].
      exact Hact.
    + apply without_segment_lookup. unfold heap_size. exact Hr.
Qed.

Lemma allocDynmem_gives_zeroed_buffer_witness :
  ∃ seg blk sm',
    allocDynmem 512 holed_manager = Ok (Some (blk, 0), make_reg seg 0) sm'
    ∧ 1 <= seg <= heap_size holed_manager
    ∧ (∀ j, 1 <= j < seg → ∃ o, lookupZ (_heap holed_manager) j = Some (Some o))
    ∧ (seg < heap_size holed_manager → lookupZ (_heap holed_manager) seg = Some None
                                        ∧ heap_size sm' = heap_size holed_manager)
    ∧ (seg = heap_size holed_manager → heap_size sm' = heap_size holed_manager + 1)
    ∧ (∀ j, j ≠ seg → j < heap_size holed_manager →
         lookupZ (_heap sm') j = lookupZ (_heap holed_manager) j)
    ∧ _scriptSegMap sm' = _scriptSegMap holed_manager
    ∧ _classTable sm' = _classTable holed_manager
    ∧ memory holed_manager !! blk = None
    ∧ (∀ b, b ≠ blk → memory sm' !! b = memory holed_manager !! b)
    ∧ getSegmentType (sample_env 8 (fun _ => None)) sm' seg = SEG_TYPE_DYNMEM
    ∧ dereference (make_reg seg 0) sm' = Ok (mkSegmentRef true (Some (blk, 0)) 512 false) sm'
    ∧ (∀ i, 0 <= i < 512 →
         view_byte (sample_env 8 (fun _ => None)) (memory sm')
           (mkSegmentRef true (Some (blk, 0)) 512 false) i = Some 0)
    ∧ (∃ sm'', getString (sample_env 8 (fun _ => None)) (make_reg seg 0) sm' = Ok [] sm'')
    ∧ ∃ sm'', freeDynmem (sample_env 8 (fun _ => None)) 1 (make_reg seg 0) sm' = Ok true sm''
              ∧ lookupZ (_heap sm'') seg = Some None.
Proof.
  apply (allocDynmem_gives_zeroed_buffer (sample_env 8 (fun _ => None)) holed_manager 512).
  - vm_compute. split; discriminate.
  - lia.
Defined.

(** The allocation, run: in [holed_manager] slot 1 is taken and slot 2 is
    free, and the buffer gets identifier 2 and the new block 2; in
    [two_buffers] both slots are taken, and it gets identifier 3. *)
Example allocDynmem_runs_on_samples :
  (∃ sm', allocDynmem 512 holed_manager = Ok (Some (2%nat, 0), make_reg 2 0) sm'
          ∧ heap_size sm' = 3)
  ∧ (∃ sm', allocDynmem 512 two_buffers = Ok (Some (2%nat, 0), make_reg 3 0) sm'
            ∧ heap_size sm' = 4).
Proof. split; eexists; split; vm_compute; reflexivity. Qed.

(** ** Allocation of script segments *)

(** [allocateScript] of a script number that is not in the script map
    allocates a segment for a new [Script] and enters the number in the map;
    asked again for the same number it returns the same segment and changes
    nothing. *)
Theorem allocateScript_once (sm : SegManager) (script_nr : Z) :
  1 <= heap_size sm <= 65535 →
  _scriptSegMap sm !! script_nr = None →
  ∃ seg sm', allocateScript script_nr sm = Ok (seg, seg) sm'
             ∧ 1 <= seg
             ∧ lookupZ (_heap sm') seg = Some (Some Script_new)
             ∧ getScriptSegment sm' script_nr = seg
             ∧ (∀ nr, nr ≠ script_nr → getScriptSegment sm' nr = getScriptSegment sm nr)
             ∧ (∀ j, j ≠ seg → j < heap_size sm → lookupZ (_heap sm') j = lookupZ (_heap sm) j)
             ∧ allocateScript script_nr sm' = Ok (seg, seg) sm'.
Proof.
  intros Hsize Hnew.
  destruct (allocSegment_spec sm Script_new Hsize)
    as (id & sm1 & Hal & Hid & _ & _ & _ & Hslot & Hother & Hmap1 & _).
  pose proof (lookupZ_range _ _ _ Hslot) as Hr.
  assert (Hseg0 : getScriptSegment sm script_nr = 0).
  { unfold getScriptSegment. rewrite Hnew. reflexivity. }
  exists id. unfold allocateScript at 1. unfold bind at 1. unfold get.
  change (default 0 (_scriptSegMap sm !! script_nr)) with (getScriptSegment sm script_nr).
  rewrite Hseg0. change (0 <? 0) with false. cbv iota.
  unfold bind at 1. rewrite Hal. unfold bind at 1. unfold get.
  unfold bind at 1. unfold set_scriptSegMap, ret. cbn [fst snd].
  set (sm' := mkSegManager (_heap sm1) (<[script_nr:=id]> (_scriptSegMap sm1))
                           (_classTable sm1) (memory sm1) (warnings sm1)).
  assert (Hseg : getScriptSegment sm' script_nr = id).
  { unfold getScriptSegment, sm'. cbn [_scriptSegMap]. rewrite lookup_insert_eq. reflexivity. }
  exists sm'. split; [reflexivity|]. split; [lia|]. split; [exact Hslot|].
  split; [exact Hseg|].
  split.
  { intros nr Hne. unfold getScriptSegment, sm'. cbn [_scriptSegMap].
    rewrite lookup_insert_ne by congruence. rewrite Hmap1. reflexivity. }
  split; [exact Hother|].
  unfold allocateScript. unfold bind at 1. unfold get.
  change (default 0 (_scriptSegMap sm' !! script_nr)) with (getScriptSegment sm' script_nr).
  rewrite Hseg. replace (0 <? id) with true by (symmetry; apply Z.ltb_lt; lia). cbv iota.
  unfold bind, heap_at. change (_heap sm') with (_heap sm1). rewrite Hslot. reflexivity.
Qed.

Lemma allocateScript_once_witness :
  ∃ seg sm', allocateScript 7 sample_manager = Ok (seg, seg) sm'
             ∧ 1 <= seg
             ∧ lookupZ (_heap sm') seg = Some (Some Script_new)
             ∧ getScriptSegment sm' 7 = seg
             ∧ (∀ nr, nr ≠ 7 → getScriptSegment sm' nr = getScriptSegment sample_manager nr)
             ∧ (∀ j, j ≠ seg → j < heap_size sample_manager →
                  lookupZ (_heap sm') j = lookupZ (_heap sample_manager) j)
             ∧ allocateScript 7 sm' = Ok (seg, seg) sm'.
Proof.
  apply (allocateScript_once sample_manager 7).
  - vm_compute. split; discriminate.
  - reflexivity.
Defined.

(** ** The string in a view *)

Lemma cstring_lookup (s : list Z) (i : Z) :
  cstring s → 0 <= i < Z.of_nat (length s) →
  ∃ c, lookupZ s i = Some c ∧ 0 < c < 256 ∧ (c =? 0) = false.
Proof.
  intros Hs Hi. destruct (lookupZ_Some s i Hi) as [c Hc]. exists c.
  split; [exact Hc|]. unfold lookupZ in Hc. destruct (i <? 0); [discriminate|].
  unfold cstring in Hs. rewrite Forall_lookup in Hs. specialize (Hs _ _ Hc).
  split; [exact Hs|]. apply Z.eqb_neq. lia.
Qed.

Lemma take_snoc_lookup (s : list Z) (i b : Z) :
  0 <= i → lookupZ s i = Some b →
  take (Z.to_nat i) s ++ [b] = take (Z.to_nat (i + 1)) s.
Proof.
  intros Hi Hb. unfold lookupZ in Hb. destruct (i <? 0) eqn:E; [lia|].
  replace (Z.to_nat (i + 1)) with (S (Z.to_nat i)) by lia.
  symmetry. apply take_S_r. exact Hb.
Qed.

(** What the two readers meet at index [i] of a view that holds [s]. *)
Lemma holds_at (env : Env) (m : list Block) (r : SegmentRef) (s : list Z) (i : Z) :
  holds env m r s → 0 <= i < maxSize r → i <= Z.of_nat (length s) →
  ∃ c, view_byte env m r i = Some c
       ∧ (c =? 0) = (i =? Z.of_nat (length s))
       ∧ (i < Z.of_nat (length s) → lookupZ s i = Some c).
Proof.
  intros (Hs & Hlen & Hbytes & Hend) Hi Hle.
  destruct (Z_lt_le_dec i (Z.of_nat (length s))) as [Hlt|Hge].
  - destruct (cstring_lookup s i Hs) as (c & Hc & Hcr & Hc0); [lia|].
    exists c. rewrite Hbytes by lia. split; [exact Hc|].
    split; [rewrite Hc0; symmetry; apply Z.eqb_neq; lia|intros _; exact Hc].
  - assert (i = Z.of_nat (length s)) by lia. subst i. exists 0.
    split; [apply Hend; lia|]. rewrite !Z.eqb_refl. split; [reflexivity|lia].
Qed.

Lemma getString_holds (env : Env) (sm : SegManager) (p : reg_t) (r : SegmentRef) (s : list Z) :
  dereference p sm = Ok r sm →
  view_ok (memory sm) r = true →
  holds env (memory sm) r s →
  ∃ sm', getString env p sm = Ok s sm' ∧ same_directory sm sm' ∧ memory sm' = memory sm.
Proof.
  intros Hd Hok Hh. pose proof Hh as (Hs & Hlen & Hbytes & Hend). unfold getString.
  rewrite (resolved_not_null _ _ _ Hd). unfold bind at 1. rewrite Hd.
  rewrite (view_ok_valid _ _ Hok). change (negb true) with false. cbv beta iota.
  pose proof (view_ok_bound _ _ Hok) as Hmax.
  set (L := Z.of_nat (length s)) in *.
  destruct (isRaw r) eqn:Hraw.
  - (* byte storage: strnlen, then the bytes *)
    destruct (view_ok_raw _ _ Hok Hraw) as (a & bs & Ha & _).
    unfold bind at 1. unfold strnlen. unfold bind at 1.
    rewrite (uint32_small (maxSize r)) by lia.
    match goal with
    | |- ∃ _, match match for_upto ?n ?body ?a0 ?st with _ => _ end with _ => _ end = _ ∧ _ =>
        destruct (for_upto_rule
                    (fun i (_ : unit) sm' => 0 <= i <= L ∧ sm' = sm)
                    (fun i (_ : unit) sm' => i = L + 1 ∧ sm' = sm)
                    body n a0 st) as (b & j & a' & sm' & Hrun & Hend')
    end; [lia|split; [lia|reflexivity]| |].
    + intros i [] sm1 Hi (Hi1 & ->).
      destruct (holds_at env _ r s i Hh) as (c & Hc & Hc0 & _); [lia|lia|].
      unfold step, bind. rewrite Ha. unfold raw_ptr, ret at 1.
      rewrite (read_byte_view env sm r a i c Hraw Ha Hc).
      unfold ret. rewrite Hc0. eexists _, tt, sm. split; [reflexivity|]. fold L.
      destruct (i =? L) eqn:E; prop_of_bool; split; try reflexivity; lia.
    + rewrite Hrun.
      assert (Hsize : (if b then j - 1 else j) = L).
      { destruct b; [destruct Hend' as (-> & _); lia|destruct Hend' as (-> & ? & _); lia]. }
      assert (sm' = sm) by (destruct b; [apply Hend'|apply Hend']). subst sm'.
      unfold ret. cbn [fst snd]. rewrite Hsize.
      unfold String_of. unfold bind.
      match goal with
      | |- ∃ _, match for_upto ?n ?body ?a0 ?st with _ => _ end = _ ∧ _ =>
          destruct (for_upto_rule
                      (fun i acc sm' => 0 <= i <= L ∧ acc = take (Z.to_nat i) s ∧ sm' = sm)
                      (fun _ _ _ => False)
                      body n a0 st) as (b2 & j2 & acc & sm' & Hrun2 & Hend2)
      end; [lia|split; [lia|split; reflexivity]| |].
      * intros i acc sm1 Hi (Hi1 & -> & ->).
        destruct (holds_at env _ r s i Hh) as (c & Hc & _ & Hsc); [lia|lia|].
        unfold bind. rewrite Ha. unfold raw_ptr, ret at 1.
        rewrite (read_byte_view env sm r a i c Hraw Ha Hc).
        unfold ret. eexists false, _, sm. split; [reflexivity|].
        split; [lia|]. split; [|reflexivity]. apply take_snoc_lookup; [lia|apply Hsc; lia].
      * rewrite Hrun2. destruct b2; [contradiction|]. destruct Hend2 as (-> & _ & -> & ->).
        exists sm. split; [|split; [apply same_directory_refl|reflexivity]].
        simpl. unfold L. rewrite Nat2Z.id, firstn_all. reflexivity.
  - (* cell storage: getChar until the zero byte or the bound *)
    unfold bind at 1. rewrite (uint32_small (maxSize r)) by lia.
    match goal with
    | |- ∃ _, match for_upto ?n ?body ?a0 ?st with _ => _ end = _ ∧ _ =>
        destruct (for_upto_rule
                    (fun i acc sm' => 0 <= i <= L
                                      ∧ acc = take (Z.to_nat i) s
                                      ∧ same_directory sm sm' ∧ memory sm' = memory sm)
                    (fun _ acc sm' => acc = s ∧ same_directory sm sm' ∧ memory sm' = memory sm)
                    body n a0 st) as (b & j & acc & sm' & Hrun & Hend')
    end; [lia|split; [lia|split; [reflexivity|split; [apply same_directory_refl|reflexivity]]]| |].
    + intros i acc sm1 Hi (Hi1 & -> & Hdir & Hmem).
      destruct (holds_at env _ r s i Hh) as (c & Hc & Hc0 & Hsc); [lia|lia|].
      destruct (getChar_view env sm1 r i c Hraw) as (sm2 & Hg & Hdir2 & Hmem2);
        [lia|rewrite Hmem; exact Hc|].
      unfold bind. rewrite Hg, Hc0. fold L.
      destruct (i =? L) eqn:E; prop_of_bool; unfold ret.
      * eexists true, _, sm2. split; [reflexivity|]. subst i.
        unfold L. rewrite Nat2Z.id, firstn_all.
        split; [reflexivity|]. split; [eapply same_directory_trans; eassumption|congruence].
      * eexists false, _, sm2. split; [reflexivity|]. split; [lia|].
        split; [apply take_snoc_lookup; [lia|apply Hsc; lia]|].
        split; [eapply same_directory_trans; eassumption|congruence].
    + rewrite Hrun. destruct b.
      * destruct Hend' as (-> & Hdir & Hmem). exists sm'. repeat split; try apply Hdir; assumption.
      * destruct Hend' as (-> & Hi & -> & Hdir & Hmem). exists sm'.
        replace (maxSize r) with L by lia. unfold L. rewrite Nat2Z.id, firstn_all.
        repeat split; try apply Hdir; assumption.
Qed.

Lemma strlen_holds (env : Env) (sm : SegManager) (p : reg_t) (r : SegmentRef) (s : list Z) :
  dereference p sm = Ok r sm →
  view_ok (memory sm) r = true →
  holds env (memory sm) r s →
  isRaw r = true ∨ Z.of_nat (length s) < maxSize r →
  ∃ sm', strlen env p sm = Ok (Z.of_nat (length s)) sm'
         ∧ same_directory sm sm' ∧ memory sm' = memory sm.
Proof.
  intros Hd Hok Hh Hcase. pose proof Hh as (Hs & Hlen & Hbytes & Hend). unfold strlen.
  rewrite (resolved_not_null _ _ _ Hd). unfold bind at 1. rewrite Hd.
  rewrite (view_ok_valid _ _ Hok). change (negb true) with false. cbv beta iota.
  pose proof (view_ok_bound _ _ Hok) as Hmax.
  set (L := Z.of_nat (length s)) in *.
  destruct (isRaw r) eqn:Hraw.
  - destruct (view_ok_raw _ _ Hok Hraw) as (a & bs & Ha & _).
    unfold strnlen. unfold bind at 1.
    rewrite (uint32_small (maxSize r)) by lia.
    match goal with
    | |- ∃ _, match for_upto ?n ?body ?a0 ?st with _ => _ end = _ ∧ _ =>
        destruct (for_upto_rule
                    (fun i (_ : unit) sm' => 0 <= i <= L ∧ sm' = sm)
                    (fun i (_ : unit) sm' => i = L + 1 ∧ sm' = sm)
                    body n a0 st) as (b & j & a' & sm' & Hrun & Hend')
    end; [lia|split; [lia|reflexivity]| |].
    + intros i [] sm1 Hi (Hi1 & ->).
      destruct (holds_at env _ r s i Hh) as (c & Hc & Hc0 & _); [lia|lia|].
      unfold step, bind. rewrite Ha. unfold raw_ptr, ret at 1.
      rewrite (read_byte_view env sm r a i c Hraw Ha Hc).
      unfold ret. rewrite Hc0. eexists _, tt, sm. split; [reflexivity|]. fold L.
      destruct (i =? L) eqn:E; prop_of_bool; split; try reflexivity; lia.
    + rewrite Hrun.
      assert (Hsize : (if b then j - 1 else j) = L).
      { destruct b; [destruct Hend' as (-> & _); lia|destruct Hend' as (-> & ? & _); lia]. }
      assert (sm' = sm) by (destruct b; [apply Hend'|apply Hend']). subst sm'.
      unfold ret. cbn [fst snd]. rewrite Hsize.
      exists sm. split; [reflexivity|]. split; [apply same_directory_refl|reflexivity].
  - destruct Hcase as [Hcase|Hterm]; [discriminate|].
    unfold bind at 1.
    match goal with
    | |- ∃ _, match for_upto ?n ?body ?a0 ?st with _ => _ end = _ ∧ _ =>
        destruct (for_upto_rule
                    (fun i (_ : unit) sm' => 0 <= i <= L
                                      ∧ same_directory sm sm' ∧ memory sm' = memory sm)
                    (fun i (_ : unit) sm' => i = L + 1
                                      ∧ same_directory sm sm' ∧ memory sm' = memory sm)
                    body n a0 st) as (b & j & a' & sm' & Hrun & Hend')
    end; [lia|split; [lia|split; [apply same_directory_refl|reflexivity]]| |].
    + intros i [] sm1 Hi (Hi1 & Hdir & Hmem).
      destruct (holds_at env _ r s i Hh) as (c & Hc & Hc0 & _); [lia|lia|].
      destruct (getChar_view env sm1 r i c Hraw) as (sm2 & Hg & Hdir2 & Hmem2);
        [lia|rewrite Hmem; exact Hc|].
      unfold step, bind. rewrite Hg. unfold ret. rewrite Hc0. fold L.
      eexists _, tt, sm2. split; [reflexivity|].
      destruct (i =? L) eqn:E; prop_of_bool.
      * split; [lia|]. split; [eapply same_directory_trans; eassumption|congruence].
      * split; [lia|]. split; [eapply same_directory_trans; eassumption|congruence].
    + rewrite Hrun. destruct b.
      * destruct Hend' as (-> & Hdir & Hmem). cbn [fst snd]. unfold ret.
        replace (L + 1 - 1) with L by lia. exists sm'. repeat split; try apply Hdir; assumption.
      * destruct Hend' as (-> & Hbad & _). lia.
Qed.

(** [getString] returns the bytes of a view before its first zero byte, and
    when there is no zero byte within the bound of the view, the bytes up to
    the bound and none beyond; [strlen] returns their number, on byte
    storage always and on cell storage when the zero byte lies within the
    bound.  Neither changes the directory or host memory. *)
Theorem getString_and_strlen_read_the_view (env : Env) (sm : SegManager) (p : reg_t)
    (r : SegmentRef) (s : list Z) :
  dereference p sm = Ok r sm →
  view_ok (memory sm) r = true →
  holds env (memory sm) r s →
  (∃ sm', getString env p sm = Ok s sm' ∧ same_directory sm sm' ∧ memory sm' = memory sm)
  ∧ (isRaw r = true ∨ Z.of_nat (length s) < maxSize r →
     ∃ sm', strlen env p sm = Ok (Z.of_nat (length s)) sm'
            ∧ same_directory sm sm' ∧ memory sm' = memory sm).
Proof.
  intros Hd Hok Hh. split.
  - apply (getString_holds env sm p r s Hd Hok Hh).
  - intros Hcase. apply (strlen_holds env sm p r s Hd Hok Hh Hcase).
Qed.

Lemma getString_and_strlen_read_the_view_witness :
  (∃ sm', getString (sample_env 8 (fun _ => None)) (make_reg 1 0) sample_manager
          = Ok [97; 98; 99; 100] sm'
          ∧ same_directory sample_manager sm' ∧ memory sm' = memory sample_manager)
  ∧ (isRaw (byte_view 0 4 (make_reg 1 0)) = true
     ∨ Z.of_nat (length [97; 98; 99; 100]) < maxSize (byte_view 0 4 (make_reg 1 0)) →
     ∃ sm', strlen (sample_env 8 (fun _ => None)) (make_reg 1 0) sample_manager
            = Ok (Z.of_nat (length [97; 98; 99; 100])) sm'
            ∧ same_directory sample_manager sm' ∧ memory sm' = memory sample_manager).
Proof.
  apply (getString_and_strlen_read_the_view (sample_env 8 (fun _ => None)) sample_manager
           (make_reg 1 0) (byte_view 0 4 (make_reg 1 0)) [97; 98; 99; 100]).
  - reflexivity.
  - reflexivity.
  - split; [repeat constructor; lia|]. split; [simpl; lia|]. split.
    + intros j Hj. simpl in Hj.
      assert (j = 0 ∨ j = 1 ∨ j = 2 ∨ j = 3) as [->|[->|[->| ->]]] by lia; reflexivity.
    + simpl. lia.
Defined.

(** After [strcpy_] of a string shorter than the bound of the destination,
    [strlen] of the destination is the length of the string, on byte storage
    and on cell storage. *)
Theorem strlen_after_strcpy (env : Env) (sm : SegManager) (dest : reg_t)
    (dest_r : SegmentRef) (s : list Z) :
  dereference dest sm = Ok dest_r sm →
  view_ok (memory sm) dest_r = true →
  cstring s →
  Z.of_nat (length s) < maxSize dest_r →
  ∃ sm1 sm2, strcpy_cstr env dest (literal s) sm = Ok tt sm1
             ∧ strlen env dest sm1 = Ok (Z.of_nat (length s)) sm2
             ∧ same_directory sm sm2
             ∧ memory sm2 = memory sm1.
Proof.
  intros Hd Hok Hs Hlen.
  destruct (strcpy_cstr_writes env sm dest dest_r s Hd Hok Hs Hlen)
    as (sm1 & Hcopy & Hf & Hsh & Hbytes & _).
  destruct (strlen_holds env sm1 dest dest_r s) as (sm2 & Hget & Hdir & Hmem).
  - apply (dereference_same_heap sm); [exact Hd|apply Hf].
  - rewrite (view_ok_same_shape _ _ _ Hsh). exact Hok.
  - split; [exact Hs|]. split; [lia|]. split.
    + intros j Hj. rewrite Hbytes by lia. unfold lookupZ.
      destruct (j <? 0); [reflexivity|]. apply lookup_app_l. lia.
    + intros _. rewrite Hbytes by lia. unfold lookupZ.
      destruct (Z.of_nat (length s) <? 0) eqn:E; [lia|].
      rewrite Nat2Z.id. rewrite lookup_app_r by lia. rewrite Nat.sub_diag. reflexivity.
  - right. exact Hlen.
  - exists sm1, sm2. split; [exact Hcopy|]. split; [exact Hget|].
    split; [eapply same_directory_trans; [apply Hf|exact Hdir]|exact Hmem].
Qed.

Lemma strlen_after_strcpy_witness :
  ∃ sm1 sm2, strcpy_cstr (sample_env 8 (fun _ => None)) (make_reg 2 1) (literal [104; 105])
               sample_manager = Ok tt sm1
             ∧ strlen (sample_env 8 (fun _ => None)) (make_reg 2 1) sm1
               = Ok (Z.of_nat (length [104; 105])) sm2
             ∧ same_directory sample_manager sm2
             ∧ memory sm2 = memory sm1.
Proof.
  apply (strlen_after_strcpy (sample_env 8 (fun _ => None)) sample_manager
           (make_reg 2 1) (cell_view 1 2 (make_reg 2 1)) [104; 105]).
  - reflexivity.
  - reflexivity.
  - repeat constructor.
  - simpl. lia.
Defined.

Lemma dereference_diagnosed (sm sm0 : SegManager) (p : reg_t) (r : SegmentRef) :
  dereference p sm = Ok r sm0 → isValid r = false →
  (length (warnings sm) <= length (warnings sm0))%nat.
Proof.
  unfold dereference. unfold_sm.
  destruct ((getSegment p =? 0) || (heap_size sm <=? getSegment p)).
  { intros H _. injection H as _ <-. simpl. rewrite length_app. lia. }
  destruct (lookupZ (_heap sm) (getSegment p)) as [[mobj|]|]; try discriminate;
    intros H _; injection H as _ <-; simpl; rewrite ?length_app; lia.
Qed.

(** For a null pointer [strlen] answers 0 and [getString] the empty string,
    and the manager stays as it is; for a pointer that does not resolve they
    answer the same after a diagnostic, and the directory and host memory
    stay as they are. *)
Theorem strlen_and_getString_unresolved (env : Env) (sm : SegManager) (p : reg_t) :
  (isNull p = true
   ∨ ∃ r sm0, dereference p sm = Ok r sm0 ∧ isValid r = false) →
  ∃ sm1 sm2, strlen env p sm = Ok 0 sm1
             ∧ getString env p sm = Ok [] sm2
             ∧ same_directory sm sm1 ∧ memory sm1 = memory sm
             ∧ same_directory sm sm2 ∧ memory sm2 = memory sm
             ∧ (isNull p = true → sm1 = sm ∧ sm2 = sm)
             ∧ (isNull p = false → diagnosed sm sm1 ∧ diagnosed sm sm2).
Proof.
  intros H. unfold strlen, getString. destruct (isNull p) eqn:Hnull.
  - exists sm, sm. split; [reflexivity|]. split; [reflexivity|].
    split; [apply same_directory_refl|]. split; [reflexivity|].
    split; [apply same_directory_refl|]. split; [reflexivity|].
    split; [intros _; split; reflexivity|discriminate].
  - destruct H as [H|(r & sm0 & Hd & Hinv)]; [discriminate|].
    destruct (dereference_frame _ _ _ _ Hd) as [Hdir Hmem].
    pose proof (dereference_diagnosed _ _ _ _ Hd Hinv) as Hw.
    unfold bind. rewrite Hd, Hinv. change (negb false) with true. cbv iota.
    unfold warning, ret. eexists _, _. split; [reflexivity|]. split; [reflexivity|].
    cbn [memory warnings]. destruct Hdir as (H1 & H2 & H3).
    split; [repeat split; assumption|]. split; [exact Hmem|].
    split; [repeat split; assumption|]. split; [exact Hmem|].
    split; [discriminate|]. intros _. unfold diagnosed. cbn [warnings].
    rewrite !length_app. simpl. lia.
Qed.

Lemma strlen_and_getString_unresolved_witness :
  ∃ sm1 sm2, strlen (sample_env 8 (fun _ => None)) (make_reg 7 0) sample_manager = Ok 0 sm1
             ∧ getString (sample_env 8 (fun _ => None)) (make_reg 7 0) sample_manager = Ok [] sm2
             ∧ same_directory sample_manager sm1 ∧ memory sm1 = memory sample_manager
             ∧ same_directory sample_manager sm2 ∧ memory sm2 = memory sample_manager
             ∧ (isNull (make_reg 7 0) = true → sm1 = sample_manager ∧ sm2 = sample_manager)
             ∧ (isNull (make_reg 7 0) = false →
                diagnosed sample_manager sm1 ∧ diagnosed sample_manager sm2).
Proof.
  apply (strlen_and_getString_unresolved (sample_env 8 (fun _ => None)) sample_manager
           (make_reg 7 0)).
  right. eexists _, _. split; reflexivity.
Defined.

(** ** Bounded copy of a string *)

Lemma default_lookupZ_lt (s : list Z) (j : Z) (x : Z) :
  lookupZ s j = Some x → Some (default 0 (lookupZ s j)) = Some x.
Proof. intros ->. reflexivity. Qed.

Lemma default_lookupZ_ge (s : list Z) (j : Z) :
  Z.of_nat (length s) <= j → default 0 (lookupZ s j) = 0.
Proof. intros H. rewrite lookupZ_None by (right; exact H). reflexivity. Qed.

(** [strncpy] of a C string into byte storage, with a count within the
    bound of the destination, writes exactly [n] bytes: the bytes of the
    string, cut at [n], and zero bytes from the end of the string up to [n].
    A string of [n] bytes or more is left without a terminator.  The bytes
    of the destination from [n] on stay as they are. *)
Theorem strncpy_pads_byte_storage (env : Env) (sm : SegManager) (dest : reg_t)
    (dest_r : SegmentRef) (s : list Z) (n : Z) :
  dereference dest sm = Ok dest_r sm →
  view_ok (memory sm) dest_r = true →
  isRaw dest_r = true →
  cstring s →
  0 <= n <= maxSize dest_r →
  ∃ sm', strncpy_cstr env dest (literal s) n sm = Ok tt sm'
         ∧ frame sm sm' ∧ same_shape (memory sm) (memory sm')
         ∧ (∀ j, 0 <= j < n →
              view_byte env (memory sm') dest_r j = Some (default 0 (lookupZ s j)))
         ∧ (∀ j, n <= j →
              view_byte env (memory sm') dest_r j = view_byte env (memory sm) dest_r j).
Proof.
  intros Hd Hok Hraw Hs Hn. unfold strncpy_cstr. unfold bind at 1. rewrite Hd.
  rewrite (view_ok_valid _ _ Hok), Hraw. change (negb true) with false. cbv beta iota.
  pose proof (view_ok_bound _ _ Hok) as Hmax.
  set (L := Z.of_nat (length s)) in *.
  unfold forwardCopy.
  replace (n =? 4294967295) with false by (symmetry; apply Z.eqb_neq; lia).
  cbn [andb negb].
  pose (I := fun (i : Z) (_ : unit) (sm' : SegManager) =>
               0 <= i <= L ∧ i <= n ∧ frame sm sm' ∧ same_shape (memory sm) (memory sm')
               ∧ (∀ j, 0 <= j < i → view_byte env (memory sm') dest_r j = lookupZ s j)
               ∧ (∀ j, i <= j → view_byte env (memory sm') dest_r j
                                = view_byte env (memory sm) dest_r j)).
  pose (Q := fun (i : Z) (_ : unit) (sm' : SegManager) =>
               i = L + 1 ∧ i <= n ∧ frame sm sm' ∧ same_shape (memory sm) (memory sm')
               ∧ (∀ j, 0 <= j < L → view_byte env (memory sm') dest_r j = lookupZ s j)
               ∧ view_byte env (memory sm') dest_r L = Some 0
               ∧ (∀ j, L + 1 <= j → view_byte env (memory sm') dest_r j
                                    = view_byte env (memory sm) dest_r j)).
  unfold bind at 1.
  match goal with
  | |- ∃ _, match for_upto ?n0 ?body ?a ?st with _ => _ end = _ ∧ _ =>
      destruct (for_upto_rule I Q body n0 a st) as (b & j & a' & sm1 & Hrun & Hend)
  end; [lia| | |].
  { split; [lia|]. split; [lia|]. split; [apply frame_refl|]. split; [apply same_shape_refl|].
    split; [intros j Hj; lia|reflexivity]. }
  { intros i [] sm1 Hi (Hi1 & _ & Hf & Hsh & Hbytes & Hrest).
    destruct (literal_lookup s i Hs Hi1) as (c & Hc & Hcr & Hc0).
    unfold step, bind. simpl byteptr_add. unfold read_byte. rewrite Z.add_0_l, Hc. unfold ret at 1.
    destruct (write_byte_stored env sm1 dest_r i c) as (sm2 & Hw & Hf2 & Hst & Hnew & Hold);
      [rewrite (view_ok_same_shape _ _ _ Hsh); exact Hok | exact Hraw | lia |].
    rewrite Hw. unfold ret. rewrite Hc0. fold L.
    eexists _, tt, sm2. split; [reflexivity|].
    destruct (i =? L) eqn:E; [unfold Q|unfold I]; prop_of_bool.
    - subst i. split; [reflexivity|]. split; [lia|].
      split; [eapply frame_trans; eassumption|].
      split; [eapply same_shape_trans; eassumption|].
      split; [intros j Hj; rewrite Hold by lia; apply Hbytes; lia|].
      split.
      + rewrite Hnew. f_equal.
        unfold lookupZ in Hc. destruct (L <? 0) eqn:E0; [lia|].
        unfold L in Hc. rewrite Nat2Z.id, lookup_app_r, Nat.sub_diag in Hc by lia.
        simpl in Hc. congruence.
      + intros j Hj. rewrite Hold by lia. apply Hrest. lia.
    - split; [lia|]. split; [lia|]. split; [eapply frame_trans; eassumption|].
      split; [eapply same_shape_trans; eassumption|]. split.
      + intros j Hj. destruct (decide (j = i)) as [->|Hne].
        * rewrite Hnew. unfold lookupZ in *. destruct (i <? 0); [discriminate|].
          rewrite lookup_app_l in Hc by lia. symmetry. exact Hc.
        * rewrite Hold by exact Hne. apply Hbytes. lia.
      + intros j Hj. rewrite Hold by lia. apply Hrest. lia. }
  rewrite Hrun. cbn [fst snd]. destruct b.
  - (* the terminator was met: zeros up to [n] *)
    destruct Hend as (-> & Hjn & Hf & Hsh & Hbytes & Hzero & Hrest).
    unfold bind.
    pose (I2 := fun (k : Z) (_ : unit) (sm' : SegManager) =>
               frame sm sm' ∧ same_shape (memory sm) (memory sm')
               ∧ (∀ j, 0 <= j < L → view_byte env (memory sm') dest_r j = lookupZ s j)
               ∧ (∀ j, L <= j < L + 1 + k → view_byte env (memory sm') dest_r j = Some 0)
               ∧ (∀ j, L + 1 + k <= j → view_byte env (memory sm') dest_r j
                                        = view_byte env (memory sm) dest_r j)).
    match goal with
    | |- ∃ _, match for_upto ?n0 ?body ?a ?st with _ => _ end = _ ∧ _ =>
        destruct (for_upto_rule I2 (fun _ _ _ => False) body n0 a st)
          as (b & j & a2 & sm2 & Hrun2 & Hend2)
    end; [lia| | |].
    { split; [exact Hf|]. split; [exact Hsh|]. split; [exact Hbytes|]. split.
      - intros j Hj. replace j with L by lia. exact Hzero.
      - intros j Hj. apply Hrest. lia. }
    { intros k [] sm2 Hk (Hf2 & Hsh2 & Hb2 & Hz2 & Hr2).
      destruct (write_byte_stored env sm2 dest_r (L + 1 + k) 0) as (sm3 & Hw & Hf3 & Hst & Hnew & Hold);
        [rewrite (view_ok_same_shape _ _ _ Hsh2); exact Hok | exact Hraw | lia |].
      unfold step, bind. rewrite Hw. unfold ret. eexists false, tt, sm3.
      split; [reflexivity|]. split; [eapply frame_trans; eassumption|].
      split; [eapply same_shape_trans; eassumption|].
      split; [intros j Hj; rewrite Hold by lia; apply Hb2; lia|]. split.
      - intros j Hj. destruct (decide (j = L + 1 + k)) as [->|Hne]; [exact Hnew|].
        rewrite Hold by exact Hne. apply Hz2. lia.
      - intros j Hj. rewrite Hold by lia. apply Hr2. lia. }
    rewrite Hrun2. destruct b; [contradiction|].
    destruct Hend2 as (-> & Hf2 & Hsh2 & Hb2 & Hz2 & Hr2).
    exists sm2. split; [reflexivity|]. split; [exact Hf2|]. split; [exact Hsh2|]. split.
    + intros j Hj. destruct (Z_lt_le_dec j L) as [Hlt|Hge].
      * rewrite Hb2 by lia. destruct (lookupZ_Some s j) as [x Hx]; [fold L; lia|].
        rewrite Hx. reflexivity.
      * rewrite default_lookupZ_ge by exact Hge. apply Hz2. lia.
    + intros j Hj. apply Hr2. lia.
  - (* the count ran out first: no terminator *)
    destruct Hend as (-> & Hi1 & _ & Hf & Hsh & Hbytes & Hrest).
    rewrite Z.sub_diag. unfold for_upto, bind, ret.
    exists sm1. split; [reflexivity|]. split; [exact Hf|]. split; [exact Hsh|]. split.
    + intros j Hj. rewrite Hbytes by lia. destruct (lookupZ_Some s j) as [x Hx]; [fold L; lia|].
      rewrite Hx. reflexivity.
    + intros j Hj. apply Hrest. exact Hj.
Qed.

Lemma strncpy_pads_byte_storage_witness :
  ∃ sm', strncpy_cstr (sample_env 8 (fun _ => None)) (make_reg 1 0) (literal [104]) 3
           sample_manager = Ok tt sm'
         ∧ frame sample_manager sm' ∧ same_shape (memory sample_manager) (memory sm')
         ∧ (∀ j, 0 <= j < 3 →
              view_byte (sample_env 8 (fun _ => None)) (memory sm')
                (byte_view 0 4 (make_reg 1 0)) j = Some (default 0 (lookupZ [104] j)))
         ∧ (∀ j, 3 <= j →
              view_byte (sample_env 8 (fun _ => None)) (memory sm')
                (byte_view 0 4 (make_reg 1 0)) j
              = view_byte (sample_env 8 (fun _ => None)) (memory sample_manager)
                  (byte_view 0 4 (make_reg 1 0)) j).
Proof.
  apply (strncpy_pads_byte_storage (sample_env 8 (fun _ => None)) sample_manager
           (make_reg 1 0) (byte_view 0 4 (make_reg 1 0)) [104] 3).
  - reflexivity.
  - reflexivity.
  - reflexivity.
  - repeat constructor.
  - simpl. lia.
Defined.

(** [strncpy] of a C string into cell storage, with a count within the
    bound of the destination, copies the string up to and with its
    terminator, or its first [n] bytes, and then writes one zero byte at
    index [n] when [n] is less than the bound.  Nothing is padded: the bytes
    between the end of the string and index [n] stay as they are. *)
Theorem strncpy_terminates_cell_storage (env : Env) (sm : SegManager) (dest : reg_t)
    (dest_r : SegmentRef) (s : list Z) (n : Z) :
  dereference dest sm = Ok dest_r sm →
  view_ok (memory sm) dest_r = true →
  isRaw dest_r = false →
  cstring s →
  0 <= n <= maxSize dest_r →
  ∃ sm', strncpy_cstr env dest (literal s) n sm = Ok tt sm'
         ∧ frame sm sm' ∧ same_shape (memory sm) (memory sm')
         ∧ (∀ j, 0 <= j < Z.min n (Z.of_nat (length s) + 1) →
              view_byte env (memory sm') dest_r j = lookupZ (s ++ [0]) j)
         ∧ (n < maxSize dest_r → view_byte env (memory sm') dest_r n = Some 0)
         ∧ (∀ j, Z.min n (Z.of_nat (length s) + 1) <= j → j ≠ n →
              view_byte env (memory sm') dest_r j = view_byte env (memory sm) dest_r j).
Proof.
  intros Hd Hok Hraw Hs Hn. unfold strncpy_cstr. unfold bind at 1. rewrite Hd.
  rewrite (view_ok_valid _ _ Hok), Hraw. change (negb true) with false. cbv beta iota.
  pose proof (view_ok_bound _ _ Hok) as Hmax.
  set (L := Z.of_nat (length s)) in *.
  pose (I := fun (i : Z) (_ : unit) (sm' : SegManager) =>
               0 <= i <= L ∧ i <= n ∧ frame sm sm' ∧ same_shape (memory sm) (memory sm')
               ∧ (∀ j, 0 <= j < i → view_byte env (memory sm') dest_r j = lookupZ (s ++ [0]) j)
               ∧ (∀ j, i <= j → view_byte env (memory sm') dest_r j
                                = view_byte env (memory sm) dest_r j)).
  pose (Q := fun (i : Z) (_ : unit) (sm' : SegManager) =>
               i = L + 1 ∧ i <= n ∧ frame sm sm' ∧ same_shape (memory sm) (memory sm')
               ∧ (∀ j, 0 <= j < L + 1 → view_byte env (memory sm') dest_r j = lookupZ (s ++ [0]) j)
               ∧ (∀ j, L + 1 <= j → view_byte env (memory sm') dest_r j
                                    = view_byte env (memory sm) dest_r j)).
  unfold bind at 1.
  match goal with
  | |- ∃ _, match for_upto ?n0 ?body ?a ?st with _ => _ end = _ ∧ _ =>
      destruct (for_upto_rule I Q body n0 a st) as (b & j & a' & sm1 & Hrun & Hend)
  end; [lia| | |].
  { split; [lia|]. split; [lia|]. split; [apply frame_refl|]. split; [apply same_shape_refl|].
    split; [intros j Hj; lia|reflexivity]. }
  { intros i [] sm1 Hi (Hi1 & _ & Hf & Hsh & Hbytes & Hrest).
    destruct (literal_lookup s i Hs Hi1) as (c & Hc & Hcr & Hc0).
    unfold step, bind. simpl byteptr_add. unfold read_byte. rewrite Z.add_0_l, Hc. unfold ret at 1.
    destruct (setChar_stored env sm1 dest_r i c) as (sm2 & Hw & Hf2 & Hst & Hnew & Hold);
      [rewrite (view_ok_same_shape _ _ _ Hsh); exact Hok | exact Hraw | lia |].
    rewrite Hw. unfold ret. rewrite Hc0. rewrite (to_byte_small c Hcr) in Hnew. fold L.
    eexists _, tt, sm2. split; [reflexivity|].
    assert (Hall : ∀ j, 0 <= j < i + 1 →
              view_byte env (memory sm2) dest_r j = lookupZ (s ++ [0]) j).
    { intros j Hj. destruct (decide (j = i)) as [->|Hne]; [congruence|].
      rewrite Hold by exact Hne. apply Hbytes. lia. }
    destruct (i =? L) eqn:E; [unfold Q|unfold I]; prop_of_bool.
    - subst i. split; [reflexivity|]. split; [lia|].
      split; [eapply frame_trans; eassumption|].
      split; [eapply same_shape_trans; eassumption|].
      split; [exact Hall|].
      intros j Hj. rewrite Hold by lia. apply Hrest. lia.
    - split; [lia|]. split; [lia|]. split; [eapply frame_trans; eassumption|].
      split; [eapply same_shape_trans; eassumption|]. split; [exact Hall|].
      intros j Hj. rewrite Hold by lia. apply Hrest. lia. }
  rewrite Hrun. rewrite (uint32_small (maxSize dest_r)) by lia.
  assert (Hmid : frame sm sm1 ∧ same_shape (memory sm) (memory sm1)
                 ∧ (∀ j, 0 <= j < Z.min n (L + 1) →
                      view_byte env (memory sm1) dest_r j = lookupZ (s ++ [0]) j)
                 ∧ (∀ j, Z.min n (L + 1) <= j →
                      view_byte env (memory sm1) dest_r j = view_byte env (memory sm) dest_r j)).
  { destruct b.
    - destruct Hend as (-> & Hjn & Hf & Hsh & Hbytes & Hrest).
      split; [exact Hf|]. split; [exact Hsh|].
      split; [intros k Hk; apply Hbytes; lia|intros k Hk; apply Hrest; lia].
    - destruct Hend as (-> & Hi1 & _ & Hf & Hsh & Hbytes & Hrest).
      split; [exact Hf|]. split; [exact Hsh|].
      split; [intros k Hk; apply Hbytes; lia|intros k Hk; apply Hrest; lia]. }
  clear Hend. destruct Hmid as (Hf & Hsh & Hbytes & Hrest).
  destruct (n <? maxSize dest_r) eqn:Eterm; prop_of_bool.
  - destruct (setChar_stored env sm1 dest_r n 0) as (sm2 & Hw & Hf2 & Hst & Hnew & Hold);
      [rewrite (view_ok_same_shape _ _ _ Hsh); exact Hok | exact Hraw | lia |].
    rewrite Hw. exists sm2. split; [reflexivity|].
    split; [eapply frame_trans; eassumption|].
    split; [eapply same_shape_trans; eassumption|]. split; [|split].
    + intros k Hk. rewrite Hold by lia. apply Hbytes. exact Hk.
    + intros _. exact Hnew.
    + intros k Hk Hne. rewrite Hold by exact Hne. apply Hrest. exact Hk.
  - exists sm1. split; [reflexivity|]. split; [exact Hf|]. split; [exact Hsh|].
    split; [exact Hbytes|]. split; [lia|]. intros k Hk _. apply Hrest. exact Hk.
Qed.

Lemma strncpy_terminates_cell_storage_witness :
  ∃ sm', strncpy_cstr (sample_env 8 (fun _ => None)) (make_reg 2 0) (literal [104]) 3
           sample_manager = Ok tt sm'
         ∧ frame sample_manager sm' ∧ same_shape (memory sample_manager) (memory sm')
         ∧ (∀ j, 0 <= j < Z.min 3 (Z.of_nat (length [104]) + 1) →
              view_byte (sample_env 8 (fun _ => None)) (memory sm')
                (cell_view 1 2 (make_reg 2 0)) j = lookupZ ([104] ++ [0]) j)
         ∧ (3 < maxSize (cell_view 1 2 (make_reg 2 0)) →
              view_byte (sample_env 8 (fun _ => None)) (memory sm')
                (cell_view 1 2 (make_reg 2 0)) 3 = Some 0)
         ∧ (∀ j, Z.min 3 (Z.of_nat (length [104]) + 1) <= j → j ≠ 3 →
              view_byte (sample_env 8 (fun _ => None)) (memory sm')
                (cell_view 1 2 (make_reg 2 0)) j
              = view_byte (sample_env 8 (fun _ => None)) (memory sample_manager)
                  (cell_view 1 2 (make_reg 2 0)) j).
Proof.
  apply (strncpy_terminates_cell_storage (sample_env 8 (fun _ => None)) sample_manager
           (make_reg 2 0) (cell_view 1 2 (make_reg 2 0)) [104] 3).
  - reflexivity.
  - reflexivity.
  - reflexivity.
  - repeat constructor.
  - simpl. lia.
Defined.

(** ** A string from one view to another *)

(** The loop of the string copies, whatever the two kinds of storage: the
    body copies one byte of the source into the destination and leaves the
    loop after the zero byte. *)
Lemma string_loop (env : Env) (sm : SegManager) (dest_r src_r : SegmentRef) (s : list Z)
    (n : Z) (body : Z → unit → M (bool * unit)) :
  Z.of_nat (length s) < n →
  Z.of_nat (length s) < maxSize dest_r →
  view_ok (memory sm) dest_r = true →
  cstring s →
  (∀ j, 0 <= j <= Z.of_nat (length s) →
        view_byte env (memory sm) src_r j = lookupZ (s ++ [0]) j) →
  (∀ sm1 i c, view_ok (memory sm1) dest_r = true → 0 <= i <= Z.of_nat (length s) →
     0 <= c < 256 → view_byte env (memory sm1) src_r i = Some c →
     ∃ sm2, body i tt sm1 = Ok (c =? 0, tt) sm2 ∧ same_directory sm1 sm2
            ∧ stored env (memory sm1) (memory sm2) dest_r i c
            ∧ ∀ j, view_byte env (memory sm2) src_r j = view_byte env (memory sm1) src_r j) →
  ∃ r sm', for_upto n body tt sm = Ok r sm'
           ∧ same_directory sm sm' ∧ same_shape (memory sm) (memory sm')
           ∧ (∀ j, 0 <= j <= Z.of_nat (length s) →
                view_byte env (memory sm') dest_r j = lookupZ (s ++ [0]) j)
           ∧ (∀ j, Z.of_nat (length s) < j →
                view_byte env (memory sm') dest_r j = view_byte env (memory sm) dest_r j)
           ∧ (∀ j, view_byte env (memory sm') src_r j = view_byte env (memory sm) src_r j).
Proof.
  intros Hn Hlen Hok Hs Hsrc Hbody. set (L := Z.of_nat (length s)) in *.
  pose (I := fun (i : Z) (_ : unit) (sm' : SegManager) =>
               0 <= i <= L ∧ same_directory sm sm' ∧ same_shape (memory sm) (memory sm')
               ∧ (∀ j, 0 <= j < i → view_byte env (memory sm') dest_r j = lookupZ (s ++ [0]) j)
               ∧ (∀ j, i <= j → view_byte env (memory sm') dest_r j
                                = view_byte env (memory sm) dest_r j)
               ∧ (∀ j, view_byte env (memory sm') src_r j = view_byte env (memory sm) src_r j)).
  pose (Q := fun (i : Z) (_ : unit) (sm' : SegManager) =>
               same_directory sm sm' ∧ same_shape (memory sm) (memory sm')
               ∧ (∀ j, 0 <= j <= L → view_byte env (memory sm') dest_r j = lookupZ (s ++ [0]) j)
               ∧ (∀ j, L < j → view_byte env (memory sm') dest_r j
                                = view_byte env (memory sm) dest_r j)
               ∧ (∀ j, view_byte env (memory sm') src_r j = view_byte env (memory sm) src_r j)).
  destruct (for_upto_rule I Q body n tt sm) as (b & j & a' & sm' & Hrun & Hend); [lia| | |].
  { split; [lia|]. split; [apply same_directory_refl|]. split; [apply same_shape_refl|].
    split; [intros j Hj; lia|]. split; reflexivity. }
  { intros i [] sm1 Hi (Hi1 & Hdir & Hsh & Hbytes & Hrest & Hsame).
    destruct (literal_lookup s i Hs Hi1) as (c & Hc & Hcr & Hc0).
    destruct (Hbody sm1 i c) as (sm2 & Hrun & Hdir2 & (Hsh2 & Hnew & Hold) & Hsame2);
      [rewrite (view_ok_same_shape _ _ _ Hsh); exact Hok|exact Hi1|exact Hcr| |].
    { rewrite Hsame, Hsrc by exact Hi1. exact Hc. }
    exists (c =? 0), tt, sm2. split; [exact Hrun|]. rewrite Hc0. fold L.
    assert (Hall : ∀ j, 0 <= j < i + 1 →
              view_byte env (memory sm2) dest_r j = lookupZ (s ++ [0]) j).
    { intros j Hj. destruct (decide (j = i)) as [->|Hne]; [congruence|].
      rewrite Hold by exact Hne. apply Hbytes. lia. }
    destruct (i =? L) eqn:E; [unfold Q|unfold I]; prop_of_bool.
    - subst i. split; [eapply same_directory_trans; eassumption|].
      split; [eapply same_shape_trans; eassumption|].
      split; [intros j Hj; apply Hall; lia|].
      split; [intros j Hj; rewrite Hold by lia; apply Hrest; lia|].
      intros j. rewrite Hsame2. apply Hsame.
    - split; [lia|]. split; [eapply same_directory_trans; eassumption|].
      split; [eapply same_shape_trans; eassumption|]. split; [exact Hall|].
      split; [intros j Hj; rewrite Hold by lia; apply Hrest; lia|].
      intros j. rewrite Hsame2. apply Hsame. }
  exists (b, j, a'), sm'. split; [exact Hrun|].
  destruct b; [exact Hend|]. destruct Hend as (-> & Hbad & _). lia.
Qed.

(** [strcpy_] from one pointer to another, whatever the two kinds of
    storage: when the source holds a string with its terminator and the
    string is shorter than the bound of the destination, the string and its
    terminator are copied, the rest of the destination and the source stay
    as they are, and [getString] then reads the string at the
    destination. *)
Theorem strcpy_between_views (env : Env) (sm : SegManager) (dest src : reg_t)
    (dest_r src_r : SegmentRef) (s : list Z) :
  dereference dest sm = Ok dest_r sm →
  dereference src sm = Ok src_r sm →
  view_ok (memory sm) dest_r = true →
  apart dest_r src_r →
  cstring s →
  (∀ j, 0 <= j <= Z.of_nat (length s) →
        view_byte env (memory sm) src_r j = lookupZ (s ++ [0]) j) →
  Z.of_nat (length s) < maxSize dest_r →
  ∃ sm', strcpy_ env dest src sm = Ok tt sm'
         ∧ same_directory sm sm' ∧ same_shape (memory sm) (memory sm')
         ∧ (∀ j, 0 <= j <= Z.of_nat (length s) →
              view_byte env (memory sm') dest_r j = lookupZ (s ++ [0]) j)
         ∧ (∀ j, Z.of_nat (length s) < j →
              view_byte env (memory sm') dest_r j = view_byte env (memory sm) dest_r j)
         ∧ (∀ j, view_byte env (memory sm') src_r j = view_byte env (memory sm) src_r j)
         ∧ ∃ sm'', getString env dest sm' = Ok s sm''.
Proof.
  intros Hd Hsd Hokd Hapart Hs Hsrc Hlen.
  pose proof (view_ok_bound _ _ Hokd) as Hbd.
  set (L := Z.of_nat (length s)) in *.
  destruct (raw dest_r) as [q|] eqn:Hq; [|unfold view_ok in Hokd; rewrite Hq in Hokd; discriminate].
  destruct (raw src_r) as [p|] eqn:Hp.
  2:{ specialize (Hsrc 0). unfold view_byte in Hsrc. rewrite Hp in Hsrc. simpl in Hsrc.
      destruct (literal_lookup s 0 Hs) as (c & Hc & _); [lia|].
      rewrite Hc in Hsrc. discriminate Hsrc. lia. }
  assert (Hvs : isValid src_r = true) by (unfold isValid; rewrite Hp; reflexivity).
  (* the two ways to read the source *)
  assert (Hfetch_raw : isRaw src_r = true → ∀ sm1 i c,
     view_byte env (memory sm1) src_r i = Some c →
     read_byte (byteptr_add (InMem p) i) sm1 = Ok c sm1).
  { intros Hraw sm1 i c Hv. apply (read_byte_view env sm1 src_r p i c Hraw Hp Hv). }
  assert (Hfetch_cell : isRaw src_r = false → ∀ sm1 i c, 0 <= i <= L →
     view_byte env (memory sm1) src_r i = Some c →
     ∃ sm2, getChar env src_r i sm1 = Ok c sm2
            ∧ same_directory sm1 sm2 ∧ memory sm2 = memory sm1).
  { intros Hraw sm1 i c Hi Hv. apply getChar_view; [exact Hraw|lia|exact Hv]. }
  (* the two ways to store into the destination *)
  assert (Hput_raw : isRaw dest_r = true → ∀ sm1 i v,
     view_ok (memory sm1) dest_r = true → 0 <= i <= L → 0 <= v < 256 →
     ∃ sm2, write_byte (Some q) i v sm1 = Ok tt sm2 ∧ same_directory sm1 sm2
            ∧ stored env (memory sm1) (memory sm2) dest_r i v
            ∧ ∀ j, view_byte env (memory sm2) src_r j = view_byte env (memory sm1) src_r j).
  { intros Hraw sm1 i v Hok1 Hi Hv.
    destruct (write_byte_stored env sm1 dest_r i v Hok1 Hraw) as (sm2 & Hw & Hf & Hst); [lia|].
    rewrite Hq in Hw. exists sm2. split; [exact Hw|]. split; [apply Hf|]. split; [exact Hst|].
    intros j. apply (view_byte_elsewhere env _ _ q.1 src_r p j);
      [apply (write_byte_elsewhere _ _ _ _ _ Hw)|exact Hp|].
    intros Heq. apply (Hapart q p); [exact Hq|exact Hp|congruence]. }
  assert (Hput_cell : isRaw dest_r = false → ∀ sm1 i v,
     view_ok (memory sm1) dest_r = true → 0 <= i <= L → 0 <= v < 256 →
     ∃ sm2, setChar env dest_r i v sm1 = Ok tt sm2 ∧ same_directory sm1 sm2
            ∧ stored env (memory sm1) (memory sm2) dest_r i v
            ∧ ∀ j, view_byte env (memory sm2) src_r j = view_byte env (memory sm1) src_r j).
  { intros Hraw sm1 i v Hok1 Hi Hv.
    destruct (setChar_stored env sm1 dest_r i v Hok1 Hraw) as (sm2 & Hw & Hf & Hst); [lia|].
    rewrite (to_byte_small v Hv) in Hst.
    exists sm2. split; [exact Hw|]. split; [apply Hf|]. split; [exact Hst|].
    intros j. apply (view_byte_elsewhere env _ _ q.1 src_r p j);
      [apply (setChar_elsewhere env _ _ dest_r q i v Hq Hw)|exact Hp|].
    intros Heq. apply (Hapart q p); [exact Hq|exact Hp|congruence]. }
  (* what is left once the loop has run *)
  assert (Hfinish : ∀ sm',
     same_directory sm sm' → same_shape (memory sm) (memory sm') →
     (∀ j, 0 <= j <= L → view_byte env (memory sm') dest_r j = lookupZ (s ++ [0]) j) →
     ∃ sm'', getString env dest sm' = Ok s sm'').
  { intros sm' Hdir Hsh Hbytes.
    destruct (getString_reads env sm' dest dest_r s) as (sm'' & Hget & _);
      [apply (dereference_same_heap sm); [exact Hd|apply Hdir]
      |rewrite (view_ok_same_shape _ _ _ Hsh); exact Hokd|exact Hs|exact Hlen|exact Hbytes|].
    eauto. }
  subst L.
  unfold strcpy_, strncpy. rewrite (resolved_not_null _ _ _ Hsd).
  unfold bind at 1. rewrite Hd. unfold bind at 1. rewrite Hsd.
  rewrite Hvs, (view_ok_valid _ _ Hokd). change (negb true) with false. cbv beta iota.
  destruct (isRaw src_r) eqn:Hrs.
  - (* from byte storage: strncpy(reg_t, const char *, size_t) *)
    rewrite Hp. unfold bind at 1. unfold raw_ptr, ret at 1.
    unfold strncpy_cstr. unfold bind at 1. rewrite Hd.
    rewrite (view_ok_valid _ _ Hokd). change (negb true) with false. cbv beta iota.
    destruct (isRaw dest_r) eqn:Hrd.
    + unfold forwardCopy. change (true && negb (4294967295 =? 4294967295)) with false.
      cbn [andb]. cbv iota. rewrite Hq.
      match goal with
      | |- ∃ _, bind (for_upto ?n ?body ?a) _ ?st = _ ∧ _ =>
          destruct (string_loop env sm dest_r src_r s n body)
            as (r & sm' & Hrun & Hdir & Hsh & Hbytes & Hrest & Hsame)
      end; [lia|exact Hlen|exact Hokd|exact Hs|exact Hsrc| |].
      { intros sm1 i c Hok1 Hi Hc Hv.
        destruct (Hput_raw eq_refl sm1 i c Hok1 Hi Hc) as (sm2 & Hw & Hdir2 & Hst & Hsame2).
        exists sm2. unfold step, bind. rewrite (Hfetch_raw eq_refl sm1 i c Hv), Hw.
        split; [reflexivity|]. split; [exact Hdir2|]. split; [exact Hst|exact Hsame2]. }
      unfold bind at 1. rewrite Hrun. exists sm'. split; [reflexivity|].
      split; [exact Hdir|]. split; [exact Hsh|]. split; [exact Hbytes|].
      split; [exact Hrest|]. split; [exact Hsame|]. apply Hfinish; assumption.
    + match goal with
      | |- ∃ _, bind (for_upto ?n ?body ?a) _ ?st = _ ∧ _ =>
          destruct (string_loop env sm dest_r src_r s n body)
            as (r & sm' & Hrun & Hdir & Hsh & Hbytes & Hrest & Hsame)
      end; [lia|exact Hlen|exact Hokd|exact Hs|exact Hsrc| |].
      { intros sm1 i c Hok1 Hi Hc Hv.
        destruct (Hput_cell eq_refl sm1 i c Hok1 Hi Hc) as (sm2 & Hw & Hdir2 & Hst & Hsame2).
        exists sm2. unfold step, bind. rewrite (Hfetch_raw eq_refl sm1 i c Hv), Hw.
        rewrite (Hfetch_raw eq_refl sm2 i c) by (rewrite Hsame2; exact Hv).
        split; [reflexivity|]. split; [exact Hdir2|]. split; [exact Hst|exact Hsame2]. }
      unfold bind at 1. rewrite Hrun.
      replace (4294967295 <? uint32 (maxSize dest_r)) with false
        by (symmetry; apply Z.ltb_ge; rewrite uint32_small; lia).
      exists sm'. split; [reflexivity|].
      split; [exact Hdir|]. split; [exact Hsh|]. split; [exact Hbytes|].
      split; [exact Hrest|]. split; [exact Hsame|]. apply Hfinish; assumption.
  - destruct (isRaw dest_r) eqn:Hrd; cbn [andb negb]; cbv iota.
    + (* from cell storage into byte storage *)
      rewrite Hq.
      match goal with
      | |- ∃ _, bind (for_upto ?n ?body ?a) _ ?st = _ ∧ _ =>
          destruct (string_loop env sm dest_r src_r s n body)
            as (r & sm' & Hrun & Hdir & Hsh & Hbytes & Hrest & Hsame)
      end; [lia|exact Hlen|exact Hokd|exact Hs|exact Hsrc| |].
      { intros sm1 i c Hok1 Hi Hc Hv.
        destruct (Hfetch_cell eq_refl sm1 i c Hi Hv) as (sm1' & Hg & Hdir1 & Hmem1).
        destruct (Hput_raw eq_refl sm1' i c) as (sm2 & Hw & Hdir2 & Hst & Hsame2);
          [rewrite Hmem1; exact Hok1|exact Hi|exact Hc|].
        exists sm2. unfold step, bind. rewrite Hg, Hw.
        split; [reflexivity|]. split; [eapply same_directory_trans; eassumption|].
        rewrite Hmem1 in Hst, Hsame2. split; [exact Hst|exact Hsame2]. }
      unfold bind at 1. rewrite Hrun. exists sm'. split; [reflexivity|].
      split; [exact Hdir|]. split; [exact Hsh|]. split; [exact Hbytes|].
      split; [exact Hrest|]. split; [exact Hsame|]. apply Hfinish; assumption.
    + (* from cell storage into cell storage *)
      match goal with
      | |- ∃ _, bind (for_upto ?n ?body ?a) _ ?st = _ ∧ _ =>
          destruct (string_loop env sm dest_r src_r s n body)
            as (r & sm' & Hrun & Hdir & Hsh & Hbytes & Hrest & Hsame)
      end; [lia|exact Hlen|exact Hokd|exact Hs|exact Hsrc| |].
      { intros sm1 i c Hok1 Hi Hc Hv.
        destruct (Hfetch_cell eq_refl sm1 i c Hi Hv) as (sm1' & Hg & Hdir1 & Hmem1).
        destruct (Hput_cell eq_refl sm1' i c) as (sm2 & Hw & Hdir2 & Hst & Hsame2);
          [rewrite Hmem1; exact Hok1|exact Hi|exact Hc|].
        exists sm2. unfold step, bind. rewrite Hg, Hw.
        split; [reflexivity|]. split; [eapply same_directory_trans; eassumption|].
        rewrite Hmem1 in Hst, Hsame2. split; [exact Hst|exact Hsame2]. }
      unfold bind at 1. rewrite Hrun. exists sm'. split; [reflexivity|].
      split; [exact Hdir|]. split; [exact Hsh|]. split; [exact Hbytes|].
      split; [exact Hrest|]. split; [exact Hsame|]. apply Hfinish; assumption.
Qed.

Lemma strcpy_between_views_witness :
  ∃ sm', strcpy_ (sample_env 8 (fun _ => None)) (make_reg 2 0) (make_reg 1 0) string_manager
         = Ok tt sm'
         ∧ same_directory string_manager sm' ∧ same_shape (memory string_manager) (memory sm')
         ∧ (∀ j, 0 <= j <= Z.of_nat (length [104; 105]) →
              view_byte (sample_env 8 (fun _ => None)) (memory sm')
                (cell_view 1 2 (make_reg 2 0)) j = lookupZ ([104; 105] ++ [0]) j)
         ∧ (∀ j, Z.of_nat (length [104; 105]) < j →
              view_byte (sample_env 8 (fun _ => None)) (memory sm')
                (cell_view 1 2 (make_reg 2 0)) j
              = view_byte (sample_env 8 (fun _ => None)) (memory string_manager)
                  (cell_view 1 2 (make_reg 2 0)) j)
         ∧ (∀ j, view_byte (sample_env 8 (fun _ => None)) (memory sm')
                   (byte_view 0 4 (make_reg 1 0)) j
                 = view_byte (sample_env 8 (fun _ => None)) (memory string_manager)
                     (byte_view 0 4 (make_reg 1 0)) j)
         ∧ ∃ sm'', getString (sample_env 8 (fun _ => None)) (make_reg 2 0) sm' = Ok [104; 105] sm''.
Proof.
  apply (strcpy_between_views (sample_env 8 (fun _ => None)) string_manager
           (make_reg 2 0) (make_reg 1 0)
           (cell_view 1 2 (make_reg 2 0)) (byte_view 0 4 (make_reg 1 0)) [104; 105]).
  - reflexivity.
  - reflexivity.
  - reflexivity.
  - intros p p' Hp Hp'. vm_compute in Hp, Hp'. injection Hp as <-. injection Hp' as <-.
    simpl. lia.
  - repeat constructor.
  - intros j Hj. simpl in Hj.
    assert (j = 0 ∨ j = 1 ∨ j = 2) as [->|[->| ->]] by lia; reflexivity.
  - simpl. lia.
Defined.

(** ** Copies with an endpoint that does not resolve *)

Lemma untouched_refl (sm : SegManager) : untouched sm sm.
Proof. split; [apply same_directory_refl|]. split; [reflexivity|lia]. Qed.

Lemma untouched_trans (sm1 sm2 sm3 : SegManager) :
  untouched sm1 sm2 → untouched sm2 sm3 → untouched sm1 sm3.
Proof.
  intros (Hd1 & Hm1 & Hw1) (Hd2 & Hm2 & Hw2).
  split; [eapply same_directory_trans; eassumption|]. split; [congruence|lia].
Qed.

Lemma untouched_warning (sm : SegManager) (msg : string) :
  ∃ sm', warning msg sm = Ok tt sm' ∧ untouched sm sm' ∧ diagnosed sm sm'.
Proof.
  unfold warning. eexists. split; [reflexivity|]. unfold untouched, diagnosed. simpl.
  rewrite length_app. simpl. repeat split; lia.
Qed.

Lemma dereference_untouched (sm sm0 : SegManager) (p : reg_t) (r : SegmentRef) :
  dereference p sm = Ok r sm0 → untouched sm sm0.
Proof.
  unfold dereference. unfold_sm.
  destruct ((getSegment p =? 0) || (heap_size sm <=? getSegment p)).
  { intros H. injection H as _ <-. unfold untouched. simpl. rewrite length_app.
    repeat split. lia. }
  destruct (lookupZ (_heap sm) (getSegment p)) as [[mobj|]|]; try discriminate;
    intros H; injection H as _ <-; unfold untouched; simpl; rewrite ?length_app;
    repeat split; lia.
Qed.

(** What [dereference] answers depends on the directory only. *)
Lemma dereference_heap_only (sm sm0 sm2 : SegManager) (p : reg_t) (r : SegmentRef) :
  dereference p sm = Ok r sm0 → _heap sm2 = _heap sm →
  ∃ sm3, dereference p sm2 = Ok r sm3 ∧ untouched sm2 sm3.
Proof.
  intros Hd Hh.
  assert (∃ sm3, dereference p sm2 = Ok r sm3) as [sm3 H3].
  { revert Hd. unfold dereference. unfold_sm. unfold heap_size. rewrite Hh.
    destruct ((getSegment p =? 0) || (Z.of_nat (length (_heap sm)) <=? getSegment p)).
    { intros H. injection H as <- _. eauto. }
    cbv beta. rewrite Hh.
    destruct (lookupZ (_heap sm) (getSegment p)) as [[mobj|]|]; try discriminate;
      intros H; injection H as <- _; eauto. }
  exists sm3. split; [exact H3|]. apply (dereference_untouched _ _ _ _ H3).
Qed.

Lemma dereference_returns (sm : SegManager) (p : reg_t) :
  0 <= getSegment p → ∃ r sm', dereference p sm = Ok r sm' ∧ untouched sm sm'.
Proof.
  intros Hseg.
  destruct (dereference_cases sm p Hseg) as [(mobj & _ & _ & H)|[_ H]];
    eexists _, _; (split; [exact H|]); apply (dereference_untouched _ _ _ _ H).
Qed.

Lemma untouched_diagnosed (sm1 sm2 sm3 : SegManager) :
  untouched sm1 sm2 → diagnosed sm2 sm3 → diagnosed sm1 sm3.
Proof. intros (_ & _ & Hw) Hd. unfold diagnosed in *. lia. Qed.

Lemma strncpy_cstr_unresolved (env : Env) (sm sm0 : SegManager) (dest : reg_t)
    (r : SegmentRef) (src : BytePtr) (n : Z) :
  dereference dest sm = Ok r sm0 → isValid r = false →
  ∃ sm', strncpy_cstr env dest src n sm = Ok tt sm' ∧ untouched sm sm' ∧ diagnosed sm sm'.
Proof.
  intros Hd Hinv. unfold strncpy_cstr. unfold bind. rewrite Hd, Hinv.
  change (negb false) with true. cbv iota.
  destruct (untouched_warning sm0 "Attempt to strncpy to invalid pointer") as (sm' & Hw & Hu & Hdg).
  exists sm'. split; [exact Hw|].
  pose proof (dereference_untouched _ _ _ _ Hd) as Hu0.
  split; [eapply untouched_trans; eassumption|eapply untouched_diagnosed; eassumption].
Qed.

(** A destination that does not resolve to a view: every copy primitive
    returns, and leaves the directory and host memory as they are; the
    copies emit a diagnostic ([strncpy] from a null source with count 0 has
    nothing to do and emits none). *)
Theorem copy_into_unresolved_destination (env : Env) (sm : SegManager) (dest : reg_t) (n : Z) :
  (∃ r sm0, dereference dest sm = Ok r sm0 ∧ isValid r = false) →
  (∀ src : BytePtr, ∃ sm', strncpy_cstr env dest src n sm = Ok tt sm'
                           ∧ untouched sm sm' ∧ diagnosed sm sm')
  ∧ (∀ src : BytePtr, ∃ sm', memcpy_from_ptr env dest src n sm = Ok tt sm'
                             ∧ untouched sm sm' ∧ diagnosed sm sm')
  ∧ (∀ src : reg_t, 0 <= getSegment src →
       ∃ sm', memcpy env dest src n sm = Ok tt sm' ∧ untouched sm sm' ∧ diagnosed sm sm')
  ∧ (∀ src : reg_t, 0 <= getSegment src →
       ∃ sm', strncpy env dest src n sm = Ok tt sm' ∧ untouched sm sm'
              ∧ (isNull src = false ∨ 0 < n → diagnosed sm sm')).
Proof.
  intros (r & sm0 & Hd & Hinv).
  pose proof (dereference_untouched _ _ _ _ Hd) as Hu0.
  split; [|split; [|split]].
  - intros src. apply (strncpy_cstr_unresolved env sm sm0 dest r src n Hd Hinv).
  - intros src. unfold memcpy_from_ptr. unfold bind. rewrite Hd, Hinv.
    change (negb false) with true. cbv iota.
    destruct (untouched_warning sm0 "Attempt to memcpy to invalid pointer") as (sm' & Hw & Hu & Hdg).
    exists sm'. split; [exact Hw|].
    split; [eapply untouched_trans; eassumption|eapply untouched_diagnosed; eassumption].
  - intros src Hseg. unfold memcpy. unfold bind at 1. rewrite Hd.
    destruct (dereference_returns sm0 src Hseg) as (src_r & sm1 & Hs & Hu1).
    unfold bind at 1. rewrite Hs, Hinv. change (negb false) with true. cbv iota.
    destruct (untouched_warning sm1 "Attempt to memcpy to invalid pointer") as (sm' & Hw & Hu & Hdg).
    exists sm'. split; [exact Hw|].
    split; [eapply untouched_trans; [eassumption|eapply untouched_trans; eassumption]|].
    eapply untouched_diagnosed; [eapply untouched_trans; eassumption|exact Hdg].
  - intros src Hseg. unfold strncpy. destruct (isNull src) eqn:Hnull.
    + destruct (0 <? n) eqn:Hn.
      * destruct (strncpy_cstr_unresolved env sm sm0 dest r (literal []) 4294967295 Hd Hinv)
          as (sm' & Hrun & Hu & Hdg).
        exists sm'. split; [exact Hrun|]. split; [exact Hu|]. intros _. exact Hdg.
      * exists sm. split; [reflexivity|]. split; [apply untouched_refl|].
        intros [H|H]; [discriminate|blia].
    + unfold bind at 1. rewrite Hd.
      destruct (dereference_returns sm0 src Hseg) as (src_r & sm1 & Hs & Hu1).
      unfold bind at 1. rewrite Hs.
      destruct (isValid src_r) eqn:Hvs; cbn [negb]; cbv iota.
      * rewrite Hinv. cbn [negb]. cbv iota.
        destruct (untouched_warning sm1 "Attempt to strncpy to invalid pointer")
          as (sm' & Hw & Hu & Hdg).
        exists sm'. split; [exact Hw|].
        split; [eapply untouched_trans; [eassumption|eapply untouched_trans; eassumption]|].
        intros _. eapply untouched_diagnosed; [eapply untouched_trans; eassumption|exact Hdg].
      * destruct (untouched_warning sm1 "Attempt to strncpy from invalid pointer")
          as (sm2 & Hw & Hu & Hdg).
        unfold bind at 1. rewrite Hw.
        assert (Hu02 : untouched sm sm2).
        { eapply untouched_trans; [eassumption|eapply untouched_trans; eassumption]. }
        assert (Hdg02 : diagnosed sm sm2).
        { apply (untouched_diagnosed sm sm1 sm2); [|exact Hdg].
          apply (untouched_trans sm sm0 sm1); assumption. }
        destruct (0 <? n) eqn:Hn.
        -- destruct (dereference_heap_only sm sm0 sm2 dest r Hd) as (sm3 & Hd2 & Hu3);
             [apply Hu02|].
           destruct (strncpy_cstr_unresolved env sm2 sm3 dest r (literal []) 4294967295 Hd2 Hinv)
             as (sm' & Hrun & Hu4 & Hdg4).
           exists sm'. split; [exact Hrun|].
           split; [eapply untouched_trans; eassumption|].
           intros _. eapply untouched_diagnosed; eassumption.
        -- exists sm2. split; [reflexivity|]. split; [exact Hu02|]. intros _. exact Hdg02.
Qed.

Lemma copy_into_unresolved_destination_witness :
  (∀ src : BytePtr, ∃ sm', strncpy_cstr (sample_env 8 (fun _ => None)) (make_reg 7 0) src 3
                             sample_manager = Ok tt sm'
                           ∧ untouched sample_manager sm' ∧ diagnosed sample_manager sm')
  ∧ (∀ src : BytePtr, ∃ sm', memcpy_from_ptr (sample_env 8 (fun _ => None)) (make_reg 7 0) src 3
                               sample_manager = Ok tt sm'
                             ∧ untouched sample_manager sm' ∧ diagnosed sample_manager sm')
  ∧ (∀ src : reg_t, 0 <= getSegment src →
       ∃ sm', memcpy (sample_env 8 (fun _ => None)) (make_reg 7 0) src 3 sample_manager = Ok tt sm'
              ∧ untouched sample_manager sm' ∧ diagnosed sample_manager sm')
  ∧ (∀ src : reg_t, 0 <= getSegment src →
       ∃ sm', strncpy (sample_env 8 (fun _ => None)) (make_reg 7 0) src 3 sample_manager = Ok tt sm'
              ∧ untouched sample_manager sm'
              ∧ (isNull src = false ∨ 0 < 3 → diagnosed sample_manager sm')).
Proof.
  apply (copy_into_unresolved_destination (sample_env 8 (fun _ => None)) sample_manager
           (make_reg 7 0) 3).
  eexists _, _. split; reflexivity.
Defined.

(** ** Bulk copy within the range of int *)

(** For a length within the range of [int] and two views that lie within
    different storage, [memcpy] checks the length against both bounds: a
    length beyond either bound is refused with a diagnostic and host memory
    stays as it is; a length within both is copied, byte for byte and
    whatever the two kinds of storage, with no terminator, and the bytes of
    the destination from [n] on and the source stay as they are. *)
Theorem memcpy_checks_both_bounds (env : Env) (sm : SegManager) (dest src : reg_t)
    (dest_r src_r : SegmentRef) (n : Z) :
  0 <= n < 2147483648 →
  dereference dest sm = Ok dest_r sm →
  dereference src sm = Ok src_r sm →
  view_ok (memory sm) dest_r = true →
  view_ok (memory sm) src_r = true →
  memory_ok (memory sm) = true →
  apart dest_r src_r →
  ∃ sm', memcpy env dest src n sm = Ok tt sm'
    ∧ same_directory sm sm'
    ∧ (maxSize dest_r < n ∨ maxSize src_r < n →
       memory sm' = memory sm ∧ diagnosed sm sm')
    ∧ (n <= maxSize dest_r → n <= maxSize src_r →
       same_shape (memory sm) (memory sm')
       ∧ (∀ j, 0 <= j < n →
            view_byte env (memory sm') dest_r j = view_byte env (memory sm) src_r j)
       ∧ (∀ j, n <= j →
            view_byte env (memory sm') dest_r j = view_byte env (memory sm) dest_r j)
       ∧ (∀ j, view_byte env (memory sm') src_r j = view_byte env (memory sm) src_r j)).
Proof.
  intros Hn Hd Hs Hokd Hoks Hmem Hapart.
  destruct (Z_lt_le_dec (maxSize dest_r) n) as [Hbd|Hbd].
  { destruct (memcpy_refuses env sm dest src dest_r src_r n Hn Hd Hs
                (view_ok_valid _ _ Hokd) (view_ok_valid _ _ Hoks))
      as (sm' & Hrun & Hm & Hdir & Hdg); [left; exact Hbd|].
    exists sm'. split; [exact Hrun|]. split; [exact Hdir|].
    split; [intros _; split; assumption|intros H; lia]. }
  destruct (Z_lt_le_dec (maxSize src_r) n) as [Hbs|Hbs].
  { destruct (memcpy_refuses env sm dest src dest_r src_r n Hn Hd Hs
                (view_ok_valid _ _ Hokd) (view_ok_valid _ _ Hoks))
      as (sm' & Hrun & Hm & Hdir & Hdg); [right; exact Hbs|].
    exists sm'. split; [exact Hrun|]. split; [exact Hdir|].
    split; [intros _; split; assumption|intros _ H; lia]. }
  destruct (memcpy_copies env sm dest src dest_r src_r n) as (sm' & Hrun & Hdir & Hpost);
    try assumption; [lia|].
  exists sm'. split; [exact Hrun|]. split; [exact Hdir|].
  split; [intros [H|H]; lia|intros _ _; exact Hpost].
Qed.

Lemma memcpy_checks_both_bounds_witness :
  ∃ sm', memcpy (sample_env 8 (fun _ => None)) (make_reg 2 0) (make_reg 1 1) 2 sample_manager
         = Ok tt sm'
    ∧ same_directory sample_manager sm'
    ∧ (maxSize (cell_view 1 2 (make_reg 2 0)) < 2 ∨ maxSize (byte_view 0 4 (make_reg 1 1)) < 2 →
       memory sm' = memory sample_manager ∧ diagnosed sample_manager sm')
    ∧ (2 <= maxSize (cell_view 1 2 (make_reg 2 0)) → 2 <= maxSize (byte_view 0 4 (make_reg 1 1)) →
       same_shape (memory sample_manager) (memory sm')
       ∧ (∀ j, 0 <= j < 2 →
            view_byte (sample_env 8 (fun _ => None)) (memory sm') (cell_view 1 2 (make_reg 2 0)) j
            = view_byte (sample_env 8 (fun _ => None)) (memory sample_manager)
                (byte_view 0 4 (make_reg 1 1)) j)
       ∧ (∀ j, 2 <= j →
            view_byte (sample_env 8 (fun _ => None)) (memory sm') (cell_view 1 2 (make_reg 2 0)) j
            = view_byte (sample_env 8 (fun _ => None)) (memory sample_manager)
                (cell_view 1 2 (make_reg 2 0)) j)
       ∧ (∀ j, view_byte (sample_env 8 (fun _ => None)) (memory sm')
                 (byte_view 0 4 (make_reg 1 1)) j
               = view_byte (sample_env 8 (fun _ => None)) (memory sample_manager)
                   (byte_view 0 4 (make_reg 1 1)) j)).
Proof.
  apply (memcpy_checks_both_bounds (sample_env 8 (fun _ => None)) sample_manager
           (make_reg 2 0) (make_reg 1 1)
           (cell_view 1 2 (make_reg 2 0)) (byte_view 0 4 (make_reg 1 1)) 2).
  - lia.
  - reflexivity.
  - reflexivity.
  - reflexivity.
  - reflexivity.
  - reflexivity.
  - intros p p' Hp Hp'. vm_compute in Hp, Hp'. injection Hp as <-. injection Hp' as <-.
    simpl. lia.
Defined.

(** A source that does not resolve to a view: [memcpy] into a destination
    whose bound admits the length, and [memcpy] into a host buffer, return
    after a diagnostic and copy nothing. *)
Theorem memcpy_from_unresolved_source (env : Env) (sm : SegManager) (dest src : reg_t)
    (dest_r : SegmentRef) (n : Z) :
  dereference dest sm = Ok dest_r sm →
  isValid dest_r = true →
  to_int n <= maxSize dest_r →
  (∃ r sm0, dereference src sm = Ok r sm0 ∧ isValid r = false) →
  (∃ sm', memcpy env dest src n sm = Ok tt sm' ∧ untouched sm sm' ∧ diagnosed sm sm')
  ∧ (∀ buf : option addr,
       ∃ sm', memcpy_to_ptr env buf src n sm = Ok tt sm' ∧ untouched sm sm' ∧ diagnosed sm sm').
Proof.
  intros Hd Hvd Hn (r & sm0 & Hs & Hinv).
  pose proof (dereference_untouched _ _ _ _ Hs) as Hu0.
  destruct (untouched_warning sm0 "Attempt to memcpy from invalid pointer") as (sm' & Hw & Hu & Hdg).
  split.
  - unfold memcpy. unfold bind at 1. rewrite Hd. unfold bind at 1. rewrite Hs, Hvd, Hinv.
    replace (maxSize dest_r <? to_int n) with false by (symmetry; apply Z.ltb_ge; lia).
    cbn [negb]. cbv iota. exists sm'. split; [exact Hw|].
    split; [eapply untouched_trans; eassumption|eapply untouched_diagnosed; eassumption].
  - intros buf. unfold memcpy_to_ptr. unfold bind at 1. rewrite Hs, Hinv.
    cbn [negb]. cbv iota. exists sm'. split; [exact Hw|].
    split; [eapply untouched_trans; eassumption|eapply untouched_diagnosed; eassumption].
Qed.

Lemma memcpy_from_unresolved_source_witness :
  (∃ sm', memcpy (sample_env 8 (fun _ => None)) (make_reg 1 0) (make_reg 7 0) 2 sample_manager
          = Ok tt sm'
          ∧ untouched sample_manager sm' ∧ diagnosed sample_manager sm')
  ∧ (∀ buf : option addr,
       ∃ sm', memcpy_to_ptr (sample_env 8 (fun _ => None)) buf (make_reg 7 0) 2 sample_manager
              = Ok tt sm'
              ∧ untouched sample_manager sm' ∧ diagnosed sample_manager sm').
Proof.
  apply (memcpy_from_unresolved_source (sample_env 8 (fun _ => None)) sample_manager
           (make_reg 1 0) (make_reg 7 0) (byte_view 0 4 (make_reg 1 0)) 2).
  - reflexivity.
  - reflexivity.
  - vm_compute. discriminate.
  - eexists _, _. split; reflexivity.
Defined.

(** ** Reloading a script *)

(** [instantiateScript] of a script that is marked deleted resets the
    script in place and loads it again: the script keeps its segment, holds
    the image the loader has for it now, has the one locker of this call and
    is no longer marked; the owners of the classes stay as they are. *)
Theorem instantiate_reloads_deleted (env : Env) (sm : SegManager) (nr seg : Z)
    (image image' : list Z) (l : Z) :
  resident env sm nr seg image l true →
  scriptResource env nr = Some image' →
  pass_keeps env nr (initializeLocals env) →
  pass_keeps env nr (initializeClasses env) →
  pass_keeps env nr (initializeObjects env) →
  pass_keeps env nr (instantiateScriptHook env) →
  ∃ sm', instantiateScript env nr sm = Ok seg sm'
         ∧ resident env sm' nr seg image' 1 false
         ∧ map script (_classTable sm') = map script (_classTable sm).
Proof.
  intros Hres Himg Hp1 Hp2 Hp3 Hp4. unfold instantiateScript.
  destruct (resident_loaded _ _ _ _ _ _ _ Hres) as (Hseg & Hload & _ & Hdel & _).
  destruct Hres as (Hmap & Hpos & Hact & f & s & blk & Hslot & Hl & Hd & Hbuf & Hmem).
  pose proof (lookupZ_range _ _ _ Hslot) as Hr.
  unfold bind at 1. unfold get. rewrite Hseg, Hload.
  unfold bind at 1. rewrite Hdel. change (negb true) with false. cbv iota.
  (* freeScript(true) *)
  unfold bind at 1. unfold freeScript. unfold bind at 1. unfold script_at. unfold bind at 1.
  unfold heap_at at 1. rewrite Hslot. unfold ret at 1.
  unfold heap_put at 1. rewrite insertZ_Some by exact Hr. unfold set_heap at 1.
  (* the load *)
  unfold bind at 1. unfold Script_load. rewrite Himg.
  unfold bind at 1. unfold script_at. unfold bind at 1. unfold heap_at.
  cbn [_heap memory _scriptSegMap _classTable warnings].
  rewrite lookupZ_insert_eq by exact Hr. unfold ret at 1.
  unfold bind at 1. unfold get. unfold bind at 1. unfold set_memory at 1.
  unfold heap_put. cbn [_heap memory _scriptSegMap _classTable warnings].
  rewrite insertZ_Some by (rewrite length_insert; exact Hr). unfold set_heap.
  cbn [_heap memory _scriptSegMap _classTable warnings].
  match goal with
  | |- ∃ _, bind _ _ ?st = _ ∧ _ => set (sm3 := st)
  end.
  assert (Hres3 : resident env sm3 nr seg image' 1 false).
  { split; [exact Hmap|]. split; [exact Hpos|]. split; [exact Hact|].
    eexists _, _, (length (memory sm)).
    split; [apply lookupZ_insert_eq; rewrite length_insert; exact Hr|].
    simpl. repeat split. apply list_lookup_middle. reflexivity. }
  destruct (Hp1 sm3 seg image' 1 false Hres3) as (sm4 & Hr4 & Hres4 & Hs4).
  unfold bind at 1. rewrite Hr4.
  destruct (Hp2 sm4 seg image' 1 false Hres4) as (sm5 & Hr5 & Hres5 & Hs5).
  unfold bind at 1. rewrite Hr5.
  destruct (Hp3 sm5 seg image' 1 false Hres5) as (sm6 & Hr6 & Hres6 & Hs6).
  unfold bind at 1. rewrite Hr6.
  destruct (Hp4 sm6 seg image' 1 false Hres6) as (sm7 & Hr7 & Hres7 & Hs7).
  unfold bind at 1. rewrite Hr7.
  exists sm7. split; [reflexivity|]. split; [exact Hres7|].
  rewrite Hs7, Hs6, Hs5, Hs4. reflexivity.
Qed.

Lemma deleted_manager_resident :
  resident (sample_env 8 chain_images) deleted_manager 10 1 (class_image 0 255 255) 0 true.
Proof.
  split; [reflexivity|]. split; [lia|]. split; [reflexivity|].
  eexists _, _, _. vm_compute. repeat split.
Qed.

Lemma instantiate_reloads_deleted_witness :
  ∃ sm', instantiateScript (sample_env 8 chain_images) 10 deleted_manager = Ok 1 sm'
         ∧ resident (sample_env 8 chain_images) sm' 10 1 (class_image 0 255 255) 1 false
         ∧ map script (_classTable sm') = map script (_classTable deleted_manager).
Proof.
  apply (instantiate_reloads_deleted (sample_env 8 chain_images) deleted_manager 10 1
           (class_image 0 255 255) (class_image 0 255 255) 0).
  - apply deleted_manager_resident.
  - reflexivity.
  - apply no_pass_keeps.
  - apply no_pass_keeps.
  - apply no_pass_keeps.
  - apply no_pass_keeps.
Defined.

(** ** Class references of an unloaded script *)

Lemma lookupZ_map {A B} (g : A → B) (l : list A) (i : Z) :
  lookupZ (map g l) i = g <$> lookupZ l i.
Proof.
  unfold lookupZ. destruct (i <? 0); [reflexivity|]. apply list_lookup_fmap.
Qed.

(** When [uninstantiateScript] takes the last locker of a script, every
    entry of the class table whose address lies in the script's segment is
    reset to the null address, and the other entries and all owners stay as
    they are; the script is marked deleted, but its segment is not
    deallocated: the script map and [getScriptIfLoaded] still find it. *)
Theorem uninstantiate_clears_class_references (env : Env) (sm : SegManager) (nr seg : Z)
    (image : list Z) (l : Z) (fuel : nat) :
  resident env sm nr seg image l false → 0 <= l <= 1 →
  ((getSciVersion env <? SCI_VERSION_1_1 env) = true →
   superclass_owners env (map script (_classTable sm)) nr image fuel (sci0_start env) 0
   = Some []) →
  ∃ sm', uninstantiateScript env (S fuel) nr sm = Ok tt sm'
    ∧ (∀ i, lookupZ (_classTable sm') i
            = (fun c => if getSegment (class_reg c) =? seg
                        then mkClass (script c) NULL_REG else c) <$> lookupZ (_classTable sm) i)
    ∧ (∀ i c, lookupZ (_classTable sm') i = Some c → getSegment (class_reg c) ≠ seg)
    ∧ getScriptSegment sm' nr = seg
    ∧ getScriptIfLoaded env sm' seg = Some seg
    ∧ resident env sm' nr seg image 0 true.
Proof.
  intros Hres Hl Hlocal.
  destruct (uninstantiate_local env sm nr seg image l fuel Hres Hl Hlocal) as [Hrun Hres'].
  eexists. split; [exact Hrun|].
  assert (Htable : ∀ i, lookupZ (_classTable
            (with_script (without_class_refs (with_script sm seg unlock) seg) seg mark)) i
          = (fun c => if getSegment (class_reg c) =? seg
                      then mkClass (script c) NULL_REG else c) <$> lookupZ (_classTable sm) i).
  { intros i. rewrite with_script_classTable. unfold without_class_refs. cbn [_classTable].
    rewrite with_script_classTable. apply lookupZ_map. }
  assert (Hpos : 1 <= seg) by apply Hres.
  split; [exact Htable|]. split; [|split; [|split]].
  - intros i c. rewrite Htable. destruct (lookupZ (_classTable sm) i) as [c0|]; [|discriminate].
    simpl. intros H. injection H as <-.
    destruct (getSegment (class_reg c0) =? seg) eqn:E; prop_of_bool; [simpl; lia|exact E].
  - apply (resident_loaded _ _ _ _ _ _ _ Hres').
  - apply (resident_loaded _ _ _ _ _ _ _ Hres').
  - exact Hres'.
Qed.

Lemma resolved_manager_resident :
  resident (sample_env 8 chain_images) resolved_manager 10 1 (class_image 0 255 255) 1 false.
Proof.
  split; [reflexivity|]. split; [lia|]. split; [reflexivity|].
  eexists _, _, _. vm_compute. repeat split.
Qed.

Lemma uninstantiate_clears_class_references_witness :
  ∃ sm', uninstantiateScript (sample_env 8 chain_images) 1 10 resolved_manager = Ok tt sm'
    ∧ (∀ i, lookupZ (_classTable sm') i
            = (fun c => if getSegment (class_reg c) =? 1
                        then mkClass (script c) NULL_REG else c)
              <$> lookupZ (_classTable resolved_manager) i)
    ∧ (∀ i c, lookupZ (_classTable sm') i = Some c → getSegment (class_reg c) ≠ 1)
    ∧ getScriptSegment sm' 10 = 1
    ∧ getScriptIfLoaded (sample_env 8 chain_images) sm' 1 = Some 1
    ∧ resident (sample_env 8 chain_images) sm' 10 1 (class_image 0 255 255) 0 true.
Proof.
  apply (uninstantiate_clears_class_references (sample_env 8 chain_images) resolved_manager
           10 1 (class_image 0 255 255) 1 0).
  - apply resolved_manager_resident.
  - lia.
  - intros H. vm_compute in H. discriminate.
Defined.

(** ** Script segments on request *)

Lemma incrementLockers_resident (env : Env) (sm : SegManager) (nr seg : Z) (image : list Z)
    (l : Z) (d : bool) :
  resident env sm nr seg image l d →
  incrementLockers seg sm = Ok tt (with_script sm seg lock).
Proof.
  intros (_ & _ & _ & f & s & blk & Hslot & _). unfold incrementLockers.
  apply (script_update_with sm seg lock f s Hslot).
Qed.

(** [getScriptSegment] with a load type, for a script that is loaded:
    the segment of the script is returned, and the script gains one locker
    when the load type has the bits of [SCRIPT_GET_LOAD] and one more when
    it has the bits of [SCRIPT_GET_LOCK].  For a script that is not in the
    script map and a load type without the bits of [SCRIPT_GET_LOAD], the
    answer is 0 and nothing changes. *)
Theorem getScriptSegment_load_counts_lockers (env : Env) (lt : ScriptLoadType)
    (sm : SegManager) (nr seg : Z) (image : list Z) (l : Z) (load : Z) :
  resident env sm nr seg image l false →
  (∃ sm', getScriptSegment_load env lt nr load sm = Ok seg sm'
          ∧ resident env sm' nr seg image
              (l + (if Z.land load (SCRIPT_GET_LOAD lt) =? SCRIPT_GET_LOAD lt then 1 else 0)
                 + (if Z.land load (SCRIPT_GET_LOCK lt) =? SCRIPT_GET_LOCK lt then 1 else 0))
              false)
  ∧ ∀ sm0 nr0, _scriptSegMap sm0 !! nr0 = None →
               Z.land load (SCRIPT_GET_LOAD lt) ≠ SCRIPT_GET_LOAD lt →
               getScriptSegment_load env lt nr0 load sm0 = Ok 0 sm0.
Proof.
  intros Hres. split.
  - unfold getScriptSegment_load.
    assert (Hfirst : ∃ sm1,
      (if Z.land load (SCRIPT_GET_LOAD lt) =? SCRIPT_GET_LOAD lt
       then instantiateScript env nr;; ret tt else ret tt) sm = Ok tt sm1
      ∧ resident env sm1 nr seg image
          (l + (if Z.land load (SCRIPT_GET_LOAD lt) =? SCRIPT_GET_LOAD lt then 1 else 0)) false).
    { destruct (Z.land load (SCRIPT_GET_LOAD lt) =? SCRIPT_GET_LOAD lt).
      - exists (with_script sm seg lock). unfold bind.
        rewrite (instantiate_again env sm nr seg image l Hres).
        split; [reflexivity|]. apply lock_resident. exact Hres.
      - exists sm. split; [reflexivity|]. rewrite Z.add_0_r. exact Hres. }
    destruct Hfirst as (sm1 & Hrun1 & Hres1).
    unfold bind at 1. rewrite Hrun1. unfold bind at 1. unfold get.
    destruct (resident_loaded _ _ _ _ _ _ _ Hres1) as (Hseg & _ & Hgs & _).
    rewrite Hseg.
    replace (0 <? seg) with true
      by (symmetry; apply Z.ltb_lt; destruct Hres1 as (_ & ? & _); lia).
    destruct (Z.land load (SCRIPT_GET_LOCK lt) =? SCRIPT_GET_LOCK lt).
    + exists (with_script sm1 seg lock). unfold bind. rewrite Hgs.
      rewrite (incrementLockers_resident _ _ _ _ _ _ _ Hres1).
      split; [reflexivity|]. apply lock_resident. exact Hres1.
    + exists sm1. split; [reflexivity|]. rewrite Z.add_0_r. exact Hres1.
  - intros sm0 nr0 Hnone Hbits. unfold getScriptSegment_load.
    replace (Z.land load (SCRIPT_GET_LOAD lt) =? SCRIPT_GET_LOAD lt) with false
      by (symmetry; apply Z.eqb_neq; exact Hbits).
    unfold bind, ret, get. unfold getScriptSegment. rewrite Hnone. reflexivity.
Qed.

Lemma getScriptSegment_load_counts_lockers_witness :
  (∃ sm', getScriptSegment_load (sample_env 8 chain_images) sample_load_types 10 3
            resolved_manager = Ok 1 sm'
          ∧ resident (sample_env 8 chain_images) sm' 10 1 (class_image 0 255 255)
              (1 + (if Z.land 3 (SCRIPT_GET_LOAD sample_load_types)
                       =? SCRIPT_GET_LOAD sample_load_types then 1 else 0)
                 + (if Z.land 3 (SCRIPT_GET_LOCK sample_load_types)
                       =? SCRIPT_GET_LOCK sample_load_types then 1 else 0))
              false)
  ∧ ∀ sm0 nr0, _scriptSegMap sm0 !! nr0 = None →
               Z.land 3 (SCRIPT_GET_LOAD sample_load_types) ≠ SCRIPT_GET_LOAD sample_load_types →
               getScriptSegment_load (sample_env 8 chain_images) sample_load_types nr0 3 sm0
               = Ok 0 sm0.
Proof.
  apply (getScriptSegment_load_counts_lockers (sample_env 8 chain_images) sample_load_types
           resolved_manager 10 1 (class_image 0 255 255) 1 3).
  apply resolved_manager_resident.
Defined.

(** ** Class addresses *)

Lemma getClass_at (sm : SegManager) (classnr : Z) (c : Class) :
  lookupZ (_classTable sm) classnr = Some c → getClass classnr sm = Ok c sm.
Proof. intros H. unfold getClass. rewrite H. reflexivity. Qed.

Lemma class_in_range (sm : SegManager) (classnr : Z) (c : Class) :
  lookupZ (_classTable sm) classnr = Some c → classTableSize sm < 2147483648 →
  (classnr <? 0) || (to_int (classTableSize sm) <=? classnr) = false.
Proof.
  intros H Hsize. pose proof (lookupZ_range _ _ _ H) as Hr. unfold classTableSize in *.
  rewrite to_int_small by lia.
  apply orb_false_intro; [apply Z.ltb_ge|apply Z.leb_gt]; lia.
Qed.

Lemma incrementLockers_slot (sm : SegManager) (seg : Z) (f : reg_t → SegmentRef) (s : Script) :
  lookupZ (_heap sm) seg = Some (Some (ScriptObj f s)) →
  incrementLockers seg sm = Ok tt (with_script sm seg lock).
Proof. intros Hslot. unfold incrementLockers. apply (script_update_with sm seg lock f s Hslot). Qed.

(** [getClassAddress] of a class whose address is resolved returns the
    address.  A caller in the segment of the class leaves the manager as it
    is; a caller in another segment gives the script that holds the class
    one more locker, and changes nothing else. *)
Theorem getClassAddress_resolved (env : Env) (lt : ScriptLoadType) (sm : SegManager)
    (classnr lockType callerSegment : Z) (c : Class) (f : reg_t → SegmentRef) (s : Script) :
  classnr ≠ 65535 →
  classTableSize sm < 2147483648 →
  lookupZ (_classTable sm) classnr = Some c →
  0 <= script c →
  getSegment (class_reg c) ≠ 0 →
  lookupZ (_heap sm) (getActualSegment env (getSegment (class_reg c)))
  = Some (Some (ScriptObj f s)) →
  1 <= getActualSegment env (getSegment (class_reg c)) →
  getClassAddress env lt classnr lockType callerSegment sm
  = Ok (class_reg c)
       (if callerSegment =? getSegment (class_reg c) then sm
        else with_script sm (getActualSegment env (getSegment (class_reg c))) lock).
Proof.
  intros Hnr Hsize Hc Hscript Hres Hslot Hpos. unfold getClassAddress.
  replace (classnr =? 65535) with false by (symmetry; apply Z.eqb_neq; exact Hnr).
  unfold bind at 1. unfold get. rewrite (class_in_range sm classnr c Hc Hsize).
  unfold bind at 1. rewrite (getClass_at sm classnr c Hc).
  replace (script c <? 0) with false by (symmetry; apply Z.ltb_ge; exact Hscript).
  replace (getSegment (class_reg c) =? 0) with false by (symmetry; apply Z.eqb_neq; exact Hres).
  set (a := getActualSegment env (getSegment (class_reg c))) in *.
  pose proof (lookupZ_range _ _ _ Hslot) as Hr.
  destruct (callerSegment =? getSegment (class_reg c)); cbn [negb]; cbv iota.
  - unfold bind, ret. rewrite (getClass_at sm classnr c Hc). reflexivity.
  - unfold bind at 1. unfold bind at 1.
    assert (Hgs : getScript env (getSegment (class_reg c)) sm = Ok a sm).
    { unfold getScript. fold a. unfold_sm.
      rewrite in_range_false by (unfold heap_size; lia). rewrite Hslot. reflexivity. }
    rewrite Hgs. rewrite (incrementLockers_slot sm a f s Hslot).
    unfold bind, ret. rewrite getClass_at with (c := c); [reflexivity|].
    rewrite with_script_classTable. exact Hc.
Qed.

Lemma getClassAddress_resolved_witness :
  getClassAddress (sample_env 8 chain_images) sample_load_types 0 3 5 resolved_manager
  = Ok (class_reg (mkClass 10 (make_reg 1 12)))
       (if 5 =? getSegment (class_reg (mkClass 10 (make_reg 1 12))) then resolved_manager
        else with_script resolved_manager
               (getActualSegment (sample_env 8 chain_images)
                  (getSegment (class_reg (mkClass 10 (make_reg 1 12))))) lock).
Proof.
  eapply (getClassAddress_resolved (sample_env 8 chain_images) sample_load_types resolved_manager
           0 3 5 (mkClass 10 (make_reg 1 12))).
  - lia.
  - vm_compute. reflexivity.
  - reflexivity.
  - simpl. lia.
  - simpl. lia.
  - vm_compute. reflexivity.
  - vm_compute. discriminate.
Defined.

(** [getClassAddress] answers the null address for the class number
    [0xFFFF] without looking at the class table; for any other class number
    that is negative, or not less than the size of the class table, or
    whose entry names no script, it is a fatal error. *)
Theorem getClassAddress_rejects (env : Env) (lt : ScriptLoadType) (sm : SegManager)
    (classnr lockType callerSegment : Z) :
  classTableSize sm < 2147483648 →
  (classnr = 65535
   ∨ classnr < 0 ∨ classTableSize sm <= classnr
   ∨ ∃ c, lookupZ (_classTable sm) classnr = Some c ∧ script c < 0) →
  getClassAddress env lt classnr lockType callerSegment sm
  = if classnr =? 65535 then Ok NULL_REG sm
    else Err (Fatal "[VM] Attempt to dereference class, which doesn't exist").
Proof.
  intros Hsize H. unfold getClassAddress.
  destruct (classnr =? 65535) eqn:E; [reflexivity|]. prop_of_bool.
  unfold bind at 1. unfold get. unfold classTableSize in *.
  rewrite to_int_small by lia.
  destruct ((classnr <? 0) || (Z.of_nat (length (_classTable sm)) <=? classnr)) eqn:Er;
    [reflexivity|].
  destruct H as [H|[H|[H|(c & Hc & Hneg)]]]; [contradiction|blia|blia|].
  unfold bind at 1. rewrite (getClass_at sm classnr c Hc).
  replace (script c <? 0) with true by (symmetry; apply Z.ltb_lt; exact Hneg).
  reflexivity.
Qed.

Lemma getClassAddress_rejects_witness :
  getClassAddress (sample_env 8 chain_images) sample_load_types 2 3 5 resolved_manager
  = if 2 =? 65535 then Ok NULL_REG resolved_manager
    else Err (Fatal "[VM] Attempt to dereference class, which doesn't exist").
Proof.
  apply (getClassAddress_rejects (sample_env 8 chain_images) sample_load_types resolved_manager
           2 3 5).
  - vm_compute. reflexivity.
  - right. right. left. vm_compute. discriminate.
Defined.

(** [getClassAddress] of a class whose address is not resolved, asked with
    the load type [SCRIPT_GET_DONT_LOAD] (a load type without the bits of
    [SCRIPT_GET_LOAD] and of [SCRIPT_GET_LOCK]): no script is loaded or
    locked, the answer is the null address and the manager stays as it
    is. *)
Theorem getClassAddress_dont_load (env : Env) (lt : ScriptLoadType) (sm : SegManager)
    (classnr callerSegment : Z) (c : Class) :
  classnr ≠ 65535 →
  classTableSize sm < 2147483648 →
  lookupZ (_classTable sm) classnr = Some c →
  0 <= script c →
  getSegment (class_reg c) = 0 →
  Z.land (SCRIPT_GET_DONT_LOAD lt) (SCRIPT_GET_LOAD lt) ≠ SCRIPT_GET_LOAD lt →
  Z.land (SCRIPT_GET_DONT_LOAD lt) (SCRIPT_GET_LOCK lt) ≠ SCRIPT_GET_LOCK lt →
  getClassAddress env lt classnr (SCRIPT_GET_DONT_LOAD lt) callerSegment sm = Ok NULL_REG sm.
Proof.
  intros Hnr Hsize Hc Hscript Hres Hload Hlock. unfold getClassAddress.
  replace (classnr =? 65535) with false by (symmetry; apply Z.eqb_neq; exact Hnr).
  unfold bind at 1. unfold get. rewrite (class_in_range sm classnr c Hc Hsize).
  unfold bind at 1. rewrite (getClass_at sm classnr c Hc).
  replace (script c <? 0) with false by (symmetry; apply Z.ltb_ge; exact Hscript).
  rewrite Hres. change (0 =? 0) with true. cbv iota.
  assert (Hseg : ∃ seg, getScriptSegment_load env lt (script c) (SCRIPT_GET_DONT_LOAD lt) sm
                        = Ok seg sm).
  { unfold getScriptSegment_load.
    replace (Z.land (SCRIPT_GET_DONT_LOAD lt) (SCRIPT_GET_LOAD lt) =? SCRIPT_GET_LOAD lt)
      with false by (symmetry; apply Z.eqb_neq; exact Hload).
    replace (Z.land (SCRIPT_GET_DONT_LOAD lt) (SCRIPT_GET_LOCK lt) =? SCRIPT_GET_LOCK lt)
      with false by (symmetry; apply Z.eqb_neq; exact Hlock).
    unfold bind, ret, get. destruct (0 <? getScriptSegment sm (script c)); eauto. }
  destruct Hseg as [seg Hseg]. unfold bind at 1. rewrite Hseg.
  unfold bind at 1. rewrite (getClass_at sm classnr c Hc). rewrite Hres.
  change (0 =? 0) with true. cbv iota. rewrite Z.eqb_refl. reflexivity.
Qed.

Lemma getClassAddress_dont_load_witness :
  getClassAddress (sample_env 8 chain_images) sample_load_types 1
    (SCRIPT_GET_DONT_LOAD sample_load_types) 5 resolved_manager
  = Ok NULL_REG resolved_manager.
Proof.
  apply (getClassAddress_dont_load (sample_env 8 chain_images) sample_load_types resolved_manager
           1 5 (mkClass 20 NULL_REG)).
  - lia.
  - vm_compute. reflexivity.
  - reflexivity.
  - simpl. lia.
  - reflexivity.
  - vm_compute. discriminate.
  - vm_compute. discriminate.
Defined.

(** ** The class table *)

Lemma same_but_classes_refl (sm : SegManager) : same_but_classes sm sm.
Proof. repeat split. Qed.

Lemma same_but_classes_trans (sm1 sm2 sm3 : SegManager) :
  same_but_classes sm1 sm2 → same_but_classes sm2 sm3 → same_but_classes sm1 sm3.
Proof.
  intros (A1 & B1 & C1 & D1) (A2 & B2 & C2 & D2). repeat split; congruence.
Qed.

Lemma createClassTable_loop_runs (getUint16SEAt : list Z → Z → option Z) (data : list Z)
    (totalClasses : Z) (k : nat) :
  totalClasses <= 65535 →
  (∀ i, 0 <= i < totalClasses → ∃ v, getUint16SEAt data (i * 4 + 2) = Some v) →
  ∀ (fuel : nat) (classNr : Z) (sm : SegManager),
    (k < fuel)%nat → 0 <= classNr → classNr + Z.of_nat k = totalClasses →
    Z.of_nat (length (_classTable sm)) = totalClasses →
    ∃ sm', createClassTable_loop getUint16SEAt fuel data totalClasses classNr sm = Ok tt sm'
           ∧ same_but_classes sm sm'
           ∧ length (_classTable sm') = length (_classTable sm)
           ∧ (∀ i, classNr <= i < totalClasses →
                ∃ v, getUint16SEAt data (i * 4 + 2) = Some v
                     ∧ lookupZ (_classTable sm') i = Some (mkClass v NULL_REG))
           ∧ (∀ i, i < classNr → lookupZ (_classTable sm') i = lookupZ (_classTable sm) i).
Proof.
  intros Htotal Hread. induction k as [|k IH]; intros fuel classNr sm Hfuel Hnr Hk Hlen.
  - destruct fuel as [|fuel]; [lia|]. cbn [createClassTable_loop].
    replace (classNr <? totalClasses) with false by (symmetry; apply Z.ltb_ge; lia).
    exists sm. split; [reflexivity|]. split; [apply same_but_classes_refl|].
    split; [reflexivity|]. split; [intros i Hi; lia|reflexivity].
  - destruct fuel as [|fuel]; [lia|]. cbn [createClassTable_loop].
    replace (classNr <? totalClasses) with true by (symmetry; apply Z.ltb_lt; lia).
    destruct (Hread classNr) as [v Hv]; [lia|]. rewrite Hv.
    destruct (lookupZ_Some (_classTable sm) classNr) as [c Hc]; [lia|].
    unfold bind at 1. unfold setClassOffset. rewrite Hc. unfold set_classTable at 1.
    unfold bind at 1. unfold setClassScript. cbn [_classTable].
    rewrite lookupZ_insert_eq by lia. unfold set_classTable at 1.
    cbn [_heap _scriptSegMap _classTable memory warnings class_reg].
    rewrite list_insert_insert_eq.
    replace (uint16 (classNr + 1)) with (classNr + 1)
      by (unfold uint16; symmetry; apply Z.mod_small; lia).
    match goal with
    | |- ∃ _, createClassTable_loop _ _ _ _ _ ?st = _ ∧ _ => set (sm1 := st)
    end.
    destruct (IH fuel (classNr + 1) sm1) as (sm' & Hrun & Hsame & Hlen' & Hnew & Hold);
      [lia|lia|lia|unfold sm1; cbn [_classTable]; rewrite length_insert; exact Hlen|].
    exists sm'. split; [exact Hrun|].
    split; [apply (same_but_classes_trans sm sm1 sm'); [repeat split|exact Hsame]|].
    split; [rewrite Hlen'; unfold sm1; cbn [_classTable]; apply length_insert|]. split.
    + intros i Hi. destruct (decide (i = classNr)) as [->|Hne].
      * exists v. split; [exact Hv|]. rewrite Hold by lia. unfold sm1. cbn [_classTable].
        apply lookupZ_insert_eq. lia.
      * apply Hnew. lia.
    + intros i Hi. rewrite Hold by lia. unfold sm1. cbn [_classTable].
      apply lookupZ_insert_ne; lia.
Qed.

Lemma Array_resize_length {A} (l : list A) (newSize : Z) (x : A) :
  0 <= newSize → Z.of_nat (length (Array_resize l newSize x)) = newSize.
Proof.
  intros H. unfold Array_resize. rewrite length_app, length_take, length_replicate. lia.
Qed.

Lemma createClassTable_runs (vocab996 : option (list Z))
    (getUint16SEAt : list Z → Z → option Z) (Class_new : Class)
    (sm : SegManager) (data : list Z) (fuel : nat) :
  vocab996 = Some data →
  Z.of_nat (length data) < 262144 →
  (Z.to_nat (Z.of_nat (length data) / 4) < fuel)%nat →
  (∀ i, 0 <= i < Z.of_nat (length data) / 4 → ∃ v, getUint16SEAt data (i * 4 + 2) = Some v) →
  ∃ sm', createClassTable vocab996 getUint16SEAt Class_new fuel sm = Ok tt sm'
         ∧ same_but_classes sm sm'
         ∧ classTableSize sm' = Z.of_nat (length data) / 4
         ∧ ∀ i, 0 <= i < Z.of_nat (length data) / 4 →
             ∃ v, getUint16SEAt data (i * 4 + 2) = Some v
                  ∧ lookupZ (_classTable sm') i = Some (mkClass v NULL_REG).
Proof.
  intros Hvocab Hsize Hfuel Hread. unfold createClassTable. rewrite Hvocab.
  rewrite Z.shiftr_div_pow2 by lia. change (2 ^ 2) with 4.
  set (total := Z.of_nat (length data) / 4) in *.
  assert (Ht : 0 <= total <= 65535).
  { unfold total. split; [apply Z.div_pos; lia|]. apply Z.lt_succ_r.
    apply Z.div_lt_upper_bound; lia. }
  rewrite to_int_small by lia.
  unfold bind at 1. unfold get. unfold bind at 1. unfold set_classTable at 1.
  match goal with
  | |- ∃ _, createClassTable_loop _ _ _ _ _ ?st = _ ∧ _ => set (sm1 := st)
  end.
  destruct (createClassTable_loop_runs getUint16SEAt data total (Z.to_nat total)
              (proj2 Ht) Hread fuel 0 sm1)
    as (sm' & Hrun & Hsame & Hlen & Hnew & _);
    [exact Hfuel|lia|lia|unfold sm1; cbn [_classTable]; apply Array_resize_length; lia|].
  exists sm'. split; [exact Hrun|].
  split; [apply (same_but_classes_trans sm sm1 sm'); [repeat split|exact Hsame]|].
  split.
  - unfold classTableSize. rewrite Hlen. unfold sm1. cbn [_classTable].
    apply Array_resize_length. lia.
  - intros i Hi. apply Hnew. lia.
Qed.

(** [createClassTable] builds one entry for every four bytes of the
    resource vocab 996 (bytes left over are ignored): entry [i] has the null
    address and, as its script, the 16-bit value read at byte [4 i + 2].
    Nothing else of the manager changes.  Without the resource it is a
    fatal error. *)
Theorem createClassTable_builds_the_table (vocab996 : option (list Z))
    (getUint16SEAt : list Z → Z → option Z) (Class_new : Class)
    (sm : SegManager) (fuel : nat) :
  (∀ data, vocab996 = Some data →
     Z.of_nat (length data) < 262144 →
     (Z.to_nat (Z.of_nat (length data) / 4) < fuel)%nat →
     (∀ i, 0 <= i < Z.of_nat (length data) / 4 →
           ∃ v, getUint16SEAt data (i * 4 + 2) = Some v) →
     ∃ sm', createClassTable vocab996 getUint16SEAt Class_new fuel sm = Ok tt sm'
            ∧ same_but_classes sm sm'
            ∧ classTableSize sm' = Z.of_nat (length data) / 4
            ∧ ∀ i, 0 <= i < Z.of_nat (length data) / 4 →
                ∃ v, getUint16SEAt data (i * 4 + 2) = Some v
                     ∧ lookupZ (_classTable sm') i = Some (mkClass v NULL_REG))
  ∧ (vocab996 = None →
     createClassTable vocab996 getUint16SEAt Class_new fuel sm
     = Err (Fatal "SegManager: failed to open vocab 996")).
Proof.
  split.
  - intros data. apply createClassTable_runs.
  - intros ->. reflexivity.
Qed.

Lemma createClassTable_builds_the_table_witness :
  (∃ sm', createClassTable (Some sample_vocab996) read_le16_at (mkClass (-1) NULL_REG) 3
            fresh_manager = Ok tt sm'
          ∧ same_but_classes fresh_manager sm'
          ∧ classTableSize sm' = Z.of_nat (length sample_vocab996) / 4
          ∧ ∀ i, 0 <= i < Z.of_nat (length sample_vocab996) / 4 →
              ∃ v, read_le16_at sample_vocab996 (i * 4 + 2) = Some v
                   ∧ lookupZ (_classTable sm') i = Some (mkClass v NULL_REG))
  ∧ createClassTable None read_le16_at (mkClass (-1) NULL_REG) 3 fresh_manager
    = Err (Fatal "SegManager: failed to open vocab 996").
Proof.
  split.
  - apply (proj1 (createClassTable_builds_the_table (Some sample_vocab996) read_le16_at
                    (mkClass (-1) NULL_REG) fresh_manager 3) sample_vocab996).
    + reflexivity.
    + simpl. lia.
    + vm_compute. lia.
    + intros i Hi. change (Z.of_nat (length sample_vocab996) / 4) with 2 in Hi.
      assert (i = 0 ∨ i = 1) as [->| ->] by lia; eexists; reflexivity.
  - apply (proj2 (createClassTable_builds_the_table None read_le16_at
                    (mkClass (-1) NULL_REG) fresh_manager 3)).
    reflexivity.
Defined.

(** ** Reset *)

Lemma emptied_refl (sm : SegManager) : emptied sm sm.
Proof. split; [reflexivity|]. split; [left; reflexivity|]. split; [auto|reflexivity]. Qed.

Lemma emptied_trans (sm1 sm2 sm3 : SegManager) :
  emptied sm1 sm2 → emptied sm2 sm3 → emptied sm1 sm3.
Proof.
  intros (S1 & H1 & M1 & C1) (S2 & H2 & M2 & C2).
  split; [congruence|]. split; [|split; [auto|congruence]].
  intros j. destruct (H2 j) as [E|E]; [|right; exact E].
  rewrite E. apply H1.
Qed.

Lemma tidy_emptied (env : Env) (sm sm' : SegManager) :
  tidy env sm → emptied sm sm' → tidy env sm'.
Proof.
  intros (Hsize & H0 & Hact & Hscr) (S1 & H1 & _ & _).
  split; [lia|]. split; [|split].
  - destruct (H1 0) as [E|E]; congruence.
  - intros i Hi. apply Hact. lia.
  - intros seg f s Hslot.
    assert (Hold : lookupZ (_heap sm) seg = Some (Some (ScriptObj f s))).
    { destruct (H1 seg) as [E|E]; congruence. }
    destruct (Hscr seg f s Hold) as [HL|[HL|(ty & d & HL & Hpos)]].
    + left. exact HL.
    + right. left. destruct (H1 (_localsSegment s)) as [E|E]; congruence.
    + destruct (H1 (_localsSegment s)) as [E|E].
      * right. right. exists ty, d. split; [congruence|exact Hpos].
      * right. left. exact E.
Qed.

(** One round of the loop of [resetSegMan]. *)
Lemma free_segments_step (env : Env) (sm : SegManager) (i : Z) (fuel : nat) :
  tidy env sm → 0 <= i < heap_size sm →
  ∃ o sm1, heap_at i sm = Ok o sm
         ∧ match o with
           | Some _ => deallocate env (S (S fuel)) (uint16 i)
           | None => ret tt
           end sm = Ok tt sm1
         ∧ emptied sm sm1
         ∧ lookupZ (_heap sm1) i = Some None
         ∧ (∀ f s, lookupZ (_heap sm) i = Some (Some (ScriptObj f s)) →
                   _scriptSegMap sm1 !! _nr s = None)
         ∧ (∀ j f s, j ≠ i → lookupZ (_heap sm) j = Some (Some (ScriptObj f s)) →
                     lookupZ (_heap sm1) j = Some (Some (ScriptObj f s))).
Proof.
  intros (Hsize & H0 & Hact & Hscr) Hi.
  assert (Hu : uint16 i = i) by (unfold uint16; apply Z.mod_small; lia).
  assert (Ha : getActualSegment env i = i) by (apply Hact; exact Hi).
  destruct (lookupZ_Some (_heap sm) i) as [o Ho]; [unfold heap_size in Hi; lia|].
  exists o. unfold heap_at. rewrite Ho. rewrite Hu.
  destruct o as [[f s|ty d]|].
  - (* a script *)
    assert (Hpos : 1 <= i).
    { destruct (decide (i = 0)) as [->|]; [congruence|lia]. }
    assert (Hlocals : _localsSegment s = 0
       ∨ lookupZ (_heap sm) (_localsSegment s) = Some None
       ∨ ∃ ty d, lookupZ (_heap sm) (_localsSegment s) = Some (Some (DataObj ty d))
                 ∧ 1 <= _localsSegment s
                 ∧ getActualSegment env (_localsSegment s) = _localsSegment s).
    { destruct (Hscr i f s Ho) as [HL|[HL|(ty & d & HL & HLpos)]]; [auto|auto|].
      right. right. exists ty, d. split; [exact HL|]. split; [exact HLpos|].
      apply Hact. pose proof (lookupZ_range _ _ _ HL). unfold heap_size. lia. }
    destruct (deallocate_script_runs env sm i fuel f s)
      as (sm1 & Hrun & Hm & Hl & HL & Hother & Hsz & Hc);
      [rewrite Ha; exact Ho|lia|exact Hlocals|].
    rewrite Ha in Hl, Hother.
    exists sm1. split; [reflexivity|]. split; [exact Hrun|]. split; [|split; [exact Hl|split]].
    + split; [exact Hsz|]. split; [|split; [|exact Hc]].
      * intros j. destruct (decide (j = i)) as [->|Hne]; [right; exact Hl|].
        destruct (decide (_localsSegment s = 0)) as [HL0|HL0].
        -- left. apply Hother; [exact Hne|right; exact HL0].
        -- destruct (decide (j = _localsSegment s)) as [->|HneL]; [right; apply HL; exact HL0|].
           left. apply Hother; [exact Hne|left; exact HneL].
      * intros nr Hnone. rewrite Hm. apply lookup_delete_None. right. exact Hnone.
    + intros f0 s0 Heq. injection Heq as <- <-. rewrite Hm. apply lookup_delete_eq.
    + intros j f0 s0 Hne Hj. rewrite Hother; [exact Hj|exact Hne|].
      destruct (decide (_localsSegment s = 0)) as [HL0|HL0]; [right; exact HL0|left].
      intros ->. destruct Hlocals as [HL1|[HL1|(ty & d & HL1 & _)]]; congruence.
  - (* another segment *)
    assert (Hpos : 1 <= i).
    { destruct (decide (i = 0)) as [->|]; [congruence|lia]. }
    pose proof (deallocate_data env sm i (S fuel) ty d) as Hd. rewrite Ha in Hd.
    rewrite (Hd Ho Hpos).
    destruct (without_segment_lookup sm i) as [Hl Hother]; [lia|].
    exists (without_segment sm i). split; [reflexivity|]. split; [reflexivity|].
    split; [|split; [exact Hl|split]].
    + split; [apply without_fields; exact 0|]. split; [|split; [auto|reflexivity]].
      intros j. destruct (decide (j = i)) as [->|Hne]; [right; exact Hl|left; apply Hother; exact Hne].
    + intros f0 s0 Heq. discriminate.
    + intros j f0 s0 Hne Hj. rewrite Hother by exact Hne. exact Hj.
  - (* an empty slot *)
    exists sm. split; [reflexivity|]. split; [reflexivity|].
    split; [apply emptied_refl|]. split; [exact Ho|].
    split; [intros f0 s0 Heq; discriminate|intros j f0 s0 _ Hj; exact Hj].
Qed.

Lemma free_segments_runs (env : Env) (k : nat) :
  ∀ (fuel : nat) (i : Z) (sm : SegManager),
    tidy env sm → 0 <= i → i + Z.of_nat k = heap_size sm → (k + 3 <= fuel)%nat →
    ∃ sm', free_segments env fuel i sm = Ok tt sm'
           ∧ emptied sm sm'
           ∧ (∀ j, i <= j < heap_size sm → lookupZ (_heap sm') j = Some None)
           ∧ (∀ j f s, i <= j → lookupZ (_heap sm) j = Some (Some (ScriptObj f s)) →
                       _scriptSegMap sm' !! _nr s = None).
Proof.
  induction k as [|k IH]; intros fuel i sm Htidy Hi Hk Hfuel.
  - destruct fuel as [|fuel]; [lia|]. cbn [free_segments]. unfold bind, get.
    replace (i <? heap_size sm) with false by (symmetry; apply Z.ltb_ge; lia).
    exists sm. split; [reflexivity|]. split; [apply emptied_refl|].
    split; [intros j Hj; lia|].
    intros j f s Hj Hl. pose proof (lookupZ_range _ _ _ Hl). unfold heap_size in *. lia.
  - destruct fuel as [|[|[|fuel]]]; try lia. cbn [free_segments].
    unfold bind at 1. unfold get.
    replace (i <? heap_size sm) with true by (symmetry; apply Z.ltb_lt; lia).
    destruct (free_segments_step env sm i fuel Htidy)
      as (o & sm1 & Hat & Hstep & Hem & Hnone & Hmap & Hkeep); [lia|].
    unfold bind at 1. rewrite Hat. unfold bind at 1. rewrite Hstep.
    assert (Hsize : heap_size sm <= 65536) by apply Htidy.
    replace (uint32 (i + 1)) with (i + 1) by (symmetry; apply uint32_small; lia).
    pose proof (tidy_emptied env sm sm1 Htidy Hem) as Htidy1.
    destruct Hem as (Hsz & Hslots & Hmaps & Hct).
    destruct (IH (S (S fuel)) (i + 1) sm1 Htidy1) as (sm' & Hrun & Hem' & Hnone' & Hmap');
      [lia|lia|lia|].
    exists sm'. split; [exact Hrun|].
    split; [apply (emptied_trans sm sm1 sm'); [repeat split; assumption|exact Hem']|].
    destruct Hem' as (Hsz' & Hslots' & Hmaps' & Hct'). split.
    + intros j Hj. destruct (decide (j = i)) as [->|Hne].
      * destruct (Hslots' i) as [E|E]; congruence.
      * apply Hnone'. lia.
    + intros j f s Hj Hl. destruct (decide (j = i)) as [->|Hne].
      * apply Hmaps'. apply (Hmap f s Hl).
      * apply (Hmap' j f s); [lia|]. apply Hkeep; assumption.
Qed.

(** [resetSegMan] on a directory it can walk deallocates every segment
    there is (a script with its locals, and locals that have been freed
    along with their script are passed over), so that every script that was
    in the directory is out of the script map; it leaves the directory as
    constructed, with the one empty slot 0, sets the table segments to 0 and
    builds the class table anew.  The next segment allocated gets the
    identifier 1. *)
Theorem resetSegMan_starts_afresh (env : Env) (vocab996 : option (list Z))
    (getUint16SEAt : list Z → Z → option Z) (Class_new : Class)
    (sm : SegManager) (data : list Z) (fuel : nat) :
  tidy env sm →
  vocab996 = Some data →
  Z.of_nat (length data) < 262144 →
  (∀ i, 0 <= i < Z.of_nat (length data) / 4 → ∃ v, getUint16SEAt data (i * 4 + 2) = Some v) →
  (Z.to_nat (heap_size sm) + 3 <= fuel)%nat →
  (Z.to_nat (Z.of_nat (length data) / 4) < fuel)%nat →
  ∃ sm', resetSegMan env vocab996 getUint16SEAt Class_new fuel sm
         = Ok (mkTableSegments 0 0 0 0 0 0) sm'
    ∧ _heap sm' = [None]
    ∧ (∀ j f s, lookupZ (_heap sm) j = Some (Some (ScriptObj f s)) →
                _scriptSegMap sm' !! _nr s = None)
    ∧ classTableSize sm' = Z.of_nat (length data) / 4
    ∧ (∀ i, 0 <= i < Z.of_nat (length data) / 4 →
         ∃ v, getUint16SEAt data (i * 4 + 2) = Some v
              ∧ lookupZ (_classTable sm') i = Some (mkClass v NULL_REG))
    ∧ ∀ mobj, ∃ sm'', allocSegment (Some mobj) sm' = Ok 1 sm''.
Proof.
  intros Htidy Hvocab Hsize Hread Hfuel Hfuel2. unfold resetSegMan.
  destruct (free_segments_runs env (Z.to_nat (heap_size sm)) fuel 0 sm Htidy)
    as (sm1 & Hrun & Hem & _ & Hmap); [lia|unfold heap_size; lia|exact Hfuel|].
  unfold bind at 1. rewrite Hrun.
  unfold bind at 1. unfold set_heap at 1.
  unfold bind at 1. unfold get.
  unfold bind at 1. unfold set_heap at 1.
  unfold bind at 1. unfold set_classTable at 1.
  cbn [_heap _scriptSegMap _classTable memory warnings app].
  match goal with
  | |- ∃ _, bind (createClassTable _ _ _ _) _ ?st = _ ∧ _ => set (sm2 := st)
  end.
  destruct (createClassTable_runs vocab996 getUint16SEAt Class_new sm2 data fuel
              Hvocab Hsize Hfuel2 Hread) as (sm' & Hrun' & Hsame & Hct & Hentries).
  unfold bind at 1. rewrite Hrun'. unfold ret.
  exists sm'. split; [reflexivity|].
  destruct Hsame as (Hh & Hm & _ & _).
  split; [rewrite Hh; reflexivity|]. split.
  { intros j f s Hl. rewrite Hm. unfold sm2. cbn [_scriptSegMap].
    apply (Hmap j f s); [|exact Hl]. pose proof (lookupZ_range _ _ _ Hl). lia. }
  split; [exact Hct|]. split; [exact Hentries|].
  intros mobj.
  destruct (allocSegment_spec sm' mobj) as (id & sm'' & Hal & Hid & _);
    [unfold heap_size; rewrite Hh; simpl; lia|].
  assert (id = 1) by (unfold heap_size in Hid; rewrite Hh in Hid; simpl in Hid; lia).
  subst id. exists sm''. exact Hal.
Qed.

Lemma script_with_locals_tidy : tidy (sample_env 8 (fun _ => None)) script_with_locals.
Proof.
  split; [vm_compute; discriminate|]. split; [reflexivity|]. split.
  - intros i Hi. reflexivity.
  - intros seg f s Hl. pose proof (lookupZ_range _ _ _ Hl) as Hr. simpl in Hr.
    assert (seg = 0 ∨ seg = 1 ∨ seg = 2) as [->|[->| ->]] by lia;
      vm_compute in Hl; try discriminate.
    injection Hl as <- <-. right. right. exists SEG_TYPE_LOCALS, (cell_view 1 2).
    split; [reflexivity|simpl; lia].
Qed.

Lemma resetSegMan_starts_afresh_witness :
  ∃ sm', resetSegMan (sample_env 8 (fun _ => None)) (Some sample_vocab996) read_le16_at
           (mkClass (-1) NULL_REG) 6 script_with_locals
         = Ok (mkTableSegments 0 0 0 0 0 0) sm'
    ∧ _heap sm' = [None]
    ∧ (∀ j f s, lookupZ (_heap script_with_locals) j = Some (Some (ScriptObj f s)) →
                _scriptSegMap sm' !! _nr s = None)
    ∧ classTableSize sm' = Z.of_nat (length sample_vocab996) / 4
    ∧ (∀ i, 0 <= i < Z.of_nat (length sample_vocab996) / 4 →
         ∃ v, read_le16_at sample_vocab996 (i * 4 + 2) = Some v
              ∧ lookupZ (_classTable sm') i = Some (mkClass v NULL_REG))
    ∧ ∀ mobj, ∃ sm'', allocSegment (Some mobj) sm' = Ok 1 sm''.
Proof.
  apply (resetSegMan_starts_afresh (sample_env 8 (fun _ => None)) (Some sample_vocab996)
           read_le16_at (mkClass (-1) NULL_REG) script_with_locals sample_vocab996 6).
  - apply script_with_locals_tidy.
  - reflexivity.
  - simpl. lia.
  - intros i Hi. change (Z.of_nat (length sample_vocab996) / 4) with 2 in Hi.
    assert (i = 0 ∨ i = 1) as [->| ->] by lia; eexists; reflexivity.
  - vm_compute. lia.
  - vm_compute. lia.
Defined.

(** ** A directory with no identifier left *)

(** When every identifier from 1 to 65535 is taken, [allocSegment] stops at
    the assertion of [findFreeSegment]: a fatal error, and no segment is
    entered. *)
Theorem allocSegment_full_directory (sm : SegManager) (mem : option SegmentObj) :
  heap_size sm = 65536 →
  (∀ j, 1 <= j < 65536 → ∃ o, lookupZ (_heap sm) j = Some (Some o)) →
  allocSegment mem sm = Err (Fatal "assert(seg < 65536)").
Proof.
  intros Hsize Hfull. unfold allocSegment, findFreeSegment. unfold_sm.
  destruct (scan_free_spec (drop 1 (_heap sm)) 1) as (Hrange & _ & Hfree).
  rewrite length_drop in Hrange, Hfree. unfold heap_size in Hsize.
  set (seg := scan_free (drop 1 (_heap sm)) 1) in *.
  destruct (Z_lt_le_dec seg 65536) as [Hlt|Hge].
  - exfalso. destruct (Hfull seg) as [o Ho]; [lia|].
    rewrite lookupZ_drop1 in Ho by lia. rewrite Hfree in Ho by lia. discriminate.
  - replace (seg <? 65536) with false by (symmetry; apply Z.ltb_ge; exact Hge).
    reflexivity.
Qed.

Lemma allocSegment_full_directory_witness :
  allocSegment (Some (DataObj SEG_TYPE_DYNMEM (byte_view 0 4))) full_manager
  = Err (Fatal "assert(seg < 65536)").
Proof.
  apply (allocSegment_full_directory full_manager (Some (DataObj SEG_TYPE_DYNMEM (byte_view 0 4)))).
  - unfold heap_size, full_manager. cbn [_heap length]. rewrite length_replicate. lia.
  - intros j Hj. unfold full_manager. cbn [_heap]. unfold lookupZ.
    destruct (j <? 0) eqn:E; [lia|].
    replace (Z.to_nat j) with (S (Z.to_nat (j - 1))) by lia.
    eexists. cbn [lookup list_lookup]. apply lookup_replicate_2. lia.
Defined.

(** ** Characters in cells *)

(** A byte stored in cell storage with [setChar] is what [getChar] reads
    at the same index (the low eight bits of the value stored), whichever
    half of a cell the index selects; the other bytes of the view, the other
    half of the same cell among them, read as before, and no block of host
    memory changes size. *)
Theorem setChar_then_getChar (env : Env) (sm : SegManager) (r : SegmentRef) (i v : Z) :
  view_ok (memory sm) r = true → isRaw r = false → 0 <= i < maxSize r →
  ∃ sm1, setChar env r i v sm = Ok tt sm1
         ∧ frame sm sm1 ∧ same_shape (memory sm) (memory sm1)
         ∧ (∃ sm2, getChar env r i sm1 = Ok (to_byte v) sm2)
         ∧ (∀ j, j ≠ i → view_byte env (memory sm1) r j = view_byte env (memory sm) r j)
         ∧ (∀ j b, 0 <= j < maxSize r → j ≠ i → view_byte env (memory sm) r j = Some b →
                   ∃ sm2, getChar env r j sm1 = Ok b sm2).
Proof.
  intros Hok Hraw Hi. pose proof (view_ok_bound _ _ Hok) as Hmax.
  destruct (setChar_stored env sm r i v Hok Hraw Hi) as (sm1 & Hset & Hf & Hsh & Hnew & Hold).
  exists sm1. split; [exact Hset|]. split; [exact Hf|]. split; [exact Hsh|].
  split; [|split; [exact Hold|]].
  - destruct (getChar_view env sm1 r i (to_byte v) Hraw) as (sm2 & Hget & _);
      [lia|exact Hnew|eauto].
  - intros j b Hj Hne Hb.
    destruct (getChar_view env sm1 r j b Hraw) as (sm2 & Hget & _);
      [lia|rewrite Hold by exact Hne; exact Hb|eauto].
Qed.

Lemma setChar_then_getChar_witness :
  ∃ sm1, setChar (sample_env 8 (fun _ => None)) (cell_view 1 2 (make_reg 2 1)) 1 321
           sample_manager = Ok tt sm1
         ∧ frame sample_manager sm1 ∧ same_shape (memory sample_manager) (memory sm1)
         ∧ (∃ sm2, getChar (sample_env 8 (fun _ => None)) (cell_view 1 2 (make_reg 2 1)) 1 sm1
                   = Ok (to_byte 321) sm2)
         ∧ (∀ j, j ≠ 1 →
              view_byte (sample_env 8 (fun _ => None)) (memory sm1) (cell_view 1 2 (make_reg 2 1)) j
              = view_byte (sample_env 8 (fun _ => None)) (memory sample_manager)
                  (cell_view 1 2 (make_reg 2 1)) j)
         ∧ (∀ j b, 0 <= j < maxSize (cell_view 1 2 (make_reg 2 1)) → j ≠ 1 →
              view_byte (sample_env 8 (fun _ => None)) (memory sample_manager)
                (cell_view 1 2 (make_reg 2 1)) j = Some b →
              ∃ sm2, getChar (sample_env 8 (fun _ => None)) (cell_view 1 2 (make_reg 2 1)) j sm1
                     = Ok b sm2).
Proof.
  apply (setChar_then_getChar (sample_env 8 (fun _ => None)) sample_manager
           (cell_view 1 2 (make_reg 2 1)) 1 321).
  - reflexivity.
  - reflexivity.
  - simpl. lia.
Defined.
